(* ===== verification/_CoqProject ===== *)
-Q . S2P
Prelude.v
GoStrings.v
GoTime.v
Utf8.v
Types.v
Auth.v
Json.v
Path.v
Prog.v
Progress.v
PgText.v
Store.v
StoreLaws.v
Params.v
ParamsLaws.v
Backtest.v
BacktestLaws.v
Docker.v
Registry.v
Sync.v
SyncLaws.v
Builds.v
Strategies.v
GoFloat.v
Crypto.v
Email.v
Template.v
MailTemplates.v
Mail.v
SnapDb.v
SnapReturns.v
Holdings.v
Impact.v
SnapLaws.v
SnapDemo.v
Alert.v
AlertLaws.v
Checker.v
AlertApi.v
AlertApiLaws.v
AlertDemo.v
Mailgun.v
MailDemo.v
Rows.v
Sweep.v
SweepLaws.v
Dispatcher.v
DispatcherLaws.v
Settle.v
Scheduler.v
Web.v
Snapshot.v
Settings.v
Wiring.v
Boot.v
BootLaws.v
Process.v
ProcessLaws.v
Handler.v
Upgrade.v
Sse.v
SseLaws.v
Relay.v
Routes.v
Server.v
HandlerLaws.v
UpgradeLaws.v
ServerDemo.v
Router.v
App.v
AppLaws.v
Contract.v
AppDemo.v
