(* ===== verification/Prelude.v ===== *)
(** * pv-api: a verification development

    pv-api serves portfolios of trading strategies.  A user creates a portfolio
    from a strategy of the registry, the server queues a backtest of it, a worker
    runs the strategy's binary (or image), the backtest leaves a SQLite snapshot,
    and every later read of the portfolio is answered from that snapshot.  A
    scheduler queues the daily runs, alerts are mailed when a run finishes, the
    registry is reconciled with GitHub and portfolios follow patch releases of
    their strategies.  This library models the Go code under src/ in Rocq and
    proves what each part promises and what they promise together.

    ** How the code is read

    - A Go [error] is a [goerror]: its text and the sentinels [errors.Is] finds.
      Results are [result]; a pointer that may be nil is an [option]; a
      [map[string]any] is a [gmap]; [float64] is the IEEE
      double of the Standard Library's [SpecFloat]; instants are nanoseconds
      since 1970.
    - A Postgres table is a map from keys to rows.  Every statement is a function
      of the database that first consumes one entry of a script of faults, so a
      theorem about a statement covers the connection failing there; a
      transaction that does not commit leaves the tables as they were ([Store],
      [Registry], [Alert]).  SQL that leaves the row order open is read through
      [MapRange], any enumeration of a map.
    - A SQLite snapshot is a record of tables, a column that may be NULL an
      option; readers run in [rd], which also consumes faults ([SnapDb]).
    - Code with effects on several other parts is a tree of calls ([Prog]) read
      as the set of its traces under any environment, as a function of a state
      that answers the calls, or as small steps that others interleave with.
    - Handlers are functions of a connection: the response written so far and
      the server behind it ([Web]).  The last writer of a status wins, as in
      fiber, so double responses of the code are double responses of the model.
    - A Go string is any sequence of bytes; a TEXT column takes valid UTF-8
      without NUL only, and a statement that writes anything else fails
      ([PgText]).

    ** The parts

    - [Types], [GoStrings], [GoTime], [Utf8], [Json], [Path], [GoFloat],
      [Crypto]: what the program uses of Go's standard library, and the shared
      records (src/portfolio/types.go, runs.go, src/strategy/types.go).
    - [Progress] (src/progress/hub.go): broadcasters, their ring buffer of the
      last messages, subscriber channels, completion, the line writer.
      [Sse], [SseLaws] (src/portfolio/progress_handler.go): the stream of
      server-sent events a subscriber reads.  [Relay]: from a strategy's standard
      output to the client.
    - [PgText]: what the server takes into TEXT and JSONB.  [Store], [StoreLaws]
      (src/portfolio/db.go, runs.go, store.go): portfolios and runs under the
      constraints of src/sql/migrations.  [Rows]: the text of the statements of
      all four tables, their parameters, their simple WHERE clauses, and the
      destinations of the scan functions (also src/strategy/db.go,
      src/alert/db.go).
    - [Params], [ParamsLaws] (src/portfolio/slug.go, validate.go, parts of
      upgrade.go): slugs, validation of create requests, parameter diffs.
    - [Backtest], [BacktestLaws] (src/backtest/args.go, config.go, run.go,
      host.go): one backtest, from loading the row to the terminal event.
      [Docker] (src/backtest/docker.go): the container runner and its bounded
      tail of standard error.  [Dispatcher], [DispatcherLaws] (dispatcher.go):
      the queue and its workers, over the real store.  [Settle]: a run from its
      submission to its end.  [Scheduler] (src/scheduler): nightly claims.
      [Sweep], [SweepLaws] (sweep.go, orphan_sweep.go): what may be removed from
      the snapshot directory.
    - [Registry], [Sync], [SyncLaws], [Strategies] (src/strategy): the table of
      strategies, reconciliation and installs, endpoints, describe, statistics.
      [Builds] (ephemeral.go, docker_ephemeral.go, docker_install.go,
      dockerfile.go): throw-away builds of unofficial strategies, the image
      installer, and the artifact a backtest runs.
    - [SnapDb], [SnapReturns], [Holdings], [Impact], [SnapLaws], [SnapDemo]
      (src/snapshot): every reader of a snapshot; [Snapshot] (opener.go) is the
      adapter the handlers see.
    - [Alert], [AlertLaws] (src/alert/db.go, evaluate.go, unsubscribe_token.go),
      [Checker], [Email] (checker.go, email/), [AlertApi], [AlertApiLaws],
      [AlertDemo] (handler.go).  [Template]: the part of text/template the mails
      use, parsed, checked against the shape of its data and executed;
      [MailTemplates] the two templates (email/templates), [Mail] their execution
      on a payload, [Mailgun] the request that carries a mail and every
      recipient's own mail (email/email.go), [MailDemo] examples.
    - [Auth] (src/api/auth.go, errors.go, middleware.go): the bearer token, the
      middleware that sets the subject, the error classifier.
    - [Web], [Handler], [HandlerLaws] (src/portfolio/handler.go,
      holdings_impact.go): the portfolio endpoints against the interfaces of
      store, services, builder and snapshots.  [Upgrade], [UpgradeLaws]
      (upgrade.go, upgrade_core.go, auto_upgrade.go).  [Routes], [Server]
      (src/api/portfolios.go, src/cmd/server.go): the portfolio endpoints by
      route and the server state that implements the interfaces; [ServerDemo] a
      concrete one.
    - [Router] (src/api/server.go, portfolios.go, strategies.go, alerts.go): the
      table of all routes in the order of registration, who takes a request.
      [App], [AppLaws], [AppDemo] (server.go, middleware.go): the middleware
      stack from the request id to the handlers, in front of [Router], [Routes],
      [Strategies] and [AlertApi]; what a response and the log say.
    - [Settings] (src/cmd/config.go, viper.go, root.go, log.go, version.go):
      flags, keys, defaults, decoding, data directories, logging.  [Wiring]
      (src/cmd/server.go, src/api/server.go): limits and options made of them.
    - [Boot], [BootLaws] (src/cmd/server.go, src/sql): start-up and shutdown of
      the serve command as a program over the calls it makes.  [Process],
      [ProcessLaws]: the running process - workers, scheduler ticks, requests,
      a signal, a crash and the restart - as steps over [Store] and
      [Dispatcher].
    - [Contract] (src/openapi/openapi.gen.go): the enumerations of the API's
      contract.

    The interfaces are type classes: [Web.Store], [Web.Services], [Web.Builder]
    and [Web.Snapshots] are what the handlers call, [Server] and [Snapshot]
    implement them, and [Routes.Tenancy] is the law of the store that tenant
    isolation is proved from and [Server] discharges.

    ** What is proved

    - Tenancy and exclusion: through the whole application a request without a
      verified token reaches only the public endpoints, and one with a token
      reads and writes only its subject's portfolios and alerts
      ([AppLaws.requests_isolated]); no interleaving of workers, submissions and
      other writers has two unfinished backtests of a portfolio, in the queue or
      at the workers ([DispatcherLaws.no_concurrent_backtests]); the process
      keeps the schema and the dispatcher's invariant through every step, crash
      and restart ([ProcessLaws.process_lives]).
    - Atomicity and recovery: what each failure of a creation leaves behind
      ([HandlerLaws.create_all_or_nothing]: everything or nothing, but for a
      rollback that fails itself and a server without a dispatcher), status
      transitions
      change both tables or neither, every sequence of writes keeps the schema,
      restart clears what was in flight, the sweeps remove only orphans, and the
      serve command starts nothing before what it needs and shuts down the
      scheduler, then the dispatcher, then the HTTP server
      ([BootLaws.boot_protocol]).
    - Functional behaviour: outcomes of upgrades, of reads of a missing snapshot
      and of patches; the dispatch, retention and claim rules; the protocol of a
      backtest; holdings as replayed transactions; drawdowns as the deep cycles
      of the curve; bounds of the holdings-impact report; validation, diffs,
      slugs and presets.
    - Delivery: the ring holds the last messages, a subscriber's stream has no
      gap, the hub neither panics nor blocks, the event stream decodes to the
      events sent, what a strategy prints reaches the subscribed client
      ([Relay.printed_progress_reaches_client]), a due alert goes out once and to
      every recipient with its own mail, the request to Mailgun carries it
      unchanged, tokens verify exactly when issued.
    - Storage: the INSERT and UPDATE texts do to rows what the typed stores do to
      records, their WHERE clauses select the rows the stores change, and the
      column lists with the scan functions read back what is stored
      ([Rows.statements_refine], [Rows.rows_read_back]).
    - Boundaries: a handler behind the authentication runs only for a verified
      subject; every route of the table is reached by its own requests and no
      earlier one takes them; a flag decides the field it is meant for, apart
      from the three that decide nothing; what the readers and the store return
      stays within the contract's enumerations; throw-away builds remove what
      they made; the container runner succeeds on exit 0 only and kills what
      outlives its time.
    - Progress: a submitted backtest ends with portfolio and run agreeing and
      frees the portfolio, unless the text of its own outcome is one the server
      refuses, when it stays in flight until a restart
      ([Settle.submitted_run_settles]); the scheduler drains what is due; after a
      reconciliation tick the next one has only the strategies left whose rows
      hold the other kind of artifact ([SyncLaws.tick_settles]); the search for a
      missed fire ends.

    Loops whose end the code does not bound carry fuel.  The scheduler's drain
    loop needs one step more than there are due portfolios, since each batch
    leaves fewer of them; its search for the last fire needs one step per fire of
    ten days, which the smallest gap between fires bounds.  [Scheduler] proves
    that this much fuel gives the result.  The template parser needs one step per
    action and per token, and [Mail] runs it on both templates.  Everything else
    recurs on lists, strings or numbers.

    ** Hypotheses

    Code outside src/ is a parameter: JSON decoding of bodies, the sonic
    encoder's failures, UUID text, semver parsing, the trading calendar of
    pvbt/tradecron, Unicode tables beyond ASCII, [math.Pow], Mailgun's answers,
    git, go and docker, JWT verification, viper's resolution of a key
    and its decoding into a field ([Settings.Viper], [Settings.Decoder]), fiber's
    matching of a path against a route ([Router.Matcher]).  Where a theorem needs
    something of one, its hypothesis states the documented behaviour (a UUID's
    text parses back, holds no colon and is not empty; a flag given on the
    command line comes first; a literal segment matches itself and a parameter
    any one segment; a statement on a cancelled context fails) and a witness
    instantiates it.

    ** Not modelled

    What only passes values to third-party code: the generated server shims and
    request parameter structures, which the server does not use; cobra's command
    tree; the fields of log entries and the value of the timing header; the
    headers of the CORS middleware; the static API documents; how fiber parses a
    request and chooses between 404 and 405; the interface type of the Docker
    client.  pgx and golang-migrate are calls of [Boot], their pool and their
    bookkeeping are not modelled.  Of SQL, [Rows] reads column lists, VALUES,
    SET and the WHERE clauses that compare one row's columns; ordering, the
    correlated queries of [PruneRuns] and [ClaimDue] and the snapshots' queries
    are read into [Store], [Registry], [Alert] and [SnapDb] by hand.  A jsonb
    column gives back the text it was given, without the server's
    normalisation, except a strategy's describe; a DATE column gives back the
    midnight the code writes.  A query with a parameter the server does not take
    as text finds nothing, where the server answers with an error.  The
    transaction type of a snapshot's row is free text, so [Contract] says nothing
    of it.  src/api/apitesting is a test helper.

    Goroutine scheduling is the interleaving of steps; races inside a
    mutex-protected operation are not modelled.  A database call is one step: the
    signal of [Process] comes before or after it, so a commit that takes effect
    although its caller reads an error is not expressed.  A drain of [Scheduler]
    leaves the server to others only while it waits on a full queue (single
    submissions are steps of [Process]), and [Sync] runs the installs of a tick
    one after another, in any order.  [Process] and [Sync] reach the checker's
    mails, the hub and the image installer by calls whose answers are arbitrary;
    [Mailgun], [Relay] and [Builds] say what those calls do.  Of text/template,
    what the two templates do not use (pipelines, functions, variables, trim
    markers) is left out. *)

From stdpp Require Export base gmap strings list fin_maps sorting relations.
From Stdlib Require Export ZArith Lia.

#[global] Open Scope string_scope.
#[global] Open Scope Z_scope.
#[global] Open Scope list_scope.

(** ** Go errors

    A Go [error] value is modelled by what the program can observe of it: the
    set of package-level sentinels [errors.Is] finds along its wrapping chain
    and the text [Error()] returns. *)

(** The package-level sentinel errors of the repository, plus the two
    [context] sentinels of the standard library the code tests for. *)
Inductive sentinel :=
  | portfolio_ErrNotFound | portfolio_ErrDuplicateSlug | portfolio_ErrQueueFull
  | portfolio_ErrRunInFlight | portfolio_ErrNoSubject
  | ErrStrategyNotReady | ErrStrategyVersionMismatch | ErrUnknownParameter
  | ErrMissingParameter | ErrInvalidStrategyDescribe | ErrInvalidDate
  | ErrEndBeforeStart | ErrImmutableField | ErrInvalidRunRetention
  | errStoredDescribeInvalid | errRegistryDescribeInvalid
  | errNotFoundSentinel | errFromDate | errToDate | errStrategyMalformed
  | portfolio_ErrSnapshotNotFound
  | backtest_ErrQueueFull | backtest_ErrAlreadyRunning | backtest_ErrTimedOut
  | backtest_ErrRunnerFailed | backtest_ErrStrategyNotInstalled
  | backtest_ErrSnapshotsDirRequired | backtest_ErrInvalidConcurrency
  | backtest_ErrUnsupportedRunnerMode | backtest_ErrArtifactKindMismatch
  | backtest_ErrNonCanonicalSnapshotPath
  | scheduler_ErrInvalidTickInterval | scheduler_ErrInvalidBatchSize
  | snapshot_ErrNotFound | snapshot_ErrZeroV0 | snapshot_ErrResidualCheck
  | alert_ErrNotFound | alert_ErrInvalidUnsubscribeToken | alert_ErrEmailNotConfigured
  | strategy_ErrNotFound | strategy_ErrRunInterval | strategy_ErrNoTagsFound | strategy_ErrInstallMissingFields
  | strategy_ErrNoInstalledArtifact | strategy_ErrInvalidRefreshTime
  | strategy_ErrInvalidCloneURL | strategy_ErrDockerClientNil | strategy_ErrDockerBuildFailed
  | strategy_ErrDescribeNonZeroExit
  | api_ErrInvalidToken | api_ErrAuthConfigIncomplete | api_ErrNotFound | api_ErrConflict
  | api_ErrInvalidParams | api_ErrNotImplemented
  | migrate_ErrNoChange
  | context_DeadlineExceeded | context_Canceled
  | fs_ErrNotExist | sql_ErrNoRows.

#[export] Instance sentinel_eq_dec : EqDecision sentinel.
Proof. solve_decision. Defined.

Record goerror := GoErr { err_chain : list sentinel; err_text : string }.

#[export] Instance goerror_eq_dec : EqDecision goerror.
Proof. solve_decision. Defined.

(** [errors.Is(err, s)]. *)
Definition errors_is (e : goerror) (s : sentinel) : bool :=
  bool_decide (s ∈ err_chain e).

(** [errors.New(txt)] bound to the package variable [s]. *)
Definition sentinel_err (s : sentinel) (txt : string) : goerror := GoErr [s] txt.

(** An error made outside the repository, of which only the text is known. *)
Definition opaque_err (txt : string) : goerror := GoErr [] txt.

(** [fmt.Errorf(pre + "%w", err)]. *)
Definition wrap (pre : string) (e : goerror) : goerror :=
  GoErr (err_chain e) (pre +:+ err_text e).

(** [fmt.Errorf("%w" + post, err)]. *)
Definition wrap_post (e : goerror) (post : string) : goerror :=
  GoErr (err_chain e) (err_text e +:+ post).

(** [fmt.Errorf("%w: %w", a, b)]. *)
Definition wrap2 (a b : goerror) : goerror :=
  GoErr (err_chain a ++ err_chain b) (err_text a +:+ ": " +:+ err_text b).

Lemma errors_is_wrap pre e s : errors_is (wrap pre e) s = errors_is e s.
Proof. done. Qed.

Lemma errors_is_wrap_post e post s : errors_is (wrap_post e post) s = errors_is e s.
Proof. done. Qed.

Lemma errors_is_wrap2 a b s :
  errors_is (wrap2 a b) s = errors_is a s || errors_is b s.
Proof.
  unfold errors_is, wrap2; cbn. rewrite <- bool_decide_or.
  apply bool_decide_ext. by rewrite elem_of_app.
Qed.

Lemma errors_is_opaque t s : errors_is (opaque_err t) s = false.
Proof. done. Qed.

(** ** Identifiers: a UUID is its 128-bit value; the all-zero one is [uuid.Nil]. *)
Definition uuid := N.
Definition uuid_Nil : uuid := 0%N.

(** ** Results of fallible code: a value, or an error. *)
Inductive result (A : Type) : Type :=
  | Ok (a : A)
  | Err (e : goerror).
Arguments Ok {A} a.
Arguments Err {A} e.

#[export] Instance result_eq_dec `{EqDecision A} : EqDecision (result A).
Proof. solve_decision. Defined.

#[export] Instance result_ret : MRet result := λ A a, Ok a.
#[export] Instance result_bind : MBind result := λ A B f m,
  match m with Ok a => f a | Err e => Err e end.
#[export] Instance result_fmap : FMap result := λ A B f m,
  match m with Ok a => Ok (f a) | Err e => Err e end.

Definition is_ok {A} (r : result A) : bool :=
  match r with Ok _ => true | Err _ => false end.

Lemma result_bind_ok {A B} (f : A → result B) (m : result A) b :
  m ≫= f = Ok b ↔ ∃ a, m = Ok a ∧ f a = Ok b.
Proof. destruct m; cbn; naive_solver. Qed.

(** Run [f] over a list left to right, stopping at the first error: the shape of
    every [for rows.Next() { ... return nil, err ... }] loop. *)
Fixpoint mapR {A B} (f : A → result B) (l : list A) : result (list B) :=
  match l with
  | [] => Ok []
  | a :: l => b ← f a; bs ← mapR f l; Ok (b :: bs)
  end.

Lemma mapR_ok {A B} (f : A → result B) l bs :
  mapR f l = Ok bs ↔ Forall2 (λ a b, f a = Ok b) l bs.
Proof.
  split.
  - revert bs; induction l as [|a l IH]; intros bs; cbn.
    + intros [= <-]. constructor.
    + destruct (f a) eqn:Ha; cbn; [|done].
      destruct (mapR f l) eqn:Hl; cbn; [|done]. intros [= <-]. constructor; auto.
  - induction 1 as [|a b l bs Ha _ IH]; cbn; [done|]. by rewrite Ha; cbn; rewrite IH.
Qed.

(** ** Stateful code with early returns

    [proc W R A] is a piece of Go code that runs on a state [W], may [return]
    a value of type [R] from the enclosing function, and otherwise goes on with
    an [A].  [x ← m; k] is statement sequencing, [early r] is [return r]. *)
Definition proc (W R A : Type) : Type := W → W * (R + A).

#[export] Instance proc_ret {W R} : MRet (proc W R) := λ A a w, (w, inr a).
#[export] Instance proc_bind {W R} : MBind (proc W R) := λ A B f m w,
  match m w with
  | (w', inl r) => (w', inl r)
  | (w', inr a) => f a w'
  end.
#[export] Instance proc_fmap {W R} : FMap (proc W R) := λ A B f m w,
  match m w with
  | (w', inl r) => (w', inl r)
  | (w', inr a) => (w', inr (f a))
  end.

Definition early {W R A} (r : R) : proc W R A := λ w, (w, inl r).

(** Call a state-passing function; its result is the value of the statement. *)
Definition call {W R A} (f : W → W * A) : proc W R A :=
  λ w, let '(w', a) := f w in (w', inr a).

(** Run a function body to its value; falling off the end returns [R] too. *)
Definition run {W R} (m : proc W R R) (w : W) : W * R :=
  match m w with
  | (w', inl r) => (w', r)
  | (w', inr r) => (w', r)
  end.

Lemma run_bind_call {W R A} (f : W → W * A) (k : A → proc W R R) w :
  run (call f ≫= k) w = run (k (f w).2) (f w).1.
Proof. unfold run, call, mbind, proc_bind. by destruct (f w). Qed.

Lemma run_bind_early {W R A} (r : R) (k : A → proc W R R) w :
  run (early r ≫= k) w = (w, r).
Proof. done. Qed.

Lemma run_early {W R} (r : R) (w : W) : run (early r) w = (w, r).
Proof. done. Qed.

Lemma run_ret {W R} (r : R) (w : W) : run (mret r) w = (w, r).
Proof. done. Qed.

(** ** Map iteration

    Go leaves the iteration order of a map unspecified.  Code that ranges over
    a map takes the order from this class; its theorems hold for every order. *)
Class MapRange := {
  range_map {K A} `{Countable K} : gmap K A → list (K * A);
  range_map_perm {K A} `{Countable K} (m : gmap K A) : range_map m ≡ₚ map_to_list m;
}.

(** One possible order; used to evaluate definitions on concrete inputs. *)
Definition canonical_range : MapRange := {|
  range_map K A _ _ m := map_to_list m;
  range_map_perm K A _ _ m := reflexivity _;
|}.

Lemma elem_of_range_map `{MapRange, Countable K} {A} (m : gmap K A) k a :
  (k, a) ∈ range_map m ↔ m !! k = Some a.
Proof. rewrite range_map_perm. apply elem_of_map_to_list. Qed.

Lemma elem_of_range_keys `{MapRange, Countable K} {A} (m : gmap K A) k :
  k ∈ (range_map m).*1 ↔ is_Some (m !! k).
Proof.
  rewrite list_elem_of_fmap. split.
  - intros ([k' a] & -> & Hin). apply elem_of_range_map in Hin. eauto.
  - intros [a Ha]. exists (k, a). by rewrite elem_of_range_map.
Qed.

Lemma NoDup_range_keys `{MapRange, Countable K} {A} (m : gmap K A) :
  NoDup (range_map m).*1.
Proof. rewrite range_map_perm. apply NoDup_fst_map_to_list. Qed.

(** ** Lists *)

(** The last [n] elements of a list. *)
Definition lastn {A} (n : nat) (l : list A) : list A := drop (length l - n) l.

Lemma length_lastn {A} n (l : list A) : length (lastn n l) = (n `min` length l)%nat.
Proof. unfold lastn. rewrite length_drop. lia. Qed.

Lemma lastn_all {A} n (l : list A) : (length l ≤ n)%nat → lastn n l = l.
Proof. intros. unfold lastn. by replace (length l - n)%nat with 0%nat by lia. Qed.

Lemma lastn_app_snoc {A} n (l : list A) x :
  (0 < n)%nat → lastn n (lastn n l ++ [x]) = lastn n (l ++ [x]).
Proof.
  intros Hn. unfold lastn. rewrite !length_app, !length_drop; cbn.
  destruct (decide (length l < n)%nat).
  - replace (length l - n)%nat with 0%nat by lia. by rewrite drop_0, Nat.sub_0_r.
  - rewrite !drop_app_le by (rewrite ?length_drop; lia).
    rewrite drop_drop. do 2 f_equal. lia.
Qed.

Lemma lastn_snoc_last {A} n (l : list A) x :
  (0 < n)%nat → last (lastn n (l ++ [x])) = Some x.
Proof.
  intros Hn. unfold lastn. rewrite length_app; cbn.
  rewrite drop_app_le by lia. by rewrite last_snoc.
Qed.

(** Two predicates that agree on the members of a list filter it alike. *)
Lemma list_filter_ext_in {A} (P Q : A → Prop) `{∀ x, Decision (P x), ∀ x, Decision (Q x)} (l : list A) :
  (∀ x, x ∈ l → P x ↔ Q x) → filter P l = filter Q l.
Proof.
  induction l as [|a l IH]; intros HPQ; [done|]. rewrite !filter_cons.
  rewrite IH by (intros; apply HPQ; by right).
  pose proof (HPQ a ltac:(by left)). repeat case_decide; naive_solver.
Qed.

Lemma filter_all {A} (P : A → Prop) `{∀ x, Decision (P x)} (l : list A) :
  (∀ x, x ∈ l → P x) → filter P l = l.
Proof.
  induction l as [|a l IH]; intros HP; [done|].
  rewrite filter_cons_True by (apply HP; by left). f_equal. apply IH. intros; apply HP. by right.
Qed.

Lemma filter_none {A} (P : A → Prop) `{∀ x, Decision (P x)} (l : list A) :
  (∀ x, x ∈ l → ¬ P x) → filter P l = [].
Proof.
  induction l as [|a l IH]; intros HP; [done|].
  rewrite filter_cons_False by (apply HP; by left). apply IH. intros; apply HP. by right.
Qed.

Lemma NoDup_fmap_filter {A B} (f : A → B) (P : A → Prop) `{∀ x, Decision (P x)} (l : list A) :
  NoDup (f <$> l) → NoDup (f <$> filter P l).
Proof.
  induction l as [|x l IH]; [done|]. rewrite fmap_cons, NoDup_cons. intros [Hk Hl].
  rewrite filter_cons. case_decide; [|by apply IH]. rewrite fmap_cons, NoDup_cons. split; [|by apply IH].
  intros (y & Hy & [_ Hin]%list_elem_of_filter)%list_elem_of_fmap. apply Hk.
  apply list_elem_of_fmap. eauto.
Qed.

(** The entries of a filtered map. *)
Lemma map_to_list_filter `{Countable K} {A} (P : K * A → Prop) `{∀ x, Decision (P x)} (m : gmap K A) :
  map_to_list (filter P m) ≡ₚ filter P (map_to_list m).
Proof.
  rewrite map_filter_alt, map_to_list_to_map; [done|]. apply NoDup_fmap_filter, NoDup_fst_map_to_list.
Qed.

Lemma elem_of_take_in {A} n (l : list A) x : x ∈ take n l → x ∈ l.
Proof. intros Hx. rewrite <-(take_drop n l), elem_of_app. by left. Qed.

(** ** Record update: [r <| field := v |>]

    A record type declares its eta-expansion as an [Eta] instance; the setter of
    a field is computed from it by abstracting the projection. *)
Class Eta (R : Type) := eta : R → R.
Class Setter {R T : Type} (proj : R → T) := set_field : (T → T) → R → R.
Arguments set_field {R T} proj {Setter} f r /.

Ltac derive_setter R T proj :=
  let e := constr:(_ : Eta R) in
  let e := eval hnf in e in
  let F := eval pattern proj in e in
  lazymatch F with
  | ?G _ =>
    let s := eval cbv beta in (fun (f : T -> T) (r : R) => G (fun x : R => f (proj x)) r) in
    exact s
  end.
#[export] Hint Extern 1 (@Setter ?R ?T ?proj) => derive_setter R T proj : typeclass_instances.

Notation "r <| f := v |>" := (set_field f (λ _, v) r)
  (at level 12, f at next level, left associativity, format "r <| f := v |>").

(** ** Automation *)

Create HintDb pvapi.
Create Rewrite HintDb str.
#[export] Hint Resolve NoDup_range_keys : pvapi.

(** Split on every [match] and [if] of the goal, closing trivial cases. *)
Ltac split_cases :=
  repeat (case_match; simplify_eq/=; try done).

(** Split on the [match]es of a hypothesis. *)
Ltac split_cases_in H :=
  repeat (case_match; simplify_eq/=; try done).
