(* ===== verification/GoStrings.v ===== *)
(** Byte-string functions of the Go standard library that the program calls:
    [strings.TrimSpace], [HasPrefix], [HasSuffix], [TrimPrefix], [TrimSuffix],
    [Split], [Join], [bytes.IndexByte], [strconv.Itoa], decimal padding, and
    the byte order [sort.Strings] uses.  A Go string is its sequence of bytes,
    here a Rocq [string]. *)
From S2P Require Import Prelude.
From Stdlib Require Import Ascii.

(** The byte with code [n]. *)
Definition byte (n : nat) : ascii := ascii_of_nat n.
Definition code (a : ascii) : nat := nat_of_ascii a.

Fixpoint bytes_of (s : string) : list ascii :=
  match s with EmptyString => [] | String a s => a :: bytes_of s end.
Fixpoint of_bytes (l : list ascii) : string :=
  match l with [] => EmptyString | a :: l => String a (of_bytes l) end.

Lemma append_cons a s t : String a s +:+ t = String a (s +:+ t).
Proof. done. Qed.
Lemma append_nil t : "" +:+ t = t.
Proof. done. Qed.
#[export] Hint Rewrite append_cons append_nil : str.
Ltac str_simpl := autorewrite with str in *; cbn in *.

Lemma of_bytes_of s : of_bytes (bytes_of s) = s.
Proof. induction s; cbn; congruence. Qed.
Lemma bytes_of_of l : bytes_of (of_bytes l) = l.
Proof. induction l; cbn; congruence. Qed.
Lemma bytes_of_app s t : bytes_of (s +:+ t) = bytes_of s ++ bytes_of t.
Proof. induction s; str_simpl; congruence. Qed.
Lemma bytes_of_inj s t : bytes_of s = bytes_of t → s = t.
Proof. intros H. rewrite <-(of_bytes_of s), <-(of_bytes_of t). by f_equal. Qed.
Lemma string_app_assoc (s t u : string) : (s +:+ t) +:+ u = s +:+ (t +:+ u).
Proof. induction s as [|a s IH]; str_simpl; congruence. Qed.
Lemma string_app_nil_r (s : string) : s +:+ "" = s.
Proof. induction s as [|a s IH]; str_simpl; congruence. Qed.
Lemma string_length_app (s t : string) :
  String.length (s +:+ t) = (String.length s + String.length t)%nat.
Proof. induction s as [|a s IH]; str_simpl; congruence. Qed.

(** [len(s)]. *)
Definition len (s : string) : Z := Z.of_nat (String.length s).

(** [s[:n]] and [s[n:]] for [n] within bounds. *)
Definition slice_to (s : string) (n : nat) : string := of_bytes (take n (bytes_of s)).
Definition slice_from (s : string) (n : nat) : string := of_bytes (drop n (bytes_of s)).

(** [bytes.IndexByte(s, c)], [None] for -1. *)
Fixpoint index_byte (s : string) (c : ascii) : option nat :=
  match s with
  | EmptyString => None
  | String a s => if decide (a = c) then Some 0%nat else S <$> index_byte s c
  end.

Lemma index_byte_split s c n :
  index_byte s c = Some n →
  s = slice_to s n +:+ String c (slice_from s (S n)) ∧ (n < String.length s)%nat.
Proof.
  revert n; induction s as [|a s IH]; intros n; cbn; [done|].
  case_decide as Hac.
  - intros [= <-]. subst. cbn. unfold slice_from; cbn. rewrite drop_0, of_bytes_of.
    split; [done|lia].
  - destruct (index_byte s c) as [m|]; cbn; [|done]. intros [= <-].
    destruct (IH m eq_refl) as [Hs Hm]. split; [|lia].
    unfold slice_to, slice_from in *; cbn [take drop bytes_of of_bytes] in *.
    rewrite append_cons. by f_equal.
Qed.

Lemma index_byte_app_some s t c n :
  index_byte s c = Some n → index_byte (s +:+ t) c = Some n.
Proof.
  revert n; induction s as [|a s IH]; intros n; str_simpl; [done|].
  case_decide; [done|]. destruct (index_byte s c) eqn:E; cbn; [|done].
  intros [= <-]. by rewrite (IH _ eq_refl).
Qed.

Lemma slice_to_app s t n : (n ≤ String.length s)%nat → slice_to (s +:+ t) n = slice_to s n.
Proof.
  unfold slice_to. rewrite bytes_of_app. intros Hn. rewrite take_app_le; [done|].
  rewrite <-(of_bytes_of s) in Hn. clear -Hn. revert Hn.
  generalize (bytes_of s). intros l. enough (String.length (of_bytes l) = length l) by lia.
  induction l; cbn; congruence.
Qed.

Lemma length_bytes_of s : length (bytes_of s) = String.length s.
Proof. induction s; cbn; congruence. Qed.

Lemma slice_from_app s t n :
  (n ≤ String.length s)%nat → slice_from (s +:+ t) n = slice_from s n +:+ t.
Proof.
  unfold slice_from. rewrite bytes_of_app. intros Hn.
  rewrite drop_app_le by (rewrite length_bytes_of; lia).
  apply bytes_of_inj. by rewrite bytes_of_app, !bytes_of_of.
Qed.

Lemma length_slice_from s n : String.length (slice_from s n) = (String.length s - n)%nat.
Proof.
  rewrite <-!length_bytes_of. unfold slice_from. by rewrite bytes_of_of, length_drop.
Qed.

(** [strings.HasPrefix], [strings.TrimPrefix]. *)
Fixpoint strip_prefix (pre s : string) : option string :=
  match pre, s with
  | EmptyString, _ => Some s
  | String a pre, String b s => if decide (a = b) then strip_prefix pre s else None
  | _, _ => None
  end.
Definition has_prefix (s pre : string) : bool :=
  match strip_prefix pre s with Some _ => true | None => false end.
Definition trim_prefix (s pre : string) : string := default s (strip_prefix pre s).

Definition rev_string (s : string) : string := of_bytes (rev (bytes_of s)).

(** [strings.HasSuffix], [strings.TrimSuffix]. *)
Definition strip_suffix (suf s : string) : option string :=
  rev_string <$> strip_prefix (rev_string suf) (rev_string s).
Definition has_suffix (s suf : string) : bool :=
  match strip_suffix suf s with Some _ => true | None => false end.
Definition trim_suffix (s suf : string) : string := default s (strip_suffix suf s).

Lemma strip_prefix_app pre r : strip_prefix pre (pre +:+ r) = Some r.
Proof. induction pre as [|a pre IH]; [done|]. str_simpl. cbn. by rewrite decide_True. Qed.
Lemma strip_prefix_Some pre s r : strip_prefix pre s = Some r → s = pre +:+ r.
Proof.
  revert s. induction pre as [|a pre IH]; intros s Hs; [cbn in Hs; by destruct s; injection Hs as <-|].
  destruct s as [|b s]; [done|]. cbn in Hs. case_decide as Ha; [|done]. subst. apply IH in Hs as ->. by str_simpl.
Qed.

Lemma rev_string_app s t : rev_string (s +:+ t) = rev_string t +:+ rev_string s.
Proof.
  unfold rev_string. apply bytes_of_inj. by rewrite !bytes_of_app, !bytes_of_of, rev_app_distr.
Qed.
Lemma rev_string_involutive s : rev_string (rev_string s) = s.
Proof. unfold rev_string. apply bytes_of_inj. by rewrite !bytes_of_of, rev_involutive. Qed.

Lemma strip_suffix_app suf s : strip_suffix suf (s +:+ suf) = Some s.
Proof. unfold strip_suffix. rewrite rev_string_app, strip_prefix_app. cbn. by rewrite rev_string_involutive. Qed.
Lemma strip_suffix_Some suf s r : strip_suffix suf s = Some r → s = r +:+ suf.
Proof.
  unfold strip_suffix. destruct (strip_prefix _ _) as [q|] eqn:Hq; [|done]. intros [= <-].
  apply strip_prefix_Some in Hq. apply (f_equal rev_string) in Hq.
  by rewrite rev_string_app, !rev_string_involutive in Hq.
Qed.

(** [strings.Contains]. *)
Fixpoint contains (s sub : string) : bool :=
  has_prefix s sub || match s with EmptyString => false | String _ s => contains s sub end.

(** The UTF-8 encodings of the runes [unicode.IsSpace] accepts. *)
Definition space_encodings : list string :=
  let enc := fix enc (l : list nat) := match l with [] => EmptyString | n :: l => String (byte n) (enc l) end in
  map enc ([[9]; [10]; [11]; [12]; [13]; [32]; [194; 133]; [194; 160]; [225; 154; 128];
    [226; 128; 128]; [226; 128; 129]; [226; 128; 130]; [226; 128; 131]; [226; 128; 132];
    [226; 128; 133]; [226; 128; 134]; [226; 128; 135]; [226; 128; 136]; [226; 128; 137];
    [226; 128; 138]; [226; 128; 168]; [226; 128; 169]; [226; 128; 175]; [226; 129; 159];
    [227; 128; 128]]%nat).

Fixpoint strip_first (encs : list string) (s : string) : option string :=
  match encs with
  | [] => None
  | e :: encs => match strip_prefix e s with Some r => Some r | None => strip_first encs s end
  end.

(** Strip encodings from the front while one matches; [fuel] is a bound on the
    number of runes, the length of the string. *)
Fixpoint trim_front (fuel : nat) (encs : list string) (s : string) : string :=
  match fuel with
  | O => s
  | S fuel => match strip_first encs s with Some r => trim_front fuel encs r | None => s end
  end.

(** [strings.TrimSpace]. *)
Definition trim_space (s : string) : string :=
  let l := trim_front (String.length s) space_encodings s in
  rev_string (trim_front (String.length l) (map rev_string space_encodings) (rev_string l)).

(** [strings.Fields]: the maximal runs of bytes outside white space; [word] is
    the current run, reversed.  The fuel is a bound on the runes left. *)
Definition flush (word : list ascii) (rest : list string) : list string :=
  match word with [] => rest | _ => of_bytes (rev word) :: rest end.
Fixpoint fields_from (fuel : nat) (word : list ascii) (s : string) : list string :=
  match fuel with
  | O => flush word []
  | S fuel =>
    match strip_first space_encodings s, s with
    | Some r, _ => flush word (fields_from fuel [] r)
    | None, String a s => fields_from fuel (a :: word) s
    | None, EmptyString => flush word []
    end
  end.
Definition fields (s : string) : list string := fields_from (S (String.length s)) [] s.

(** [strings.Split(s, sep)] for a one-byte separator. *)
Fixpoint split_byte (s : string) (c : ascii) : list string :=
  match s with
  | EmptyString => [EmptyString]
  | String a s =>
    if decide (a = c) then EmptyString :: split_byte s c
    else match split_byte s c with
         | p :: ps => String a p :: ps
         | [] => [String a EmptyString]
         end
  end.

(** [strings.Join(parts, sep)]. *)
Fixpoint join (parts : list string) (sep : string) : string :=
  match parts with
  | [] => EmptyString
  | [p] => p
  | p :: ps => p +:+ sep +:+ join ps sep
  end.

Lemma split_byte_ne s c : split_byte s c ≠ [].
Proof. destruct s as [|a s]; cbn; [done|]. case_decide; [done|]. by case_match. Qed.

Lemma join_split_byte s c : join (split_byte s c) (String c EmptyString) = s.
Proof.
  induction s as [|a s IH]; [done|]. cbn [split_byte]. pose proof (split_byte_ne s c).
  case_decide as Hac; [subst|];
    (destruct (split_byte s c) as [|p [|q ps]] eqn:E; [done|..]); cbn [join] in *.
  all: rewrite ?append_cons, ?append_nil, <-IH; done.
Qed.

(** Decimal digits, most significant first. *)
Definition digit (n : Z) : ascii := byte (48 + Z.to_nat (n mod 10)).
Fixpoint digits_fuel (fuel : nat) (n : Z) (acc : string) : string :=
  match fuel with
  | O => acc
  | S fuel =>
    let acc := String (digit n) acc in
    if n / 10 =? 0 then acc else digits_fuel fuel (n / 10) acc
  end.

(** [strconv.Itoa]; the fuel [1 + log2 |n|] is at least the number of decimal digits. *)
Definition itoa (n : Z) : string :=
  let ds := digits_fuel (S (Z.to_nat (Z.log2 (Z.abs n)))) (Z.abs n) "" in
  if n <? 0 then String "-" ds else ds.

(** Fixed-width zero-padded decimal of a non-negative number, as [%0wd]. *)
Fixpoint pad (w : nat) (n : Z) : string :=
  match w with
  | O => EmptyString
  | S w => pad w (n / 10) +:+ String (digit n) EmptyString
  end.

(** A decimal digit's value. *)
Definition digit_val (a : ascii) : option Z :=
  let n := Z.of_nat (code a) in if (48 <=? n) && (n <=? 57) then Some (n - 48) else None.

(** Exactly the digits of [s], accumulated in base 10. *)
Fixpoint digits_val (acc : Z) (s : string) : option Z :=
  match s with
  | EmptyString => Some acc
  | String a s => d ← digit_val a; digits_val (acc * 10 + d) s
  end.

Lemma digit_val_digit n : digit_val (digit n) = Some (n mod 10).
Proof.
  unfold digit, digit_val, code, byte.
  pose proof (Z.mod_pos_bound n 10 ltac:(lia)).
  rewrite Ascii.nat_ascii_embedding by lia.
  replace (Z.of_nat (48 + Z.to_nat (n mod 10))) with (48 + n mod 10) by lia.
  destruct (48 <=? _) eqn:E1, (_ <=? 57) eqn:E2; cbn; [f_equal|..]; lia.
Qed.

Lemma digits_val_app acc s t :
  digits_val acc (s +:+ t) = acc ← digits_val acc s; digits_val acc t.
Proof.
  revert acc; induction s as [|a s IH]; intros acc; str_simpl; [done|].
  destruct (digit_val a); cbn; [apply IH|done].
Qed.

Lemma digits_val_pad w n acc :
  0 ≤ n < 10 ^ Z.of_nat w → digits_val acc (pad w n) = Some (acc * 10 ^ Z.of_nat w + n).
Proof.
  revert n acc; induction w as [|w IH]; intros n acc Hn; cbn [pad digits_val].
  - cbn in *. f_equal. lia.
  - rewrite Nat2Z.inj_succ, Z.pow_succ_r in * by lia.
    rewrite digits_val_app, IH.
    + cbn. rewrite digit_val_digit. cbn. f_equal. pose proof (Z.div_mod n 10 ltac:(lia)). lia.
    + split; [apply Z.div_pos; lia|]. apply Z.div_lt_upper_bound; lia.
Qed.

Lemma length_pad w n : String.length (pad w n) = w.
Proof. revert n; induction w as [|w IH]; intros n; cbn; [done|]. rewrite string_length_app, IH; cbn. lia. Qed.

(** Byte-wise lexicographic order, as Go compares strings. *)
Fixpoint string_leb (s t : string) : bool :=
  match s, t with
  | EmptyString, _ => true
  | String _ _, EmptyString => false
  | String a s, String b t =>
    if (code a <? code b)%nat then true
    else if (code b <? code a)%nat then false
    else string_leb s t
  end.
Definition string_ltb (s t : string) : bool := negb (string_leb t s).

Definition string_le (s t : string) : Prop := string_leb s t = true.
#[export] Instance string_le_dec : RelDecision string_le.
Proof. intros s t. unfold string_le. apply _. Defined.

Lemma code_inj a b : code a = code b → a = b.
Proof. intros H. rewrite <-(ascii_nat_embedding a), <-(ascii_nat_embedding b). unfold code in H. by rewrite H. Qed.

Lemma string_leb_cons a s b t :
  string_leb (String a s) (String b t) = true ↔
  (code a < code b)%nat ∨ (code a = code b ∧ string_leb s t = true).
Proof.
  cbn [string_leb].
  destruct (Nat.ltb_spec (code a) (code b)), (Nat.ltb_spec (code b) (code a));
    naive_solver lia.
Qed.

#[export] Instance string_le_total : Total string_le.
Proof.
  intros s. unfold string_le. induction s as [|a s IH]; intros [|b t]; [by left..|by right|].
  rewrite !string_leb_cons. destruct (Nat.lt_total (code a) (code b)) as [|[|]]; [auto| |auto].
  destruct (IH t); auto.
Qed.
#[export] Instance string_le_trans : Transitive string_le.
Proof.
  intros s. unfold string_le. induction s as [|a s IH]; [done|]; intros [|b t] [|c u]; try done.
  rewrite !string_leb_cons. intros [|[]] [|[]]; [left; lia..|right]. split; [lia|eauto].
Qed.
#[export] Instance string_le_antisymm : AntiSymm (=) string_le.
Proof.
  intros s. unfold string_le. induction s as [|a s IH]; intros [|b t]; try done.
  rewrite !string_leb_cons. intros [|[]] [|[]]; try lia.
  f_equal; [by apply code_inj|auto].
Qed.

(** [sort.Strings]. *)
Definition sort_strings (l : list string) : list string := merge_sort string_le l.

Lemma sort_strings_perm l : sort_strings l ≡ₚ l.
Proof. apply merge_sort_Permutation. Qed.
Lemma sort_strings_sorted l : Sorted string_le (sort_strings l).
Proof. apply Sorted_merge_sort. apply _. Qed.

(** Sorting forgets the order in which the input was produced. *)
Lemma sort_strings_ext l k : l ≡ₚ k → sort_strings l = sort_strings k.
Proof.
  intros H. eapply (StronglySorted_unique string_le).
  - apply Sorted_StronglySorted; [apply _|apply sort_strings_sorted].
  - apply Sorted_StronglySorted; [apply _|apply sort_strings_sorted].
  - by rewrite !sort_strings_perm.
Qed.

(** [strconv.Atoi]: an optional sign and at least one digit, within 64 bits. *)
Definition atoi (s : string) : option Z :=
  let unsigned s := match s with "" => None | _ => digits_val 0 s end in
  n ← match s with
      | String "-" s => Z.opp <$> unsigned s
      | String "+" s => unsigned s
      | s => unsigned s
      end;
  if (- 2 ^ 63 <=? n) && (n <? 2 ^ 63) then Some n else None.
