(* ===== verification/GoTime.v ===== *)
(** The parts of Go's [time] package the program uses: instants, UTC calendar
    dates, the "2006-01-02" layout in both directions, [time.Date]
    normalisation, [AddDate] on days, [Weekday].

    An instant is the number of nanoseconds since the Unix epoch; a calendar
    day is the number of days since 1970-01-01. *)
From S2P Require Import Prelude GoStrings.
From Stdlib Require Import Ascii.

Definition instant := Z.
Definition nsPerDay : Z := 86400 * 1000000000.
Definition nsPerSecond : Z := 1000000000.

(** The UTC calendar day of an instant, and the midnight that starts a day. *)
Definition day_of (t : instant) : Z := t / nsPerDay.
Definition midnight (d : Z) : instant := d * nsPerDay.

(** Proleptic Gregorian calendar: year, month and day of a day number. *)
Definition civil_from_days (z : Z) : Z * Z * Z :=
  let z := z + 719468 in
  let era := z / 146097 in
  let doe := z mod 146097 in
  let yoe := (doe - doe / 1460 + doe / 36524 - doe / 146096) / 365 in
  let doy := doe - (365 * yoe + yoe / 4 - yoe / 100) in
  let mp := (5 * doy + 2) / 153 in
  let d := doy - (153 * mp + 2) / 5 + 1 in
  let m := if mp <? 10 then mp + 3 else mp - 9 in
  let y := yoe + era * 400 in
  (if m <=? 2 then y + 1 else y, m, d).

Definition days_from_civil (y m d : Z) : Z :=
  let y := if m <=? 2 then y - 1 else y in
  let era := y / 400 in
  let yoe := y mod 400 in
  let doy := (153 * (if 2 <? m then m - 3 else m + 9) + 2) / 5 + d - 1 in
  let doe := yoe * 365 + yoe / 4 - yoe / 100 + doy in
  era * 146097 + doe - 719468.

Definition is_leap (y : Z) : bool :=
  (y mod 4 =? 0) && (negb (y mod 100 =? 0) || (y mod 400 =? 0)).

Definition days_in (m y : Z) : Z :=
  if m =? 2 then (if is_leap y then 29 else 28)
  else if (m =? 4) || (m =? 6) || (m =? 9) || (m =? 11) then 30 else 31.

(** [time.Date(y, m, d, 0, 0, 0, 0, time.UTC)] with out-of-range months and days
    normalised. *)
Definition date_utc (y m d : Z) : instant :=
  midnight (days_from_civil (y + (m - 1) / 12) ((m - 1) mod 12 + 1) 1 + (d - 1)).

Definition year_of (t : instant) : Z := (civil_from_days (day_of t)).1.1.
Definition month_of (t : instant) : Z := (civil_from_days (day_of t)).1.2.
Definition mday_of (t : instant) : Z := (civil_from_days (day_of t)).2.

(** [t.Weekday()]: 0 is Sunday. *)
Definition weekday (t : instant) : Z := (day_of t + 4) mod 7.

(** [t.AddDate(0, 0, n)]. *)
Definition add_days (t : instant) (n : Z) : instant := t + n * nsPerDay.

(** ** The "2006-01-02" layout *)

Definition fmt_year (y : Z) : string :=
  let w n := if n <? 10000 then pad 4 n else itoa n in
  if y <? 0 then "-" +:+ w (- y) else w y.

(** [t.Format("2006-01-02")]. *)
Definition format_date (t : instant) : string :=
  let '(y, m, d) := civil_from_days (day_of t) in
  fmt_year y +:+ "-" +:+ pad 2 m +:+ "-" +:+ pad 2 d.

(** The layout "2006-01-02T15:04:05Z" of a UTC time. *)
Definition format_timestamp (t : instant) : string :=
  let secs := (t mod nsPerDay) / nsPerSecond in
  format_date t +:+ "T" +:+ pad 2 (secs / 3600) +:+ ":" +:+ pad 2 (secs / 60 mod 60)
    +:+ ":" +:+ pad 2 (secs mod 60) +:+ "Z".

(** [time.Parse("2006-01-02", s)]: four, two and two digits; the month and the
    day of the month are range-checked; no other text is accepted. *)
Definition parse_date (s : string) : option instant :=
  match bytes_of s with
  | [y1; y2; y3; y4; s1; m1; m2; s2; d1; d2] =>
    y ← digits_val 0 (of_bytes [y1; y2; y3; y4]);
    m ← digits_val 0 (of_bytes [m1; m2]);
    d ← digits_val 0 (of_bytes [d1; d2]);
    if bool_decide (s1 = "-"%char) && bool_decide (s2 = "-"%char)
       && (1 <=? m) && (m <=? 12) && (1 <=? d) && (d <=? days_in m y)
    then Some (midnight (days_from_civil y m d)) else None
  | _ => None
  end.

(** ** Calendar arithmetic is a bijection *)

(** A bounded check, evaluated: [P] holds on [lo, lo + n). *)
Fixpoint check_range (n : nat) (lo : Z) (P : Z → bool) : bool :=
  match n with O => true | S n => P lo && check_range n (lo + 1) P end.

Lemma check_range_spec n lo P :
  check_range n lo P = true → ∀ z, lo ≤ z < lo + Z.of_nat n → P z = true.
Proof.
  revert lo; induction n as [|n IH]; intros lo Hc z Hz; [lia|].
  cbn in Hc. apply andb_prop in Hc as [H1 H2].
  destruct (decide (z = lo)) as [->|]; [done|]. apply (IH _ H2). lia.
Qed.

Definition leap (y : Z) : Prop := y mod 4 = 0 ∧ (y mod 100 ≠ 0 ∨ y mod 400 = 0).

Lemma is_leap_spec y : is_leap y = true ↔ leap y.
Proof. unfold is_leap, leap. lia. Qed.

(** The day of the era determines the year of the era and the day of the
    March-based year; day 365 only exists when the following February is long. *)
Lemma yoe_bounds doe yoe :
  0 ≤ doe < 146097 → yoe = (doe - doe / 1460 + doe / 36524 - doe / 146096) / 365 →
  0 ≤ yoe ≤ 399 ∧ 0 ≤ doe - (365 * yoe + yoe / 4 - yoe / 100) ≤ 365.
Proof. intros H Hy. Z.div_mod_to_equations; lia. Qed.

Lemma doy_leap doe yoe :
  0 ≤ doe < 146097 → yoe = (doe - doe / 1460 + doe / 36524 - doe / 146096) / 365 →
  doe - (365 * yoe + yoe / 4 - yoe / 100) = 365 → leap (yoe + 1).
Proof. intros H Hy Hd. unfold leap. Z.div_mod_to_equations; lia. Qed.

Lemma yoe_inv yoe doy :
  0 ≤ yoe ≤ 399 → 0 ≤ doy ≤ 365 → (doy = 365 → leap (yoe + 1)) →
  let doe := yoe * 365 + yoe / 4 - yoe / 100 + doy in
  0 ≤ doe < 146097 ∧ (doe - doe / 1460 + doe / 36524 - doe / 146096) / 365 = yoe.
Proof.
  unfold leap. intros Hy Hd Hl. cbv zeta. split; Z.div_mod_to_equations; lia.
Qed.

(** Day of the March-based year to month and day of the month. *)
Definition month_days (m : Z) : Z := if m =? 2 then 29 else days_in m 2001.
Definition doy_ok (doy : Z) : bool :=
  let mp := (5 * doy + 2) / 153 in
  let d := doy - (153 * mp + 2) / 5 + 1 in
  let m := if mp <? 10 then mp + 3 else mp - 9 in
  (1 <=? m) && (m <=? 12) && (1 <=? d) && (d <=? month_days m)
  && ((if 2 <? m then m - 3 else m + 9) =? mp)
  && Bool.eqb ((m =? 2) && (d =? 29)) (doy =? 365).
Definition month_day_ok (n : Z) : bool :=
  let m := n / 31 + 1 in let d := n mod 31 + 1 in
  let mp := if 2 <? m then m - 3 else m + 9 in
  let doy := (153 * mp + 2) / 5 + d - 1 in
  (month_days m <? d) ||
  (((5 * doy + 2) / 153 =? mp) && ((if mp <? 10 then mp + 3 else mp - 9) =? m)
   && (0 <=? doy) && (doy <=? 365) && Bool.eqb ((m =? 2) && (d =? 29)) (doy =? 365)).

Lemma doys_ok : check_range 366 0 doy_ok = true.
Proof. vm_compute. reflexivity. Qed.
Lemma month_days_ok : check_range 372 0 month_day_ok = true.
Proof. vm_compute. reflexivity. Qed.

Lemma days_in_bound m y : 28 ≤ days_in m y ≤ 31.
Proof. unfold days_in. repeat case_match; lia. Qed.

Lemma days_in_month_days m y : days_in m y = if (m =? 2) && negb (is_leap y) then 28 else month_days m.
Proof. unfold month_days, days_in. destruct (m =? 2); cbn; [by destruct (is_leap y)|done]. Qed.

Lemma leap_shift y k : leap (y + 400 * k) ↔ leap y.
Proof.
  unfold leap.
  replace (y + 400 * k) with (y + (100 * k) * 4) at 1 by lia.
  replace (y + 400 * k) with (y + (4 * k) * 100) at 1 by lia.
  replace (y + 400 * k) with (y + k * 400) by lia. by rewrite !Z_mod_plus by lia.
Qed.

(** Every day number is a valid calendar date, and going back gives it again. *)
Lemma civil_roundtrip z :
  let '(y, m, d) := civil_from_days z in
  days_from_civil y m d = z ∧ 1 ≤ m ≤ 12 ∧ 1 ≤ d ≤ days_in m y.
Proof.
  unfold civil_from_days, days_from_civil. cbv zeta.
  pose proof (Z.div_mod (z + 719468) 146097 ltac:(lia)) as Hz.
  pose proof (Z.mod_pos_bound (z + 719468) 146097 ltac:(lia)) as Hdoe.
  revert Hz Hdoe. generalize ((z + 719468) / 146097) as era, ((z + 719468) mod 146097) as doe.
  intros era doe Hz Hdoe.
  pose proof (yoe_bounds doe _ Hdoe eq_refl) as [Hyoe Hdoy].
  pose proof (doy_leap doe _ Hdoe eq_refl) as Hleap. revert Hyoe Hdoy Hleap.
  generalize ((doe - doe / 1460 + doe / 36524 - doe / 146096) / 365) as yoe.
  intros yoe Hyoe Hdoy Hleap. set (doy := doe - _) in *.
  pose proof (check_range_spec _ _ _ doys_ok doy ltac:(lia)) as Hok. unfold doy_ok in Hok; cbv zeta in Hok.
  set (mp := (5 * doy + 2) / 153) in *. set (m := if mp <? 10 then _ else _) in *.
  set (d := doy - (153 * mp + 2) / 5 + 1) in *.
  rewrite !andb_true_iff, Bool.eqb_true_iff in Hok. destruct Hok as (((((?&?)&?)&?)&Hmp)&Hfeb).
  apply Z.eqb_eq in Hmp. rewrite Hmp.
  assert ((if m <=? 2 then (if m <=? 2 then yoe + era * 400 + 1 else yoe + era * 400) - 1
           else if m <=? 2 then yoe + era * 400 + 1 else yoe + era * 400) = yoe + era * 400) as ->
    by (destruct (m <=? 2); lia).
  rewrite Z_div_plus, Z_mod_plus by lia.
  rewrite (Z.div_small yoe 400), (Z.mod_small yoe 400) by lia.
  split; [unfold d, doy; lia|]. split; [lia|]. split; [lia|].
  rewrite days_in_month_days. destruct (m =? 2) eqn:Hm2; cbn [andb]; [|lia].
  destruct (is_leap _) eqn:Hl; cbn [negb]; [lia|].
  destruct (Z.leb_spec m 2); [|lia].
  enough (d ≠ 29) by (unfold month_days in *; rewrite Hm2 in *; lia). intros Hd29.
  assert (doy = 365) as Hd365 by (rewrite Hd29 in Hfeb; symmetry in Hfeb; by apply Z.eqb_eq in Hfeb).
  apply Hleap in Hd365. apply (leap_shift _ era) in Hd365.
  replace (yoe + 1 + 400 * era) with (yoe + era * 400 + 1) in Hd365 by lia.
  apply is_leap_spec in Hd365. congruence.
Qed.

Lemma civil_of_days y m d :
  1 ≤ m ≤ 12 → 1 ≤ d ≤ days_in m y → civil_from_days (days_from_civil y m d) = (y, m, d).
Proof.
  intros Hm Hd. pose proof (days_in_bound m y).
  assert (d ≤ 31) by lia. rewrite days_in_month_days in Hd.
  pose proof (check_range_spec _ _ _ month_days_ok ((m - 1) * 31 + (d - 1)) ltac:(lia)) as Hok.
  unfold month_day_ok in Hok; cbv zeta in Hok.
  replace (((m - 1) * 31 + (d - 1)) / 31) with (m - 1) in Hok
    by (apply (Z.div_unique_pos _ _ _ (d - 1)); lia).
  replace (((m - 1) * 31 + (d - 1)) mod 31) with (d - 1) in Hok
    by (apply (Z.mod_unique_pos _ _ (m - 1)); lia).
  replace (m - 1 + 1) with m in Hok by lia. replace (d - 1 + 1) with d in Hok by lia.
  assert (d ≤ month_days m) as Hmd.
  { destruct ((m =? 2) && negb (is_leap y)) eqn:E; [|lia].
    unfold month_days. apply andb_prop in E as [-> _]. lia. }
  destruct (Z.ltb_spec (month_days m) d) as [|_]; [lia|]. cbn [orb] in Hok.
  unfold days_from_civil, civil_from_days. cbv zeta.
  set (mp := if 2 <? m then _ else _) in *. set (doy := (153 * mp + 2) / 5 + d - 1) in *.
  rewrite !andb_true_iff, Bool.eqb_true_iff in Hok. destruct Hok as ((((Hmp&Hm')&?)&?)&Hfeb).
  apply Z.eqb_eq in Hmp, Hm'.
  set (y' := if m <=? 2 then y - 1 else y).
  pose proof (Z.mod_pos_bound y' 400 ltac:(lia)) as Hyoe.
  pose proof (Z.div_mod y' 400 ltac:(lia)) as Hy'.
  destruct (yoe_inv (y' mod 400) doy) as [Hdoe Hinv]; [lia|lia| |].
  { intros Hd365. assert (m = 2 ∧ d = 29) as [-> ->] by lia.
    destruct (is_leap y) eqn:Hl; [|cbn in Hd; lia]. apply is_leap_spec in Hl.
    apply (leap_shift _ (y' / 400)).
    by replace (y' mod 400 + 1 + 400 * (y' / 400)) with y by (unfold y' in *; cbn in *; lia). }
  revert Hdoe Hinv. cbv zeta. set (doe := y' mod 400 * 365 + _ - _ + _). intros Hdoe Hinv.
  replace (y' / 400 * 146097 + doe - 719468 + 719468) with (doe + y' / 400 * 146097) by lia.
  rewrite Z_div_plus, Z_mod_plus by lia.
  rewrite (Z.div_small doe), (Z.mod_small doe) by lia. rewrite Hinv.
  replace (doe - (365 * (y' mod 400) + y' mod 400 / 4 - y' mod 400 / 100)) with doy by (unfold doe; lia).
  rewrite Hmp, Hm'.
  replace (y' mod 400 + (0 + y' / 400) * 400) with y' by lia.
  f_equal; [|unfold doy; lia]. f_equal. unfold y'. destruct (m <=? 2); lia.
Qed.

(** ** The date layout round-trips *)

Lemma year_in_range t : 0 ≤ year_of t ≤ 9999 → 0 ≤ year_of t < 10 ^ Z.of_nat 4.
Proof. cbn. lia. Qed.

Lemma bytes_of_pad2 n : ∃ a b, bytes_of (pad 2 n) = [a; b].
Proof. pose proof (length_pad 2 n). rewrite <-length_bytes_of in H.
  destruct (bytes_of (pad 2 n)) as [|a [|b [|]]]; try (cbn in H; lia). eauto. Qed.

Lemma bytes_of_pad4 n : ∃ a b c d, bytes_of (pad 4 n) = [a; b; c; d].
Proof. pose proof (length_pad 4 n). rewrite <-length_bytes_of in H.
  destruct (bytes_of (pad 4 n)) as [|a [|b [|c [|d [|]]]]]; try (cbn in H; lia). eauto. Qed.

Lemma parse_format_date t :
  0 ≤ year_of t ≤ 9999 → parse_date (format_date t) = Some (midnight (day_of t)).
Proof.
  intros Hy. unfold format_date, parse_date, year_of in *.
  pose proof (civil_roundtrip (day_of t)) as Hrt.
  destruct (civil_from_days (day_of t)) as [[y m] d] eqn:Hciv. cbn in Hy.
  destruct Hrt as (Hback & Hm & Hd). pose proof (days_in_bound m y).
  unfold fmt_year. destruct (Z.ltb_spec y 0); [lia|]. destruct (Z.ltb_spec y 10000); [|lia].
  destruct (bytes_of_pad4 y) as (y1 & y2 & y3 & y4 & Hby).
  destruct (bytes_of_pad2 m) as (m1 & m2 & Hbm). destruct (bytes_of_pad2 d) as (d1 & d2 & Hbd).
  rewrite !bytes_of_app, Hby, Hbm, Hbd. cbn [bytes_of app].
  rewrite <-Hby, <-Hbm, <-Hbd, !of_bytes_of.
  assert (10 ^ Z.of_nat 4 = 10000) as H4 by reflexivity.
  assert (10 ^ Z.of_nat 2 = 100) as H2 by reflexivity.
  rewrite !digits_val_pad by lia. cbn [mbind option_bind]. rewrite !Z.mul_0_l, !Z.add_0_l.
  rewrite !bool_decide_eq_true_2 by done. cbn [andb].
  rewrite !(proj2 (Z.leb_le _ _)) by lia. cbn [andb].
  by rewrite Hback.
Qed.
