(* ===== verification/Utf8.v ===== *)
(** UTF-8 as Go reads and writes it: [for i, r := range s], [WriteRune], and the
    interface to the [unicode] tables ([IsUpper], [IsLetter], [IsDigit],
    [ToLower]), of which only the ASCII part is fixed here. *)
From S2P Require Import Prelude GoStrings.
From Stdlib Require Import Ascii.

(** A rune is its code point. *)
Definition rune := Z.
Definition RuneError : rune := 65533.

Definition in_range (a b : Z) (c : ascii) : bool :=
  (a <=? Z.of_nat (code c)) && (Z.of_nat (code c) <=? b).

(** The continuation byte's six bits. *)
Definition low6 (c : ascii) : Z := Z.of_nat (code c) mod 64.

(** [utf8.DecodeRune] on a non-empty prefix: the rune and its width; anything
    malformed is [RuneError] of width one. *)
Definition decode_rune (c0 : ascii) (rest : list ascii) : rune * nat :=
  let b0 := Z.of_nat (code c0) in
  let bad := (RuneError, 1%nat) in
  if b0 <? 128 then (b0, 1%nat)
  else if (194 <=? b0) && (b0 <=? 223) then
    match rest with
    | c1 :: _ => if in_range 128 191 c1 then ((b0 - 192) * 64 + low6 c1, 2%nat) else bad
    | _ => bad
    end
  else if (224 <=? b0) && (b0 <=? 239) then
    let lo := if b0 =? 224 then 160 else 128 in
    let hi := if b0 =? 237 then 159 else 191 in
    match rest with
    | c1 :: c2 :: _ =>
      if in_range lo hi c1 && in_range 128 191 c2
      then ((b0 - 224) * 4096 + low6 c1 * 64 + low6 c2, 3%nat) else bad
    | _ => bad
    end
  else if (240 <=? b0) && (b0 <=? 244) then
    let lo := if b0 =? 240 then 144 else 128 in
    let hi := if b0 =? 244 then 143 else 191 in
    match rest with
    | c1 :: c2 :: c3 :: _ =>
      if in_range lo hi c1 && in_range 128 191 c2 && in_range 128 191 c3
      then ((b0 - 240) * 262144 + low6 c1 * 4096 + low6 c2 * 64 + low6 c3, 4%nat) else bad
    | _ => bad
    end
  else bad.

(** [for i, r := range s]: byte offsets and runes.  [skip] counts the bytes of
    the current rune still to pass over. *)
Fixpoint range_from (i skip : nat) (l : list ascii) : list (nat * rune) :=
  match l with
  | [] => []
  | c :: l =>
    match skip with
    | S skip => range_from (S i) skip l
    | O => let '(r, w) := decode_rune c l in (i, r) :: range_from (S i) (pred w) l
    end
  end.
Definition range_string (s : string) : list (nat * rune) := range_from 0 0 (bytes_of s).

Definition zbyte (z : Z) : ascii := byte (Z.to_nat z).

(** [utf8.AppendRune]; surrogates and out-of-range values become U+FFFD. *)
Definition encode_rune (r : rune) : list ascii :=
  let enc3 r := [zbyte (224 + r / 4096); zbyte (128 + r / 64 mod 64); zbyte (128 + r mod 64)] in
  if (0 <=? r) && (r <? 128) then [zbyte r]
  else if (128 <=? r) && (r <? 2048) then [zbyte (192 + r / 64); zbyte (128 + r mod 64)]
  else if (r <? 0) || (1114111 <? r) || ((55296 <=? r) && (r <=? 57343)) then enc3 RuneError
  else if r <? 65536 then enc3 r
  else [zbyte (240 + r / 262144); zbyte (128 + r / 4096 mod 64);
        zbyte (128 + r / 64 mod 64); zbyte (128 + r mod 64)].

Definition ascii_rune (r : rune) : bool := (0 <=? r) && (r <? 128).
Definition ascii_upper (r : rune) : bool := (65 <=? r) && (r <=? 90).
Definition ascii_lower (r : rune) : bool := (97 <=? r) && (r <=? 122).
Definition ascii_digit (r : rune) : bool := (48 <=? r) && (r <=? 57).

(** The Unicode tables: on ASCII they are as documented; beyond it, lower-casing
    yields a rune that is neither upper case nor ASCII unless it was already
    mapped there (U+212A and U+0130 map into ASCII letters), and it keeps
    letters letters. *)
Class UnicodeTables := {
  is_upper : rune → bool;
  is_letter : rune → bool;
  is_digit : rune → bool;
  to_lower : rune → rune;
  is_upper_ascii : ∀ r, ascii_rune r = true → is_upper r = ascii_upper r;
  is_letter_ascii : ∀ r, ascii_rune r = true → is_letter r = ascii_upper r || ascii_lower r;
  is_digit_ascii : ∀ r, ascii_rune r = true → is_digit r = ascii_digit r;
  to_lower_ascii : ∀ r, ascii_rune r = true → to_lower r = if ascii_upper r then r + 32 else r;
  to_lower_alnum : ∀ r, is_letter r || is_digit r = true →
    is_letter (to_lower r) || is_digit (to_lower r) = true;
}.

(** The tables that know ASCII only; used to evaluate definitions. *)
Definition ascii_tables : UnicodeTables.
Proof.
  refine {| is_upper := ascii_upper;
            is_letter r := ascii_upper r || ascii_lower r;
            is_digit := ascii_digit;
            to_lower r := if ascii_upper r then r + 32 else r |}; try done.
  intros r Hr. destruct (ascii_upper r) eqn:Hu; [|by rewrite Hu].
  unfold ascii_upper, ascii_lower, ascii_digit in *. rewrite !orb_true_iff, !andb_true_iff, !Z.leb_le in *. lia.
Defined.

(** ** ASCII strings *)
Definition ascii_string (s : string) : bool := forallb (λ c, code c <? 128)%nat (bytes_of s).

Lemma range_from_ascii i l :
  forallb (λ c, code c <? 128)%nat l = true →
  range_from i 0 l = imap (λ k c, ((i + k)%nat, Z.of_nat (code c))) l.
Proof.
  revert i. induction l as [|c l IH]; intros i; [done|]. cbn [forallb range_from].
  rewrite andb_true_iff, Nat.ltb_lt. intros [Hc Hl]. unfold decode_rune.
  destruct (Z.ltb_spec (Z.of_nat (code c)) 128); [|lia]. cbn [pred].
  rewrite IH by done. cbn. rewrite Nat.add_0_r. f_equal.
  apply imap_ext. intros k x _. cbn. f_equal. lia.
Qed.

Lemma encode_ascii r : ascii_rune r = true → encode_rune r = [zbyte r].
Proof. unfold ascii_rune, encode_rune. by intros ->. Qed.

Lemma zbyte_code c : zbyte (Z.of_nat (code c)) = c.
Proof. unfold zbyte, byte, code. by rewrite Nat2Z.id, ascii_nat_embedding. Qed.
