(* ===== verification/Types.v ===== *)
(** Data shared by the components: IEEE doubles, JSON values, the strategy and
    portfolio records of src/strategy/types.go, src/portfolio/types.go and
    src/portfolio/runs.go, and the values of the sentinel errors.

    A Go pointer to a scalar ([*string], [*time.Time], ...) is an [option]; a
    [map[string]any] is a [gmap]; a nil map and an empty map are identified,
    except where the code tests for nil (there the map is an [option]). *)
From S2P Require Import Prelude GoStrings GoTime.
From Stdlib Require Export SpecFloat.

(** ** IEEE 754 binary64 *)
Definition float64 := spec_float.
Definition fzero : float64 := S754_zero false.
Definition fadd : float64 → float64 → float64 := SFadd 53 1024.
Definition fsub : float64 → float64 → float64 := SFsub 53 1024.
Definition fmul : float64 → float64 → float64 := SFmul 53 1024.
Definition fdiv : float64 → float64 → float64 := SFdiv 53 1024.
Definition feqb : float64 → float64 → bool := SFeqb.
Definition fltb : float64 → float64 → bool := SFltb.
Definition fleb : float64 → float64 → bool := SFleb.
Definition fabs : float64 → float64 := SFabs.
(** The double nearest to [m * 2^e]. *)
Definition fnorm (m e : Z) : float64 := binary_normalize 53 1024 m e false.
Definition f_of_Z (z : Z) : float64 := fnorm z 0.

#[export] Instance float64_eq_dec : EqDecision float64.
Proof. solve_decision. Defined.

(** ** JSON values, as [json.Unmarshal] into [any] produces them *)
Inductive json :=
  | JNull
  | JBool (b : bool)
  | JNum (f : float64)
  | JStr (s : string)
  | JArr (l : list json)
  | JObj (m : gmap string json).

(** ** src/strategy/types.go *)
Section strategy_types.

Inductive InstallState := InstallStatePending | InstallStateInstalling
  | InstallStateReady | InstallStateFailed.

Definition artifactKindBinary : string := "binary".
Definition artifactKindImage : string := "image".

Record Strategy := {
  s_ShortCode : string; s_RepoOwner : string; s_RepoName : string; s_CloneURL : string;
  s_IsOfficial : bool; s_OwnerSub : option string; s_Description : option string;
  s_Categories : list string; s_Stars : option Z; s_InstalledVer : option string;
  s_InstalledAt : option instant; s_LastAttemptedVer : option string;
  s_InstallError : option string; s_ArtifactKind : option string; s_ArtifactRef : option string;
  s_DescribeJSON : string;
  s_CAGR : option float64; s_MaxDrawdown : option float64; s_Sharpe : option float64;
  s_Sortino : option float64; s_UlcerIndex : option float64; s_Beta : option float64;
  s_Alpha : option float64; s_StdDev : option float64; s_TaxCostRatio : option float64;
  s_OneYearReturn : option float64; s_YtdReturn : option float64;
  s_BenchmarkYtdReturn : option float64; s_StatsAsOf : option instant;
  s_StatsError : option string; s_DiscoveredAt : instant; s_UpdatedAt : instant;
}.

Record StatsResult := {
  r_CAGR : option float64; r_MaxDrawdown : option float64; r_Sharpe : option float64;
  r_Sortino : option float64; r_UlcerIndex : option float64; r_Beta : option float64;
  r_Alpha : option float64; r_StdDev : option float64; r_TaxCostRatio : option float64;
  r_OneYearReturn : option float64; r_YtdReturn : option float64;
  r_BenchmarkYtdReturn : option float64; r_AsOf : instant;
}.

(** A row as [Upsert] inserts it: only the columns it names are given. *)
Definition listed_Strategy (code owner name url : string) (official : bool) (sub descr : option string)
    (cats : list string) (stars : option Z) (t : instant) : Strategy :=
  {| s_ShortCode := code; s_RepoOwner := owner; s_RepoName := name; s_CloneURL := url;
     s_IsOfficial := official; s_OwnerSub := sub; s_Description := descr; s_Categories := cats;
     s_Stars := stars; s_InstalledVer := None; s_InstalledAt := None; s_LastAttemptedVer := None;
     s_InstallError := None; s_ArtifactKind := None; s_ArtifactRef := None; s_DescribeJSON := "";
     s_CAGR := None; s_MaxDrawdown := None; s_Sharpe := None; s_Sortino := None;
     s_UlcerIndex := None; s_Beta := None; s_Alpha := None; s_StdDev := None;
     s_TaxCostRatio := None; s_OneYearReturn := None; s_YtdReturn := None;
     s_BenchmarkYtdReturn := None; s_StatsAsOf := None; s_StatsError := None;
     s_DiscoveredAt := t; s_UpdatedAt := t |}.

(** The discovery layer's [Listing]. *)
Record Listing := {
  l_Name : string; l_Owner : string; l_Description : string; l_Categories : list string;
  l_CloneURL : string; l_Stars : Z; l_UpdatedAt : instant;
}.

(** [Strategy.DeriveInstallState]. *)
Definition DeriveInstallState (s : Strategy) : InstallState :=
  match s_InstalledVer s, s_InstallError s, s_LastAttemptedVer s with
  | Some _, None, _ => InstallStateReady
  | _, Some _, _ => InstallStateFailed
  | _, _, Some _ => InstallStateInstalling
  | _, _, _ => InstallStatePending
  end.

(** [Default interface{}]: [None] is a nil interface. *)
Record DescribeParameter := {
  dp_Name : string; dp_Type : string; dp_Default : option json; dp_Description : string;
}.

Record DescribePreset := { ps_Name : string; ps_Parameters : gmap string json }.

Record Describe := {
  d_ShortCode : string; d_Name : string; d_Description : string;
  d_Parameters : list DescribeParameter; d_Presets : list DescribePreset;
  d_Schedule : string; d_Benchmark : string;
}.

#[export] Instance eta_Describe : Eta Describe := λ d,
  Build_Describe (d_ShortCode d) (d_Name d) (d_Description d) (d_Parameters d) (d_Presets d)
    (d_Schedule d) (d_Benchmark d).

(** The Go zero value. *)
Definition zero_Describe : Describe :=
  {| d_ShortCode := ""; d_Name := ""; d_Description := ""; d_Parameters := [];
     d_Presets := []; d_Schedule := ""; d_Benchmark := "" |}.

End strategy_types.

#[export] Instance eta_Strategy : Eta Strategy := λ s,
  {| s_ShortCode := s_ShortCode s; s_RepoOwner := s_RepoOwner s; s_RepoName := s_RepoName s;
     s_CloneURL := s_CloneURL s; s_IsOfficial := s_IsOfficial s; s_OwnerSub := s_OwnerSub s;
     s_Description := s_Description s; s_Categories := s_Categories s; s_Stars := s_Stars s;
     s_InstalledVer := s_InstalledVer s; s_InstalledAt := s_InstalledAt s;
     s_LastAttemptedVer := s_LastAttemptedVer s; s_InstallError := s_InstallError s;
     s_ArtifactKind := s_ArtifactKind s; s_ArtifactRef := s_ArtifactRef s;
     s_DescribeJSON := s_DescribeJSON s;
     s_CAGR := s_CAGR s; s_MaxDrawdown := s_MaxDrawdown s; s_Sharpe := s_Sharpe s;
     s_Sortino := s_Sortino s; s_UlcerIndex := s_UlcerIndex s; s_Beta := s_Beta s;
     s_Alpha := s_Alpha s; s_StdDev := s_StdDev s; s_TaxCostRatio := s_TaxCostRatio s;
     s_OneYearReturn := s_OneYearReturn s; s_YtdReturn := s_YtdReturn s;
     s_BenchmarkYtdReturn := s_BenchmarkYtdReturn s; s_StatsAsOf := s_StatsAsOf s;
     s_StatsError := s_StatsError s; s_DiscoveredAt := s_DiscoveredAt s; s_UpdatedAt := s_UpdatedAt s |}.

(** ** src/portfolio/types.go *)
Section portfolio_types.

(** [Status] is a string type; these are its values. *)
Definition StatusPending : string := "pending".
Definition StatusRunning : string := "running".
Definition StatusReady : string := "ready".
Definition StatusFailed : string := "failed".

Record Portfolio := {
  ID : uuid; OwnerSub : string; Slug : string; Name : string; StrategyCode : string;
  StrategyVer : option string; StrategyCloneURL : string; StrategyDescribeJSON : string;
  Parameters : gmap string json; PresetName : option string; Benchmark : string;
  StartDate : option instant; EndDate : option instant; Status : string;
  LastRunAt : option instant; LastError : option string; SnapshotPath : option string;
  CurrentValue : option float64; YtdReturn : option float64; MaxDrawdown : option float64;
  Sharpe : option float64; CagrSinceInception : option float64; InceptionDate : option instant;
  CreatedAt : instant; UpdatedAt : instant; RunRetention : Z;
}.

Record CreateRequest := {
  r_Name : string; r_StrategyCode : string; r_StrategyVer : string; r_StrategyCloneURL : string;
  r_Parameters : gmap string json; r_Benchmark : string; r_StartDate : option instant;
  r_EndDate : option instant; r_RunRetention : option Z;
}.

(** [Run], with the [triggered_by] column the struct leaves out. *)
Record Run := {
  run_ID : uuid; run_PortfolioID : uuid; run_Status : string;
  run_StartedAt : option instant; run_FinishedAt : option instant;
  run_DurationMs : option Z; run_Error : option string; run_SnapshotPath : option string;
  run_TriggeredBy : string;
}.

(** [TriggerScheduled] and [TriggerManual] of src/backtest/dispatcher.go. *)
Definition TriggerScheduled : string := "scheduled".
Definition TriggerManual : string := "manual".

End portfolio_types.

#[export] Instance eta_Portfolio : Eta Portfolio := λ p,
  {| ID := ID p; OwnerSub := OwnerSub p; Slug := Slug p; Name := Name p;
     StrategyCode := StrategyCode p; StrategyVer := StrategyVer p;
     StrategyCloneURL := StrategyCloneURL p; StrategyDescribeJSON := StrategyDescribeJSON p;
     Parameters := Parameters p; PresetName := PresetName p; Benchmark := Benchmark p;
     StartDate := StartDate p; EndDate := EndDate p; Status := Status p;
     LastRunAt := LastRunAt p; LastError := LastError p; SnapshotPath := SnapshotPath p;
     CurrentValue := CurrentValue p; YtdReturn := YtdReturn p; MaxDrawdown := MaxDrawdown p;
     Sharpe := Sharpe p; CagrSinceInception := CagrSinceInception p;
     InceptionDate := InceptionDate p; CreatedAt := CreatedAt p; UpdatedAt := UpdatedAt p;
     RunRetention := RunRetention p |}.

#[export] Instance eta_CreateRequest : Eta CreateRequest := λ r,
  {| r_Name := r_Name r; r_StrategyCode := r_StrategyCode r; r_StrategyVer := r_StrategyVer r;
     r_StrategyCloneURL := r_StrategyCloneURL r; r_Parameters := r_Parameters r;
     r_Benchmark := r_Benchmark r; r_StartDate := r_StartDate r; r_EndDate := r_EndDate r;
     r_RunRetention := r_RunRetention r |}.

#[export] Instance eta_Run : Eta Run := λ r,
  {| run_ID := run_ID r; run_PortfolioID := run_PortfolioID r; run_Status := run_Status r;
     run_StartedAt := run_StartedAt r; run_FinishedAt := run_FinishedAt r;
     run_DurationMs := run_DurationMs r; run_Error := run_Error r;
     run_SnapshotPath := run_SnapshotPath r; run_TriggeredBy := run_TriggeredBy r |}.

(** The Go zero portfolio. *)
Definition zero_Portfolio : Portfolio :=
  {| ID := uuid_Nil; OwnerSub := ""; Slug := ""; Name := ""; StrategyCode := "";
     StrategyVer := None; StrategyCloneURL := ""; StrategyDescribeJSON := ""; Parameters := ∅;
     PresetName := None; Benchmark := ""; StartDate := None; EndDate := None; Status := "";
     LastRunAt := None; LastError := None; SnapshotPath := None; CurrentValue := None;
     YtdReturn := None; MaxDrawdown := None; Sharpe := None; CagrSinceInception := None;
     InceptionDate := None; CreatedAt := 0; UpdatedAt := 0; RunRetention := 0 |}.

(** ** Sentinel error values *)
Definition ErrNotFound := sentinel_err portfolio_ErrNotFound "portfolio not found".
Definition ErrDuplicateSlug := sentinel_err portfolio_ErrDuplicateSlug "duplicate portfolio slug".
Definition ErrQueueFull := sentinel_err portfolio_ErrQueueFull "dispatcher queue full".
Definition ErrRunInFlight := sentinel_err portfolio_ErrRunInFlight
  "a backtest run is already queued or running for this portfolio".
