(* ===== verification/Auth.v ===== *)
(** The boundary of the HTTP server (src/api/auth.go, errors.go, middleware.go):
    the bearer token, the middleware that verifies it and leaves the subject for
    the handlers, the request identifier, and the problems its errors become. *)
From S2P Require Import Prelude GoStrings.
From Stdlib Require Import Ascii.

(** ** src/api/errors.go *)
Definition ErrInvalidToken : goerror := sentinel_err api_ErrInvalidToken "invalid or expired token".
Definition ErrAuthConfigIncomplete : goerror := sentinel_err api_ErrAuthConfigIncomplete "auth config incomplete".
Definition ErrNotFound : goerror := sentinel_err api_ErrNotFound "resource not found".
Definition ErrConflict : goerror := sentinel_err api_ErrConflict "resource conflict".
Definition ErrInvalidParams : goerror := sentinel_err api_ErrInvalidParams "invalid parameters".
Definition ErrNotImplemented : goerror := sentinel_err api_ErrNotImplemented "not implemented".

Record Problem := { p_Type : string; p_Title : string; p_Status : Z; p_Detail : string; p_Instance : string }.
#[export] Instance eta_Problem : Eta Problem := λ p,
  {| p_Type := p_Type p; p_Title := p_Title p; p_Status := p_Status p; p_Detail := p_Detail p;
     p_Instance := p_Instance p |}.

(** [classify]: the first sentinel along the chain decides. *)
Definition classify (err : goerror) : Z * string :=
  if errors_is err api_ErrInvalidToken then (401, "Unauthorized")
  else if errors_is err api_ErrNotFound then (404, "Not Found")
  else if errors_is err api_ErrConflict then (409, "Conflict")
  else if errors_is err api_ErrInvalidParams then (422, "Unprocessable Entity")
  else if errors_is err api_ErrNotImplemented then (501, "Not Implemented")
  else (500, "Internal Server Error").

(** What a middleware makes of a request: a written response, or the handler
    behind it with the subject in the locals. *)
Inductive written := WProblem (p : Problem) | WStatus (st : Z).

Section boundary.
(** [sonic.Marshal] of a problem. *)
Context (marshal_err : Problem → option goerror).

(** [writeProblemWithOptionalDetail]: the text of an unclassified error is logged
    and not shown. *)
Definition writeProblemWithOptionalDetail (path : string) (err : goerror) (override : string) : written :=
  let '(status, title) := classify err in
  let detail := if bool_decide (override = "") then err_text err else override in
  let p := {| p_Type := "about:blank"; p_Title := title; p_Status := status; p_Detail := detail;
              p_Instance := path |} in
  let p := if status =? 500 then p <| p_Detail := "" |> else p in
  match marshal_err p with Some _ => WStatus 500 | None => WProblem p end.
Definition WriteProblem (path : string) (err : goerror) : written := writeProblemWithOptionalDetail path err "".
Definition WriteProblemWithDetail (path : string) (err : goerror) (detail : string) : written :=
  writeProblemWithOptionalDetail path err detail.

(** [stubPortfolio] and the strategy stubs. *)
Definition stub (path : string) : written := WriteProblem path ErrNotImplemented.

(** ** src/api/auth.go *)
Record AuthConfig := { JWKSURL : string; Audience : string; Issuer : string }.

(** The checks of [NewAuthMiddleware], before it creates the key cache. *)
Definition check_config (conf : AuthConfig) : option goerror :=
  if bool_decide (JWKSURL conf = "") then Some (wrap_post ErrAuthConfigIncomplete ": JWKSURL must not be empty")
  else if bool_decide (Audience conf = "") then Some (wrap_post ErrAuthConfigIncomplete ": Audience must not be empty")
  else if bool_decide (Issuer conf = "") then Some (wrap_post ErrAuthConfigIncomplete ": Issuer must not be empty")
  else None.

(** [strings.EqualFold] against a text of ASCII letters none of which has a
    case variant outside ASCII. *)
Definition lower_byte (c : ascii) : ascii :=
  if (65 <=? Z.of_nat (code c)) && (Z.of_nat (code c) <=? 90) then byte (code c + 32) else c.
Definition EqualFold (s t : string) : bool :=
  bool_decide (map lower_byte (bytes_of s) = map lower_byte (bytes_of t)).

(** [bearerToken]. *)
Definition bearer : string := "Bearer ".
Definition bearerToken (authorization : string) : string :=
  if (len authorization <=? len bearer) || negb (EqualFold (slice_to authorization (String.length bearer)) bearer)
  then "" else slice_from authorization (String.length bearer).

(** The key cache and [jwt.Parse] with the key set, issuer and audience: the
    subject of a token that verifies, if it has one. *)
Context {keys : Type} (lookup : string → result keys).
Context (jwt_Parse : keys → string → string → string → result (option string)).

(** The handler of [NewAuthMiddleware]: the subject it lets through. *)
Definition authenticate (conf : AuthConfig) (path authorization : string) : written + string :=
  let token := bearerToken authorization in
  if bool_decide (token = "") then inl (WriteProblem path (wrap "missing bearer token: " ErrInvalidToken))
  else
    match lookup (JWKSURL conf) with
    | Err err => inl (WriteProblem path (wrap "JWKS lookup failed: " err))
    | Ok keyset =>
      match jwt_Parse keyset (Issuer conf) (Audience conf) token with
      | Err err => inl (WriteProblem path (wrap2 ErrInvalidToken err))
      | Ok parsed =>
        match parsed with
        | Some sub => if bool_decide (sub = "") then inl (WriteProblem path (wrap "missing sub claim: " ErrInvalidToken))
                      else inr sub
        | None => inl (WriteProblem path (wrap "missing sub claim: " ErrInvalidToken))
        end
      end
    end.

(** A route of the protected group: the middleware, then [c.Next()]. *)
Definition protected {W R} (conf : AuthConfig) (path authorization : string) (next : string → W → W * R) (w : W) :
    W * (written + R) :=
  match authenticate conf path authorization with
  | inl resp => (w, inl resp)
  | inr sub => let '(w, r) := next sub w in (w, inr r)
  end.

(** ** src/api/middleware.go *)

(** [requestIDMiddleware]: the identifier stored and mirrored, [fresh] being a
    new UUIDv7. *)
Definition request_id (inbound fresh : string) : string := if bool_decide (inbound = "") then fresh else inbound.

(** [loggerMiddleware]: the status it logs, from the response's, or from the
    error the chain returned ([Some (Some code)] for a [fiber.Error]). *)
Definition logged_status (response : Z) (err : option (option Z)) : Z :=
  match err with None => response | Some (Some code) => code | Some None => 500 end.
Inductive level := LError | LWarn | LInfo.
Definition log_level (status : Z) : level :=
  if 500 <=? status then LError else if 400 <=? status then LWarn else LInfo.

(** ** What the boundary promises *)

Lemma lower_bearer authorization token :
  bearerToken authorization = token → token ≠ "" →
  ∃ scheme, authorization = scheme +:+ token ∧ EqualFold scheme bearer = true ∧ String.length scheme = 7%nat.
Proof.
  unfold bearerToken. intros Ht Hne. destruct (_ || _) eqn:Hc; [by subst|].
  apply orb_false_elim in Hc as [Hlen%Z.leb_gt Heq%negb_false_iff]. unfold len in Hlen. change (String.length bearer) with 7%nat in *.
  exists (slice_to authorization 7). split_and!.
  - subst token. unfold slice_to, slice_from. apply bytes_of_inj. by rewrite bytes_of_app, !bytes_of_of, take_drop.
  - done.
  - unfold slice_to. rewrite <-length_bytes_of, bytes_of_of, length_take, length_bytes_of. lia.
Qed.

Lemma classify_unknown e : err_chain e = [] → classify e = (500, "Internal Server Error").
Proof. destruct e as [c t]. cbn. by intros ->. Qed.

(** The protected group.  A handler runs only with the subject of a token
    that the bearer header carries and that verifies under the configured
    issuer and audience with the keys of the configured URL, and the subject is
    not empty; otherwise nothing behind the middleware changes.  A request
    without such a token is answered 401, a failing key lookup 500 without the
    text of the error. *)
Theorem protected_runs_verified {W R} (conf : AuthConfig) (path authorization : string)
    (next : string → W → W * R) (w : W) :
  (∀ p, marshal_err p = None) →
  (∀ url e, lookup url = Err e → err_chain e = []) →
  match protected conf path authorization next w with
  | (w', inr r) => ∃ scheme token keyset sub,
      authorization = scheme +:+ token ∧ EqualFold scheme bearer = true ∧ token ≠ "" ∧
      lookup (JWKSURL conf) = Ok keyset ∧ jwt_Parse keyset (Issuer conf) (Audience conf) token = Ok (Some sub) ∧
      sub ≠ "" ∧ next sub w = (w', r)
  | (w', inl resp) => w' = w ∧ ∃ p, resp = WProblem p ∧ p_Instance p = path ∧
      match lookup (JWKSURL conf) with
      | Err _ => if bool_decide (bearerToken authorization = "") then p_Status p = 401
                 else p_Status p = 500 ∧ p_Detail p = ""
      | Ok _ => p_Status p = 401
      end
  end.
Proof.
  intros Hm Hl. unfold protected, authenticate.
  assert (∀ e pre, errors_is e api_ErrInvalidToken = true → ∃ p, WriteProblem path (GoErr (err_chain e) pre) = WProblem p ∧
    p_Instance p = path ∧ p_Status p = 401) as H401.
  { intros e pre He. eexists. unfold WriteProblem, writeProblemWithOptionalDetail, classify.
    unfold errors_is in *. cbn [err_chain]. rewrite He. cbn. rewrite Hm. done. }
  destruct (decide (bearerToken authorization = "")) as [Ht|Ht].
  { rewrite !bool_decide_eq_true_2 by done. split; [done|].
    destruct (H401 ErrInvalidToken ("missing bearer token: " +:+ "invalid or expired token") eq_refl) as (p & Hp & Hi & Hs).
    exists p. split; [done|]. split; [done|]. by destruct (lookup _). }
  rewrite !(bool_decide_eq_false_2 (bearerToken authorization = "")) by done.
  destruct (lookup (JWKSURL conf)) as [keyset|e] eqn:Hk.
  2: { split; [done|]. eexists. unfold WriteProblem, writeProblemWithOptionalDetail.
       rewrite classify_unknown by (cbn; by eapply Hl). cbn. rewrite Hm. done. }
  destruct (jwt_Parse keyset (Issuer conf) (Audience conf) (bearerToken authorization)) as [[sub|]|e] eqn:Hp.
  - case_bool_decide as Hsub.
    + split; [done|]. apply (H401 ErrInvalidToken). done.
    + destruct (next sub w) as [w' r] eqn:Hn.
      destruct (lower_bearer authorization _ eq_refl Ht) as (scheme & Ha & Hf & _). by exists scheme, (bearerToken authorization), keyset, sub.
  - split; [done|]. apply (H401 ErrInvalidToken). done.
  - split; [done|]. apply (H401 (wrap2 ErrInvalidToken e)). by rewrite errors_is_wrap2.
Qed.
End boundary.

(** A signed-in user, a missing header and a failing key server. *)
Definition demo_config : AuthConfig := {| JWKSURL := "https://keys"; Audience := "api"; Issuer := "https://issuer" |}.
Definition demo_jwt (_ : unit) (_ _ token : string) : result (option string) :=
  if bool_decide (token = "t0ken") then Ok (Some "alice") else Err (opaque_err "token expired").
Definition demo_protected (lookup : string → result ()) (authorization : string) : list string * (written + ()) :=
  protected (λ _, None) lookup demo_jwt demo_config "/api/v3/portfolios" authorization (λ sub w, (sub :: w, ())) [].

Lemma protected_runs_verified_witness :
  demo_protected (λ _, Ok ()) "bearer t0ken" = (["alice"], inr ()) ∧
  (demo_protected (λ _, Ok ()) "bearer expired").1 = [] ∧
  (demo_protected (λ _, Err (opaque_err "no route to host")) "Bearer t0ken").1 = [] ∧
  ∃ p, (demo_protected (λ _, Err (opaque_err "no route to host")) "Bearer t0ken").2 = inl (WProblem p) ∧ p_Detail p = "".
Proof.
  assert (∀ url e, (λ _ : string, Err (A := ()) (opaque_err "no route to host")) url = Err e → err_chain e = []) as Hl
    by (by intros _ e [= <-]).
  pose proof (protected_runs_verified (λ _, None) (λ _, Err (opaque_err "no route to host")) demo_jwt demo_config
    "/api/v3/portfolios" "Bearer t0ken" (λ sub w, (sub :: w, ())) [] (λ _, eq_refl) Hl) as H.
  split; [reflexivity|]. split; [reflexivity|].
  change (protected _ _ _ _ _ _ _ _) with (demo_protected (λ _, Err (opaque_err "no route to host")) "Bearer t0ken") in H.
  destruct (demo_protected _ _) as [w' [resp|r]]; [|by destruct H as (? & ? & ? & ? & _ & _ & _ & [=] & _)].
  destruct H as (-> & p & -> & _ & _ & Hd). split; [done|]. by exists p.
Defined.
