(* ===== verification/Json.v ===== *)
(** [encoding/json]'s [Marshal] on the values [json.Unmarshal] produces, with the
    source's key canonicalisation (src/portfolio/slug.go). *)
From S2P Require Import Prelude GoStrings GoTime Utf8 Types.
From Stdlib Require Import Ascii.

(** ** Induction on values *)
Fixpoint json_size (v : json) : nat :=
  match v with
  | JArr l => S (sum_list_with json_size l)
  | JObj m => S (map_fold (λ _ v n, (json_size v + n)%nat) 0%nat m)
  | _ => 0%nat
  end.

Lemma json_size_lookup (m : gmap string json) k v :
  m !! k = Some v → (json_size v ≤ map_fold (λ _ v n, (json_size v + n)%nat) 0%nat m)%nat.
Proof.
  intros Hk. rewrite (map_fold_delete_L _ _ k v m); [lia| |done].
  intros j1 j2 z1 z2 y _ _ _. lia.
Qed.

Lemma json_size_elem (l : list json) v : v ∈ l → (json_size v ≤ sum_list_with json_size l)%nat.
Proof. induction 1; cbn; lia. Qed.

Lemma json_induction (P : json → Prop) :
  P JNull → (∀ b, P (JBool b)) → (∀ f, P (JNum f)) → (∀ s, P (JStr s)) →
  (∀ l, Forall P l → P (JArr l)) → (∀ m, map_Forall (λ _, P) m → P (JObj m)) → ∀ v, P v.
Proof.
  intros Hnull Hbool Hnum Hstr Harr Hobj v.
  remember (json_size v) as n eqn:Hn. revert v Hn. induction n as [n IH] using lt_wf_ind. intros v ->.
  destruct v; auto.
  - apply Harr, Forall_forall. intros x Hx. eapply IH; [|done]. apply json_size_elem in Hx. cbn. lia.
  - apply Hobj. intros k x Hx. eapply IH; [|done]. apply json_size_lookup in Hx. cbn. lia.
Qed.

(** [reflect.DeepEqual] of two decoded values; a NaN is not equal to itself. *)
Fixpoint deep_equal (a b : json) : bool :=
  match a, b with
  | JNull, JNull => true
  | JBool x, JBool y => Bool.eqb x y
  | JNum x, JNum y => feqb x y
  | JStr x, JStr y => bool_decide (x = y)
  | JArr l, JArr k =>
    (length l =? length k)%nat &&
    forallb (λ fx : (json → bool) * json, fx.1 fx.2) (zip (map deep_equal l) k)
  | JObj m, JObj n =>
    (size m =? size n)%nat &&
    forallb (λ kf : string * (json → bool), match n !! kf.1 with Some y => kf.2 y | None => false end)
      (map_to_list (deep_equal <$> m))
  | _, _ => false
  end.

(** No NaN anywhere: every value [json.Unmarshal] returns is so. *)
Fixpoint nan_free (v : json) : bool :=
  match v with
  | JNum f => match f with S754_nan => false | _ => true end
  | JArr l => forallb nan_free l
  | JObj m => forallb (λ kb : string * bool, kb.2) (map_to_list (nan_free <$> m))
  | _ => true
  end.

Lemma feqb_refl f : f ≠ S754_nan → feqb f f = true.
Proof.
  intros Hf. unfold feqb, SFeqb, SFcompare. destruct f as [[]|[]| |[] m e]; try done.
  - by rewrite Z.compare_refl, Pos.compare_refl.
  - by rewrite Z.compare_refl, Pos.compare_refl.
Qed.

Lemma deep_equal_refl v : nan_free v = true → deep_equal v v = true.
Proof.
  induction v as [|b|f|s|l IH|m IH] using json_induction; cbn; try done.
  - by destruct b.
  - intros Hf. apply feqb_refl. by intros ->.
  - intros _. by rewrite bool_decide_eq_true_2.
  - intros Hl. rewrite Nat.eqb_refl. cbn. revert Hl. induction IH as [|v l Hv Hl IHl]; [done|].
    cbn. rewrite !andb_true_iff. intros [H1 H2]. auto.
  - intros Hm. rewrite Nat.eqb_refl. cbn. rewrite forallb_forall in *.
    intros [k f] Hk%list_elem_of_In%elem_of_map_to_list. cbn.
    rewrite lookup_fmap in Hk. destruct (m !! k) as [v|] eqn:Hv; [|done]. injection Hk as <-.
    apply (IH k v Hv). apply (Hm (k, nan_free v)). apply list_elem_of_In, elem_of_map_to_list.
    by rewrite lookup_fmap, Hv.
Qed.

Section marshal.
(** The shortest decimal form [strconv.AppendFloat] writes for a finite double. *)
Context (format_float : float64 → string).

Definition hex_digit (n : Z) : ascii := zbyte (if n <? 10 then 48 + n else 87 + n).

(** [\u00xy]. *)
Definition escape_u (n : Z) : list ascii :=
  [byte 92; byte 117; byte 48; byte 48; hex_digit (n / 16); hex_digit (n mod 16)].

(** An ASCII byte in a JSON string, with HTML escaping on. *)
Definition escape_byte (c : ascii) : list ascii :=
  let n := code c in
  if bool_decide (n = 92 ∨ n = 34)%nat then [byte 92; c]
  else if (n =? 8)%nat then [byte 92; byte 98]
  else if (n =? 12)%nat then [byte 92; byte 102]
  else if (n =? 10)%nat then [byte 92; byte 110]
  else if (n =? 13)%nat then [byte 92; byte 114]
  else if (n =? 9)%nat then [byte 92; byte 116]
  else if (n <? 32)%nat || bool_decide (n = 60 ∨ n = 62 ∨ n = 38)%nat then escape_u (Z.of_nat n)
  else [c].

(** The bytes of a string literal; [skip] counts the bytes of a rune already written. *)
Fixpoint escape_from (skip : nat) (l : list ascii) : list ascii :=
  match l with
  | [] => []
  | c :: l =>
    match skip with
    | S skip => escape_from skip l
    | O =>
      if (code c <? 128)%nat then escape_byte c ++ escape_from 0 l
      else
        let '(r, w) := decode_rune c l in
        if (w =? 1)%nat then bytes_of "\ufffd" ++ escape_from 0 l
        else if r =? 8232 then bytes_of "\u2028" ++ escape_from (pred w) l
        else if r =? 8233 then bytes_of "\u2029" ++ escape_from (pred w) l
        else c :: take (pred w) l ++ escape_from (pred w) l
    end
  end.

Definition quote : string := String (byte 34) "".
Definition marshal_string (s : string) : string :=
  quote +:+ of_bytes (escape_from 0 (bytes_of s)) +:+ quote.

Definition finite (f : float64) : bool :=
  match f with S754_zero _ | S754_finite _ _ _ => true | _ => false end.

Definition key_le {A} (x y : string * A) : Prop := string_le x.1 y.1.
#[export] Instance key_le_dec {A} : RelDecision (@key_le A).
Proof. intros x y. unfold key_le. apply _. Defined.

(** The members of an object, keys ascending. *)
Definition sorted_members {A} (m : gmap string A) : list (string * A) :=
  merge_sort key_le (map_to_list m).

(** [json.Marshal]: [None] for a value JSON cannot hold (NaN, infinities). *)
Fixpoint marshal (v : json) : option string :=
  match v with
  | JNull => Some "null"
  | JBool b => Some (if b then "true" else "false")
  | JNum f => if finite f then Some (format_float f) else None
  | JStr s => Some (marshal_string s)
  | JArr l =>
    parts ← mapM marshal l;
    Some ("[" +:+ join parts "," +:+ "]")
  | JObj m =>
    parts ← mapM (λ kv : string * option string,
      t ← kv.2; Some (marshal_string kv.1 +:+ ":" +:+ t)) (sorted_members (marshal <$> m));
    Some ("{" +:+ join parts "," +:+ "}")
  end.

(** [canonicalize]: rebuilds every map and slice. *)
Fixpoint canonicalize (v : json) : json :=
  match v with
  | JObj m => JObj (canonicalize <$> m)
  | JArr l => JArr (map canonicalize l)
  | v => v
  end.

Definition unsupported_value : goerror := opaque_err "json: unsupported value".

(** [canonicalJSON]. *)
Definition canonicalJSON (m : gmap string json) : result string :=
  match marshal (canonicalize (JObj m)) with
  | Some s => Ok s
  | None => Err unsupported_value
  end.

Lemma canonicalize_id v : canonicalize v = v.
Proof.
  induction v as [|b|f|s|l IH|m IH] using json_induction; cbn; try done.
  - f_equal. induction IH as [|v l Hv _ IHl]; [done|]. cbn. by rewrite Hv, IHl.
  - f_equal. apply map_eq. intros k. rewrite lookup_fmap.
    destruct (m !! k) as [v|] eqn:Hv; cbn; [|done]. by rewrite (IH k v Hv).
Qed.

End marshal.
