(* ===== verification/Path.v ===== *)
(** [filepath.Clean] and [filepath.Join] on slash-separated paths. *)
From S2P Require Import Prelude GoStrings.
From Stdlib Require Import Ascii.

Definition slash : ascii := byte 47.

(** No slash in a path element. *)
Definition no_slash (s : string) : Prop := slash ∉ bytes_of s.

(** The elements kept so far, last first; [..] climbs, and stops at the root. *)
Fixpoint clean_elems (rooted : bool) (stack : list string) (elems : list string) : list string :=
  match elems with
  | [] => rev stack
  | e :: elems =>
    if bool_decide (e = "") || bool_decide (e = ".") then clean_elems rooted stack elems
    else if bool_decide (e = "..") then
      match stack with
      | [] => clean_elems rooted (if rooted then [] else [".."]) elems
      | top :: st =>
        if bool_decide (top = "..") then clean_elems rooted (".." :: stack) elems
        else clean_elems rooted st elems
      end
    else clean_elems rooted (e :: stack) elems
  end.

Definition is_rooted (path : string) : bool :=
  match path with String c _ => bool_decide (c = slash) | EmptyString => false end.

Definition render (rooted : bool) (elems : list string) : string :=
  if rooted then "/" +:+ join elems "/"
  else match elems with [] => "." | _ => join elems "/" end.

(** [filepath.Clean]. *)
Definition Clean (path : string) : string :=
  let rooted := is_rooted path in
  render rooted (clean_elems rooted [] (split_byte path slash)).

(** [filepath.Join]: leading empty arguments are dropped. *)
Fixpoint Join (elems : list string) : string :=
  match elems with
  | [] => ""
  | e :: es => if bool_decide (e = "") then Join es else Clean (join elems "/")
  end.

(** ** Clean is idempotent *)
Lemma split_no_slash s : Forall no_slash (split_byte s slash).
Proof.
  induction s as [|a s IH]; cbn [split_byte].
  - constructor; [|done]. by intros ?%not_elem_of_nil.
  - case_decide as Ha.
    + constructor; [by intros ?%not_elem_of_nil|done].
    + destruct (split_byte s slash) as [|p ps].
      * constructor; [|done]. intros [Hs|?%not_elem_of_nil]%elem_of_cons; congruence.
      * inversion IH; subst. constructor; [|done]. intros [Hs|Hs]%elem_of_cons; [congruence|done].
Qed.

Lemma split_elem (e rest : string) :
  no_slash e → split_byte (e +:+ String slash rest) slash = e :: split_byte rest slash.
Proof.
  induction e as [|a e IH]; intros He; str_simpl.
  - by rewrite decide_True.
  - rewrite decide_False by (intros ->; apply He; by left).
    rewrite IH; [done|]. intros Hin. apply He. by right.
Qed.

Lemma split_whole (e : string) : no_slash e → split_byte e slash = [e].
Proof.
  induction e as [|a e IH]; intros He; cbn; [done|].
  rewrite decide_False by (intros ->; apply He; by left).
  rewrite IH; [done|]. intros Hin. apply He. by right.
Qed.

Lemma split_join l : l ≠ [] → Forall no_slash l → split_byte (join l "/") slash = l.
Proof.
  intros Hne Hl. induction Hl as [|e l He Hl IH]; [done|]. destruct l as [|e' l].
  - by apply split_whole.
  - change (join (e :: e' :: l) "/") with (e +:+ String slash (join (e' :: l) "/")).
    rewrite split_elem by done. by rewrite IH.
Qed.

(** What [Clean] leaves: no empty element, no [.], and [..] only in front of a
    relative path. *)
Definition proper (e : string) : Prop := e ≠ "" ∧ e ≠ "." ∧ no_slash e.
Definition clean_list (rooted : bool) (l : list string) : Prop :=
  Forall proper l ∧ ∃ n names,
    l = replicate n ".." ++ names ∧ (rooted = true → n = 0%nat) ∧ ".." ∉ names.

Lemma proper_dotdot : proper "..".
Proof.
  split; [done|]. split; [done|]. intros Hin. apply (bool_decide_eq_true_2 _) in Hin. by vm_compute in Hin.
Qed.

Lemma clean_list_snoc rooted l e :
  clean_list rooted l → proper e → e ≠ ".." → clean_list rooted (l ++ [e]).
Proof.
  intros [Hp (n & names & -> & Hn & Hd)] He Hne.
  split; [apply Forall_app; split; [done|by constructor]|].
  exists n, (names ++ [e]). split; [by rewrite app_assoc|]. split; [done|].
  rewrite elem_of_app, list_elem_of_singleton. intros [?|?]; [done|congruence].
Qed.

Lemma clean_list_up l : clean_list false l → last l = Some ".." ∨ l = [] → clean_list false (l ++ [".."]).
Proof.
  intros [Hp (n & names & -> & Hn & Hd)] Hl. split; [apply Forall_app; split; [done|]; constructor; [apply proper_dotdot|done]|].
  destruct names as [|x names _] using rev_ind.
  - exists (S n), []. rewrite !app_nil_r, replicate_S_end. split; [done|]. split; [done|]. by intros ?%not_elem_of_nil.
  - destruct Hl as [Hl|Hl]; [|by destruct (replicate n ".."), names].
    rewrite app_assoc, last_snoc in Hl. injection Hl as ->. destruct Hd. apply elem_of_app. right. by left.
Qed.

Lemma clean_list_init rooted l e : clean_list rooted (l ++ [e]) → e ≠ ".." → clean_list rooted l.
Proof.
  intros [Hp (n & names & Heq & Hn & Hd)] He. split; [by apply Forall_app in Hp as [? _]|].
  destruct names as [|x names _] using rev_ind.
  - rewrite app_nil_r in Heq. destruct n as [|n]; [by destruct l|].
    rewrite replicate_S_end in Heq. apply app_inj_tail in Heq as [_ ->]. done.
  - rewrite app_assoc in Heq. apply app_inj_tail in Heq as [-> ->]. exists n, names.
    split; [done|]. split; [done|]. intros Hin. apply Hd. apply elem_of_app. by left.
Qed.

Lemma clean_elems_clean rooted elems stack :
  Forall no_slash elems → clean_list rooted (rev stack) →
  clean_list rooted (clean_elems rooted stack elems).
Proof.
  intros He. revert stack. induction He as [|e elems He Hes IH]; intros stack Hs; cbn; [done|].
  destruct (bool_decide_reflect (e = "")), (bool_decide_reflect (e = ".")); cbn; auto.
  destruct (bool_decide_reflect (e = "..")) as [->|Hne].
  - destruct stack as [|top st].
    + destruct rooted; [by apply IH|]. apply IH. apply (clean_list_up []); auto.
    + destruct (bool_decide_reflect (top = "..")) as [->|Ht].
      * apply IH. cbn in *. destruct rooted.
        -- exfalso. destruct Hs as [_ (k & names & Heq & Hk & Hd)]. rewrite (Hk eq_refl) in Heq. cbn in Heq.
           apply Hd. rewrite <-Heq. apply elem_of_app. right. by left.
        -- apply clean_list_up; [done|]. left. by rewrite last_snoc.
      * apply IH. cbn in Hs. by eapply clean_list_init.
  - apply IH. cbn. apply clean_list_snoc; [done| |done]. done.
Qed.

Lemma clean_elems_id rooted pre l :
  clean_list rooted (pre ++ l) → clean_elems rooted (rev pre) l = pre ++ l.
Proof.
  revert pre. induction l as [|e l IH]; intros pre Hc; cbn.
  { by rewrite rev_involutive, app_nil_r. }
  pose proof Hc as [Hp (n & names & Heq & Hn & Hd)].
  apply Forall_app in Hp as [Hp1 Hp2]. inversion Hp2 as [|? ? (H1 & H2 & H3) Hp3]; subst.
  rewrite !bool_decide_eq_false_2 by done. cbn.
  assert (clean_elems rooted (rev (pre ++ [e])) l = pre ++ e :: l) as Hrec.
  { rewrite IH; rewrite <-app_assoc; done. }
  rewrite rev_unit in Hrec. destruct (bool_decide_reflect (e = "..")) as [->|Hne]; [|done].
  assert (∀ x, x ∈ pre → x = "..") as Hups.
  { intros x [i Hi]%list_elem_of_lookup.
    assert (length pre < n)%nat as Hlen.
    { assert ((replicate n ".." ++ names) !! length pre = Some "..") as Hl
        by (rewrite <-Heq; by apply list_lookup_middle).
      destruct (decide (length pre < n)%nat); [done|].
      rewrite lookup_app_r in Hl by (rewrite length_replicate; lia).
      destruct Hd. by eapply list_elem_of_lookup_2. }
    pose proof (lookup_lt_Some _ _ _ Hi) as Hlt.
    assert ((replicate n ".." ++ names) !! i = Some x) as Hx
      by (rewrite <-Heq; by rewrite lookup_app_l).
    rewrite lookup_app_l in Hx by (rewrite length_replicate; lia).
    apply lookup_replicate in Hx. naive_solver. }
  assert (rooted = false) as ->.
  { destruct rooted; [|done]. rewrite (Hn eq_refl) in Heq. cbn in Heq. destruct Hd. rewrite <-Heq.
    apply elem_of_app. right. by left. }
  destruct pre as [|x pre _] using rev_ind; [done|].
  rewrite rev_unit in *. rewrite (Hups x) in * by (apply elem_of_app; right; by left).
  by rewrite bool_decide_eq_true_2.
Qed.

Lemma Clean_clean path :
  ∃ l, Clean path = render (is_rooted path) l ∧ clean_list (is_rooted path) l.
Proof.
  eexists. split; [done|]. apply clean_elems_clean; [apply split_no_slash|].
  split; [constructor|]. exists 0%nat, []. split; [done|]. split; [done|]. by intros ?%not_elem_of_nil.
Qed.

Lemma is_rooted_join l : Forall proper l → is_rooted (join l "/") = false.
Proof.
  destruct l as [|e l]; [done|]. intros (H1 & _ & H3)%Forall_inv.
  destruct e as [|a e]; [done|]. assert (a ≠ slash) by (intros ->; apply H3; by left).
  destruct l; cbn [join]; rewrite ?append_cons; cbn [is_rooted]; by rewrite bool_decide_eq_false_2.
Qed.

(** Reading back what [Clean] wrote. *)
Lemma clean_render rooted l :
  clean_list rooted l →
  is_rooted (render rooted l) = rooted ∧
  clean_elems rooted [] (split_byte (render rooted l) slash) = l.
Proof.
  intros Hl. pose proof Hl as [Hp _].
  assert (Forall no_slash l) as Hns by (eapply Forall_impl; [exact Hp|]; by intros ? (_ & _ & ?)).
  pose proof (clean_elems_id _ [] l Hl) as Hid. cbn in Hid. destruct rooted; unfold render.
  - split; [done|]. change ("/" +:+ join l "/") with (String slash (join l "/")). cbn [split_byte].
    rewrite decide_True by done. cbn [clean_elems]. rewrite bool_decide_eq_true_2 by done. cbn [orb].
    destruct l as [|e l]; [done|]. by rewrite split_join, Hid by done.
  - destruct l as [|e l]; [done|].
    rewrite is_rooted_join, split_join, Hid by done. done.
Qed.

(** Cleaning a clean path changes nothing. *)
Lemma Clean_idemp path : Clean (Clean path) = Clean path.
Proof.
  destruct (Clean_clean path) as (l & -> & Hl). destruct (clean_render _ _ Hl) as [Hr Hc].
  unfold Clean. by rewrite Hr, Hc.
Qed.

Lemma render_inj rooted l k :
  clean_list rooted l → clean_list rooted k → render rooted l = render rooted k → l = k.
Proof.
  intros Hl Hk Heq. destruct (clean_render _ _ Hl) as [_ <-], (clean_render _ _ Hk) as [_ <-].
  by rewrite Heq.
Qed.

Lemma clean_elems_snoc rooted stack l e :
  proper e → e ≠ ".." → clean_elems rooted stack (l ++ [e]) = clean_elems rooted stack l ++ [e].
Proof.
  intros (H1 & H2 & _) H3. revert stack. induction l as [|x l IH]; intros stack; cbn.
  - by rewrite !bool_decide_eq_false_2 by done.
  - repeat case_match; apply IH.
Qed.

Lemma split_app_elem d e : no_slash e → split_byte (d +:+ "/" +:+ e) slash = split_byte d slash ++ [e].
Proof.
  intros He. induction d as [|a d IH]; str_simpl.
  - rewrite split_whole by done. done.
  - case_decide; [by rewrite IH|]. rewrite IH. pose proof (split_byte_ne d slash). by destruct (split_byte d slash).
Qed.

Lemma is_rooted_app d t : d ≠ "" → is_rooted (d +:+ t) = is_rooted d.
Proof. by destruct d. Qed.

(** Joining a proper element to a non-empty directory. *)
Lemma Join_elem d e :
  d ≠ "" → proper e → e ≠ ".." →
  Join [d; e] = render (is_rooted d) (clean_elems (is_rooted d) [] (split_byte d slash) ++ [e]).
Proof.
  intros Hd He Hne. cbn [Join]. rewrite bool_decide_eq_false_2 by done. unfold Clean. cbn [join].
  rewrite is_rooted_app by done. pose proof He as (_ & _ & Hs).
  by rewrite split_app_elem, clean_elems_snoc.
Qed.

Lemma render_ne rooted l : clean_list rooted l → render rooted l ≠ "".
Proof.
  intros [Hp _]. destruct rooted; [done|]. destruct l as [|e l]; [done|].
  apply Forall_inv in Hp as (He & _). cbn. destruct e; [done|]. by destruct l.
Qed.

Lemma clean_dir d : clean_list (is_rooted d) (clean_elems (is_rooted d) [] (split_byte d slash)).
Proof.
  apply clean_elems_clean; [apply split_no_slash|].
  split; [constructor|]. exists 0%nat, []. split; [done|]. split; [done|]. by intros ?%not_elem_of_nil.
Qed.

(** Two elements below a directory. *)
Lemma Join_two d e f :
  d ≠ "" → proper e → e ≠ ".." → proper f → f ≠ ".." →
  let base := clean_elems (is_rooted d) [] (split_byte d slash) in
  Join [Join [d; e]; f] = render (is_rooted d) (base ++ [e; f]) ∧
  clean_list (is_rooted d) (base ++ [e; f]).
Proof.
  intros Hd He Hne Hf Hnf. cbv zeta. rewrite (Join_elem d e) by done.
  pose proof (clean_list_snoc _ _ e (clean_dir d) He Hne) as Hc.
  destruct (clean_render _ _ Hc) as [Hr Hs].
  rewrite Join_elem by (try apply render_ne; done). rewrite Hr, Hs.
  rewrite <-app_assoc. split; [done|]. change [e; f] with ([e] ++ [f]). rewrite app_assoc.
  by apply clean_list_snoc.
Qed.

Lemma Clean_Join elems : Join elems ≠ "" → Clean (Join elems) = Join elems.
Proof.
  induction elems as [|e es IH]; [done|]. cbn [Join]. case_bool_decide; [done|].
  intros _. apply Clean_idemp.
Qed.
