(* ===== verification/Prog.v ===== *)
(** Programs that call their environment: a tree of calls whose continuations
    depend on the answers.  A component with effects on several others is
    written once as such a tree and then read in three ways: as the set of its
    traces under an arbitrary environment ([traces]), as a function of a state
    that answers the calls ([exec_prog]), and as a sequence of small steps that
    other programs may interleave with ([prog_step]). *)
From S2P Require Import Prelude.

Section prog.
Context {E : Type → Type}.

Inductive prog (R : Type) : Type :=
  | Ret (r : R)
  | Call {A : Type} (e : E A) (k : A → prog R).
Arguments Ret {R} r.
Arguments Call {R A} e k.

Definition do {A} (e : E A) : prog A := Call e Ret.

Fixpoint pbind {A B} (f : A → prog B) (p : prog A) : prog B :=
  match p with
  | Ret a => f a
  | Call e k => Call e (λ x, pbind f (k x))
  end.

(** ** Traces: the calls made and the answers received, with the result. *)
Record event := Event { ev_type : Type; ev_call : E ev_type; ev_answer : ev_type }.

Inductive traces {R} : prog R → list event → R → Prop :=
  | traces_ret r : traces (Ret r) [] r
  | traces_call A (e : E A) k a tr r :
      traces (k a) tr r → traces (Call e k) (Event A e a :: tr) r.

Lemma traces_Ret {R} (r r' : R) tr : traces (Ret r) tr r' ↔ tr = [] ∧ r' = r.
Proof.
  split.
  - intros Ht. refine (match Ht in traces p tr r' return
      match p with Ret r => tr = [] ∧ r' = r | _ => True end with
      | traces_ret _ => conj eq_refl eq_refl | traces_call _ _ _ _ _ _ _ => I end).
  - intros [-> ->]. constructor.
Qed.

Lemma traces_Call {R A} (e : E A) (k : A → prog R) tr r :
  traces (Call e k) tr r ↔ ∃ a tr', tr = Event A e a :: tr' ∧ traces (k a) tr' r.
Proof.
  split.
  - intros Ht. refine (match Ht in traces p tr r return
      match p with Ret _ => True
      | Call e k => ∃ a tr', tr = Event _ e a :: tr' ∧ traces (k a) tr' r end with
      | traces_ret _ => I | traces_call _ _ _ _ _ _ H => _ end). eauto.
  - intros (a & tr' & -> & Hk). by constructor.
Qed.

Lemma traces_pbind {A B} (p : prog A) (f : A → prog B) tr r :
  traces (pbind f p) tr r ↔
  ∃ a tr1 tr2, tr = tr1 ++ tr2 ∧ traces p tr1 a ∧ traces (f a) tr2 r.
Proof.
  revert tr. induction p as [a|X e k IH]; intros tr; cbn.
  - split.
    + intros Ht. exists a, [], tr. by rewrite traces_Ret.
    + intros (a' & tr1 & tr2 & -> & [-> ->]%traces_Ret & Hf). done.
  - rewrite traces_Call. split.
    + intros (x & tr' & -> & Hk). apply IH in Hk as (a & tr1 & tr2 & -> & H1 & H2).
      exists a, (Event X e x :: tr1), tr2. rewrite traces_Call. eauto 10.
    + intros (a & tr1 & tr2 & -> & H1 & H2). apply traces_Call in H1 as (x & tr' & -> & H1).
      exists x, (tr' ++ tr2). split; [done|]. apply IH. eauto 10.
Qed.

(** ** Running against a state *)
Fixpoint exec_prog {W R} (h : ∀ A, E A → W → W * A) (p : prog R) (w : W) : W * R :=
  match p with
  | Ret r => (w, r)
  | Call e k => let '(w', a) := h _ e w in exec_prog h (k a) w'
  end.

(** The run of a state is one of the traces. *)
Lemma exec_prog_trace {W R} (h : ∀ A, E A → W → W * A) (p : prog R) w :
  ∃ tr, traces p tr (exec_prog h p w).2.
Proof.
  revert w. induction p as [r|A e k IH]; intros w; cbn.
  - exists []. constructor.
  - destruct (h A e w) as [w' a]. destruct (IH a w') as [tr Htr].
    exists (Event A e a :: tr). by constructor.
Qed.

(** ** Small steps *)
Inductive prog_step {W R} (h : ∀ A, E A → W → W → A → Prop) : W * prog R → W * prog R → Prop :=
  | step_call A (e : E A) k w w' a : h A e w w' a → prog_step h (w, Call e k) (w', k a).

End prog.
Arguments prog : clear implicits.
Arguments Ret {E R} r.
Arguments Call {E R A} e k.
Arguments event : clear implicits.
Arguments Event {E} ev_type ev_call ev_answer.

#[export] Instance prog_ret {E} : MRet (prog E) := λ A a, Ret a.
#[export] Instance prog_bind {E} : MBind (prog E) := λ A B f p, pbind f p.

(** Calls satisfying a predicate, in order. *)
Definition calls {E} (P : event E → bool) (tr : list (event E)) : list (event E) :=
  filter (λ e, P e = true) tr.

Lemma calls_app {E} (P : event E → bool) tr tr' : calls P (tr ++ tr') = calls P tr ++ calls P tr'.
Proof. apply filter_app. Qed.
