(* ===== verification/Progress.v ===== *)
(** The progress hub (src/progress/hub.go): per-run broadcasters with a ring
    buffer of the last [bufSize] progress messages, fan-out to bounded
    subscriber channels, completion, delayed cleanup, and the line writer that
    feeds the hub from a strategy's stdout. *)
From S2P Require Import Prelude GoStrings.
From Stdlib Require Import SpecFloat Ascii.

(** ** Data *)
Section data.

(** [ProgressMessage]; [int64] fields as [Z], [Pct] an IEEE double. *)
Record ProgressMessage := {
  Type_ : string; Step : Z; TotalSteps : Z; CurrentDate : string;
  TargetDate : string; Pct : spec_float; ElapsedMS : Z; EtaMS : Z;
  Measurements : Z;
}.

Record TerminalEvent := { Status : string; Error_ : string }.

(** [Event]: the union sent on subscriber channels. *)
Record Event := { Progress : option ProgressMessage; Terminal : option TerminalEvent }.

Definition progress_event (m : ProgressMessage) : Event :=
  {| Progress := Some m; Terminal := None |}.
Definition terminal_event (t : TerminalEvent) : Event :=
  {| Progress := None; Terminal := Some t |}.

Definition bufSize : nat := 20.
Definition subChanCap : nat := 32.

(** A Go zero [ProgressMessage]. *)
Definition zero_msg : ProgressMessage :=
  {| Type_ := ""; Step := 0; TotalSteps := 0; CurrentDate := ""; TargetDate := "";
     Pct := S754_zero false; ElapsedMS := 0; EtaMS := 0; Measurements := 0 |}.

(** Heap addresses of channels and broadcasters. *)
Definition loc := nat.

(** A buffered channel of capacity [subChanCap]. *)
Record chan := { queue : list Event; closed : bool }.

(** [runBroadcaster]. [subs] holds channel references. *)
Record runBroadcaster := {
  buf : list ProgressMessage; head : nat; count : nat;
  subs : list loc; terminal : option TerminalEvent;
}.

Definition new_broadcaster : runBroadcaster :=
  {| buf := replicate bufSize zero_msg; head := 0; count := 0; subs := []; terminal := None |}.

(** The hub and the store its pointers live in. *)
Record Hub := {
  runs : gmap uuid loc;
  bcasts : gmap loc runBroadcaster;
  chans : gmap loc chan;
  fresh : loc;
}.

Definition NewHub : Hub := {| runs := ∅; bcasts := ∅; chans := ∅; fresh := 0%nat |}.

(** What an operation can do: finish, panic, or block for ever. *)
Inductive outcome (A : Type) := Done (a : A) | Panic | Block.

End data.
Arguments Done {A} a.
Arguments Panic {A}.
Arguments Block {A}.

#[export] Instance outcome_ret : MRet outcome := λ A a, Done a.
#[export] Instance outcome_bind : MBind outcome := λ A B f m,
  match m with Done a => f a | Panic => Panic | Block => Block end.

(** ** Channel operations *)
Section channels.

(** [close(ch)]: closing a closed (or nil) channel panics. *)
Definition chan_close (cs : gmap loc chan) (ch : loc) : outcome (gmap loc chan) :=
  match cs !! ch with
  | Some c => if closed c then Panic
              else Done (<[ch := {| queue := queue c; closed := true |}]> cs)
  | None => Panic
  end.

(** [select { case ch <- e: ...; default: ... }]: [true] when the send went
    through; a closed channel panics. *)
Definition chan_try_send (cs : gmap loc chan) (ch : loc) (e : Event) :
    outcome (gmap loc chan * bool) :=
  match cs !! ch with
  | Some c =>
    if closed c then Panic
    else if (length (queue c) <? subChanCap)%nat
    then Done (<[ch := {| queue := queue c ++ [e]; closed := false |}]> cs, true)
    else Done (cs, false)
  | None => Done (cs, false)
  end.

(** [ch <- e] outside a select: blocks on a full channel. *)
Definition chan_send (cs : gmap loc chan) (ch : loc) (e : Event) : outcome (gmap loc chan) :=
  r ← chan_try_send cs ch e;
  if r.2 : bool then Done r.1 else Block.

(** [evt, ok := <-ch] when something is ready: an event, or the close. *)
Definition chan_recv (cs : gmap loc chan) (ch : loc) : option (gmap loc chan * option Event) :=
  match cs !! ch with
  | Some c =>
    match queue c with
    | e :: q => Some (<[ch := {| queue := q; closed := closed c |}]> cs, Some e)
    | [] => if closed c then Some (cs, None) else None
    end
  | None => None
  end.

End channels.

(** ** Hub operations *)
Section operations.

(** [Hub.broadcaster]: get or create. *)
Definition broadcaster (h : Hub) (runID : uuid) : Hub * loc :=
  match runs h !! runID with
  | Some b => (h, b)
  | None =>
    let b := fresh h in
    ({| runs := <[runID := b]> (runs h);
        bcasts := <[b := new_broadcaster]> (bcasts h);
        chans := chans h; fresh := S b |}, b)
  end.

(** The ring part of [publish]. *)
Definition ring_push (b : runBroadcaster) (msg : ProgressMessage) : runBroadcaster :=
  let idx := ((head b + count b) mod bufSize)%nat in
  let buf' := <[idx := msg]> (buf b) in
  if (count b <? bufSize)%nat
  then {| buf := buf'; head := head b; count := S (count b);
          subs := subs b; terminal := terminal b |}
  else {| buf := buf'; head := ((head b + 1) mod bufSize)%nat; count := count b;
          subs := subs b; terminal := terminal b |}.

(** The fan-out loop of [publish]: subscribers whose channel is full are closed
    and dropped; the others stay, in order. *)
Fixpoint fan_out (cs : gmap loc chan) (evt : Event) (l : list loc) :
    outcome (gmap loc chan * list loc) :=
  match l with
  | [] => Done (cs, [])
  | ch :: l =>
    r ← chan_try_send cs ch evt;
    if r.2 : bool then
      s ← fan_out r.1 evt l; Done (s.1, ch :: s.2)
    else
      cs' ← chan_close r.1 ch; fan_out cs' evt l
  end.

Definition set_subs (b : runBroadcaster) (l : list loc) : runBroadcaster :=
  {| buf := buf b; head := head b; count := count b; subs := l; terminal := terminal b |}.

Definition set_bcast (h : Hub) (p : loc) (b : runBroadcaster) (cs : gmap loc chan) : Hub :=
  {| runs := runs h; bcasts := <[p := b]> (bcasts h); chans := cs; fresh := fresh h |}.

(** [runBroadcaster.publish], on the broadcaster at address [p]. *)
Definition publish_at (h : Hub) (p : loc) (msg : ProgressMessage) : outcome Hub :=
  match bcasts h !! p with
  | None => Panic
  | Some b =>
    let b' := ring_push b msg in
    r ← fan_out (chans h) (progress_event msg) (subs b');
    Done (set_bcast h p (set_subs b' r.2) r.1)
  end.

(** [Hub.Publish]. *)
Definition Publish (h : Hub) (runID : uuid) (msg : ProgressMessage) : outcome Hub :=
  let '(h, p) := broadcaster h runID in publish_at h p msg.

(** [runBroadcaster.latest]. *)
Definition latest (b : runBroadcaster) : option ProgressMessage :=
  if decide (count b = 0%nat) then None
  else Some (nth ((head b + count b - 1) mod bufSize) (buf b) zero_msg).

(** [Hub.Latest]: never creates a broadcaster. *)
Definition Latest (h : Hub) (runID : uuid) : option ProgressMessage :=
  match runs h !! runID with
  | Some p => b ← bcasts h !! p; latest b
  | None => None
  end.

(** The replay loop of [subscribe]: [n] messages from ring index [i] on. *)
Fixpoint replay (b : runBroadcaster) (cs : gmap loc chan) (ch : loc) (i n : nat) :
    outcome (gmap loc chan) :=
  match n with
  | O => Done cs
  | S n =>
    let msg := nth ((head b + i) mod bufSize) (buf b) zero_msg in
    cs' ← chan_send cs ch (progress_event msg);
    replay b cs' ch (S i) n
  end.

(** [runBroadcaster.subscribe]; the returned channel, and whether [unsub] is
    live (on a terminal broadcaster it is the empty function). *)
Definition subscribe_at (h : Hub) (p : loc) : outcome (Hub * loc * bool) :=
  match bcasts h !! p with
  | None => Panic
  | Some b =>
    let ch := fresh h in
    let cs := <[ch := {| queue := []; closed := false |}]> (chans h) in
    match terminal b with
    | Some t =>
      cs ← chan_send cs ch (terminal_event t);
      cs ← chan_close cs ch;
      Done ({| runs := runs h; bcasts := bcasts h; chans := cs; fresh := S ch |}, ch, false)
    | None =>
      cs ← replay b cs ch 0 (count b);
      Done ({| runs := runs h; bcasts := <[p := set_subs b (subs b ++ [ch])]> (bcasts h);
               chans := cs; fresh := S ch |}, ch, true)
    end
  end.

Definition Subscribe (h : Hub) (runID : uuid) : outcome (Hub * loc * bool) :=
  let '(h, p) := broadcaster h runID in subscribe_at h p.

(** The closure [unsub] of a live subscription. *)
Fixpoint remove_first (l : list loc) (ch : loc) : option (list loc) :=
  match l with
  | [] => None
  | s :: l => if decide (s = ch) then Some l else (cons s) <$> remove_first l ch
  end.

Definition unsub (h : Hub) (p ch : loc) : outcome Hub :=
  match bcasts h !! p with
  | None => Panic
  | Some b =>
    match remove_first (subs b) ch with
    | Some l => cs ← chan_close (chans h) ch; Done (set_bcast h p (set_subs b l) cs)
    | None => Done h
    end
  end.

(** The notification loop of [complete]. *)
Fixpoint notify_terminal (cs : gmap loc chan) (e : Event) (l : list loc) :
    outcome (gmap loc chan) :=
  match l with
  | [] => Done cs
  | ch :: l =>
    r ← chan_try_send cs ch e;
    cs' ← chan_close r.1 ch;
    notify_terminal cs' e l
  end.

(** [runBroadcaster.complete]. *)
Definition complete_at (h : Hub) (p : loc) (evt : TerminalEvent) : outcome Hub :=
  match bcasts h !! p with
  | None => Panic
  | Some b =>
    match terminal b with
    | Some _ => Done h
    | None =>
      cs ← notify_terminal (chans h) (terminal_event evt) (subs b);
      Done (set_bcast h p {| buf := buf b; head := head b; count := count b;
                             subs := []; terminal := Some evt |} cs)
    end
  end.

(** [Hub.Complete], without the cleanup goroutine it starts. *)
Definition Complete (h : Hub) (runID : uuid) (status errMsg : string) : outcome Hub :=
  let '(h, p) := broadcaster h runID in
  complete_at h p {| Status := status; Error_ := errMsg |}.

(** The body of that goroutine, ten seconds later: the map entry goes, the
    broadcaster it pointed to may live on in closures. *)
Definition cleanup (h : Hub) (runID : uuid) : Hub :=
  {| runs := delete runID (runs h); bcasts := bcasts h; chans := chans h; fresh := fresh h |}.

End operations.

(** ** The ring buffer refines "the last [bufSize] messages" *)
Section ring.

(** Abstraction function: the buffered messages, oldest first. *)
Definition contents (b : runBroadcaster) : list ProgressMessage :=
  map (λ i, nth ((head b + i) mod bufSize) (buf b) zero_msg) (seq 0 (count b)).

Definition ring_wf (b : runBroadcaster) : Prop :=
  length (buf b) = bufSize ∧ (head b < bufSize)%nat ∧ (count b ≤ bufSize)%nat ∧
  ((count b < bufSize)%nat → head b = 0%nat).

Lemma length_contents b : length (contents b) = count b.
Proof. unfold contents. by rewrite length_map, length_seq. Qed.

Lemma lookup_contents b i :
  (i < count b)%nat →
  contents b !! i = Some (nth ((head b + i) mod bufSize) (buf b) zero_msg).
Proof.
  intros Hi. unfold contents. rewrite list_lookup_fmap, lookup_seq_lt by done. done.
Qed.

Lemma ring_wf_new : ring_wf new_broadcaster.
Proof. unfold ring_wf; cbn. unfold bufSize. repeat split; lia. Qed.

Lemma ring_push_wf b msg : ring_wf b → ring_wf (ring_push b msg).
Proof.
  intros (Hl & Hh & Hc & H0). unfold ring_push, ring_wf; cbv zeta.
  destruct (Nat.ltb_spec (count b) bufSize); cbn [buf head count]; rewrite length_insert.
  - repeat split; try done; lia.
  - repeat split; try done; try lia.
    apply Nat.mod_upper_bound. unfold bufSize; lia.
Qed.

Lemma nth_insert_ne {A} (l : list A) i j x d :
  i ≠ j → nth j (<[i:=x]> l) d = nth j l d.
Proof. intros. rewrite !nth_lookup, list_lookup_insert_ne; done. Qed.

Lemma nth_insert_eq {A} (l : list A) i x d :
  (i < length l)%nat → nth i (<[i:=x]> l) d = x.
Proof. intros. rewrite nth_lookup, list_lookup_insert_eq; done. Qed.

(** Two ring positions coincide only for the same offset. *)
Lemma ring_index_ne h i j :
  (i < bufSize)%nat → (j < bufSize)%nat → i ≠ j →
  ((h + i) mod bufSize ≠ (h + j) mod bufSize)%nat.
Proof.
  unfold bufSize. intros Hi Hj Hne E. apply Hne.
  pose proof (Nat.div_mod (h + i) 20 ltac:(lia)).
  pose proof (Nat.div_mod (h + j) 20 ltac:(lia)).
  pose proof (Nat.mod_upper_bound (h + i) 20 ltac:(lia)). lia.
Qed.

Lemma ring_push_contents b msg :
  ring_wf b → contents (ring_push b msg) = lastn bufSize (contents b ++ [msg]).
Proof.
  intros (Hl & Hh & Hc & H0). apply list_eq_same_length with (n := ((count b + 1) `min` bufSize)%nat).
  { rewrite length_lastn, length_app, length_contents; cbn [length]. lia. }
  { rewrite length_contents. unfold ring_push; cbv zeta.
    destruct (Nat.ltb_spec (count b) bufSize); cbn [count]; lia. }
  intros i x y Hi. unfold ring_push; cbv zeta.
  destruct (Nat.ltb_spec (count b) bufSize) as [Hlt|Hge].
  - rewrite lastn_all by (rewrite length_app, length_contents; cbn; lia).
    rewrite lookup_contents by (cbn; lia). cbn [head buf].
    destruct (decide (i = count b)) as [->|Hne].
    + rewrite nth_insert_eq by (rewrite Hl; apply Nat.mod_upper_bound; unfold bufSize; lia).
      rewrite lookup_app_r, length_contents, Nat.sub_diag by (rewrite length_contents; lia).
      cbn. by intros [= <-] [= <-].
    + rewrite nth_insert_ne by (apply ring_index_ne; lia).
      rewrite lookup_app_l by (rewrite length_contents; lia).
      rewrite lookup_contents by lia. congruence.
  - assert (count b = bufSize) as Hcb by lia. rewrite lookup_contents by (cbn; lia).
    cbn [head buf]. unfold lastn. rewrite length_app, length_contents; cbn [length].
    rewrite Hcb. replace (bufSize + 1 - bufSize)%nat with 1%nat by lia.
    rewrite lookup_drop. rewrite Nat.Div0.add_mod_idemp_l.
    destruct (decide (i = 19)%nat) as [->|Hne].
    + replace ((head b + 1 + 19) mod bufSize)%nat with ((head b + bufSize) mod bufSize)%nat
        by (f_equal; unfold bufSize; lia).
      rewrite nth_insert_eq by (rewrite Hl; apply Nat.mod_upper_bound; unfold bufSize; lia).
      rewrite lookup_app_r, length_contents, Hcb by (rewrite length_contents; unfold bufSize in *; lia).
      cbn. by intros [= <-] [= <-].
    + assert (i < 19)%nat by (unfold bufSize in *; lia).
      replace ((head b + bufSize) mod bufSize)%nat with ((head b + 0) mod bufSize)%nat.
      2:{ rewrite Nat.add_0_r. rewrite <-(Nat.mul_1_l bufSize) at 2.
          by rewrite Nat.Div0.mod_add. }
      rewrite <-Nat.add_assoc, nth_insert_ne by (apply ring_index_ne; unfold bufSize in *; lia).
      rewrite lookup_app_l by (rewrite length_contents; unfold bufSize in *; lia).
      rewrite lookup_contents by (unfold bufSize in *; lia). congruence.
Qed.

Lemma contents_set_subs b l : contents (set_subs b l) = contents b.
Proof. done. Qed.

(** [latest] is the newest buffered message. *)
Lemma latest_contents b : ring_wf b → latest b = last (contents b).
Proof.
  intros (Hl & Hh & Hc & H0). unfold latest. rewrite last_lookup, length_contents.
  case_decide as Hz.
  - rewrite Hz. cbn. unfold contents. by rewrite Hz.
  - rewrite lookup_contents by lia. do 2 f_equal. f_equal. lia.
Qed.

Definition push_all (b : runBroadcaster) (msgs : list ProgressMessage) : runBroadcaster :=
  foldl ring_push b msgs.

End ring.

(** ** The hub invariant: what every critical section restores *)
Section invariant.

Definition open_chan (cs : gmap loc chan) (ch : loc) : Prop :=
  ∃ q, cs !! ch = Some {| queue := q; closed := false |}.

(** Room for one more event: the outcome of a non-blocking send on an open channel. *)
Definition room (cs : gmap loc chan) (ch : loc) : bool :=
  match cs !! ch with Some c => (length (queue c) <? subChanCap)%nat | None => false end.

Definition bcast_wf (cs : gmap loc chan) (b : runBroadcaster) : Prop :=
  ring_wf b ∧ NoDup (subs b) ∧ (∀ ch, ch ∈ subs b → open_chan cs ch) ∧
  (terminal b ≠ None → subs b = []).

Record hub_inv (h : Hub) : Prop := {
  inv_runs : ∀ r p, runs h !! r = Some p → is_Some (bcasts h !! p);
  inv_bcasts : ∀ p b, bcasts h !! p = Some b → bcast_wf (chans h) b;
  inv_disjoint : ∀ p1 p2 b1 b2 ch, bcasts h !! p1 = Some b1 → bcasts h !! p2 = Some b2 →
    ch ∈ subs b1 → ch ∈ subs b2 → p1 = p2;
  inv_fresh_b : ∀ p, is_Some (bcasts h !! p) → (p < fresh h)%nat;
  inv_fresh_c : ∀ ch, is_Some (chans h !! ch) → (ch < fresh h)%nat;
}.

Lemma chan_try_send_open cs ch e q :
  cs !! ch = Some {| queue := q; closed := false |} →
  chan_try_send cs ch e =
    Done (if room cs ch then <[ch := {| queue := q ++ [e]; closed := false |}]> cs else cs,
          room cs ch).
Proof. intros H. unfold chan_try_send, room. rewrite H. cbn. by case_match. Qed.

Lemma chan_close_open cs ch q :
  cs !! ch = Some {| queue := q; closed := false |} →
  chan_close cs ch = Done (<[ch := {| queue := q; closed := true |}]> cs).
Proof. intros H. unfold chan_close. by rewrite H. Qed.

Lemma room_insert_ne cs ch ch' c : ch ≠ ch' → room (<[ch' := c]> cs) ch = room cs ch.
Proof. intros. unfold room. by rewrite lookup_insert_ne. Qed.

(** What the fan-out leaves in channel [ch]. *)
Definition fanned (cs : gmap loc chan) (e : Event) (ch : loc) : option chan :=
  (λ c, if (length (queue c) <? subChanCap)%nat
        then {| queue := queue c ++ [e]; closed := false |}
        else {| queue := queue c; closed := true |}) <$> cs !! ch.

(** The fan-out never panics on open channels; it keeps, in order, exactly the
    subscribers with room, delivers to each of them, and closes the others. *)
Lemma fan_out_spec cs e l :
  NoDup l → (∀ ch, ch ∈ l → open_chan cs ch) →
  ∃ cs', fan_out cs e l = Done (cs', filter (λ ch, room cs ch = true) l) ∧
    (∀ ch, ch ∉ l → cs' !! ch = cs !! ch) ∧
    (∀ ch, ch ∈ l → cs' !! ch = fanned cs e ch).
Proof.
  revert cs. induction l as [|ch l IH]; intros cs Hnd Hop.
  - exists cs. split; [done|]. split; [done|]. intros ch Hch. set_solver.
  - apply NoDup_cons in Hnd as [Hni Hnd]. destruct (Hop ch) as [q Hq]; [set_solver|].
    cbn [fan_out]. rewrite (chan_try_send_open _ _ _ _ Hq). cbn [mbind outcome_bind fst snd].
    set (cs1 := if room cs ch then <[ch := {| queue := q ++ [e]; closed := false |}]> cs
                else <[ch := {| queue := q; closed := true |}]> cs).
    assert (∀ ch', ch' ≠ ch → cs1 !! ch' = cs !! ch') as Hcs1.
    { intros ch' Hne. unfold cs1. destruct (room cs ch); by rewrite lookup_insert_ne. }
    destruct (IH cs1 Hnd) as (cs' & Hfo & Hout & Hin).
    { intros ch' Hch'. destruct (Hop ch') as [q' Hq']; [set_solver|].
      exists q'. rewrite Hcs1; [done|]. set_solver. }
    assert (filter (λ ch', room cs1 ch' = true) l = filter (λ ch', room cs ch' = true) l) as Hf.
    { apply list_filter_ext_in. intros ch' Hch'. unfold room.
      rewrite Hcs1; [done|]. set_solver. }
    rewrite Hf in Hfo. exists cs'. rewrite filter_cons. split; [|split].
    + destruct (room cs ch) eqn:Hr; cbn [mbind outcome_bind].
      * unfold cs1 in Hfo. rewrite Hfo; cbn [mbind outcome_bind fst snd].
        by rewrite decide_True by done.
      * rewrite (chan_close_open _ _ _ Hq). cbn [mbind outcome_bind].
        unfold cs1 in Hfo. rewrite Hfo. by rewrite decide_False by done.
    + intros ch' Hch'. rewrite Hout by set_solver. apply Hcs1. set_solver.
    + intros ch' Hch'. destruct (decide (ch' = ch)) as [->|Hne].
      * rewrite Hout by done. unfold cs1, fanned, room. rewrite Hq.
        cbn [queue fmap option_fmap option_map].
        destruct (length q <? subChanCap)%nat; by rewrite lookup_insert_eq.
      * rewrite Hin by set_solver. unfold fanned. by rewrite Hcs1.
Qed.

(** The notification loop closes every subscriber, after a terminal event if it fits. *)
Lemma notify_terminal_spec cs e l :
  NoDup l → (∀ ch, ch ∈ l → open_chan cs ch) →
  ∃ cs', notify_terminal cs e l = Done cs' ∧
    (∀ ch, ch ∉ l → cs' !! ch = cs !! ch) ∧
    (∀ ch q, ch ∈ l → cs !! ch = Some {| queue := q; closed := false |} →
      cs' !! ch = Some {| queue := q ++ (if room cs ch then [e] else []); closed := true |}).
Proof.
  revert cs. induction l as [|ch l IH]; intros cs Hnd Hop.
  - exists cs. split; [done|]. split; [done|]. intros ch q Hch. set_solver.
  - apply NoDup_cons in Hnd as [Hni Hnd]. destruct (Hop ch) as [q Hq]; [set_solver|].
    cbn [notify_terminal]. rewrite (chan_try_send_open _ _ _ _ Hq). cbn [mbind outcome_bind fst].
    assert (chan_close (if room cs ch then <[ch := {| queue := q ++ [e]; closed := false |}]> cs else cs) ch
      = Done (<[ch := {| queue := q ++ (if room cs ch then [e] else []); closed := true |}]> cs)) as ->.
    { destruct (room cs ch).
      - erewrite chan_close_open by apply lookup_insert_eq. by rewrite insert_insert_eq.
      - rewrite app_nil_r. by apply chan_close_open. }
    cbn [mbind outcome_bind]. set (cs1 := <[ch := _]> cs).
    assert (∀ ch', ch' ≠ ch → cs1 !! ch' = cs !! ch') as Hcs1.
    { intros ch' Hne. unfold cs1. by rewrite lookup_insert_ne. }
    destruct (IH cs1 Hnd) as (cs' & Hn & Hout & Hin).
    { intros ch' Hch'. destruct (Hop ch') as [q' Hq']; [set_solver|].
      exists q'. rewrite Hcs1; [done|]. set_solver. }
    exists cs'. split; [exact Hn|split].
    + intros ch' Hch'. rewrite Hout by set_solver. apply Hcs1. set_solver.
    + intros ch' q' Hch' Hq'. destruct (decide (ch' = ch)) as [->|Hne].
      * rewrite Hout by done. unfold cs1. rewrite lookup_insert_eq. by simplify_eq.
      * erewrite Hin; [|set_solver|rewrite Hcs1; [exact Hq'|done]].
        unfold room. by rewrite Hcs1.
Qed.

(** Replaying at most [subChanCap] messages into a fresh channel never blocks. *)
Lemma replay_spec b cs ch i n q :
  cs !! ch = Some {| queue := q; closed := false |} →
  (length q + n ≤ subChanCap)%nat →
  replay b cs ch i n =
    Done (<[ch := {| queue := q ++ map (λ j, progress_event
            (nth ((head b + j) mod bufSize) (buf b) zero_msg)) (seq i n); closed := false |}]> cs).
Proof.
  revert cs i q. induction n as [|n IH]; intros cs i q Hq Hn.
  - cbn. by rewrite app_nil_r, insert_id.
  - cbn [replay]. unfold chan_send. rewrite (chan_try_send_open _ _ _ _ Hq).
    assert (room cs ch = true) as ->.
    { unfold room. rewrite Hq. apply Nat.ltb_lt. cbn [queue]. lia. }
    cbn [mbind outcome_bind fst snd].
    erewrite IH; [|apply lookup_insert_eq|rewrite length_app; cbn [length]; lia].
    rewrite insert_insert_eq. cbn [seq map]. by rewrite <-app_assoc.
Qed.

Lemma remove_first_spec l ch :
  NoDup l →
  match remove_first l ch with
  | Some l' => ch ∈ l ∧ l ≡ₚ ch :: l' ∧ ch ∉ l' ∧ NoDup l'
  | None => ch ∉ l
  end.
Proof.
  induction l as [|s l IH]; intros Hnd; cbn; [set_solver|].
  apply NoDup_cons in Hnd as [Hni Hnd]. case_decide as Hs.
  - subst. split; [set_solver|]. done.
  - specialize (IH Hnd). destruct (remove_first l ch) as [l'|]; cbn; [|set_solver].
    destruct IH as (Hin & Hp & Hni' & Hnd'). split; [set_solver|]. split; [|split].
    + rewrite Hp. apply Permutation_swap.
    + set_solver.
    + constructor; [|done]. rewrite Hp in Hni. set_solver.
Qed.

End invariant.

(** ** Interleavings of critical sections

    Goroutines hold broadcaster pointers and channel references; each critical
    section is one [step], in any order.  [OpBroadcaster] is the get-or-create
    lookup, [OpRecv] a consumer's receive, [OpCleanup] the delayed map delete. *)
Section interleaving.

Inductive op :=
  | OpBroadcaster (r : uuid)
  | OpPublish (p : loc) (m : ProgressMessage)
  | OpSubscribe (p : loc)
  | OpUnsub (p ch : loc)
  | OpComplete (p : loc) (t : TerminalEvent)
  | OpCleanup (r : uuid)
  | OpRecv (ch : loc).

(** The pointer an operation dereferences was returned by an earlier lookup. *)
Definition op_valid (h : Hub) (o : op) : Prop :=
  match o with
  | OpPublish p _ | OpSubscribe p | OpUnsub p _ | OpComplete p _ => is_Some (bcasts h !! p)
  | _ => True
  end.

(** One critical section; the second component lists the events received. *)
Definition step (h : Hub) (o : op) : outcome (Hub * list (loc * Event)) :=
  match o with
  | OpBroadcaster r => Done ((broadcaster h r).1, [])
  | OpPublish p m => h' ← publish_at h p m; Done (h', [])
  | OpSubscribe p => r ← subscribe_at h p; Done (r.1.1, [])
  | OpUnsub p ch => h' ← unsub h p ch; Done (h', [])
  | OpComplete p t => h' ← complete_at h p t; Done (h', [])
  | OpCleanup r => Done (cleanup h r, [])
  | OpRecv ch =>
    match chan_recv (chans h) ch with
    | Some (cs, Some e) =>
      Done ({| runs := runs h; bcasts := bcasts h; chans := cs; fresh := fresh h |}, [(ch, e)])
    | _ => Done (h, [])
    end
  end.

Lemma inv_NewHub : hub_inv NewHub.
Proof.
  split; cbn; intros; simplify_map_eq; by match goal with H : is_Some None |- _ => destruct H end.
Qed.

(** Rewriting one broadcaster and the channels it alone refers to. *)
Lemma inv_update h p b b' cs' :
  hub_inv h → bcasts h !! p = Some b → ring_wf b' → NoDup (subs b') →
  (∀ ch, ch ∈ subs b' → ch ∈ subs b ∧ open_chan cs' ch) →
  (terminal b' ≠ None → subs b' = []) →
  (∀ ch, ch ∉ subs b → cs' !! ch = chans h !! ch) →
  hub_inv (set_bcast h p b' cs').
Proof.
  intros [Hr Hb Hd Hfb Hfc] Hp Hring Hnd Hsubs Hterm Hcs.
  assert (∀ p2 b2, <[p := b']> (bcasts h) !! p2 = Some b2 →
    ∃ b0, bcasts h !! p2 = Some b0 ∧ (∀ ch, ch ∈ subs b2 → ch ∈ subs b0)) as Hback.
  { intros p2 b2. destruct (decide (p2 = p)) as [->|Hne].
    - rewrite lookup_insert_eq. intros [= <-]. exists b. split; [done|]. intros. by apply Hsubs.
    - rewrite lookup_insert_ne by done. eauto. }
  split; cbn.
  - intros r q Hq. destruct (decide (q = p)) as [->|Hne].
    + rewrite lookup_insert_eq. eauto.
    + rewrite lookup_insert_ne by done. eauto.
  - intros p2 b2. destruct (decide (p2 = p)) as [->|Hne].
    + rewrite lookup_insert_eq. intros [= <-]. repeat split; try done; try apply Hring.
      intros ch Hch. by apply Hsubs.
    + rewrite lookup_insert_ne by done. intros Hp2. destruct (Hb _ _ Hp2) as (? & ? & Hop & ?).
      repeat split; try done; try apply H. intros ch Hch. destruct (Hop ch Hch) as [q Hq].
      exists q. rewrite Hcs; [done|]. intros Hin. by destruct (Hd _ _ _ _ _ Hp Hp2 Hin Hch).
  - intros p1 p2 b1 b2 ch (b1' & H1 & Hi1)%Hback (b2' & H2 & Hi2)%Hback ??. eauto.
  - intros q. rewrite lookup_insert_is_Some'. intros [->|]; eauto.
  - intros ch Hch. destruct (decide (ch ∈ subs b)) as [Hin|Hni].
    + destruct (Hb _ _ Hp) as (_ & _ & Hop & _). destruct (Hop _ Hin) as [q Hq]. eauto.
    + rewrite Hcs in Hch by done. eauto.
Qed.

Lemma step_publish h p b m :
  hub_inv h → bcasts h !! p = Some b →
  ∃ cs', publish_at h p m = Done (set_bcast h p (set_subs (ring_push b m)
      (filter (λ ch, room (chans h) ch = true) (subs b))) cs') ∧
    (∀ ch, ch ∉ subs b → cs' !! ch = chans h !! ch) ∧
    (∀ ch, ch ∈ subs b → cs' !! ch = fanned (chans h) (progress_event m) ch) ∧
    hub_inv (set_bcast h p (set_subs (ring_push b m)
      (filter (λ ch, room (chans h) ch = true) (subs b))) cs').
Proof.
  intros Hinv Hp. destruct (inv_bcasts _ Hinv _ _ Hp) as (Hring & Hnd & Hop & Ht).
  assert (subs (ring_push b m) = subs b) as Hsubs by (unfold ring_push; cbv zeta; by case_match).
  assert (terminal (ring_push b m) = terminal b) as Hterm
    by (unfold ring_push; cbv zeta; by case_match).
  destruct (fan_out_spec (chans h) (progress_event m) (subs b) Hnd Hop) as (cs' & Hfo & Hout & Hin).
  exists cs'. unfold publish_at. rewrite Hp, Hsubs, Hfo. cbn [mbind outcome_bind fst snd].
  split; [done|]. split; [done|]. split; [done|].
  eapply inv_update; [done|done|by apply (ring_push_wf b m)|by apply NoDup_filter| | |].
  - intros ch [Hroom Hch]%list_elem_of_filter. split; [done|].
    unfold open_chan. rewrite Hin by done. unfold fanned.
    destruct (Hop ch Hch) as [q Hq]. unfold room in Hroom. rewrite Hq in *. cbn [fmap option_fmap option_map].
    rewrite Hroom. eauto.
  - cbn. rewrite Hterm. intros ?. by rewrite Ht.
  - done.
Qed.

Lemma step_complete h p b t :
  hub_inv h → bcasts h !! p = Some b → terminal b = None →
  ∃ cs', complete_at h p t = Done (set_bcast h p {| buf := buf b; head := head b;
      count := count b; subs := []; terminal := Some t |} cs') ∧
    (∀ ch, ch ∉ subs b → cs' !! ch = chans h !! ch) ∧
    (∀ ch q, ch ∈ subs b → chans h !! ch = Some {| queue := q; closed := false |} →
      cs' !! ch = Some {| queue := q ++ (if room (chans h) ch then [terminal_event t] else []);
                          closed := true |}) ∧
    hub_inv (set_bcast h p {| buf := buf b; head := head b; count := count b;
                              subs := []; terminal := Some t |} cs').
Proof.
  intros Hinv Hp Hnone. destruct (inv_bcasts _ Hinv _ _ Hp) as (Hring & Hnd & Hop & Ht).
  destruct (notify_terminal_spec (chans h) (terminal_event t) (subs b) Hnd Hop)
    as (cs' & Hn & Hout & Hin).
  exists cs'. unfold complete_at. rewrite Hp, Hnone, Hn. cbn [mbind outcome_bind].
  split; [done|]. split; [done|]. split; [done|].
  eapply inv_update; [done|done|done|by constructor|set_solver|done|done].
Qed.

Lemma step_unsub h p b ch :
  hub_inv h → bcasts h !! p = Some b →
  ∃ h', unsub h p ch = Done h' ∧ hub_inv h' ∧
    ((ch ∉ subs b ∧ h' = h) ∨
     (∃ l q, subs b ≡ₚ ch :: l ∧ ch ∉ l ∧ chans h !! ch = Some {| queue := q; closed := false |} ∧
        h' = set_bcast h p (set_subs b l) (<[ch := {| queue := q; closed := true |}]> (chans h)))).
Proof.
  intros Hinv Hp. destruct (inv_bcasts _ Hinv _ _ Hp) as (Hring & Hnd & Hop & Ht).
  unfold unsub. rewrite Hp. pose proof (remove_first_spec (subs b) ch Hnd) as Hrm.
  destruct (remove_first (subs b) ch) as [l|].
  - destruct Hrm as (Hin & Hperm & Hni & Hndl). destruct (Hop ch Hin) as [q Hq].
    rewrite (chan_close_open _ _ _ Hq). cbn [mbind outcome_bind].
    eexists. split; [done|]. split; [|right; eauto 6].
    eapply inv_update; [done|done|done|done| | |].
    + intros ch' Hch'. split; [rewrite Hperm; by right|].
      destruct (Hop ch') as [q' Hq']; [rewrite Hperm; by right|].
      exists q'. rewrite lookup_insert_ne; [done|]. set_solver.
    + cbn. intros Htm. rewrite Ht in Hperm by done. by apply Permutation_nil_cons in Hperm.
    + intros ch' Hch'. rewrite lookup_insert_ne; [done|]. set_solver.
  - eauto 6.
Qed.

(** A fresh channel nobody is subscribed to. *)
Lemma inv_fresh_chan h c :
  hub_inv h →
  hub_inv {| runs := runs h; bcasts := bcasts h; chans := <[fresh h := c]> (chans h); fresh := S (fresh h) |}.
Proof.
  intros [Hr Hb Hd Hfb Hfc]. split; cbn; [done| |done| |].
  - intros q b2 Hq. destruct (Hb _ _ Hq) as (? & ? & Hop2 & ?). split; [done|]. split; [done|].
    split; [|done]. intros ch Hch. destruct (Hop2 ch Hch) as [qq Hqq]. exists qq.
    rewrite lookup_insert_ne; [done|]. pose proof (Hfc ch (mk_is_Some _ _ Hqq)). lia.
  - intros q Hq%Hfb. lia.
  - intros ch. rewrite lookup_insert_is_Some'. intros [->|Hq%Hfc]; lia.
Qed.

(** A fresh open channel subscribed to a running broadcaster. *)
Lemma inv_fresh_sub h p b l :
  hub_inv h → bcasts h !! p = Some b → terminal b = None →
  hub_inv {| runs := runs h; bcasts := <[p := set_subs b (subs b ++ [fresh h])]> (bcasts h);
             chans := <[fresh h := {| queue := l; closed := false |}]> (chans h); fresh := S (fresh h) |}.
Proof.
  intros [Hr Hb Hd Hfb Hfc] Hp Hterm. destruct (Hb _ _ Hp) as (Hring & Hnd & Hop & Ht).
  assert (∀ q b0 ch, bcasts h !! q = Some b0 → ch ∈ subs b0 → ch ≠ fresh h) as Hold.
  { intros q b0 ch Hq Hch. destruct (Hb _ _ Hq) as (_ & _ & Hop2 & _).
    destruct (Hop2 ch Hch) as [qq Hqq]. pose proof (Hfc ch (mk_is_Some _ _ Hqq)). lia. }
  assert (∀ p2 b2, <[p := set_subs b (subs b ++ [fresh h])]> (bcasts h) !! p2 = Some b2 →
    ∃ b0, bcasts h !! p2 = Some b0 ∧
      ∀ ch, ch ∈ subs b2 → (ch ∈ subs b0) ∨ (p2 = p ∧ ch = fresh h)) as Hback.
  { intros p2 b2. destruct (decide (p2 = p)) as [->|Hne].
    - rewrite lookup_insert_eq. intros [= <-]. exists b. split; [done|]. cbn.
      intros ch. rewrite elem_of_app, list_elem_of_singleton. naive_solver.
    - rewrite lookup_insert_ne by done. eauto. }
  split; cbn.
  - intros r q Hq. rewrite lookup_insert_is_Some'. eauto.
  - intros q b2 Hq. destruct (decide (q = p)) as [->|Hne].
    + rewrite lookup_insert_eq in Hq. injection Hq as <-. split; [done|]. cbn. split; [|split].
      * apply NoDup_app. split; [done|]. split; [|apply NoDup_singleton].
         intros ch Hch ->%list_elem_of_singleton. by eapply (Hold p b).
      * intros ch [Hch| ->%list_elem_of_singleton]%elem_of_app.
         -- destruct (Hop ch Hch) as [qq Hqq]. exists qq.
            rewrite lookup_insert_ne; [done|]. intros <-. by eapply (Hold p b).
         -- eexists. apply lookup_insert_eq.
      * by rewrite Hterm.
    + rewrite lookup_insert_ne in Hq by done.
      destruct (Hb _ _ Hq) as (? & ? & Hop2 & ?). split; [done|]. split; [done|].
      split; [|done]. intros ch Hch. destruct (Hop2 ch Hch) as [qq Hqq]. exists qq.
      rewrite lookup_insert_ne; [done|]. intros <-. by eapply (Hold q b2).
  - intros p1 p2 b1 b2 ch (b1' & H1 & Hi1)%Hback (b2' & H2 & Hi2)%Hback Hc1 Hc2.
    destruct (Hi1 _ Hc1) as [Hs1|[-> ->]], (Hi2 _ Hc2) as [Hs2|[-> Hf2]]; [eauto| | |done].
    + by destruct (Hold _ _ _ H1 Hs1).
    + by destruct (Hold _ _ _ H2 Hs2).
  - intros q. rewrite lookup_insert_is_Some'. intros [<-|Hq%Hfb]; [|lia].
    assert (is_Some (bcasts h !! p)) as ?%Hfb by eauto. lia.
  - intros ch. rewrite lookup_insert_is_Some'. intros [->|Hq%Hfc]; lia.
Qed.

Lemma step_subscribe h p b :
  hub_inv h → bcasts h !! p = Some b →
  ∃ h' live, subscribe_at h p = Done (h', fresh h, live) ∧ hub_inv h' ∧
    live = bool_decide (terminal b = None) ∧
    (∀ ch, (ch < fresh h)%nat → chans h' !! ch = chans h !! ch) ∧
    (∀ q, q ≠ p → bcasts h' !! q = bcasts h !! q) ∧
    bcasts h' !! p = Some (if live then set_subs b (subs b ++ [fresh h]) else b) ∧
    chans h' !! fresh h = Some
      (match terminal b with
       | Some t => {| queue := [terminal_event t]; closed := true |}
       | None => {| queue := map progress_event (contents b); closed := false |}
       end).
Proof.
  intros Hinv Hp. destruct (inv_bcasts _ Hinv _ _ Hp) as (Hring & _ & _ & _).
  unfold subscribe_at. rewrite Hp. destruct (terminal b) as [t|] eqn:Hterm.
  - unfold chan_send. erewrite chan_try_send_open by apply lookup_insert_eq.
    unfold room at 1 2. rewrite lookup_insert_eq. cbn [queue length Nat.ltb Nat.leb subChanCap].
    cbn [mbind outcome_bind fst snd]. erewrite chan_close_open by apply lookup_insert_eq.
    cbn [mbind outcome_bind app]. rewrite !insert_insert_eq. eexists _, false. split; [done|].
    split; [by apply inv_fresh_chan|]. split; [done|]. split; [|split; [done|split; [done|apply lookup_insert_eq]]].
    intros ch Hch. cbn. rewrite lookup_insert_ne; [done|lia].
  - erewrite replay_spec; [|apply lookup_insert_eq|].
    2:{ destruct Hring as (_ & _ & Hc & _). unfold subChanCap, bufSize in *. cbn. lia. }
    cbn [mbind outcome_bind app]. rewrite insert_insert_eq. eexists _, true. split; [done|].
    split; [by apply inv_fresh_sub|]. split; [done|]. split; [|split; [|split; [apply lookup_insert_eq|]]].
    + intros ch Hch. cbn. rewrite lookup_insert_ne; [done|lia].
    + intros q Hq. cbn. by rewrite lookup_insert_ne.
    + cbn. rewrite lookup_insert_eq. unfold contents. by rewrite map_map.
Qed.

Lemma inv_broadcaster h r : hub_inv h → hub_inv (broadcaster h r).1.
Proof.
  intros Hinv. unfold broadcaster. destruct (runs h !! r) as [p|] eqn:Hr; [done|].
  destruct Hinv as [Hrs Hb Hd Hfb Hfc]. split; cbn.
  - intros r' p'. destruct (decide (r' = r)) as [->|Hne].
    + rewrite lookup_insert_eq. intros [= <-]. rewrite lookup_insert_eq. eauto.
    + rewrite lookup_insert_ne by done. intros Hp%Hrs. rewrite lookup_insert_is_Some'. by right.
  - intros p' b'. destruct (decide (p' = fresh h)) as [->|Hne].
    + rewrite lookup_insert_eq. intros [= <-].
      split; [apply ring_wf_new|]. cbn. split; [constructor|]. split; [set_solver|done].
    + rewrite lookup_insert_ne by done. apply Hb.
  - intros p1 p2 b1 b2 ch. rewrite !lookup_insert. repeat case_decide; subst; try done.
    + intros [= <-] ? Hch. by apply not_elem_of_nil in Hch.
    + intros ? [= <-] ? Hch. by apply not_elem_of_nil in Hch.
    + eauto.
  - intros p'. rewrite lookup_insert_is_Some'. intros [<-|Hp%Hfb]; lia.
  - intros ch Hch%Hfc. lia.
Qed.

Lemma inv_recv h ch cs oe :
  hub_inv h → chan_recv (chans h) ch = Some (cs, oe) →
  hub_inv {| runs := runs h; bcasts := bcasts h; chans := cs; fresh := fresh h |} ∧
  (∀ ch', ch' ≠ ch → cs !! ch' = chans h !! ch') ∧
  (∃ c, chans h !! ch = Some c ∧ match oe with
     | Some e => ∃ q, queue c = e :: q ∧ cs !! ch = Some {| queue := q; closed := closed c |}
     | None => queue c = [] ∧ cs = chans h
     end).
Proof.
  intros [Hrs Hb Hd Hfb Hfc]. unfold chan_recv.
  destruct (chans h !! ch) as [c|] eqn:Hc; [|done]. destruct (queue c) as [|e q] eqn:Hq.
  - destruct (closed c); [|done]. intros [= <- <-]. split; [by split|]. split; [done|]. eauto.
  - intros [= <- <-]. split; [|split].
    2:{ intros. by rewrite lookup_insert_ne. }
    2:{ exists c. split; [done|]. exists q. split; [done|]. apply lookup_insert_eq. }
    split; cbn; try done.
    + intros p b Hp. destruct (Hb _ _ Hp) as (? & ? & Hop & ?). split; [done|]. split; [done|].
      split; [|done]. intros ch' Hch'. destruct (Hop ch' Hch') as [q' Hq'].
      unfold open_chan. destruct (decide (ch' = ch)) as [->|Hne].
      * rewrite lookup_insert_eq. simplify_eq/=. eauto.
      * rewrite lookup_insert_ne by done. eauto.
    + intros ch'. rewrite lookup_insert_is_Some'. intros [<-|?]; eauto.
Qed.

(** No critical section of a reachable hub panics or blocks, and each restores
    the invariant. *)
Lemma step_safe h o :
  hub_inv h → op_valid h o →
  ∃ h' evs, step h o = Done (h', evs) ∧ hub_inv h' ∧
    (∀ p, is_Some (bcasts h !! p) → is_Some (bcasts h' !! p)).
Proof.
  intros Hinv Hv. destruct o as [r|p m|p|p ch|p t|r|ch]; cbn in *.
  - eexists _, _. split; [done|]. split; [by apply inv_broadcaster|].
    intros p Hp. unfold broadcaster. destruct (runs h !! r); [done|]. cbn. rewrite lookup_insert_is_Some'. by right.
  - destruct Hv as [b Hp]. destruct (step_publish h p b m Hinv Hp) as (cs' & -> & _ & _ & Hinv').
    eexists _, _. split; [done|]. split; [done|]. intros q Hq. cbn. rewrite lookup_insert_is_Some'. by right.
  - destruct Hv as [b Hp].
    destruct (step_subscribe h p b Hinv Hp) as (h' & live & -> & Hinv' & _ & _ & Hne & Heq & _).
    eexists _, _. split; [done|]. split; [done|]. intros q Hq.
    cbn. destruct (decide (q = p)) as [->|]; [rewrite Heq; eauto|by rewrite Hne].
  - destruct Hv as [b Hp]. destruct (step_unsub h p b ch Hinv Hp) as (h' & -> & Hinv' & Hcase).
    eexists _, _. split; [done|]. split; [done|]. intros q Hq.
    destruct Hcase as [[_ ->]|(l & qq & _ & _ & _ & ->)]; [done|]. cbn. rewrite lookup_insert_is_Some'. by right.
  - destruct Hv as [b Hp]. destruct (terminal b) as [t'|] eqn:Ht.
    + unfold complete_at. rewrite Hp, Ht. eexists _, _. split; [done|]. done.
    + destruct (step_complete h p b t Hinv Hp Ht) as (cs' & -> & _ & _ & Hinv').
      eexists _, _. split; [done|]. split; [done|]. intros q Hq. cbn. rewrite lookup_insert_is_Some'. by right.
  - eexists _, _. split; [done|]. split; [|done]. destruct Hinv as [Hrs Hb Hd Hfb Hfc]. split; cbn; try done.
    intros r' p'. destruct (decide (r' = r)) as [->|]; [by rewrite lookup_delete_eq|].
    rewrite lookup_delete_ne by done. apply Hrs.
  - destruct (chan_recv (chans h) ch) as [[cs [e|]]|] eqn:Hrecv; [|eauto..].
    eexists _, _. split; [done|]. split; [|done]. by eapply inv_recv.
Qed.

(** States reachable from a new hub by any interleaving. *)
Inductive reachable : Hub → Prop :=
  | reach_new : reachable NewHub
  | reach_step h o h' evs :
      reachable h → op_valid h o → step h o = Done (h', evs) → reachable h'.

Lemma reachable_inv h : reachable h → hub_inv h.
Proof.
  induction 1 as [|h o h' evs _ IH Hv Hs]; [apply inv_NewHub|].
  destruct (step_safe h o IH Hv) as (h'' & evs' & Hs' & Hinv & _).
  rewrite Hs' in Hs. by injection Hs as -> ->.
Qed.

(** A run of operations, collecting the events received. *)
Fixpoint exec (h : Hub) (ops : list op) : outcome (Hub * list (loc * Event)) :=
  match ops with
  | [] => Done (h, [])
  | o :: ops => r ← step h o; r' ← exec r.1 ops; Done (r'.1, r.2 ++ r'.2)
  end.

Fixpoint published (p : loc) (ops : list op) : list ProgressMessage :=
  match ops with
  | [] => []
  | OpPublish q m :: ops => if decide (q = p) then m :: published p ops else published p ops
  | _ :: ops => published p ops
  end.

Definition received (ch : loc) (evs : list (loc * Event)) : list Event :=
  snd <$> filter (λ ce, ce.1 = ch) evs.

Definition chan_queue (h : Hub) (ch : loc) : list Event :=
  match chans h !! ch with Some c => queue c | None => [] end.

Definition subscribed (h : Hub) (p ch : loc) : Prop :=
  ∃ b, bcasts h !! p = Some b ∧ ch ∈ subs b.

End interleaving.

(** ** What a subscriber sees *)
Section streams.

Definition closed_chan (h : Hub) (ch : loc) : Prop :=
  ∃ q, chans h !! ch = Some {| queue := q; closed := true |}.

(** Subscriber [ch] of broadcaster [p] after events [acc], when [H] was buffered
    or published: either still subscribed with nothing missing, or closed after
    a gap-free prefix and at most one terminal event. *)
Definition stream_ok (h : Hub) (p ch : loc) (acc : list Event) (H : list ProgressMessage) : Prop :=
  (subscribed h p ch ∧ acc ++ chan_queue h ch = map progress_event H) ∨
  (closed_chan h ch ∧ ∃ l t, l `prefix_of` H ∧
     acc ++ chan_queue h ch = map progress_event l ++ option_list (terminal_event <$> t)).

(** Nobody's subscriber list contains a closed channel. *)
Lemma closed_not_sub h ch p b :
  hub_inv h → closed_chan h ch → bcasts h !! p = Some b → ch ∉ subs b.
Proof.
  intros Hinv [q Hq] Hp Hin. destruct (inv_bcasts _ Hinv _ _ Hp) as (_ & _ & Hop & _).
  destruct (Hop _ Hin) as [q' Hq']. congruence.
Qed.

(** A step that leaves the channel and its subscription alone. *)
Lemma stream_ok_frame h h' p ch acc H H' :
  stream_ok h p ch acc H → chans h' !! ch = chans h !! ch →
  (subscribed h p ch → subscribed h' p ch ∧ H' = H) → H `prefix_of` H' →
  stream_ok h' p ch acc H'.
Proof.
  intros [[Hs Hq]|[[q Hc] (l & t & Hl & Hq)]] Hch Hsub HH'; unfold stream_ok, chan_queue, closed_chan;
    rewrite Hch.
  - left. destruct (Hsub Hs) as [? ->]. done.
  - right. split; [eauto|]. exists l, t. split; [by etrans|done].
Qed.

Lemma stream_publish h p ch acc H q m h' evs :
  hub_inv h → is_Some (bcasts h !! q) → step h (OpPublish q m) = Done (h', evs) →
  stream_ok h p ch acc H →
  stream_ok h' p ch (acc ++ received ch evs) (H ++ published p [OpPublish q m]).
Proof.
  intros Hinv [b Hq] Hs Hok. cbn in Hs.
  destruct (step_publish h q b m Hinv Hq) as (cs' & Hst & Hout & Hin & _). rewrite Hst in Hs.
  cbn in Hs. injection Hs as <- <-. cbn [received filter list_filter fmap list_fmap]. rewrite app_nil_r.
  destruct (decide (ch ∈ subs b)) as [Hch|Hch].
  - destruct Hok as [[(b0 & Hp & Hb0) Heq]|[Hc _]]; [|by destruct (closed_not_sub _ _ _ _ Hinv Hc Hq)].
    assert (q = p) as -> by by eapply (inv_disjoint h Hinv q p b b0 ch).
    assert (b0 = b) as -> by congruence. cbn [published]. rewrite decide_True by done.
    destruct (inv_bcasts _ Hinv _ _ Hp) as (_ & _ & Hop & _). destruct (Hop ch Hch) as [qq Hqq].
    unfold stream_ok, subscribed, closed_chan, chan_queue in *. cbn [bcasts chans set_bcast].
    rewrite (Hin ch Hch). unfold fanned. rewrite Hqq in *. cbn [fmap option_fmap option_map queue] in *.
    destruct (length qq <? subChanCap)%nat eqn:Hroom; cbn [queue].
    + left. split.
      * eexists. rewrite lookup_insert_eq. split; [done|]. cbn [subs set_subs].
        apply list_elem_of_filter. split; [|done]. unfold room. by rewrite Hqq.
      * by rewrite app_assoc, Heq, map_app.
    + right. split; [by eexists|]. exists H, None. split; [by eexists|].
      cbn. by rewrite app_nil_r.
  - eapply stream_ok_frame; [done|by cbn; apply Hout| |by eexists].
    intros (b0 & Hp & Hb0). assert (q ≠ p) by (intros ->; by simplify_eq). split.
    + exists b0. cbn. by rewrite lookup_insert_ne.
    + cbn. rewrite decide_False by done. by rewrite app_nil_r.
Qed.

Lemma stream_complete_step h p ch acc H q t h' evs :
  hub_inv h → is_Some (bcasts h !! q) → step h (OpComplete q t) = Done (h', evs) →
  stream_ok h p ch acc H → stream_ok h' p ch (acc ++ received ch evs) H.
Proof.
  intros Hinv [b Hq] Hs Hok. cbn in Hs.
  destruct (terminal b) as [t'|] eqn:Hterm.
  { unfold complete_at in Hs. rewrite Hq, Hterm in Hs. cbn in Hs. injection Hs as <- <-.
    cbn. by rewrite app_nil_r. }
  destruct (step_complete h q b t Hinv Hq Hterm) as (cs' & Hst & Hout & Hin & _). rewrite Hst in Hs.
  cbn in Hs. injection Hs as <- <-. cbn [received filter list_filter fmap list_fmap]. rewrite app_nil_r.
  destruct (decide (ch ∈ subs b)) as [Hch|Hch].
  - destruct Hok as [[(b0 & Hp & Hb0) Heq]|[Hc _]]; [|by destruct (closed_not_sub _ _ _ _ Hinv Hc Hq)].
    destruct (inv_bcasts _ Hinv _ _ Hq) as (_ & _ & Hop & _). destruct (Hop ch Hch) as [qq Hqq].
    unfold stream_ok, closed_chan, chan_queue in *. cbn [bcasts chans set_bcast].
    rewrite (Hin ch qq Hch Hqq). rewrite Hqq in *. cbn [queue] in *. right. split; [by eexists|].
    exists H, (if room (chans h) ch then Some t else None). split; [done|].
    rewrite app_assoc, Heq. by destruct (room (chans h) ch).
  - eapply stream_ok_frame; [done|by cbn; apply Hout| |done].
    intros (b0 & Hp & Hb0). assert (q ≠ p) by (intros ->; by simplify_eq). split; [|done].
    exists b0. cbn. by rewrite lookup_insert_ne.
Qed.

Lemma stream_unsub h p ch acc H q ch' h' evs :
  hub_inv h → is_Some (bcasts h !! q) → step h (OpUnsub q ch') = Done (h', evs) →
  stream_ok h p ch acc H → stream_ok h' p ch (acc ++ received ch evs) H.
Proof.
  intros Hinv [b Hq] Hs Hok. cbn in Hs.
  destruct (step_unsub h q b ch' Hinv Hq) as (h'' & Hst & _ & Hcase). rewrite Hst in Hs.
  cbn in Hs. injection Hs as <- <-. cbn [received filter list_filter fmap list_fmap]. rewrite app_nil_r.
  destruct Hcase as [[_ ->]|(l & qq & Hperm & Hni & Hqq & ->)]; [done|].
  destruct (decide (ch' = ch)) as [->|Hne].
  - destruct Hok as [[_ Heq]|[[q' Hc] _]]; [|congruence].
    unfold stream_ok, closed_chan, chan_queue in *. cbn [chans set_bcast].
    rewrite lookup_insert_eq. rewrite Hqq in Heq. right. split; [by eexists|].
    exists H, None. split; [done|]. cbn. by rewrite app_nil_r.
  - eapply stream_ok_frame; [done|by cbn; rewrite lookup_insert_ne| |done].
    intros (b0 & Hp & Hb0). split; [|done]. unfold subscribed; cbn.
    destruct (decide (q = p)) as [->|Hqp].
    + rewrite lookup_insert_eq. eexists; split; [done|]. cbn. simplify_eq.
      rewrite Hperm in Hb0. set_solver.
    + rewrite lookup_insert_ne by done. eauto.
Qed.

Lemma stream_recv h p ch acc H ch' h' evs :
  hub_inv h → step h (OpRecv ch') = Done (h', evs) →
  stream_ok h p ch acc H → stream_ok h' p ch (acc ++ received ch evs) H.
Proof.
  intros Hinv Hs Hok. cbn in Hs.
  destruct (chan_recv (chans h) ch') as [[cs [e|]]|] eqn:Hr.
  2,3: injection Hs as <- <-; cbn; by rewrite app_nil_r.
  injection Hs as <- <-. destruct (inv_recv _ _ _ _ Hinv Hr) as (_ & Hne & c & Hc & q & Hcq & Hcs).
  unfold received. rewrite filter_cons, filter_nil. cbn [fst].
  destruct (decide (ch' = ch)) as [->|Hch]; cbn [fmap list_fmap snd].
  - unfold stream_ok, subscribed, closed_chan, chan_queue in *. cbn [bcasts chans].
    rewrite Hc in Hok. rewrite Hcs. rewrite Hcq in Hok. cbn [queue] in *. rewrite <-app_assoc; cbn [app].
    destruct Hok as [Hlive|[[q' Hq'] Hdead]]; [by left|right].
    simplify_eq/=. split; [by eexists|done].
  - rewrite app_nil_r. eapply stream_ok_frame; [done|by cbn; apply Hne| |done]. done.
Qed.

Lemma stream_ok_lt h p ch acc H : hub_inv h → stream_ok h p ch acc H → (ch < fresh h)%nat.
Proof.
  intros Hinv [[(b & Hb & Hch) _]|[[q Hc] _]]; apply (inv_fresh_c _ Hinv).
  - destruct (inv_bcasts _ Hinv _ _ Hb) as (_ & _ & Hop & _). destruct (Hop _ Hch). eauto.
  - eauto.
Qed.

Lemma stream_subscribe h p ch acc H q h' evs :
  hub_inv h → is_Some (bcasts h !! q) → step h (OpSubscribe q) = Done (h', evs) →
  stream_ok h p ch acc H → stream_ok h' p ch (acc ++ received ch evs) H.
Proof.
  intros Hinv [b Hq] Hs Hok. pose proof (stream_ok_lt _ _ _ _ _ Hinv Hok) as Hlt. cbn in Hs.
  destruct (step_subscribe h q b Hinv Hq) as (h'' & live & Hst & _ & _ & Hc & Hne & Heq & _).
  rewrite Hst in Hs. cbn in Hs. injection Hs as <- <-. cbn. rewrite app_nil_r.
  eapply stream_ok_frame; [done|by apply Hc| |done]. intros (b0 & Hb0 & Hch). split; [|done].
  unfold subscribed. destruct (decide (p = q)) as [->|Hpq]; [|rewrite Hne by done; eauto].
  rewrite Heq. eexists; split; [done|]. simplify_eq. destruct live; cbn; set_solver.
Qed.

Lemma stream_broadcaster h p ch acc H r :
  hub_inv h → stream_ok h p ch acc H → stream_ok (broadcaster h r).1 p ch acc H.
Proof.
  intros Hinv Hok. unfold broadcaster. destruct (runs h !! r) eqn:Hr; [done|]. cbn.
  eapply stream_ok_frame; [done|done| |done]. intros (b & Hb & Hch). split; [|done].
  exists b. cbn. rewrite lookup_insert_ne; [done|]. intros <-.
  pose proof (inv_fresh_b _ Hinv _ ltac:(eauto)). lia.
Qed.

Lemma stream_step h p ch acc H o h' evs :
  hub_inv h → op_valid h o → step h o = Done (h', evs) → stream_ok h p ch acc H →
  stream_ok h' p ch (acc ++ received ch evs) (H ++ published p [o]).
Proof.
  intros Hinv Hv Hs Hok. destruct o as [r|q m|q|q ch'|q t|r|ch'];
    [| |cbn [published]; rewrite app_nil_r..]; cbn [op_valid] in Hv.
  - cbn in Hs. injection Hs as <- <-. cbn [published received filter list_filter fmap list_fmap].
    rewrite !app_nil_r. by apply stream_broadcaster.
  - by eapply stream_publish.
  - by eapply stream_subscribe.
  - by eapply stream_unsub.
  - by eapply stream_complete_step.
  - cbn in Hs. injection Hs as <- <-. cbn. rewrite app_nil_r. exact Hok.
  - by eapply stream_recv.
Qed.

Lemma received_app ch e1 e2 : received ch (e1 ++ e2) = received ch e1 ++ received ch e2.
Proof. unfold received. by rewrite filter_app, fmap_app. Qed.

Lemma published_cons p o ops : published p (o :: ops) = published p [o] ++ published p ops.
Proof. destruct o; cbn; try done. by case_decide. Qed.

(** Every operation of [ops] dereferences a pointer valid when it runs. *)
Fixpoint ops_valid (h : Hub) (ops : list op) : Prop :=
  match ops with
  | [] => True
  | o :: ops => op_valid h o ∧ ∀ h' evs, step h o = Done (h', evs) → ops_valid h' ops
  end.

Lemma stream_exec h p ch acc H ops h' evs :
  hub_inv h → ops_valid h ops → exec h ops = Done (h', evs) → stream_ok h p ch acc H →
  stream_ok h' p ch (acc ++ received ch evs) (H ++ published p ops).
Proof.
  revert h acc H evs. induction ops as [|o ops IH]; intros h acc H evs Hinv Hv Hex Hok.
  - cbn in Hex. injection Hex as <- <-. cbn. by rewrite !app_nil_r.
  - destruct Hv as [Hv Hvs]. destruct (step_safe h o Hinv Hv) as (h1 & ev1 & Hs & Hinv1 & _).
    cbn [exec] in Hex. rewrite Hs in Hex. cbn in Hex.
    destruct (exec h1 ops) as [[h2 ev2]| |] eqn:Hex2; cbn in Hex; [|done..]. injection Hex as <- <-.
    rewrite received_app, app_assoc, published_cons, app_assoc.
    eapply IH; [done|by eapply Hvs|done|]. by eapply (stream_step h).
Qed.

(** A run of valid operations always completes: nothing panics, nothing blocks. *)
Lemma exec_total h ops :
  hub_inv h → ops_valid h ops → ∃ h' evs, exec h ops = Done (h', evs) ∧ hub_inv h'.
Proof.
  revert h. induction ops as [|o ops IH]; intros h Hinv Hv; [by eexists _, _|].
  destruct Hv as [Hv Hvs]. destruct (step_safe h o Hinv Hv) as (h1 & ev1 & Hs & Hinv1 & _).
  destruct (IH h1 Hinv1) as (h2 & ev2 & Hex & Hinv2); [by eapply Hvs|].
  eexists _, _. cbn [exec]. rewrite Hs. cbn. rewrite Hex. cbn. done.
Qed.

End streams.

(** ** LineWriter: newline-delimited JSON from a strategy's stdout

    [parse] stands for [json.Unmarshal] of one line into a [ProgressMessage];
    [None] is a malformed line. *)
Section line_writer.
Context (parse : string → option ProgressMessage).

Definition newline : ascii := byte 10.

(** One line of output: publish it if it is a well-formed progress message. *)
Definition handle_line (h : Hub) (runID : uuid) (raw : string) : outcome Hub :=
  let line := trim_space raw in
  if decide (line = "") then Done h
  else match parse line with
       | None => Done h
       | Some msg => if decide (Type_ msg = "progress") then Publish h runID msg else Done h
       end.

(** The loop of [Write]: while the buffer holds a newline, take the line off. *)
Fixpoint write_loop (fuel : nat) (h : Hub) (runID : uuid) (buf : string) : outcome (Hub * string) :=
  match fuel with
  | O => Done (h, buf)
  | S fuel =>
    match index_byte buf newline with
    | None => Done (h, buf)
    | Some idx =>
      h' ← handle_line h runID (slice_to buf idx);
      write_loop fuel h' runID (slice_from buf (idx + 1))
    end
  end.

(** [LineWriter.Write]: the pending buffer grows by [p], then is drained.  Each
    iteration removes a byte, so the buffer's length is enough fuel. *)
Definition Write (h : Hub) (runID : uuid) (pending p : string) : outcome (Hub * string) :=
  let buf := pending +:+ p in write_loop (String.length buf) h runID buf.

Lemma write_loop_fuel f1 f2 h r s :
  (String.length s ≤ f1)%nat → (String.length s ≤ f2)%nat →
  write_loop f1 h r s = write_loop f2 h r s.
Proof.
  revert f2 h s. induction f1 as [|f1 IH]; intros f2 h s H1 H2.
  - destruct s; [|cbn in H1; lia]. by destruct f2.
  - destruct f2 as [|f2]; [by destruct s; [|cbn in H2; lia]|]. cbn.
    destruct (index_byte s newline) as [idx|] eqn:Hi; [|done].
    apply index_byte_split in Hi as [_ Hlt].
    destruct (handle_line h r (slice_to s idx)); cbn; [|done..].
    apply IH; rewrite length_slice_from; lia.
Qed.

(** The loop always ends because no newline is left, never because of fuel. *)
Lemma write_loop_drained f h r s h' rest :
  (String.length s ≤ f)%nat → write_loop f h r s = Done (h', rest) →
  index_byte rest newline = None.
Proof.
  revert h s. induction f as [|f IH]; intros h s Hl.
  - destruct s; [|cbn in Hl; lia]. by intros [= <- <-].
  - cbn. destruct (index_byte s newline) as [idx|] eqn:Hi; [|by intros [= <- <-]].
    apply index_byte_split in Hi as [_ Hlt].
    destruct (handle_line h r (slice_to s idx)); cbn; [|done..].
    apply IH. rewrite length_slice_from. lia.
Qed.

(** Draining what is complete in [s], then the rest with [t] appended, is
    draining [s +:+ t]. *)
Lemma write_loop_app f1 f2 f3 h r s t h1 rest :
  (String.length s ≤ f1)%nat → write_loop f1 h r s = Done (h1, rest) →
  (String.length (s +:+ t) ≤ f2)%nat → (String.length (rest +:+ t) ≤ f3)%nat →
  write_loop f2 h r (s +:+ t) = write_loop f3 h1 r (rest +:+ t).
Proof.
  revert f2 h s. induction f1 as [|f1 IH]; intros f2 h s Hl Hw H2 H3.
  - destruct s; [|cbn in Hl; lia]. cbn in Hw. injection Hw as <- <-.
    by apply write_loop_fuel.
  - cbn in Hw. destruct (index_byte s newline) as [idx|] eqn:Hi.
    + pose proof (index_byte_split _ _ _ Hi) as [_ Hlt].
      rewrite string_length_app in H2. destruct f2 as [|f2]; [lia|]. cbn.
      rewrite (index_byte_app_some _ _ _ _ Hi), slice_to_app, slice_from_app by lia.
      destruct (handle_line h r (slice_to s idx)); cbn in *; [|done..].
      apply IH; [rewrite length_slice_from; lia|done| |done].
      rewrite string_length_app, length_slice_from. lia.
    + injection Hw as <- <-. by apply write_loop_fuel.
Qed.

End line_writer.

(** ** Properties *)
Section properties.

(** The ring buffer refines the last [bufSize] messages: after any sequence
    of publishes to a new broadcaster the buffer holds, oldest first, the last
    twenty of them, and [latest] is the most recent one. *)
Theorem ring_holds_last_messages (msgs : list ProgressMessage) :
  contents (push_all new_broadcaster msgs) = lastn bufSize msgs ∧
  latest (push_all new_broadcaster msgs) = last msgs.
Proof.
  assert (ring_wf (push_all new_broadcaster msgs) ∧
    contents (push_all new_broadcaster msgs) = lastn bufSize msgs) as [Hwf Hc].
  { induction msgs as [|m msgs IH] using rev_ind; [by split; [apply ring_wf_new|]|].
    unfold push_all in *. rewrite foldl_snoc. destruct IH as [Hwf IH]. split.
    - by apply ring_push_wf.
    - rewrite ring_push_contents, IH by done. apply lastn_app_snoc. unfold bufSize; lia. }
  split; [done|]. rewrite latest_contents, Hc by done.
  destruct msgs as [|m msgs _] using rev_ind; [done|].
  rewrite lastn_snoc_last, last_snoc; [done|]. unfold bufSize; lia.
Qed.

(** C32: In every state reachable by any interleaving of publish, subscribe,
    unsubscribe, complete, cleanup and receive, every operation through a
    pointer handed out earlier runs to completion: no send on or close of a
    closed channel ever panics, and [subscribe]'s sends never block. *)
Theorem hub_never_panics_or_blocks (h : Hub) (o : op) :
  reachable h → op_valid h o → ∃ h' evs, step h o = Done (h', evs) ∧ reachable h'.
Proof.
  intros Hr Hv. destruct (step_safe h o (reachable_inv h Hr) Hv) as (h' & evs & Hs & _).
  exists h', evs. split; [done|]. by eapply reach_step.
Qed.

Lemma subscriber_stream (h h1 h2 : Hub) (p ch : loc) (b : runBroadcaster)
    (ops : list op) (evs : list (loc * Event)) :
  reachable h → bcasts h !! p = Some b → terminal b = None →
  subscribe_at h p = Done (h1, ch, true) →
  ops_valid h1 ops → exec h1 ops = Done (h2, evs) →
  stream_ok h2 p ch (received ch evs) (contents b ++ published p ops).
Proof.
  intros Hr Hp Ht Hsub Hv Hex. pose proof (reachable_inv h Hr) as Hinv.
  destruct (step_subscribe h p b Hinv Hp) as (h' & live & Hs & Hinv' & Hl & _ & _ & Hb & Hc).
  rewrite Hs in Hsub. injection Hsub as -> <- ->.
  rewrite <-(app_nil_l (received _ evs)). eapply stream_exec; [done|done|done|].
  left. rewrite Ht in Hc. split.
  - eexists. split; [exact Hb|]. cbn. set_solver.
  - unfold chan_queue. by rewrite Hc.
Qed.

(** C22: A subscriber of a running broadcaster misses nothing: whatever runs after
    the subscription, the events it has received followed by those waiting in
    its channel are the buffered messages followed by all messages published
    since, while it is subscribed; once its channel is closed they are a
    gap-free prefix of those, followed by at most one terminal event. *)
Theorem subscriber_stream_gap_free (h h1 h2 : Hub) (p ch : loc) (b : runBroadcaster)
    (ops : list op) (evs : list (loc * Event)) :
  reachable h → bcasts h !! p = Some b → terminal b = None →
  subscribe_at h p = Done (h1, ch, true) →
  ops_valid h1 ops → exec h1 ops = Done (h2, evs) →
  stream_ok h2 p ch (received ch evs) (contents b ++ published p ops).
Proof. apply subscriber_stream. Qed.

(** Completion is final: completing again changes nothing, and a subscriber
    arriving afterwards gets a closed channel holding the first terminal event
    and nothing else. *)
Theorem completion_is_final (h : Hub) (p : loc) (b : runBroadcaster) (t t' : TerminalEvent) :
  reachable h → bcasts h !! p = Some b → terminal b = None →
  ∃ h1 h2 ch, complete_at h p t = Done h1 ∧ complete_at h1 p t' = Done h1 ∧
    subscribe_at h1 p = Done (h2, ch, false) ∧
    chans h2 !! ch = Some {| queue := [terminal_event t]; closed := true |}.
Proof.
  intros Hr Hp Ht. pose proof (reachable_inv h Hr) as Hinv.
  destruct (step_complete h p b t Hinv Hp Ht) as (cs' & Hs & _ & _ & Hinv1).
  set (h1 := set_bcast _ _ _ _) in *.
  assert (bcasts h1 !! p = Some {| buf := buf b; head := head b; count := count b;
    subs := []; terminal := Some t |}) as Hp1 by apply lookup_insert_eq.
  destruct (step_subscribe h1 p _ Hinv1 Hp1) as (h2 & live & Hs2 & _ & -> & _ & _ & _ & Hc).
  exists h1, h2, (fresh h1). split; [done|]. split; [|by split].
  unfold complete_at. by rewrite Hp1.
Qed.

(** How the strategy's stdout is cut into [Write] calls does not matter:
    writing [p] then [q] publishes exactly what writing [p ++ q] does, and
    leaves the same pending bytes. *)
Theorem line_writer_chunking (parse : string → option ProgressMessage)
    (h : Hub) (r : uuid) (pending p q : string) :
  (w ← Write parse h r pending p; Write parse w.1 r w.2 q)
  = match Write parse h r pending p with
    | Done _ => Write parse h r pending (p +:+ q)
    | e => e
    end.
Proof.
  unfold Write. destruct (write_loop parse (String.length (pending +:+ p)) h r (pending +:+ p))
    as [[h1 rest]| |] eqn:Hw; cbn; [|done..].
  rewrite <-string_app_assoc. symmetry. eapply write_loop_app; [|exact Hw|..]; done.
Qed.

End properties.

(** ** Concrete runs *)
Section witnesses.

Definition msg_at (i : Z) : ProgressMessage :=
  {| Type_ := "progress"; Step := i; TotalSteps := 40; CurrentDate := "2026-01-02";
     TargetDate := "2026-02-02"; Pct := S754_zero false; ElapsedMS := i; EtaMS := 0;
     Measurements := 0 |}.

(** One broadcaster, one message buffered. *)
Definition hub1 : Hub :=
  match Publish NewHub 7%N (msg_at 1) with Done h => h | _ => NewHub end.

Lemma hub1_reachable : reachable hub1.
Proof.
  apply (reach_step (broadcaster NewHub 7%N).1 (OpPublish 0%nat (msg_at 1)) hub1 []).
  - by apply (reach_step NewHub (OpBroadcaster 7%N) _ [] reach_new).
  - by eexists.
  - by vm_compute.
Qed.

Lemma hub_never_panics_or_blocks_witness :
  ∃ h' evs, step hub1 (OpSubscribe 0%nat) = Done (h', evs) ∧ reachable h'.
Proof.
  apply (hub_never_panics_or_blocks hub1 (OpSubscribe 0%nat)); [apply hub1_reachable|].
  by eexists.
Defined.

Definition sub1 : Hub := match subscribe_at hub1 0%nat with Done (h, _, _) => h | _ => NewHub end.

Lemma subscriber_stream_gap_free_witness :
  ∃ b h2 evs, stream_ok h2 0%nat 1%nat (received 1%nat evs) (contents b ++ [msg_at 2]) ∧
    received 1%nat evs = [progress_event (msg_at 1)].
Proof.
  destruct (exec sub1 [OpPublish 0%nat (msg_at 2); OpRecv 1%nat]) as [[h2 evs]| |] eqn:Hex;
    [|by vm_compute in Hex..].
  exists (ring_push new_broadcaster (msg_at 1)), h2, evs. split.
  - refine (subscriber_stream_gap_free hub1 sub1 h2 0%nat 1%nat _
      [OpPublish 0%nat (msg_at 2); OpRecv 1%nat] evs _ _ _ _ _ _).
    + apply hub1_reachable.
    + by vm_compute.
    + by vm_compute.
    + by vm_compute.
    + split; [by eexists|]. intros h' e _. by split.
    + exact Hex.
  - vm_compute in Hex. by injection Hex as _ <-.
Defined.

Lemma completion_is_final_witness :
  ∃ h1 h2 ch, complete_at hub1 0%nat {| Status := "success"; Error_ := "" |} = Done h1 ∧
    complete_at h1 0%nat {| Status := "failed"; Error_ := "late" |} = Done h1 ∧
    subscribe_at h1 0%nat = Done (h2, ch, false) ∧
    chans h2 !! ch = Some {| queue := [terminal_event {| Status := "success"; Error_ := "" |}];
                             closed := true |}.
Proof.
  apply (completion_is_final hub1 0%nat (ring_push new_broadcaster (msg_at 1)));
    [apply hub1_reachable|by vm_compute|by vm_compute].
Defined.

End witnesses.
