(* ===== verification/PgText.v ===== *)
(** What a Postgres database of encoding UTF8 takes into its TEXT and JSONB
    columns (src/sql/migrations): the texts the statements of Store, Registry and
    Alert write are checked before a statement changes anything. *)
From S2P Require Import Prelude GoStrings GoTime Utf8 Types Json.
From Stdlib Require Import Ascii.

(** ** TEXT *)

Definition nul : ascii := byte 0.

(** [utf8.ValidString], which agrees with the server's check.  [skip] counts the
    bytes of the current rune still to pass over. *)
Fixpoint valid_utf8 (skip : nat) (l : list ascii) : bool :=
  match l with
  | [] => true
  | c :: l =>
    match skip with
    | S skip => valid_utf8 skip l
    | O => let '(r, w) := decode_rune c l in
           negb ((r =? RuneError) && (w =? 1)%nat) && valid_utf8 (pred w) l
    end
  end.

Definition no_nul (s : string) : bool := forallb (λ c, negb (Ascii.eqb c nul)) (bytes_of s).

(** A parameter a TEXT column takes: valid UTF-8, and no NUL byte. *)
Definition storable (s : string) : bool := valid_utf8 0 (bytes_of s) && no_nul s.

Definition invalid_text : goerror :=
  opaque_err "ERROR: invalid byte sequence for encoding UTF8 (SQLSTATE 22021)".

(** ** JSONB *)

(** [json.Marshal] writes a NUL as [\u0000], which no JSONB value holds; invalid
    UTF-8 it replaces before the server sees it. *)
Fixpoint json_no_nul (v : json) : bool :=
  match v with
  | JStr s => no_nul s
  | JArr l => forallb json_no_nul l
  | JObj m => forallb (λ kb : string * bool, no_nul kb.1 && kb.2) (map_to_list (json_no_nul <$> m))
  | _ => true
  end.

(** Raw JSON text, which the code has decoded before it writes it: valid UTF-8
    in which no escape is [\u0000] and surrogates come in pairs. *)
Definition hex_value (c : ascii) : Z :=
  let n := Z.of_nat (code c) in
  if in_range 48 57 c then n - 48 else if in_range 65 70 c then n - 55 else n - 87.
Definition hex4 (a b c d : ascii) : Z := ((hex_value a * 16 + hex_value b) * 16 + hex_value c) * 16 + hex_value d.
Fixpoint escapes_ok (l : list ascii) : bool :=
  match l with
  | [] => true
  | x :: l =>
    if negb (Ascii.eqb x (byte 92)) then escapes_ok l
    else match l with
    | u :: l =>
      if negb (Ascii.eqb u (byte 117)) then escapes_ok l
      else match l with
      | a :: b :: c :: d :: l =>
        let n := hex4 a b c d in
        if n =? 0 then false
        else if (55296 <=? n) && (n <? 56320) then
          match l with
          | x' :: u' :: e :: f :: g :: h :: l =>
            let n' := hex4 e f g h in
            Ascii.eqb x' (byte 92) && Ascii.eqb u' (byte 117) && (56320 <=? n') && (n' <? 57344) && escapes_ok l
          | _ => false
          end
        else if (56320 <=? n) && (n <? 57344) then false
        else escapes_ok l
      | _ => false
      end
    | [] => false
    end
  end.
Definition jsonb_text (s : string) : bool := storable s && escapes_ok (bytes_of s).

Definition backslash : string := String (byte 92) EmptyString.
Example jsonb_texts : map jsonb_text
  (map (λ s, backslash +:+ s) ["u0041"; "u0000"; backslash +:+ "u0000"; "ud83d" +:+ backslash +:+ "ude00"; "ud83d"; "ude00"])
  = [true; false; true; true; false; false].
Proof. vm_compute. reflexivity. Qed.

Definition nul_in_jsonb : goerror :=
  opaque_err "ERROR: unsupported Unicode escape sequence (SQLSTATE 22P05)".

(** ** Statements with parameters *)
Section statements.
Context {D A : Type}.

(** A statement whose TEXT parameters are [ts]: the server reads the parameters
    before it runs anything. *)
Definition with_text (ts : list string) (q : D → result (D * A)) (d : D) : result (D * A) :=
  if forallb storable ts then q d else Err invalid_text.

(** One that also writes the raw text [j] and the marshalled object [m] to JSONB. *)
Definition with_jsonb (j : string) (m : gmap string json) (q : D → result (D * A)) (d : D) : result (D * A) :=
  if jsonb_text j && json_no_nul (JObj m) then q d else Err nul_in_jsonb.

(** Whatever the database, the statement is its query or a refusal. *)
Lemma with_text_cases ts q : with_text ts q = q ∨ with_text ts q = λ _, Err invalid_text.
Proof. unfold with_text. destruct (forallb storable ts); [by left|by right]. Qed.
Lemma with_jsonb_cases j m q : with_jsonb j m q = q ∨ with_jsonb j m q = λ _, Err nul_in_jsonb.
Proof. unfold with_jsonb. destruct (jsonb_text j && json_no_nul (JObj m)); [by left|by right]. Qed.

Lemma with_text_Ok ts q d x : with_text ts q d = Ok x → q d = Ok x.
Proof. unfold with_text. by destruct (forallb _ _). Qed.
Lemma with_jsonb_Ok j m q d x : with_jsonb j m q d = Ok x → q d = Ok x.
Proof. unfold with_jsonb. by destruct (_ && _). Qed.

(** A statement with parameters of both kinds is its query, or is refused whole. *)
Lemma with_params ts j m q d :
  with_text ts (with_jsonb j m q) d =
    if forallb storable ts && (jsonb_text j && json_no_nul (JObj m)) then q d
    else Err (if forallb storable ts then nul_in_jsonb else invalid_text).
Proof. unfold with_text, with_jsonb. by destruct (forallb storable ts), (jsonb_text j && json_no_nul (JObj m)). Qed.

Lemma with_text_storable ts q d : forallb storable ts = true → with_text ts q d = q d.
Proof. unfold with_text. by intros ->. Qed.
Lemma with_text_refused ts q d : forallb storable ts = false → with_text ts q d = Err invalid_text.
Proof. unfold with_text. by intros ->. Qed.
End statements.

(** ** Which texts are taken *)

Lemma valid_utf8_ascii l : forallb (λ c, code c <? 128)%nat l = true → valid_utf8 0 l = true.
Proof.
  induction l as [|c l IH]; [done|]. cbn [forallb valid_utf8].
  rewrite andb_true_iff, Nat.ltb_lt. intros [Hc Hl]. unfold decode_rune.
  destruct (Z.ltb_spec (Z.of_nat (code c)) 128); [|lia]. cbn [pred]. rewrite IH by done.
  unfold RuneError. by destruct (Z.eqb_spec (Z.of_nat (code c)) 65533); [lia|].
Qed.

(** ASCII text without a NUL is taken whole, and so is every cut of it. *)
Lemma storable_ascii s : ascii_string s = true → no_nul s = true → storable s = true.
Proof. unfold storable, ascii_string. intros Ha ->. by rewrite valid_utf8_ascii. Qed.

Lemma storable_slice s n : ascii_string s = true → no_nul s = true → storable (slice_to s n) = true.
Proof.
  unfold ascii_string, no_nul. intros Ha Hn.
  apply storable_ascii; unfold ascii_string, no_nul, slice_to; rewrite bytes_of_of.
  - rewrite forallb_forall in *. intros c Hc%list_elem_of_In%elem_of_take. apply Ha, list_elem_of_In.
    destruct Hc as (i & Hi & _). by eapply list_elem_of_lookup_2.
  - rewrite forallb_forall in *. intros c Hc%list_elem_of_In%elem_of_take. apply Hn, list_elem_of_In.
    destruct Hc as (i & Hi & _). by eapply list_elem_of_lookup_2.
Qed.

(** [é] is taken; its first byte alone, and a NUL, are not. *)
Example storable_cut : map storable
  [String (byte 195) (String (byte 169) EmptyString); String (byte 195) EmptyString; String nul EmptyString]
  = [true; false; false].
Proof. vm_compute. reflexivity. Qed.
