(* ===== verification/Store.v ===== *)
(** The Postgres store of portfolios and runs (src/portfolio/db.go,
    src/portfolio/runs.go, src/portfolio/store.go) over the schema of
    src/sql/migrations.

    A database is its two tables, the clock [NOW()] reads, the next value of
    [uuidv7()] and a script of faults: each statement, [Begin] and [Commit]
    consumes one entry, [Some e] meaning that the server or the connection
    fails it with [e].  Statements are the source's SQL read over the tables; one
    that writes text the server does not take (PgText) fails and changes nothing;
    a transaction that does not commit leaves both tables as they were.  A query
    whose parameter is text the server does not take finds nothing here, where
    the server would answer with an error. *)
From S2P Require Import Prelude GoStrings GoTime Utf8 Types Json PgText.

(** ** Database state *)
Section state.

Record db := {
  portfolios : gmap uuid Portfolio;
  runs : gmap uuid Run;
  next_uuid : N;
  now : instant;
  faults : list (option goerror);
}.

End state.

#[export] Instance eta_db : Eta db := λ d,
  {| portfolios := portfolios d; runs := runs d; next_uuid := next_uuid d;
     now := now d; faults := faults d |}.

Section statements.

(** The outcome the next statement is scripted to have. *)
Definition next_fault (d : db) : db * option goerror :=
  match faults d with
  | [] => (d, None)
  | f :: fs => (d <| faults := fs |>, f)
  end.

(** One statement, autocommitted: it fails as scripted, or by a constraint. *)
Definition sql {A} (q : db → result (db * A)) (d : db) : db * result A :=
  let '(d, f) := next_fault d in
  match f with
  | Some e => (d, Err e)
  | None => match q d with Ok (d', a) => (d', Ok a) | Err e => (d, Err e) end
  end.

(** Back to the tables of [d0]; faults and generated ids stay consumed. *)
Definition rollback (d0 d : db) : db :=
  d <| portfolios := portfolios d0 |> <| runs := runs d0 |>.

(** [tx, err := pool.Begin(ctx)], the body, [tx.Commit(ctx)], with the deferred
    rollback on every other exit. *)
Definition in_tx {A} (begin_err commit_err : goerror → goerror)
    (body : db → db * result A) (d0 : db) : db * result A :=
  let '(d, f) := next_fault d0 in
  match f with
  | Some e => (d, Err (begin_err e))
  | None =>
    let '(d1, r) := body d in
    match r with
    | Err e => (rollback d d1, Err e)
    | Ok a =>
      let '(d2, f) := next_fault d1 in
      match f with
      | Some e => (rollback d d2, Err (commit_err e))
      | None => (d2, Ok a)
      end
    end
  end.

(** Sequencing of state-passing fallible statements. *)
Definition then_ {A B} (m : db → db * result A) (k : A → db → db * result B) (d : db) :
    db * result B :=
  let '(d, r) := m d in
  match r with Ok a => k a d | Err e => (d, Err e) end.

Definition map_err {A} (f : goerror → goerror) (m : db → db * result A) (d : db) : db * result A :=
  let '(d, r) := m d in (d, match r with Ok a => Ok a | Err e => Err (f e) end).

Definition unique_violation : goerror :=
  opaque_err "ERROR: duplicate key value violates unique constraint (SQLSTATE 23505)".
Definition foreign_key_violation : goerror :=
  opaque_err "ERROR: insert or update violates foreign key constraint (SQLSTATE 23503)".
Definition check_violation : goerror :=
  opaque_err "ERROR: new row violates check constraint (SQLSTATE 23514)".
Definition invalid_enum : goerror :=
  opaque_err "ERROR: invalid input value for enum (SQLSTATE 22P02)".

(** [uniqueViolation]. *)
Definition uniqueViolation (e : goerror) : bool := contains (err_text e) "SQLSTATE 23505".

(** The enum types [portfolio_status] and [run_status] of the schema. *)
Definition portfolio_status_enum : list string := [StatusPending; StatusRunning; StatusReady; StatusFailed].
Definition run_status_enum : list string := ["queued"; "running"; "success"; "failed"].

(** [status IN ('queued', 'running')]. *)
Definition inflight (r : Run) : bool :=
  bool_decide (run_Status r = "queued") || bool_decide (run_Status r = "running").

(** The partial unique index [backtest_runs_one_inflight_per_portfolio], as seen
    by a row about to become [r]. *)
Definition inflight_conflict (d : db) (r : Run) : bool :=
  inflight r && existsb (λ ir : uuid * Run,
    bool_decide (ir.1 ≠ run_ID r) && bool_decide (run_PortfolioID ir.2 = run_PortfolioID r)
    && inflight ir.2) (map_to_list (runs d)).

(** [UPDATE portfolios SET f WHERE id = i]; the number of rows affected. *)
Definition update_portfolio (i : uuid) (f : Portfolio → Portfolio) (d : db) : result (db * Z) :=
  match portfolios d !! i with
  | Some p => Ok (d <| portfolios := <[i := f p]> (portfolios d) |>, 1)
  | None => Ok (d, 0)
  end.

(** [UPDATE backtest_runs SET f WHERE id = i], under the partial unique index. *)
Definition update_run (i : uuid) (f : Run → Run) (d : db) : result (db * Z) :=
  match runs d !! i with
  | Some r =>
    if inflight_conflict d (f r) then Err unique_violation
    else Ok (d <| runs := <[i := f r]> (runs d) |>, 1)
  | None => Ok (d, 0)
  end.

Definition no_row {A} (e : goerror) (n : Z) (a : A) (d : db) : db * result A :=
  (d, if decide (n = 0) then Err e else Ok a).

End statements.

(** ** src/portfolio/db.go *)
Section portfolio_db.
Context `{MapRange}.
(** [json.Marshal] of a parameter map: [Some e] when it fails. *)
Context (marshal_err : gmap string json → option goerror).
(** [(t AT TIME ZONE 'America/New_York')::date], as a day number. *)
Context (et_date : instant → Z).

Definition rows (d : db) : list Portfolio := (range_map (portfolios d)).*2.
Definition run_rows (d : db) : list Run := (range_map (runs d)).*2.

(** [ORDER BY created_at DESC]. *)
Definition created_desc (p q : Portfolio) : Prop := CreatedAt q ≤ CreatedAt p.
#[export] Instance created_desc_dec : RelDecision created_desc.
Proof. intros p q. unfold created_desc. apply _. Defined.

(** [List]. *)
Definition List (ownerSub : string) : db → db * result (list Portfolio) :=
  map_err (wrap "querying portfolios: ") (sql (λ d,
    Ok (d, merge_sort created_desc (filter (λ p, OwnerSub p = ownerSub) (rows d))))).

(** [ListByStrategyCode]. *)
Definition ListByStrategyCode (shortCode : string) : db → db * result (list Portfolio) :=
  map_err (wrap "querying portfolios by strategy_code: ") (sql (λ d,
    Ok (d, filter (λ p, StrategyCode p = shortCode) (rows d)))).

(** [Get]: at most one row, by the unique index on (owner_sub, slug). *)
Definition Get (ownerSub slug : string) : db → db * result Portfolio :=
  sql (λ d, match filter (λ p, OwnerSub p = ownerSub ∧ Slug p = slug) (rows d) with
            | p :: _ => Ok (d, p)
            | [] => Err ErrNotFound
            end).

(** [GetByID]. *)
Definition GetByID (id : uuid) : db → db * result Portfolio :=
  sql (λ d, match portfolios d !! id with Some p => Ok (d, p) | None => Err ErrNotFound end).

(** The INSERT of [Insert]: columns not listed take their defaults. *)
Definition insert_row (p : Portfolio) (d : db) : result (db * unit) :=
  if RunRetention p <? 1 then Err check_violation
  else if bool_decide (Status p ∉ portfolio_status_enum) then Err invalid_enum
  else if bool_decide (filter (λ q, OwnerSub q = OwnerSub p ∧ Slug q = Slug p) (rows d) = [])
  then
    let row := p <| ID := next_uuid d |> <| LastRunAt := None |> <| LastError := None |>
      <| SnapshotPath := None |> <| CurrentValue := None |> <| YtdReturn := None |>
      <| MaxDrawdown := None |> <| Sharpe := None |> <| CagrSinceInception := None |>
      <| InceptionDate := None |> <| CreatedAt := now d |> <| UpdatedAt := now d |> in
    Ok (d <| portfolios := <[next_uuid d := row]> (portfolios d) |>
          <| next_uuid := (next_uuid d + 1)%N |>, ())
  else Err unique_violation.

(** The TEXT columns [Insert] writes. *)
Definition insert_texts (p : Portfolio) : list string :=
  [OwnerSub p; Slug p; Name p; StrategyCode p] ++ option_list (StrategyVer p) ++
  [StrategyCloneURL p] ++ option_list (PresetName p) ++ [Benchmark p].

Definition insertable (p : Portfolio) : bool :=
  forallb storable (insert_texts p) && (jsonb_text (StrategyDescribeJSON p) && json_no_nul (JObj (Parameters p))).

(** [Insert]. *)
Definition Insert (p : Portfolio) (d : db) : db * result unit :=
  match marshal_err (Parameters p) with
  | Some e => (d, Err (wrap "marshaling parameters: " e))
  | None =>
    map_err (λ e, if uniqueViolation e then ErrDuplicateSlug else wrap "inserting portfolio: " e)
      (sql (with_text (insert_texts p) (with_jsonb (StrategyDescribeJSON p) (Parameters p) (insert_row p)))) d
  end.

(** The row of a user's slug, for the [WHERE owner_sub = $1 AND slug = $2] updates. *)
Definition find_slug (ownerSub slug : string) (d : db) : option uuid :=
  match filter (λ p, OwnerSub p = ownerSub ∧ Slug p = slug) (rows d) with
  | p :: _ => Some (ID p)
  | [] => None
  end.

Definition update_slug (ownerSub slug : string) (f : instant → Portfolio → Portfolio) (d : db) :
    result (db * Z) :=
  match find_slug ownerSub slug d with
  | Some i => update_portfolio i (f (now d)) d
  | None => Ok (d, 0)
  end.

(** [UpdateName]. *)
Definition UpdateName (ownerSub slug name : string) : db → db * result unit :=
  then_ (map_err (wrap "updating portfolio name: ") (sql (with_text [name] (update_slug ownerSub slug (λ t p,
    p <| Name := name |> <| UpdatedAt := t |>))))) (λ n, no_row ErrNotFound n ()).

(** [COALESCE($n, col)]. *)
Definition coalesce {A} (a b : option A) : option A :=
  match a with Some _ => a | None => b end.

(** [UpdateDates]. *)
Definition UpdateDates (ownerSub slug : string) (startDate endDate : option instant) :
    db → db * result unit :=
  then_ (map_err (wrap "updating portfolio dates: ") (sql (update_slug ownerSub slug (λ t p,
    p <| StartDate := coalesce startDate (StartDate p) |>
      <| EndDate := coalesce endDate (EndDate p) |> <| UpdatedAt := t |>))))
    (λ n, no_row ErrNotFound n ()).

(** [UpdateRunRetention], under the CHECK constraint. *)
Definition UpdateRunRetention (ownerSub slug : string) (value : Z) : db → db * result unit :=
  then_ (map_err (wrap "updating run_retention: ") (sql (λ d,
    if (value <? 1) && bool_decide (is_Some (find_slug ownerSub slug d)) then Err check_violation
    else update_slug ownerSub slug (λ t p, p <| RunRetention := value |> <| UpdatedAt := t |>) d)))
    (λ n, no_row ErrNotFound n ()).

(** [DELETE FROM portfolios ...], runs cascading. *)
Definition delete_row (ownerSub slug : string) (d : db) : result (db * Z) :=
  match find_slug ownerSub slug d with
  | Some i => Ok (d <| portfolios := delete i (portfolios d) |>
                    <| runs := filter (λ ir, run_PortfolioID ir.2 ≠ i) (runs d) |>, 1)
  | None => Ok (d, 0)
  end.

(** [Delete]. *)
Definition Delete (ownerSub slug : string) : db → db * result unit :=
  then_ (map_err (wrap "deleting portfolio: ") (sql (delete_row ownerSub slug)))
    (λ n, no_row ErrNotFound n ()).

Definition set_running (t : instant) (p : Portfolio) : Portfolio :=
  p <| Status := StatusRunning |> <| UpdatedAt := t |>.
Definition run_running (t : instant) (r : Run) : Run :=
  r <| run_Status := "running" |> <| run_StartedAt := Some t |>.

(** The KPI columns [MarkReadyTx] and [SetReady] write. *)
Record ready_args := {
  ra_snapshotPath : string; ra_currentValue : float64; ra_ytd : option float64;
  ra_maxDrawdown : option float64; ra_sharpe : option float64; ra_cagr : option float64;
  ra_inceptionDate : instant;
}.

Definition set_ready (a : ready_args) (t : instant) (p : Portfolio) : Portfolio :=
  p <| Status := StatusReady |> <| LastRunAt := Some t |> <| LastError := None |>
    <| SnapshotPath := Some (ra_snapshotPath a) |> <| CurrentValue := Some (ra_currentValue a) |>
    <| YtdReturn := ra_ytd a |> <| MaxDrawdown := ra_maxDrawdown a |> <| Sharpe := ra_sharpe a |>
    <| CagrSinceInception := ra_cagr a |>
    <| InceptionDate := coalesce (InceptionDate p) (Some (ra_inceptionDate a)) |>
    <| UpdatedAt := t |>.
Definition run_success (path : string) (ms : Z) (t : instant) (r : Run) : Run :=
  r <| run_Status := "success" |> <| run_FinishedAt := Some t |>
    <| run_SnapshotPath := Some path |> <| run_DurationMs := Some ms |>.

Definition set_failed (errMsg : string) (t : instant) (p : Portfolio) : Portfolio :=
  p <| Status := StatusFailed |> <| LastError := Some errMsg |> <| UpdatedAt := t |>.
Definition run_failed (errMsg : string) (ms : Z) (t : instant) (r : Run) : Run :=
  r <| run_Status := "failed" |> <| run_FinishedAt := Some t |>
    <| run_Error := Some errMsg |> <| run_DurationMs := Some ms |>.

(** [SetRunning], [SetReady], [SetFailed]: rows affected are not looked at. *)
Definition SetRunning (id : uuid) : db → db * result unit :=
  then_ (sql (λ d, update_portfolio id (set_running (now d)) d)) (λ _ d, (d, Ok ())).
Definition SetReady (id : uuid) (a : ready_args) : db → db * result unit :=
  then_ (sql (with_text [ra_snapshotPath a] (λ d, update_portfolio id (set_ready a (now d)) d))) (λ _ d, (d, Ok ())).
Definition SetFailed (id : uuid) (errMsg : string) : db → db * result unit :=
  then_ (sql (with_text [errMsg] (λ d, update_portfolio id (set_failed errMsg (now d)) d))) (λ _ d, (d, Ok ())).

(** [MarkRunningTx]. *)
Definition MarkRunningTx (portfolioID runID : uuid) : db → db * result unit :=
  in_tx id id (
    then_ (sql (λ d, update_portfolio portfolioID (set_running (now d)) d)) (λ _,
    then_ (sql (λ d, update_run runID (run_running (now d)) d)) (λ _ d, (d, Ok ())))).

(** [MarkReadyTx]. *)
Definition MarkReadyTx (portfolioID runID : uuid) (a : ready_args) (durationMs : Z) :
    db → db * result unit :=
  in_tx id id (
    then_ (sql (with_text [ra_snapshotPath a] (λ d, update_portfolio portfolioID (set_ready a (now d)) d))) (λ _,
    then_ (sql (with_text [ra_snapshotPath a] (λ d, update_run runID (run_success (ra_snapshotPath a) durationMs (now d)) d)))
      (λ _ d, (d, Ok ())))).

(** [MarkFailedTx]. *)
Definition MarkFailedTx (portfolioID runID : uuid) (errMsg : string) (durationMs : Z) :
    db → db * result unit :=
  in_tx id id (
    then_ (sql (with_text [errMsg] (λ d, update_portfolio portfolioID (set_failed errMsg (now d)) d))) (λ _,
    then_ (sql (with_text [errMsg] (λ d, update_run runID (run_failed errMsg durationMs (now d)) d)))
      (λ _ d, (d, Ok ())))).

(** [AllPortfolioIDs], [AllRunIDs]. *)
Definition AllPortfolioIDs : db → db * result (gset uuid) := sql (λ d, Ok (d, dom (portfolios d))).
Definition AllRunIDs : db → db * result (gset uuid) := sql (λ d, Ok (d, dom (runs d))).

(** The two UPDATEs of [MarkAllRunningAsFailed]. *)
Definition fail_running_portfolios (reason : string) (d : db) : result (db * Z) :=
  Ok (d <| portfolios := (λ p, if decide (Status p = StatusRunning)
                               then set_failed reason (now d) p else p) <$> portfolios d |>,
      Z.of_nat (size (filter (λ ip, Status ip.2 = StatusRunning) (portfolios d)))).
Definition fail_inflight_runs (reason : string) (d : db) : result (db * Z) :=
  Ok (d <| runs := (λ r, if inflight r
                         then r <| run_Status := "failed" |> <| run_FinishedAt := Some (now d) |>
                                <| run_Error := Some reason |>
                         else r) <$> runs d |>,
      Z.of_nat (size (filter (λ ir, inflight ir.2 = true) (runs d)))).

(** [MarkAllRunningAsFailed]. *)
Definition MarkAllRunningAsFailed (reason : string) : db → db * result (Z * Z) :=
  in_tx id id (
    then_ (sql (with_text [reason] (fail_running_portfolios reason))) (λ np,
    then_ (sql (with_text [reason] (fail_inflight_runs reason))) (λ nr d, (d, Ok (np, nr))))).

(** [ROW_NUMBER() OVER (ORDER BY id DESC)] of the portfolio's runs: one more than
    the number of its runs with a larger id. *)
Definition row_number (d : db) (portfolioID : uuid) (r : Run) : Z :=
  1 + Z.of_nat (size (filter (λ ir : uuid * Run,
        run_PortfolioID ir.2 = portfolioID ∧ (run_ID r < ir.1)%N) (runs d))).

Definition pruned (d : db) (portfolioID : uuid) (retention : Z) (r : Run) : bool :=
  bool_decide (run_PortfolioID r = portfolioID) && (retention <? row_number d portfolioID r).

(** The DELETE ... RETURNING of [PruneRuns], keeping the non-empty paths. *)
Definition prune_rows (portfolioID : uuid) (retention : Z) (d : db) : result (db * list string) :=
  let deleted := filter (λ r, pruned d portfolioID retention r = true) (run_rows d) in
  Ok (d <| runs := filter (λ ir, pruned d portfolioID retention ir.2 = false) (runs d) |>,
      filter (λ p, p ≠ "") (map (λ r, default "" (run_SnapshotPath r)) deleted)).

(** [PruneRuns]. *)
Definition PruneRuns (portfolioID : uuid) : db → db * result (list string) :=
  in_tx (wrap "begin: ") (wrap "commit: ") (
    then_ (map_err (λ e, if errors_is e sql_ErrNoRows then ErrNotFound
                         else wrap "loading run_retention: " e)
             (sql (λ d, match portfolios d !! portfolioID with
                        | Some p => Ok (d, RunRetention p)
                        | None => Err (sentinel_err sql_ErrNoRows "no rows in result set")
                        end))) (λ retention,
    map_err (wrap "pruning backtest_runs: ") (sql (prune_rows portfolioID retention)))).

(** [ApplyUpgrade]. *)
Definition set_upgrade (newVer : string) (newDescribe : string) (newParams : gmap string json)
    (newPresetName : option string) (t : instant) (p : Portfolio) : Portfolio :=
  p <| StrategyVer := Some newVer |> <| StrategyDescribeJSON := newDescribe |>
    <| Parameters := newParams |> <| PresetName := newPresetName |>
    <| Status := StatusPending |> <| LastError := None |> <| UpdatedAt := t |>.

Definition ApplyUpgrade (portfolioID : uuid) (newVer newDescribe : string)
    (newParams : gmap string json) (newPresetName : option string) : db → db * result unit :=
  in_tx (wrap "begin: ") (wrap "commit: ") (
    then_ (map_err (wrap "updating portfolio: ")
      (sql (with_text (newVer :: option_list newPresetName) (with_jsonb newDescribe newParams (λ d,
        update_portfolio portfolioID (set_upgrade newVer newDescribe newParams newPresetName (now d)) d)))))
    (λ n, no_row ErrNotFound n ())).

(** The WHERE clause of [ClaimDue]. *)
Definition ran_today (d : db) (p : Portfolio) : bool :=
  existsb (λ r, bool_decide (run_PortfolioID r = ID p)
    && bool_decide (run_TriggeredBy r = TriggerScheduled)
    && match run_StartedAt r with Some t => et_date t =? et_date (now d) | None => false end)
    (run_rows d).
Definition has_inflight (d : db) (p : Portfolio) : bool :=
  existsb (λ r, bool_decide (run_PortfolioID r = ID p) && inflight r) (run_rows d).
Definition due (d : db) (p : Portfolio) : bool :=
  bool_decide (EndDate p = None)
  && (bool_decide (Status p = StatusReady) || bool_decide (Status p = StatusFailed))
  && negb (ran_today d p) && negb (has_inflight d p).

(** [ORDER BY p.last_run_at NULLS FIRST]. *)
Definition last_run_le (p q : Portfolio) : Prop :=
  match LastRunAt p, LastRunAt q with
  | None, _ => True
  | Some _, None => False
  | Some a, Some b => a ≤ b
  end.
#[export] Instance last_run_le_dec : RelDecision last_run_le.
Proof. intros p q. unfold last_run_le. repeat case_match; apply _. Defined.

(** [ClaimDue]; a negative LIMIT is an error. *)
Definition ClaimDue (batchSize : Z) : db → db * result (list uuid) :=
  sql (λ d, if batchSize <? 0 then Err (opaque_err "ERROR: LIMIT must not be negative (SQLSTATE 2201W)")
            else Ok (d, map ID (take (Z.to_nat batchSize)
                   (merge_sort last_run_le (filter (λ p, due d p = true) (rows d)))))).

End portfolio_db.

(** ** src/portfolio/runs.go *)
Section runs_db.
Context `{MapRange}.

(** The INSERT of [CreateRun]. *)
Definition insert_run (portfolioID : uuid) (status trigger : string) (d : db) : result (db * Run) :=
  if bool_decide (status ∉ run_status_enum) then Err invalid_enum
  else if bool_decide (trigger ∉ [TriggerScheduled; TriggerManual]) then Err check_violation
  else
    let r := {| run_ID := next_uuid d; run_PortfolioID := portfolioID; run_Status := status;
                run_StartedAt := None; run_FinishedAt := None; run_DurationMs := None;
                run_Error := None; run_SnapshotPath := None; run_TriggeredBy := trigger |} in
    if inflight_conflict d r then Err unique_violation
    else if bool_decide (portfolios d !! portfolioID = None) then Err foreign_key_violation
    else Ok (d <| runs := <[next_uuid d := r]> (runs d) |>
               <| next_uuid := (next_uuid d + 1)%N |>, r).

(** [PoolRunStore.CreateRun]. *)
Definition CreateRun (portfolioID : uuid) (status trigger : string) : db → db * result Run :=
  map_err (λ e, if uniqueViolation e then ErrRunInFlight else e)
    (sql (insert_run portfolioID status trigger)).

(** [PoolRunStore.UpdateRunRunning], [UpdateRunSuccess], [UpdateRunFailed]. *)
Definition UpdateRunRunning (runID : uuid) : db → db * result unit :=
  then_ (sql (λ d, update_run runID (run_running (now d)) d)) (λ _ d, (d, Ok ())).
Definition UpdateRunSuccess (runID : uuid) (snapshotPath : string) (durationMs : Z) :
    db → db * result unit :=
  then_ (sql (with_text [snapshotPath] (λ d, update_run runID (run_success snapshotPath durationMs (now d)) d))) (λ _ d, (d, Ok ())).
Definition UpdateRunFailed (runID : uuid) (errMsg : string) (durationMs : Z) :
    db → db * result unit :=
  then_ (sql (with_text [errMsg] (λ d, update_run runID (run_failed errMsg durationMs (now d)) d))) (λ _ d, (d, Ok ())).

(** [ORDER BY COALESCE(started_at, '0001-01-01') DESC]: unstarted runs come last.
    [year1] is the instant of 0001-01-01T00:00:00Z. *)
Definition year1 : instant := midnight (-719162).
Definition started_or_year1 (r : Run) : instant := default year1 (run_StartedAt r).
Definition started_desc (r s : Run) : Prop := started_or_year1 s ≤ started_or_year1 r.
#[export] Instance started_desc_dec : RelDecision started_desc.
Proof. intros p q. unfold started_desc. apply _. Defined.

(** [PoolRunStore.ListRuns]. *)
Definition ListRuns (portfolioID : uuid) : db → db * result (list Run) :=
  sql (λ d, Ok (d, merge_sort started_desc
    (filter (λ r, run_PortfolioID r = portfolioID) (run_rows d)))).

(** [PoolRunStore.GetRun]: every error becomes [ErrNotFound]. *)
Definition GetRun (portfolioID runID : uuid) : db → db * result Run :=
  map_err (λ _, ErrNotFound) (sql (λ d,
    match runs d !! runID with
    | Some r => if decide (run_PortfolioID r = portfolioID) then Ok (d, r)
                else Err (sentinel_err sql_ErrNoRows "no rows in result set")
    | None => Err (sentinel_err sql_ErrNoRows "no rows in result set")
    end)).

End runs_db.

(** ** Schema invariant *)
Section schema.
Context `{MapRange}.

(** What the schema promises of the tables: keys are ids, (owner, slug) is
    unique, retention is at least one, statuses are in their enums, runs refer
    to portfolios, at most one run per portfolio is in flight, and generated
    ids are above all existing ones and never the nil one. *)
Record db_inv (d : db) : Prop := {
  inv_pid : ∀ i p, portfolios d !! i = Some p → ID p = i;
  inv_slug : ∀ i j p q, portfolios d !! i = Some p → portfolios d !! j = Some q →
    OwnerSub p = OwnerSub q → Types.Slug p = Types.Slug q → i = j;
  inv_retention : ∀ i p, portfolios d !! i = Some p → 1 ≤ RunRetention p;
  inv_pstatus : ∀ i p, portfolios d !! i = Some p → Status p ∈ portfolio_status_enum;
  inv_rid : ∀ i r, runs d !! i = Some r → run_ID r = i;
  inv_fk : ∀ i r, runs d !! i = Some r → is_Some (portfolios d !! run_PortfolioID r);
  inv_rstatus : ∀ i r, runs d !! i = Some r → run_Status r ∈ run_status_enum;
  inv_inflight : ∀ i j r s, runs d !! i = Some r → runs d !! j = Some s →
    run_PortfolioID r = run_PortfolioID s → inflight r = true → inflight s = true → i = j;
  inv_fresh : (∀ i, is_Some (portfolios d !! i) → (i < next_uuid d)%N) ∧
              (∀ i, is_Some (runs d !! i) → (i < next_uuid d)%N);
  inv_nil : (uuid_Nil < next_uuid d)%N ∧ portfolios d !! uuid_Nil = None;
}.

Lemma elem_of_rows d p : p ∈ rows d ↔ ∃ i, portfolios d !! i = Some p.
Proof.
  unfold rows. rewrite list_elem_of_fmap. split.
  - intros ([i q] & -> & Hin). exists i. by apply elem_of_range_map.
  - intros [i Hi]. exists (i, p). split; [done|]. by apply elem_of_range_map.
Qed.

Lemma elem_of_run_rows d r : r ∈ run_rows d ↔ ∃ i, runs d !! i = Some r.
Proof.
  unfold run_rows. rewrite list_elem_of_fmap. split.
  - intros ([i q] & -> & Hin). exists i. by apply elem_of_range_map.
  - intros [i Hi]. exists (i, r). split; [done|]. by apply elem_of_range_map.
Qed.

Lemma inflight_conflict_false d r :
  inflight_conflict d r = false ↔
  (inflight r = true → ∀ i s, runs d !! i = Some s → i ≠ run_ID r →
     run_PortfolioID s = run_PortfolioID r → inflight s = false).
Proof.
  unfold inflight_conflict. rewrite andb_false_iff. split.
  - intros [Hr|Hex] Hin i s Hs Hne Hp; [congruence|].
    destruct (inflight s) eqn:Hfs; [|done]. rewrite <-not_true_iff_false in Hex. destruct Hex.
    apply existsb_exists. exists (i, s). split.
    + by apply list_elem_of_In, elem_of_map_to_list.
    + cbn. rewrite Hfs, !bool_decide_eq_true_2 by done. done.
  - intros Hall. destruct (inflight r) eqn:Hr; [right|by left].
    rewrite <-not_true_iff_false, existsb_exists. intros ([i s] & Hin & Hb). cbn in Hb.
    apply list_elem_of_In, elem_of_map_to_list in Hin.
    rewrite !andb_true_iff, !bool_decide_eq_true in Hb. destruct Hb as [[Hne Hp] Hs].
    rewrite (Hall eq_refl i s Hin Hne Hp) in Hs. done.
Qed.

(** [find_slug] finds the one row with that owner and slug. *)
Lemma find_slug_Some d o s i :
  db_inv d → find_slug o s d = Some i ↔
    ∃ p, portfolios d !! i = Some p ∧ OwnerSub p = o ∧ Types.Slug p = s.
Proof.
  intros Hinv. unfold find_slug.
  destruct (filter _ (rows d)) as [|p l] eqn:Hf.
  - split; [done|]. intros (p & Hp & Ho & Hs).
    assert (p ∈ filter (λ p, OwnerSub p = o ∧ Types.Slug p = s) (rows d)) as Hin.
    { apply list_elem_of_filter. split; [done|]. apply elem_of_rows. eauto. }
    rewrite Hf in Hin. by apply not_elem_of_nil in Hin.
  - assert (p ∈ filter (λ p, OwnerSub p = o ∧ Types.Slug p = s) (rows d)) as Hin
      by (rewrite Hf; by left).
    apply list_elem_of_filter in Hin as [[Ho Hs] [j Hj]%elem_of_rows]. split.
    + intros [= <-]. exists p. by rewrite (inv_pid _ Hinv _ _ Hj).
    + intros (q & Hq & Ho' & Hs'). f_equal. rewrite (inv_pid _ Hinv _ _ Hj).
      eapply (inv_slug d Hinv j i p q); congruence.
Qed.

Lemma inv_update_portfolio d d' i f n :
  db_inv d → update_portfolio i f d = Ok (d', n) →
  (∀ p, portfolios d !! i = Some p → ID (f p) = ID p ∧ OwnerSub (f p) = OwnerSub p ∧
     Types.Slug (f p) = Types.Slug p ∧ 1 ≤ RunRetention (f p) ∧ Status (f p) ∈ portfolio_status_enum) →
  db_inv d'.
Proof.
  intros Hinv Hu Hf. unfold update_portfolio in Hu.
  destruct (portfolios d !! i) as [p|] eqn:Hp; injection Hu as <- <-; [|done].
  destruct (Hf p eq_refl) as (Hid & Ho & Hs & Hr & Hst). destruct Hinv as [H1 H2 H3 H4 H5 H6 H7 H8 [H9 H10] [H11 H12]].
  assert (∀ j q, <[i:=f p]> (portfolios d) !! j = Some q →
    ∃ q0, portfolios d !! j = Some q0 ∧ ID q = ID q0 ∧ OwnerSub q = OwnerSub q0 ∧ Types.Slug q = Types.Slug q0 ∧
      1 ≤ RunRetention q ∧ Status q ∈ portfolio_status_enum) as Hback.
  { intros j q. destruct (decide (j = i)) as [->|Hne].
    - rewrite lookup_insert_eq. intros [= <-]. exists p. done.
    - rewrite lookup_insert_ne by done. intros Hq. exists q.
      split; [done|]. split; [done|]. split; [done|]. split; [done|]. split; [by eapply H3|by eapply H4]. }
  split; cbn.
  - intros j q (q0 & Hq & -> & _)%Hback. eauto.
  - intros j k q q' (q0 & Hq & _ & Ho1 & Hs1 & _)%Hback (q0' & Hq' & _ & Ho2 & Hs2 & _)%Hback ??.
    eapply H2; eauto; congruence.
  - intros j q (q0 & Hq & _ & _ & _ & ? & _)%Hback. done.
  - intros j q (q0 & Hq & _ & _ & _ & _ & ?)%Hback. done.
  - done.
  - intros j r Hr'. rewrite lookup_insert_is_Some'. right. eauto.
  - done.
  - done.
  - split; [|done]. intros j. rewrite lookup_insert_is_Some'. intros [<-|?]; eauto.
  - split; [done|]. rewrite lookup_insert_ne by congruence. done.
Qed.

Lemma inv_update_run d d' i f n :
  db_inv d → update_run i f d = Ok (d', n) →
  (∀ r, runs d !! i = Some r → run_ID (f r) = run_ID r ∧
     run_PortfolioID (f r) = run_PortfolioID r ∧ run_Status (f r) ∈ run_status_enum) →
  db_inv d'.
Proof.
  intros Hinv Hu Hf. unfold update_run in Hu.
  destruct (runs d !! i) as [r|] eqn:Hr; [|by injection Hu as <- <-].
  destruct (inflight_conflict d (f r)) eqn:Hc; [done|]. injection Hu as <- <-.
  destruct (Hf r eq_refl) as (Hid & Hpid & Hst). rewrite inflight_conflict_false in Hc.
  destruct Hinv as [H1 H2 H3 H4 H5 H6 H7 H8 [H9 H10] [H11 H12]].
  rewrite Hid, Hpid, (H5 _ _ Hr) in Hc.
  split; cbn; try done.
  - intros j s. destruct (decide (j = i)) as [->|Hne]; [rewrite lookup_insert_eq|rewrite lookup_insert_ne by done; eauto].
    intros [= <-]. rewrite Hid. eauto.
  - intros j s. destruct (decide (j = i)) as [->|Hne]; [rewrite lookup_insert_eq|rewrite lookup_insert_ne by done; eauto].
    intros [= <-]. rewrite Hpid. eauto.
  - intros j s. destruct (decide (j = i)) as [->|Hne]; [rewrite lookup_insert_eq|rewrite lookup_insert_ne by done; eauto].
    by intros [= <-].
  - intros j k s s'. destruct (decide (j = i)) as [->|Hj], (decide (k = i)) as [->|Hk];
      rewrite ?lookup_insert_eq, ?lookup_insert_ne by done; [done| | |eauto].
    + intros [= <-] Hs' Hp Hfi Hfs'. rewrite (Hc Hfi k s') in Hfs'; [done|done|done|congruence].
    + intros Hs [= <-] Hp Hfs Hfi. rewrite (Hc Hfi j s) in Hfs; [done|done|done|congruence].
  - split; [done|]. intros j. rewrite lookup_insert_is_Some'. intros [<-|?]; eauto.
Qed.

Lemma inv_tables d d' :
  db_inv d → portfolios d' = portfolios d → runs d' = runs d → (next_uuid d ≤ next_uuid d')%N →
  db_inv d'.
Proof.
  intros [H1 H2 H3 H4 H5 H6 H7 H8 [H9 H10] [H11 H12]] Hp Hr Hn. split; rewrite ?Hp, ?Hr; try done.
  - split; intros i Hi; eapply N.lt_le_trans; eauto.
  - split; [|done]. by eapply N.lt_le_trans.
Qed.

Lemma inv_delete_row d d' o s n :
  db_inv d → delete_row o s d = Ok (d', n) → db_inv d'.
Proof.
  intros Hinv Hd. unfold delete_row in Hd.
  destruct (find_slug o s d) as [i|]; injection Hd as <- <-; [|done].
  destruct Hinv as [H1 H2 H3 H4 H5 H6 H7 H8 [H9 H10] [H11 H12]].
  assert (∀ j r, filter (λ ir, run_PortfolioID ir.2 ≠ i) (runs d) !! j = Some r →
    runs d !! j = Some r ∧ run_PortfolioID r ≠ i) as Hback
    by (intros j r Hj; by apply map_lookup_filter_Some in Hj).
  assert (∀ j p, delete i (portfolios d) !! j = Some p → portfolios d !! j = Some p) as Hdel
    by (intros j p Hj; by apply lookup_delete_Some in Hj as [_ Hj]).
  split; cbn.
  - intros j p Hp%Hdel. eauto.
  - intros j k p q Hp%Hdel Hq%Hdel. eauto.
  - intros j p Hp%Hdel. eauto.
  - intros j p Hp%Hdel. eauto.
  - intros j r [Hr _]%Hback. eauto.
  - intros j r [Hr Hne]%Hback. rewrite lookup_delete_ne by done. eauto.
  - intros j r [Hr _]%Hback. eauto.
  - intros j k r r' [Hr _]%Hback [Hr' _]%Hback. eauto.
  - split; [intros j [p Hp%Hdel]; eauto|intros j [r [Hr _]%Hback]; eauto].
  - split; [done|]. apply eq_None_not_Some. intros [p Hp%Hdel]. congruence.
Qed.

Lemma inv_insert_row d d' p u :
  db_inv d → insert_row p d = Ok (d', u) → db_inv d'.
Proof.
  intros Hinv Hi. unfold insert_row in Hi.
  destruct (Z.ltb_spec (RunRetention p) 1); [done|].
  destruct (bool_decide_reflect (Status p ∉ portfolio_status_enum)) as [|Hst]; [done|].
  destruct (bool_decide_reflect
    (filter (λ q, OwnerSub q = OwnerSub p ∧ Types.Slug q = Types.Slug p) (rows d) = [])) as [Hnone|]; [|done].
  injection Hi as <- <-. destruct Hinv as [H1 H2 H3 H4 H5 H6 H7 H8 [H9 H10] [H11 H12]].
  assert (portfolios d !! next_uuid d = None) as Hnew.
  { apply eq_None_not_Some. intros ?%H9. lia. }
  assert (∀ j q, portfolios d !! j = Some q → OwnerSub q = OwnerSub p → Types.Slug q = Types.Slug p → False) as Hno.
  { intros j q Hq Ho Hs. eapply (not_elem_of_nil q). rewrite <-Hnone.
    apply list_elem_of_filter. split; [done|]. apply elem_of_rows. eauto. }
  split; cbn.
  - intros j q [[<- <-]|[Hne Hq]]%lookup_insert_Some; eauto.
  - intros j k q q' [[<- <-]|[Hne Hq]]%lookup_insert_Some [[<- <-]|[Hne' Hq']]%lookup_insert_Some;
      cbn; intros; [done| | |eauto]; exfalso; eauto.
  - intros j q [[<- <-]|[Hne Hq]]%lookup_insert_Some; [done|eauto].
  - intros j q [[<- <-]|[Hne Hq]]%lookup_insert_Some; [|eauto]. cbn. by apply dec_stable.
  - done.
  - intros j r Hr. rewrite lookup_insert_is_Some'. right. eauto.
  - done.
  - done.
  - split; intros j; [rewrite lookup_insert_is_Some'; intros [<-|?%H9]; lia|intros ?%H10; lia].
  - split; [lia|]. rewrite lookup_insert_ne by lia. done.
Qed.

Lemma inv_insert_run d d' pid st tr r :
  db_inv d → insert_run pid st tr d = Ok (d', r) → db_inv d'.
Proof.
  intros Hinv Hi. unfold insert_run in Hi.
  destruct (bool_decide_reflect (st ∉ run_status_enum)) as [|Hst]; [done|].
  destruct (bool_decide (tr ∉ _)); [done|]. cbv zeta in Hi.
  set (row := {| run_ID := _ |}) in Hi. destruct (inflight_conflict d row) eqn:Hc; [done|].
  destruct (bool_decide_reflect (portfolios d !! pid = None)) as [|Hp]; [done|].
  injection Hi as <- <-. rewrite inflight_conflict_false in Hc.
  destruct Hinv as [H1 H2 H3 H4 H5 H6 H7 H8 [H9 H10] [H11 H12]].
  assert (runs d !! next_uuid d = None) as Hnew.
  { apply eq_None_not_Some. intros ?%H10. lia. }
  split; cbn; try done.
  - intros j s [[<- <-]|[Hne Hs]]%lookup_insert_Some; [done|eauto].
  - intros j s [[<- <-]|[Hne Hs]]%lookup_insert_Some; [|eauto]. cbn.
    by destruct (portfolios d !! pid).
  - intros j s [[<- <-]|[Hne Hs]]%lookup_insert_Some; [|eauto]. cbn. by apply dec_stable.
  - intros j k s s' [[<- <-]|[Hne Hs]]%lookup_insert_Some [[<- <-]|[Hne' Hs']]%lookup_insert_Some;
      intros Hp' Hf Hf'; [done| | |eauto].
    + rewrite (Hc Hf k s') in Hf'; [done|done|done|by symmetry].
    + rewrite (Hc Hf' j s) in Hf; [done|done|done|done].
  - split; intros j; [intros ?%H9; lia|rewrite lookup_insert_is_Some'; intros [<-|?%H10]; lia].
  - split; [lia|done].
Qed.

Lemma inv_filter_runs d (P : uuid * Run → Prop) `{∀ x, Decision (P x)} :
  db_inv d → db_inv (d <| runs := filter P (runs d) |>).
Proof.
  intros [H1 H2 H3 H4 H5 H6 H7 H8 [H9 H10] [H11 H12]].
  assert (∀ j r, filter P (runs d) !! j = Some r → runs d !! j = Some r) as Hback
    by (intros j r Hj; by apply map_lookup_filter_Some in Hj as [Hj _]).
  split; cbn; eauto. split; [done|]. intros j [r Hr%Hback]. eauto.
Qed.

Lemma inv_fail_portfolios d d' reason n :
  db_inv d → fail_running_portfolios reason d = Ok (d', n) → db_inv d'.
Proof.
  intros [H1 H2 H3 H4 H5 H6 H7 H8 [H9 H10] [H11 H12]] [= <- <-].
  assert (∀ j q, ((λ p, if decide (Status p = StatusRunning) then set_failed reason (now d) p else p)
      <$> portfolios d) !! j = Some q →
    ∃ q0, portfolios d !! j = Some q0 ∧ ID q = ID q0 ∧ OwnerSub q = OwnerSub q0 ∧
      Types.Slug q = Types.Slug q0 ∧ RunRetention q = RunRetention q0 ∧
      (q = q0 ∨ Status q = StatusFailed)) as Hback.
  { intros j q. rewrite lookup_fmap. destruct (portfolios d !! j) as [q0|]; [|done]. cbn.
    intros [= <-]. exists q0. case_decide; cbn; auto 10. }
  split; cbn.
  - intros j q (q0 & Hq & -> & _)%Hback. eauto.
  - intros j k q q' (q0 & Hq & _ & -> & -> & _)%Hback (q0' & Hq' & _ & -> & -> & _)%Hback. eauto.
  - intros j q (q0 & Hq & _ & _ & _ & -> & _)%Hback. eauto.
  - intros j q (q0 & Hq & _ & _ & _ & _ & [->| ->])%Hback; [eauto|]. unfold portfolio_status_enum. set_solver.
  - done.
  - intros j r Hr. rewrite lookup_fmap, fmap_is_Some. eauto.
  - done.
  - done.
  - split; [|done]. intros j. rewrite lookup_fmap, fmap_is_Some. eauto.
  - split; [done|]. by rewrite lookup_fmap, H12.
Qed.

Lemma inv_fail_runs d d' reason n :
  db_inv d → fail_inflight_runs reason d = Ok (d', n) → db_inv d'.
Proof.
  intros [H1 H2 H3 H4 H5 H6 H7 H8 [H9 H10] [H11 H12]] [= <- <-].
  set (f := λ r, if inflight r then _ else r).
  assert (∀ j q, (f <$> runs d) !! j = Some q →
    ∃ q0, runs d !! j = Some q0 ∧ run_ID q = run_ID q0 ∧ run_PortfolioID q = run_PortfolioID q0 ∧
      inflight q = false ∧ (q = q0 ∨ run_Status q = "failed")) as Hback.
  { intros j q. rewrite lookup_fmap. destruct (runs d !! j) as [q0|]; [|done]. cbn.
    intros [= <-]. exists q0. unfold f. destruct (inflight q0) eqn:Hi; cbn; auto 10. }
  split; cbn; try done.
  - intros j q (q0 & Hq & -> & _)%Hback. eauto.
  - intros j q (q0 & Hq & _ & -> & _)%Hback. eauto.
  - intros j q (q0 & Hq & _ & _ & _ & [->| ->])%Hback; [eauto|]. unfold run_status_enum. set_solver.
  - intros j k q q' (q0 & Hq & _ & _ & Hf & _)%Hback _ _ ?. congruence.
  - split; [done|]. intros j. rewrite lookup_fmap, fmap_is_Some. eauto.
Qed.

(** ** Statement combinators preserve the schema invariant *)
Definition good {A} (m : db → db * result A) : Prop :=
  ∀ d, db_inv d → db_inv (m d).1 ∧ (next_uuid d ≤ next_uuid (m d).1)%N.

Lemma next_fault_tables d :
  portfolios (next_fault d).1 = portfolios d ∧ runs (next_fault d).1 = runs d ∧
  next_uuid (next_fault d).1 = next_uuid d ∧ now (next_fault d).1 = now d.
Proof. unfold next_fault. by destruct (faults d). Qed.

Lemma inv_next_fault d : db_inv d → db_inv (next_fault d).1.
Proof.
  intros Hinv. destruct (next_fault_tables d) as (Hp & Hr & Hn & _).
  eapply inv_tables; [done|done|done|]. rewrite Hn. done.
Qed.

Lemma good_sql {A} (q : db → result (db * A)) :
  (∀ d d' a, db_inv d → q d = Ok (d', a) → db_inv d' ∧ (next_uuid d ≤ next_uuid d')%N) →
  good (sql q).
Proof.
  intros Hq d Hinv. unfold sql. pose proof (inv_next_fault d Hinv) as Hinv'.
  destruct (next_fault_tables d) as (_ & _ & Hn & _).
  destruct (next_fault d) as [d1 [e|]]; cbn [fst] in *; [split; [done|lia]|].
  destruct (q d1) as [[d2 a]|e] eqn:Hd; cbn; [|split; [done|lia]].
  destruct (Hq _ _ _ Hinv' Hd). split; [done|lia].
Qed.

Lemma good_read {A} (q : db → result (db * A)) :
  (∀ d d' a, q d = Ok (d', a) → d' = d) → good (sql q).
Proof. intros Hq. apply good_sql. intros d d' a Hinv ->%Hq. done. Qed.

Lemma good_then {A B} (m : db → db * result A) (k : A → db → db * result B) :
  good m → (∀ a, good (k a)) → good (then_ m k).
Proof.
  intros Hm Hk d Hinv. destruct (Hm d Hinv) as [H1 H2]. unfold then_.
  destruct (m d) as [d1 [a|e]]; cbn in *; [|done]. destruct (Hk a d1 H1). split; [done|lia].
Qed.

Lemma good_map_err {A} f (m : db → db * result A) : good m → good (map_err f m).
Proof. intros Hm d Hinv. specialize (Hm d Hinv). unfold map_err. by destruct (m d). Qed.

Lemma good_pure {A} (g : db → result A) : good (λ d, (d, g d)).
Proof. intros d Hinv. by split. Qed.

Lemma good_in_tx {A} f g (body : db → db * result A) : good body → good (in_tx f g body).
Proof.
  intros Hb d Hinv. unfold in_tx. pose proof (inv_next_fault d Hinv) as Hinv1.
  destruct (next_fault_tables d) as (_ & _ & Hn & _).
  destruct (next_fault d) as [d1 [e|]]; cbn [fst] in *; [split; [done|lia]|].
  destruct (Hb d1 Hinv1) as [Hinv2 Hn2]. destruct (body d1) as [d2 [a|e]]; cbn [fst] in *.
  - pose proof (inv_next_fault d2 Hinv2) as Hinv3.
    destruct (next_fault_tables d2) as (_ & _ & Hn3 & _).
    destruct (next_fault d2) as [d3 [e|]]; cbn [fst] in *; [|split; [done|lia]].
    split; [|cbn; lia]. eapply inv_tables; [exact Hinv1|done|done|cbn; lia].
  - split; [|cbn; lia]. eapply inv_tables; [exact Hinv1|done|done|cbn; lia].
Qed.

(** The column updates of the store keep a row's identity, owner, slug and
    constraints; those of the run table keep id and portfolio. *)
Definition row_ok (f : Portfolio → Portfolio) : Prop :=
  ∀ p, 1 ≤ RunRetention p → Status p ∈ portfolio_status_enum →
    ID (f p) = ID p ∧ OwnerSub (f p) = OwnerSub p ∧ Types.Slug (f p) = Types.Slug p ∧
    1 ≤ RunRetention (f p) ∧ Status (f p) ∈ portfolio_status_enum.
Definition run_ok (f : Run → Run) : Prop :=
  ∀ r, run_ID (f r) = run_ID r ∧ run_PortfolioID (f r) = run_PortfolioID r ∧
    run_Status (f r) ∈ run_status_enum.

Lemma good_update_portfolio i (f : instant → Portfolio → Portfolio) :
  (∀ t, row_ok (f t)) → good (sql (λ d, update_portfolio i (f (now d)) d)).
Proof.
  intros Hf. apply good_sql. intros d d' n Hinv Hu. split.
  - eapply inv_update_portfolio; [done|exact Hu|]. intros p Hp.
    apply Hf; [by eapply inv_retention|by eapply inv_pstatus].
  - unfold update_portfolio in Hu. by destruct (portfolios d !! i); injection Hu as <- <-.
Qed.

Lemma good_update_slug o s (f : instant → Portfolio → Portfolio) :
  (∀ t, row_ok (f t)) → good (sql (update_slug o s f)).
Proof.
  intros Hf. apply good_sql. unfold update_slug. intros d d' n Hinv Hu.
  destruct (find_slug o s d) as [i|]; [|by injection Hu as <- <-]. split.
  - eapply inv_update_portfolio; [done|exact Hu|]. intros p Hp.
    apply Hf; [by eapply inv_retention|by eapply inv_pstatus].
  - unfold update_portfolio in Hu. by destruct (portfolios d !! i); injection Hu as <- <-.
Qed.

Lemma good_update_run i (f : instant → Run → Run) :
  (∀ t, run_ok (f t)) → good (sql (λ d, update_run i (f (now d)) d)).
Proof.
  intros Hf. apply good_sql. intros d d' n Hinv Hu. split.
  - eapply inv_update_run; [done|exact Hu|]. intros r _. apply Hf.
  - unfold update_run in Hu. destruct (runs d !! i) as [r|]; [|by injection Hu as <- <-].
    destruct (inflight_conflict _ _); [done|]. by injection Hu as <- <-.
Qed.

(** A refused parameter changes nothing. *)
Lemma good_with_text {A} ts (q : db → result (db * A)) : good (sql q) → good (sql (with_text ts q)).
Proof.
  intros Hq. destruct (with_text_cases ts q) as [-> | ->]; [done|]. apply good_sql. by intros ????.
Qed.
Lemma good_with_jsonb {A} j m (q : db → result (db * A)) : good (sql q) → good (sql (with_jsonb j m q)).
Proof.
  intros Hq. destruct (with_jsonb_cases j m q) as [-> | ->]; [done|]. apply good_sql. by intros ????.
Qed.

Lemma good_no_row {A} e n (a : A) : good (no_row e n a).
Proof. apply good_pure. Qed.

End schema.

Ltac row_ok_tac :=
  intros ? ? ? ?; cbn; repeat split; try done;
  unfold portfolio_status_enum; set_solver.
Ltac run_ok_tac := intros ? ?; cbn; repeat split; try done; unfold run_status_enum; set_solver.

#[export] Hint Resolve good_update_portfolio good_update_slug good_update_run good_no_row
  good_with_text good_with_jsonb : pvapi.
#[export] Hint Extern 2 (∀ _, row_ok _) => row_ok_tac : pvapi.
#[export] Hint Extern 2 (∀ _, run_ok _) => run_ok_tac : pvapi.

#[export] Hint Resolve good_then good_map_err good_pure good_in_tx : pvapi.

(** ** Whole operations *)
Section operations.
Context `{MapRange} (marshal_err : gmap string json → option goerror).

(** The operations that write the database, with the clock. *)
Inductive store_op :=
  | OpInsert (p : Portfolio)
  | OpUpdateName (o s name : string)
  | OpUpdateDates (o s : string) (a b : option instant)
  | OpUpdateRunRetention (o s : string) (v : Z)
  | OpDelete (o s : string)
  | OpSetRunning (i : uuid)
  | OpSetReady (i : uuid) (a : ready_args)
  | OpSetFailed (i : uuid) (m : string)
  | OpMarkRunningTx (i r : uuid)
  | OpMarkReadyTx (i r : uuid) (a : ready_args) (ms : Z)
  | OpMarkFailedTx (i r : uuid) (m : string) (ms : Z)
  | OpMarkAllRunningAsFailed (m : string)
  | OpPruneRuns (i : uuid)
  | OpApplyUpgrade (i : uuid) (v dsc : string) (ps : gmap string json) (pre : option string)
  | OpCreateRun (i : uuid) (st tr : string)
  | OpUpdateRunRunning (r : uuid)
  | OpUpdateRunSuccess (r : uuid) (path : string) (ms : Z)
  | OpUpdateRunFailed (r : uuid) (m : string) (ms : Z)
  | OpClock (t : instant).

Definition exec (op : store_op) (d : db) : db :=
  match op with
  | OpInsert p => (Insert marshal_err p d).1
  | OpUpdateName o s name => (UpdateName o s name d).1
  | OpUpdateDates o s a b => (UpdateDates o s a b d).1
  | OpUpdateRunRetention o s v => (UpdateRunRetention o s v d).1
  | OpDelete o s => (Delete o s d).1
  | OpSetRunning i => (SetRunning i d).1
  | OpSetReady i a => (SetReady i a d).1
  | OpSetFailed i m => (SetFailed i m d).1
  | OpMarkRunningTx i r => (MarkRunningTx i r d).1
  | OpMarkReadyTx i r a ms => (MarkReadyTx i r a ms d).1
  | OpMarkFailedTx i r m ms => (MarkFailedTx i r m ms d).1
  | OpMarkAllRunningAsFailed m => (MarkAllRunningAsFailed m d).1
  | OpPruneRuns i => (PruneRuns i d).1
  | OpApplyUpgrade i v dsc ps pre => (ApplyUpgrade i v dsc ps pre d).1
  | OpCreateRun i st tr => (CreateRun i st tr d).1
  | OpUpdateRunRunning r => (UpdateRunRunning r d).1
  | OpUpdateRunSuccess r path ms => (UpdateRunSuccess r path ms d).1
  | OpUpdateRunFailed r m ms => (UpdateRunFailed r m ms d).1
  | OpClock t => d <| now := t |>
  end.

Lemma good_insert p : good (Insert marshal_err p).
Proof.
  intros d Hinv. unfold Insert. destruct (marshal_err _); [by split|].
  apply good_map_err; [|done]. apply good_with_text, good_with_jsonb, good_sql. intros d1 d' [] Hinv1 Hi. split.
  - by eapply inv_insert_row.
  - unfold insert_row in Hi. repeat case_match; try done. injection Hi as <-. cbn. lia.
Qed.

Lemma good_update_run_retention o s v : good (UpdateRunRetention o s v).
Proof.
  apply good_then; [|auto with pvapi]. apply good_map_err, good_sql. intros d d' n Hinv Hu.
  destruct (Z.ltb_spec v 1); cbn in Hu.
  - case_bool_decide as Hf; [done|]. unfold update_slug in Hu.
    destruct (find_slug o s d); [by destruct Hf; eexists|]. by injection Hu as <- <-.
  - unfold update_slug in Hu. destruct (find_slug o s d) as [i|]; [|by injection Hu as <- <-]. split.
    + eapply inv_update_portfolio; [done|exact Hu|]. intros p Hp. cbn.
      repeat split; [done..|]. by eapply inv_pstatus.
    + unfold update_portfolio in Hu. by destruct (portfolios d !! i); injection Hu as <- <-.
Qed.

Lemma good_delete o s : good (Delete o s).
Proof.
  apply good_then; [|auto with pvapi]. apply good_map_err, good_sql. intros d d' n Hinv Hd. split.
  - by eapply inv_delete_row.
  - unfold delete_row in Hd. by destruct (find_slug o s d); injection Hd as <- <-.
Qed.

Lemma good_mark_all m : good (MarkAllRunningAsFailed m).
Proof.
  apply good_in_tx, good_then; [|intros; apply good_then; [|intros; apply good_pure]];
    apply good_with_text, good_sql; intros d d' n Hinv Hf.
  - split; [by eapply inv_fail_portfolios|by injection Hf as <- <-].
  - split; [by eapply inv_fail_runs|by injection Hf as <- <-].
Qed.

Lemma good_prune i : good (PruneRuns i).
Proof.
  apply good_in_tx, good_then.
  - apply good_map_err, good_read. intros d d' a Ha. destruct (portfolios d !! i); congruence.
  - intros n. apply good_map_err, good_sql. intros d d' ps Hinv [= <- <-]. split; [|done].
    by apply inv_filter_runs.
Qed.

Lemma good_create_run i st tr : good (CreateRun i st tr).
Proof.
  apply good_map_err, good_sql. intros d d' r Hinv Hi. split.
  - by eapply inv_insert_run.
  - unfold insert_run in Hi. repeat case_match; try done. injection Hi as <- <-. cbn. lia.
Qed.

Hint Resolve good_insert good_update_run_retention good_delete good_mark_all good_prune
  good_create_run : pvapi.

(** Every write, under every fault script, keeps the schema invariant. *)
Lemma exec_inv op d : db_inv d → db_inv (exec op d).
Proof.
  intros Hinv. destruct op; cbn [exec]; try (
    match goal with |- db_inv (?m d).1 => assert (good m) as Hg end;
    [unfold UpdateName, UpdateDates, SetRunning, SetReady, SetFailed, MarkRunningTx, MarkReadyTx,
       MarkFailedTx, ApplyUpgrade, UpdateRunRunning, UpdateRunSuccess, UpdateRunFailed;
     auto 20 with pvapi
    |by destruct (Hg d Hinv)]).
  by eapply inv_tables.
Qed.

End operations.
