(* ===== verification/StoreLaws.v ===== *)
(** What the store promises its callers: the schema invariant under every
    sequence of writes, the atomicity of the status transitions, the retention
    rule of [PruneRuns], the dispatch rule of [ClaimDue], the one-in-flight rule
    of [CreateRun], crash recovery, and the insert/lookup round trip. *)
From S2P Require Import Prelude GoStrings GoTime Types PgText Store.

Section laws.
Context `{MapRange}.
Context (marshal_err : gmap string json → option goerror).
Context (et_date : instant → Z).

(** The two tables of [d'] are those of [d]. *)
Definition same_tables (d d' : db) : Prop :=
  portfolios d' = portfolios d ∧ runs d' = runs d.

Lemma next_fault_same d : same_tables d (next_fault d).1 ∧ now (next_fault d).1 = now d.
Proof. destruct (next_fault_tables d) as (?&?&_&?). done. Qed.

(** A statement that succeeds is its query run on the same tables and clock. *)
Lemma sql_Ok {A} (q : db → result (db * A)) d d' a :
  sql q d = (d', Ok a) →
  ∃ d0, same_tables d d0 ∧ now d0 = now d ∧ next_uuid d0 = next_uuid d ∧ q d0 = Ok (d', a).
Proof.
  unfold sql. destruct (next_fault_tables d) as (Hp & Hr & Hn & Ht).
  destruct (next_fault d) as [d0 [e|]]; [done|]. destruct (q d0) as [[d1 b]|] eqn:Hq; [|done].
  intros [= <- <-]. exists d0. done.
Qed.

Lemma sql_Err {A} (q : db → result (db * A)) d d' e :
  sql q d = (d', Err e) → same_tables d d'.
Proof.
  unfold sql. destruct (next_fault_same d) as [Hs _].
  destruct (next_fault d) as [d0 [e0|]]; [intros [= <- _]; done|].
  destruct (q d0) as [[d1 b]|] eqn:Hq; [done|]. intros [= <- _]. done.
Qed.

(** Without a scripted fault a statement is its query. *)
Lemma sql_no_fault {A} (q : db → result (db * A)) d :
  faults d = [] →
  sql q d = match q d with Ok (d', a) => (d', Ok a) | Err e => (d, Err e) end.
Proof. intros Hf. unfold sql, next_fault. by rewrite Hf. Qed.

Lemma then_Ok {A B} (m : db → db * result A) (k : A → db → db * result B) d d' b :
  then_ m k d = (d', Ok b) → ∃ d1 a, m d = (d1, Ok a) ∧ k a d1 = (d', Ok b).
Proof. unfold then_. destruct (m d) as [d1 [a|e]]; [eauto|done]. Qed.

Lemma map_err_Ok {A} f (m : db → db * result A) d d' a :
  map_err f m d = (d', Ok a) → m d = (d', Ok a).
Proof. unfold map_err. destruct (m d) as [d1 [b|e]]; congruence. Qed.

(** A transaction that fails leaves the tables as they were. *)
Lemma in_tx_Err {A} f g (body : db → db * result A) d d' e :
  in_tx f g body d = (d', Err e) → same_tables d d'.
Proof.
  unfold in_tx. destruct (next_fault_same d) as [Hs _].
  destruct (next_fault d) as [d0 [e0|]]; [intros [= <- _]; done|].
  destruct (body d0) as [d1 [a|e1]]; [|intros [= <- _]; done].
  destruct (next_fault d1) as [d2 [e2|]]; [|done]. intros [= <- _]. done.
Qed.

(** One that succeeds ran its body to the end on the same tables. *)
Lemma in_tx_Ok {A} f g (body : db → db * result A) d d' a :
  in_tx f g body d = (d', Ok a) →
  ∃ d0 d1, same_tables d d0 ∧ now d0 = now d ∧ body d0 = (d1, Ok a) ∧ same_tables d1 d' ∧ now d' = now d1.
Proof.
  unfold in_tx. destruct (next_fault_same d) as [Hs Hn].
  destruct (next_fault d) as [d0 [e0|]]; [done|].
  destruct (body d0) as [d1 [b|e1]] eqn:Hb; [|done].
  destruct (next_fault_same d1) as [Hs1 Hn1]. destruct (next_fault d1) as [d2 [e2|]]; [done|].
  intros [= <- <-]. eauto 10.
Qed.

Lemma update_portfolio_alter i f d d' n :
  update_portfolio i f d = Ok (d', n) →
  portfolios d' = alter f i (portfolios d) ∧ runs d' = runs d ∧ now d' = now d.
Proof.
  unfold update_portfolio. destruct (portfolios d !! i) as [p|] eqn:Hp; intros [= <- _]; cbn.
  - split; [|done]. apply map_eq. intros j. destruct (decide (j = i)) as [->|Hne].
    + by rewrite lookup_insert_eq, lookup_alter_eq, Hp.
    + by rewrite lookup_insert_ne, lookup_alter_ne by done.
  - split; [|done]. symmetry. apply map_eq. intros j. destruct (decide (j = i)) as [->|Hne].
    + by rewrite lookup_alter_eq, Hp.
    + by rewrite lookup_alter_ne by done.
Qed.

Lemma update_run_alter i f d d' n :
  update_run i f d = Ok (d', n) →
  runs d' = alter f i (runs d) ∧ portfolios d' = portfolios d ∧ now d' = now d.
Proof.
  unfold update_run. destruct (runs d !! i) as [r|] eqn:Hr.
  - destruct (inflight_conflict _ _); [done|]. intros [= <- _]; cbn.
    split; [|done]. apply map_eq. intros j. destruct (decide (j = i)) as [->|Hne].
    + by rewrite lookup_insert_eq, lookup_alter_eq, Hr.
    + by rewrite lookup_insert_ne, lookup_alter_ne by done.
  - intros [= <- _]. split; [|done]. symmetry. apply map_eq. intros j.
    destruct (decide (j = i)) as [->|Hne].
    + by rewrite lookup_alter_eq, Hr.
    + by rewrite lookup_alter_ne by done.
Qed.

(** The shape of the three [Mark...Tx] transactions, writing the texts [ts]. *)
Definition mark_tx (ts : list string) (i r : uuid) (f : instant → Portfolio → Portfolio) (g : instant → Run → Run) :
    db → db * result unit :=
  in_tx id id (
    then_ (sql (with_text ts (λ d, update_portfolio i (f (now d)) d))) (λ _,
    then_ (sql (with_text ts (λ d, update_run r (g (now d)) d))) (λ _ d, (d, Ok ())))).

(** Both rows are updated, at one clock reading, or neither table changes. *)
Definition both_or_neither (i r : uuid) (f : instant → Portfolio → Portfolio)
    (g : instant → Run → Run) (d : db) (out : db * result unit) : Prop :=
  match out with
  | (d', Ok _) => portfolios d' = alter (f (now d)) i (portfolios d) ∧
                  runs d' = alter (g (now d)) r (runs d)
  | (d', Err _) => same_tables d d'
  end.

Lemma mark_tx_atomic ts i r f g d : both_or_neither i r f g d (mark_tx ts i r f g d).
Proof.
  unfold both_or_neither. destruct (mark_tx ts i r f g d) as [d' [[]|e]] eqn:Hm;
    [|by eapply in_tx_Err].
  apply in_tx_Ok in Hm as (d0 & d1 & [Hp0 Hr0] & Hn0 & Hb & [Hp1 Hr1] & _).
  apply then_Ok in Hb as (d2 & n & Hu & Hb). apply sql_Ok in Hu as (d3 & [Hp3 Hr3] & Hn3 & _ & Hu).
  apply with_text_Ok, update_portfolio_alter in Hu as (Hp2 & Hr2 & Hn2).
  apply then_Ok in Hb as (d4 & n' & Hu & [= <-]). apply sql_Ok in Hu as (d5 & [Hp5 Hr5] & Hn5 & _ & Hu).
  apply with_text_Ok, update_run_alter in Hu as (Hr4 & Hp4 & Hn4).
  rewrite Hp1, Hr1, Hp4, Hr4, Hp5, Hr5, Hn5, Hp2, Hr2, Hn2, Hp3, Hr3, Hn3, Hp0, Hr0, Hn0. done.
Qed.

(** C15: however the server fails, each status transition of a backtest updates
    the portfolio row and the run row together or leaves both tables unchanged. *)
Theorem status_transitions_atomic (pid rid : uuid) (a : ready_args) (errMsg : string) (ms : Z) (d : db) :
  both_or_neither pid rid set_running run_running d (MarkRunningTx pid rid d) ∧
  both_or_neither pid rid (set_ready a) (run_success (ra_snapshotPath a) ms) d (MarkReadyTx pid rid a ms d) ∧
  both_or_neither pid rid (set_failed errMsg) (run_failed errMsg ms) d (MarkFailedTx pid rid errMsg ms d).
Proof.
  split; [|split].
  - apply (mark_tx_atomic []).
  - apply (mark_tx_atomic [ra_snapshotPath a]).
  - apply (mark_tx_atomic [errMsg]).
Qed.

(** C8: every sequence of store writes, under every script of server faults,
    keeps the schema invariant: keys, (owner, slug) uniqueness, retention and
    status constraints, referential integrity and one run in flight per portfolio. *)
Theorem writes_preserve_schema (ops : list store_op) (d : db) :
  db_inv d → db_inv (fold_left (λ d op, exec marshal_err op d) ops d).
Proof.
  revert d. induction ops as [|op ops IH]; intros d Hinv; [done|]. cbn.
  by apply IH, exec_inv.
Qed.

(** ** Retention *)

(** Ids of a portfolio's runs, newest (largest) first. *)
Definition id_desc (i j : uuid) : Prop := (j ≤ i)%N.
#[local] Instance id_desc_dec : RelDecision id_desc.
Proof. intros i j. unfold id_desc. apply _. Defined.
#[local] Instance id_desc_total : Total id_desc.
Proof. intros i j. unfold id_desc. lia. Qed.
#[local] Instance id_desc_trans : Transitive id_desc.
Proof. intros i j k. unfold id_desc. lia. Qed.

Definition runs_of (pid : uuid) (d : db) : list uuid :=
  merge_sort id_desc (map fst (filter (λ ir, run_PortfolioID ir.2 = pid) (map_to_list (runs d)))).

Lemma elem_of_runs_of pid d i :
  i ∈ runs_of pid d ↔ ∃ r, runs d !! i = Some r ∧ run_PortfolioID r = pid.
Proof.
  unfold runs_of. rewrite merge_sort_Permutation, list_elem_of_fmap. split.
  - intros ([j r] & -> & [Hp Hin]%list_elem_of_filter). apply elem_of_map_to_list in Hin. eauto.
  - intros (r & Hr & Hp). exists (i, r). split; [done|]. apply list_elem_of_filter.
    split; [done|]. by apply elem_of_map_to_list.
Qed.

Lemma NoDup_runs_of pid d : NoDup (runs_of pid d).
Proof.
  unfold runs_of. rewrite merge_sort_Permutation.
  apply NoDup_fmap_filter, NoDup_fst_map_to_list.
Qed.

(** Descending duplicate-free lists with the same members are equal. *)
Lemma desc_ext (l k : list uuid) :
  Sorted id_desc l → Sorted id_desc k → NoDup l → NoDup k → (∀ x, x ∈ l ↔ x ∈ k) → l = k.
Proof.
  intros Hl Hk Hnl Hnk Hlk. eapply (Sorted_unique_strong id_desc); [|done|done|by apply NoDup_Permutation].
  intros x y. unfold id_desc. lia.
Qed.

Lemma Sorted_runs_of pid d : Sorted id_desc (runs_of pid d).
Proof. apply Sorted_merge_sort, _. Qed.

(** In a descending duplicate-free list the rank of a member is its position. *)
Lemma rank_take (l : list uuid) (k : nat) :
  Sorted id_desc l → NoDup l →
  filter (λ x : uuid, (length (filter (λ y : uuid, (x < y)%N) l) < k)%nat) l = take k l.
Proof.
  intros Hs Hn. apply Sorted_StronglySorted in Hs; [|apply _].
  enough (∀ pre, (∀ x y, x ∈ l → y ∈ pre → (x < y)%N) →
    filter (λ x : uuid, (length (filter (λ y : uuid, (x < y)%N) (pre ++ l)) < k)%nat) l
      = take (k - length pre) l) as Hg.
  { replace (take k l) with (take (k - length (@nil uuid)) l) by (cbn; by rewrite Nat.sub_0_r).
    apply (Hg []). intros x y _ []%not_elem_of_nil. }
  induction Hs as [|x l Hs IH Hx]; intros pre Hpre; [by rewrite take_nil|].
  apply NoDup_cons in Hn as [Hxl Hnl]. rewrite Forall_forall in Hx. unfold id_desc in Hx.
  assert (length (filter (λ y : uuid, (x < y)%N) (pre ++ x :: l)) = length pre) as Hrank.
  { rewrite filter_app, filter_cons_False by lia.
    rewrite filter_all, filter_none, app_nil_r; [done| |].
    - intros y Hy. specialize (Hx y Hy). lia.
    - intros y Hy. apply Hpre; [by left|done]. }
  assert (filter (λ x0 : uuid, (length (filter (λ y : uuid, (x0 < y)%N) (pre ++ x :: l)) < k)%nat) l
    = take (k - length (pre ++ [x])) l) as Htail.
  { rewrite (list_filter_ext_in _ (λ x0 : uuid, (length (filter (λ y : uuid, (x0 < y)%N) ((pre ++ [x]) ++ l)) < k)%nat)).
    - apply IH; [done|]. intros a b Ha [Hb| ->%list_elem_of_singleton]%elem_of_app.
      + apply Hpre; [by right|done].
      + specialize (Hx a Ha). assert (a ≠ x) by (by intros ->). lia.
    - intros y _. by rewrite <-app_assoc. }
  rewrite filter_cons, Hrank, Htail. rewrite length_app. cbn.
  destruct (decide (length pre < k)%nat).
  - replace (k - length pre)%nat with (S (k - (length pre + 1)))%nat by lia. done.
  - replace (k - length pre)%nat with 0%nat by lia.
    by replace (k - (length pre + 1))%nat with 0%nat by lia.
Qed.

(** [ROW_NUMBER()] counts the portfolio's newer runs. *)
Lemma row_number_rank d pid r :
  row_number d pid r = 1 + Z.of_nat (length (filter (λ j : uuid, (run_ID r < j)%N) (runs_of pid d))).
Proof.
  unfold row_number. do 2 f_equal. rewrite <-length_map_to_list.
  rewrite map_to_list_filter.
  unfold runs_of. rewrite merge_sort_Permutation.
  induction (map_to_list (runs d)) as [|[j s] l IH]; [done|].
  rewrite !filter_cons. cbn [fst snd]. destruct (decide (run_PortfolioID s = pid)) as [Hp|Hp].
  - rewrite (fmap_cons fst), filter_cons. cbn [fst]. destruct (decide (run_ID r < j)%N).
    + rewrite decide_True by done. cbn [length]. by rewrite IH.
    + by rewrite decide_False by tauto.
  - by rewrite decide_False by tauto.
Qed.

Lemma runs_of_same pid d d' : same_tables d d' → runs_of pid d' = runs_of pid d.
Proof. intros [_ Hr]. unfold runs_of. by rewrite Hr. Qed.

Lemma prune_rows_spec pid n d d' paths :
  (∀ i r, runs d !! i = Some r → run_ID r = i) → 0 ≤ n → prune_rows pid n d = Ok (d', paths) →
  portfolios d' = portfolios d ∧ runs d' ⊆ runs d ∧
  runs_of pid d' = take (Z.to_nat n) (runs_of pid d) ∧
  (∀ i r, runs d !! i = Some r → run_PortfolioID r ≠ pid → runs d' !! i = Some r) ∧
  (∀ path, path ∈ paths ↔ path ≠ "" ∧ ∃ i r, runs d !! i = Some r ∧ runs d' !! i = None ∧
     run_SnapshotPath r = Some path).
Proof.
  intros Hinv Hn [= <- <-]. cbn [portfolios runs set_field].
  assert (∀ r, pruned d pid n r = false ↔ run_PortfolioID r ≠ pid ∨ row_number d pid r ≤ n) as Hkeep.
  { intros r. unfold pruned. rewrite andb_false_iff, bool_decide_eq_false, Z.ltb_ge. done. }
  split; [done|]. split; [apply map_filter_subseteq|]. split; [|split].
  - rewrite <-rank_take by (apply Sorted_runs_of || apply NoDup_runs_of). apply desc_ext.
    + apply Sorted_runs_of.
    + rewrite rank_take by (apply Sorted_runs_of || apply NoDup_runs_of).
      pose proof (Sorted_runs_of pid d) as Hs. apply Sorted_StronglySorted in Hs; [|apply _].
      apply StronglySorted_Sorted. rewrite <-(take_drop (Z.to_nat n) (runs_of pid d)) in Hs.
      by apply StronglySorted_app_1_l in Hs.
    + apply NoDup_runs_of.
    + apply NoDup_filter, NoDup_runs_of.
    + intros i. rewrite list_elem_of_filter, !elem_of_runs_of. cbn [runs set_field]. split.
      * intros (r & [Hr Hk]%map_lookup_filter_Some & Hp). split; [|eauto]. cbn in Hk.
        apply Hkeep in Hk as [?|Hk]; [done|]. rewrite row_number_rank, (Hinv i r Hr) in Hk. lia.
      * intros [Hk (r & Hr & Hp)]. exists r. split; [|done]. apply map_lookup_filter_Some.
        split; [done|]. cbn [snd]. apply Hkeep. right. rewrite row_number_rank, (Hinv i r Hr). lia.
  - intros i r Hr Hp. apply map_lookup_filter_Some. split; [done|]. apply Hkeep. by left.
  - intros path. rewrite list_elem_of_filter. split; intros [Hne Hin]; (split; [done|]).
    + apply list_elem_of_fmap in Hin as (r & -> & [Hpr [i Hr]%elem_of_run_rows]%list_elem_of_filter).
      exists i, r. split; [done|]. split.
      * apply map_lookup_filter_None. right. intros s Hs. cbn. congruence.
      * by destruct (run_SnapshotPath r).
    + destruct Hin as (i & r & Hr & Hnone & Hpath). apply list_elem_of_fmap. exists r.
      rewrite Hpath. split; [done|]. apply list_elem_of_filter. split; [|apply elem_of_run_rows; eauto].
      apply map_lookup_filter_None in Hnone as [?|Hnone]; [congruence|].
      specialize (Hnone r Hr). cbn in Hnone. by destruct (pruned d pid n r).
Qed.

(** C31: a [PruneRuns] that commits keeps exactly the [run_retention] newest runs
    of the portfolio and every run of the others, and returns the snapshot paths
    of the deleted runs; one that fails deletes nothing, and it can only fail by
    a server fault or for an unknown portfolio. *)
Theorem prune_keeps_newest (pid : uuid) (d : db) :
  db_inv d →
  match PruneRuns pid d with
  | (d', Ok paths) =>
    ∃ p, portfolios d !! pid = Some p ∧ portfolios d' = portfolios d ∧ runs d' ⊆ runs d ∧
      runs_of pid d' = take (Z.to_nat (RunRetention p)) (runs_of pid d) ∧
      (∀ i r, runs d !! i = Some r → run_PortfolioID r ≠ pid → runs d' !! i = Some r) ∧
      (∀ path, path ∈ paths ↔ path ≠ "" ∧ ∃ i r, runs d !! i = Some r ∧ runs d' !! i = None ∧
         run_SnapshotPath r = Some path)
  | (d', Err e) =>
    same_tables d d' ∧ (faults d = [] → portfolios d !! pid = None ∧ e = ErrNotFound)
  end.
Proof.
  intros Hinv. destruct (PruneRuns pid d) as [d' [paths|e]] eqn:Hpr.
  - unfold PruneRuns in Hpr. apply in_tx_Ok in Hpr as (d0 & d1 & Hs0 & _ & Hb & [Hp1 Hr1] & _).
    apply then_Ok in Hb as (d2 & n & Hq%map_err_Ok & Hb%map_err_Ok).
    apply sql_Ok in Hq as (d3 & Hs3 & _ & _ & Hq).
    destruct (portfolios d3 !! pid) as [p|] eqn:Hp; [|done]. injection Hq as <- <-.
    apply sql_Ok in Hb as (d4 & Hs4 & _ & _ & Hb).
    assert (same_tables d d4) as Hs by (unfold same_tables in *; destruct Hs0, Hs3, Hs4; split; congruence).
    assert (portfolios d !! pid = Some p) as Hpd by (destruct Hs0, Hs3; congruence).
    apply prune_rows_spec in Hb;
      [|by destruct Hs as [_ ->]; apply inv_rid|pose proof (inv_retention d Hinv pid p Hpd); lia].
    rewrite (runs_of_same pid _ _ Hs) in Hb. destruct Hs as [Hps Hrs]. rewrite Hps, Hrs in Hb.
    exists p. split; [done|]. rewrite Hp1, Hr1, (runs_of_same pid d1 d') by done. done.
  - split; [by eapply in_tx_Err|]. intros Hf. unfold PruneRuns, in_tx, next_fault, then_, map_err in Hpr.
    rewrite Hf, !sql_no_fault in Hpr by done. destruct (portfolios d !! pid) as [p|]; cbn in Hpr.
    + rewrite sql_no_fault in Hpr by done. cbn in Hpr. by rewrite Hf in Hpr.
    + by injection Hpr as <- <-.
Qed.

(** ** Scheduling *)

#[local] Instance last_run_total : Total last_run_le.
Proof. intros p q. unfold last_run_le. destruct (LastRunAt p), (LastRunAt q); try tauto. lia. Qed.

(** A portfolio may be dispatched by the scheduler. *)
Definition dispatchable (d : db) (p : Portfolio) : Prop :=
  EndDate p = None ∧ (Status p = StatusReady ∨ Status p = StatusFailed) ∧
  (∀ i r, runs d !! i = Some r → run_PortfolioID r = ID p → inflight r = false) ∧
  (∀ i r t, runs d !! i = Some r → run_PortfolioID r = ID p → run_TriggeredBy r = TriggerScheduled →
     run_StartedAt r = Some t → et_date t ≠ et_date (now d)).

Lemma due_dispatchable d p : due et_date d p = true ↔ dispatchable d p.
Proof.
  unfold due, dispatchable. rewrite !andb_true_iff, orb_true_iff, !bool_decide_eq_true, !negb_true_iff.
  rewrite <-!not_true_iff_false. unfold has_inflight, ran_today. rewrite !existsb_exists.
  setoid_rewrite andb_true_iff. setoid_rewrite andb_true_iff. setoid_rewrite bool_decide_eq_true.
  setoid_rewrite <-list_elem_of_In. setoid_rewrite elem_of_run_rows. split.
  - intros [[[He Hst] Hran] Hfl]. split; [done|]. split; [done|]. split.
    + intros i r Hr Hp. rewrite <-not_true_iff_false. intros Hi. apply Hfl. eauto 10.
    + intros i r t Hr Hp Ht Hs Heq. apply Hran. exists r. rewrite Hs. rewrite Z.eqb_eq. eauto 10.
  - intros (He & Hst & Hfl & Hran). split; [split; [done|]|].
    + intros (r & [i Hr] & [Hp Ht] & Hs). destruct (run_StartedAt r) as [t|] eqn:Hst'; [|done].
      apply Z.eqb_eq in Hs. by eapply Hran.
    + intros (r & [i Hr] & Hp & Hi). by rewrite (Hfl i r Hr Hp) in Hi.
Qed.

Lemma NoDup_rows d : db_inv d → NoDup (map ID (rows d)).
Proof.
  intros Hinv. unfold rows. rewrite map_map.
  rewrite (map_ext_in _ fst); [apply NoDup_range_keys|].
  intros [i p] Hin%list_elem_of_In%elem_of_range_map. by apply (inv_pid d Hinv).
Qed.

(** The due portfolios in dispatch order. *)
Definition due_rows (d : db) : list Portfolio :=
  merge_sort last_run_le (filter (λ p, due et_date d p = true) (rows d)).

Lemma elem_of_due_rows d p :
  db_inv d → p ∈ due_rows d ↔ portfolios d !! ID p = Some p ∧ dispatchable d p.
Proof.
  intros Hinv. unfold due_rows.
  rewrite merge_sort_Permutation, list_elem_of_filter, due_dispatchable, elem_of_rows. split.
  - intros [Hd [i Hi]]. by rewrite (inv_pid d Hinv i p Hi).
  - intros [Hi Hd]. eauto.
Qed.

Lemma NoDup_due_rows d : db_inv d → NoDup (map ID (due_rows d)).
Proof.
  intros Hinv. unfold due_rows. rewrite merge_sort_Permutation.
  by apply NoDup_fmap_filter, NoDup_rows.
Qed.

Lemma StronglySorted_due_rows d : StronglySorted last_run_le (due_rows d).
Proof.
  apply Sorted_StronglySorted; [|apply Sorted_merge_sort, _].
  intros a b c. unfold last_run_le. repeat case_match; try tauto; try done. lia.
Qed.

Lemma due_rows_same d d0 : same_tables d d0 → now d0 = now d → due_rows d0 = due_rows d.
Proof.
  intros [Hp Hr] Hn. unfold due_rows, rows. rewrite Hp. f_equal. apply list_filter_iff.
  intros p. rewrite !due_dispatchable. unfold dispatchable. by rewrite Hr, Hn.
Qed.

(** A successful [ClaimDue] is a prefix of the due portfolios. *)
Lemma claim_due_batch (batch : Z) (d d' : db) (ids : list uuid) :
  ClaimDue et_date batch d = (d', Ok ids) →
  same_tables d d' ∧ 0 ≤ batch ∧ ids = map ID (take (Z.to_nat batch) (due_rows d)).
Proof.
  intros Hc. unfold ClaimDue in Hc. apply sql_Ok in Hc as (d0 & Hs & Hn & _ & Hc).
  destruct (Z.ltb_spec batch 0); [done|]. injection Hc as <- Hids.
  change (map ID (take (Z.to_nat batch) (due_rows d0)) = ids) in Hids.
  by rewrite (due_rows_same d d0 Hs Hn) in Hids.
Qed.

Lemma claim_due_dispatchable batch d d' ids i :
  db_inv d → ClaimDue et_date batch d = (d', Ok ids) → i ∈ ids →
  ∃ p, portfolios d !! i = Some p ∧ dispatchable d p.
Proof.
  intros Hinv (_ & _ & ->)%claim_due_batch (p & -> & Hp)%list_elem_of_fmap. exists p.
  apply elem_of_due_rows; [done|]. by eapply elem_of_take_in.
Qed.

(** C33: a [ClaimDue] that succeeds reads only, returns at most [batchSize]
    distinct portfolios, each open ended, ready or failed, with no run in flight
    and no scheduled run started this market day, the longest-idle ones first,
    and leaves none out while the batch has room. *)
Theorem claim_due_spec (batch : Z) (d d' : db) (ids : list uuid) :
  db_inv d → ClaimDue et_date batch d = (d', Ok ids) →
  same_tables d d' ∧ Z.of_nat (length ids) ≤ batch ∧ NoDup ids ∧
  (∀ i, i ∈ ids → ∃ p, portfolios d !! i = Some p ∧ dispatchable d p) ∧
  (∀ i p, portfolios d !! i = Some p → dispatchable d p → i ∉ ids →
     Z.of_nat (length ids) = batch ∧
     ∀ j q, j ∈ ids → portfolios d !! j = Some q → last_run_le q p).
Proof.
  intros Hinv Hc. pose proof (λ i, claim_due_dispatchable _ _ _ _ i Hinv Hc) as Hdisp.
  apply claim_due_batch in Hc as (Hs & Hb & ->).
  rewrite length_map, length_take. split; [done|]. split; [lia|]. split; [|split].
  - rewrite <-firstn_map. eapply sublist_NoDup; [by apply NoDup_due_rows|apply sublist_take].
  - exact Hdisp.
  - intros i p Hp Hd Hni. pose proof (inv_pid d Hinv _ _ Hp) as Hid.
    assert (p ∈ due_rows d) as Hin by (apply elem_of_due_rows; rewrite ?Hid; done).
    rewrite <-(take_drop (Z.to_nat batch) (due_rows d)) in Hin.
    apply elem_of_app in Hin as [Hin|Hin].
    { destruct Hni. apply list_elem_of_fmap. exists p. by rewrite Hid. }
    split.
    + destruct (decide (Z.to_nat batch < length (due_rows d))%nat); [lia|].
      rewrite drop_ge in Hin by lia. by apply not_elem_of_nil in Hin.
    + intros j q (q' & -> & Hq)%list_elem_of_fmap Hqj.
      pose proof (elem_of_take_in _ _ _ Hq) as [Hq' _]%elem_of_due_rows; [|done].
      assert (q = q') as -> by congruence. pose proof (StronglySorted_due_rows d) as Hss.
      rewrite <-(take_drop (Z.to_nat batch) (due_rows d)) in Hss.
      by eapply StronglySorted_app_1_elem_of.
Qed.

(** ** Runs in flight *)

(** Some run of the portfolio is queued or running. *)
Definition in_flight (d : db) (pid : uuid) : Prop :=
  ∃ i r, runs d !! i = Some r ∧ run_PortfolioID r = pid ∧ inflight r = true.

Lemma inflight_conflict_new d r :
  db_inv d → run_ID r = next_uuid d → inflight r = true →
  inflight_conflict d r = true ↔ in_flight d (run_PortfolioID r).
Proof.
  intros Hinv Hid Hr. rewrite <-not_false_iff_true, inflight_conflict_false. split.
  - intros Hn. destruct (decide (map_Exists (λ _ s, run_PortfolioID s = run_PortfolioID r ∧
      inflight s = true) (runs d))) as [(i & s & Hs & Hp & Hi)|Hno]; [by exists i, s|].
    destruct Hn. intros _ i s Hs _ Hp. destruct (inflight s) eqn:Hi; [|done].
    destruct Hno. by exists i, s.
  - intros (i & s & Hs & Hp & Hi) Hall. rewrite (Hall Hr i s Hs) in Hi; [done| |done].
    intros ->. destruct (inv_fresh d Hinv) as [_ Hf]. specialize (Hf (run_ID r) ltac:(eauto)). lia.
Qed.

Lemma insert_run_queued d pid tr :
  db_inv d → tr ∈ [TriggerScheduled; TriggerManual] →
  insert_run pid "queued" tr d =
    let r := {| run_ID := next_uuid d; run_PortfolioID := pid; run_Status := "queued";
                run_StartedAt := None; run_FinishedAt := None; run_DurationMs := None;
                run_Error := None; run_SnapshotPath := None; run_TriggeredBy := tr |} in
    if inflight_conflict d r then Err unique_violation
    else if bool_decide (portfolios d !! pid = None) then Err foreign_key_violation
    else Ok (d <| runs := <[next_uuid d := r]> (runs d) |> <| next_uuid := (next_uuid d + 1)%N |>, r).
Proof.
  intros Hinv Htr. unfold insert_run. rewrite (bool_decide_eq_false_2 (tr ∉ _)) by (by intros ?).
  by rewrite bool_decide_eq_false_2 by (intros Hn; apply Hn; unfold run_status_enum; set_solver).
Qed.

(** Queueing a run succeeds exactly when the portfolio exists and has no run
    in flight; while one is in flight the answer is [ErrRunInFlight] and nothing
    is written; once queued the portfolio is in flight and [ClaimDue] passes over it. *)
Theorem create_run_excludes (pid : uuid) (tr : string) (d : db) :
  db_inv d → faults d = [] → tr ∈ [TriggerScheduled; TriggerManual] →
  match CreateRun pid "queued" tr d with
  | (d', Ok r) =>
    is_Some (portfolios d !! pid) ∧ ¬ in_flight d pid ∧
    runs d !! run_ID r = None ∧ runs d' = <[run_ID r := r]> (runs d) ∧ portfolios d' = portfolios d ∧
    run_PortfolioID r = pid ∧ run_Status r = "queued" ∧ in_flight d' pid ∧
    (∀ batch d'' ids, ClaimDue et_date batch d' = (d'', Ok ids) → pid ∉ ids)
  | (d', Err e) =>
    d' = d ∧ (e = ErrRunInFlight ↔ in_flight d pid) ∧ (in_flight d pid ∨ portfolios d !! pid = None)
  end.
Proof.
  intros Hinv Hf Htr. pose proof (good_create_run pid "queued" tr d Hinv) as [Hinv' _].
  unfold CreateRun, map_err in *. rewrite sql_no_fault, insert_run_queued in * by done. cbv zeta in *.
  set (r := Build_Run _ _ _ _ _ _ _ _ _) in *.
  pose proof (inflight_conflict_new d r Hinv eq_refl eq_refl) as Hc. cbn [run_PortfolioID r] in Hc.
  destruct (inflight_conflict d r).
  { assert (in_flight d pid) by (by apply Hc). split; [done|]. split; [done|by left]. }
  assert (¬ in_flight d pid) as Hno by (intros Hi; by apply Hc in Hi).
  destruct (bool_decide_reflect (portfolios d !! pid = None)) as [Hp|Hp].
  { split; [done|]. split; [|by right]. by split. }
  split; [by destruct (portfolios d !! pid)|]. split; [done|]. split.
  { apply eq_None_not_Some. intros Hs. destruct (inv_fresh d Hinv) as [_ Hf']. apply Hf' in Hs.
    cbn in Hs. lia. }
  set (d1 := set_field _ _ _) in *. assert (in_flight d1 pid) as Hin.
  { exists (next_uuid d), r. cbn. by rewrite lookup_insert_eq. }
  do 4 (split; [done|]). split; [done|].
  intros batch d'' ids Hcl Hid.
  eapply claim_due_dispatchable in Hid as (p & Hp' & _ & _ & Hfl & _); [|done|exact Hcl]. destruct Hin as (i & s & Hs & Hps & His).
  rewrite (Hfl i s Hs) in His; [done|]. by rewrite (inv_pid d1 Hinv' _ _ Hp').
Qed.

(** ** Crash recovery *)

(** The two tables after a recovery, and the counts it returns. *)
Lemma recovery_tables (reason : string) (d d' : db) (np nr : Z) :
  MarkAllRunningAsFailed reason d = (d', Ok (np, nr)) →
  portfolios d' = (λ p, if decide (Status p = StatusRunning) then set_failed reason (now d) p else p) <$> portfolios d ∧
  runs d' = (λ r, if inflight r then r <| run_Status := "failed" |> <| run_FinishedAt := Some (now d) |>
                                     <| run_Error := Some reason |> else r) <$> runs d ∧
  np = Z.of_nat (size (filter (λ ip, Status ip.2 = StatusRunning) (portfolios d))) ∧
  nr = Z.of_nat (size (filter (λ ir, inflight ir.2 = true) (runs d))).
Proof.
  intros Hm. apply in_tx_Ok in Hm as (d0 & d1 & [Hp0 Hr0] & Hn0 & Hb & [Hp1 Hr1] & _).
  apply then_Ok in Hb as (d2 & n & Hq & Hb). apply sql_Ok in Hq as (d3 & [Hp3 Hr3] & Hn3 & _ & Hq%with_text_Ok).
  injection Hq as <- <-. apply then_Ok in Hb as (d4 & n' & Hq & [= <- <- <-]).
  apply sql_Ok in Hq as (d5 & [Hp5 Hr5] & Hn5 & _ & Hq%with_text_Ok). injection Hq as <- <-.
  cbn in *. by rewrite Hp1, Hr1, Hp5, Hr5, Hn5, Hp3, Hr3, Hn3, Hp0, Hr0, Hn0.
Qed.

(** Nothing is in flight after one that commits. *)
Lemma recovery_no_flight (reason : string) (d d' : db) (n : Z * Z) i r :
  MarkAllRunningAsFailed reason d = (d', Ok n) → runs d' !! i = Some r → inflight r = false.
Proof.
  destruct n as [np nr]. intros (_ & Hr & _)%recovery_tables. rewrite Hr, lookup_fmap.
  destruct (runs d !! i) as [s|]; [|done]. intros [= <-]. by destruct (inflight s) eqn:Hs.
Qed.

(** A [MarkAllRunningAsFailed] that commits leaves no portfolio running and
    no run in flight, fails each of those with the given reason and touches
    nothing else; one that fails changes nothing. *)
Theorem recovery_clears_in_flight (reason : string) (d : db) :
  match MarkAllRunningAsFailed reason d with
  | (d', Ok (np, nr)) =>
    (∀ pid, ¬ in_flight d' pid) ∧
    (∀ i, portfolios d' !! i = (λ p, if decide (Status p = StatusRunning)
                                     then set_failed reason (now d) p else p) <$> portfolios d !! i) ∧
    (∀ i, runs d' !! i = (λ r, if inflight r then r <| run_Status := "failed" |>
        <| run_FinishedAt := Some (now d) |> <| run_Error := Some reason |> else r) <$> runs d !! i) ∧
    (∀ i p, portfolios d' !! i = Some p → Status p ≠ StatusRunning) ∧
    np = Z.of_nat (size (filter (λ ip, Status ip.2 = StatusRunning) (portfolios d))) ∧
    nr = Z.of_nat (size (filter (λ ir, inflight ir.2 = true) (runs d)))
  | (d', Err _) => same_tables d d'
  end.
Proof.
  destruct (MarkAllRunningAsFailed reason d) as [d' [[np nr]|e]] eqn:Hm; [|by eapply in_tx_Err].
  pose proof (recovery_tables _ _ _ _ _ Hm) as (Hp & Hr & Hcounts). split; [|split; [|split; [|split]]].
  - intros pid (i & r & Hi & _ & Hf). by rewrite (recovery_no_flight _ _ _ _ _ _ Hm Hi) in Hf.
  - intros i. by rewrite Hp, lookup_fmap.
  - intros i. by rewrite Hr, lookup_fmap.
  - intros i p. rewrite Hp, lookup_fmap. destruct (portfolios d !! i) as [q|]; [|done].
    intros [= <-]. by case_decide.
  - done.
Qed.

(** ** Insert and lookup *)

(** [Get] finds a row by its owner and slug. *)
Lemma Get_found d i p :
  db_inv d → faults d = [] → portfolios d !! i = Some p →
  Get (OwnerSub p) (Types.Slug p) d = (d, Ok p).
Proof.
  intros Hinv Hf Hp. unfold Get. rewrite sql_no_fault by done.
  destruct (filter _ (rows d)) as [|q l] eqn:Hq.
  - assert (p ∈ filter (λ q, OwnerSub q = OwnerSub p ∧ Types.Slug q = Types.Slug p) (rows d)) as Hin
      by (apply list_elem_of_filter; rewrite elem_of_rows; eauto).
    rewrite Hq in Hin. by apply not_elem_of_nil in Hin.
  - assert (q ∈ filter (λ q, OwnerSub q = OwnerSub p ∧ Types.Slug q = Types.Slug p) (rows d)) as Hin
      by (rewrite Hq; by left).
    apply list_elem_of_filter in Hin as [[Ho Hs] [j Hj]%elem_of_rows].
    assert (j = i) as -> by (eapply (inv_slug d Hinv); eauto). congruence.
Qed.

(** After a successful [Insert] of a portfolio, [Get] by its owner and slug
    finds the inserted row, with a fresh id and the store's clock, no run data,
    and the other rows as before; a taken (owner, slug) pair is [ErrDuplicateSlug],
    text the server does not take is its error, and either writes nothing. *)
Theorem insert_then_get (p : Portfolio) (d : db) :
  db_inv d → faults d = [] → marshal_err (Parameters p) = None →
  1 ≤ RunRetention p → Status p ∈ portfolio_status_enum →
  match Insert marshal_err p d with
  | (d', Ok _) =>
    insertable p = true ∧ find_slug (OwnerSub p) (Types.Slug p) d = None ∧
    ∃ row, Get (OwnerSub p) (Types.Slug p) d' = (d', Ok row) ∧
      portfolios d' = <[ID row := row]> (portfolios d) ∧ portfolios d !! ID row = None ∧
      CreatedAt row = now d ∧ UpdatedAt row = now d ∧ LastRunAt row = None ∧
      Parameters row = Parameters p ∧ StrategyCode row = StrategyCode p ∧ Name row = Name p ∧
      RunRetention row = RunRetention p ∧ Status row = Status p ∧ runs d' = runs d
  | (d', Err e) =>
    d' = d ∧ if insertable p then e = ErrDuplicateSlug ∧ is_Some (find_slug (OwnerSub p) (Types.Slug p) d)
             else uniqueViolation e = false
  end.
Proof.
  intros Hinv Hf Hm Hr Hst. pose proof (good_insert marshal_err p d Hinv) as [Hinv' _].
  unfold Insert, map_err in *. rewrite Hm, sql_no_fault, with_params in * by done. fold (insertable p) in *.
  destruct (insertable p); [|by destruct (forallb storable (insert_texts p))]. unfold insert_row in *.
  destruct (Z.ltb_spec (RunRetention p) 1); [lia|]. rewrite bool_decide_eq_false_2 in * by (by intros ?).
  unfold find_slug.
  destruct (filter (λ q, OwnerSub q = OwnerSub p ∧ Types.Slug q = Types.Slug p) (rows d)) eqn:Hfl;
    [rewrite bool_decide_eq_true_2 in * by done|rewrite bool_decide_eq_false_2 in * by done; by eauto].
  cbn [fst] in Hinv'. split; [done|]. split; [done|].
  assert (portfolios d !! next_uuid d = None) as Hnew.
  { apply eq_None_not_Some. intros Hs. destruct (inv_fresh d Hinv) as [Hf' _]. apply Hf' in Hs. lia. }
  match type of Hinv' with db_inv (set_field next_uuid _ (set_field portfolios (λ _, <[_ := ?r]> _) _)) =>
    exists r; set (row := r) in * end.
  split; [|done]. apply (Get_found _ (next_uuid d) row); [done|done|].
  cbn. by rewrite lookup_insert_eq.
Qed.

End laws.

(** ** A concrete database *)
Section demo.
#[local] Existing Instance canonical_range.

Definition demo_portfolio : Portfolio :=
  zero_Portfolio <| ID := 1%N |> <| OwnerSub := "auth0|a" |> <| Types.Slug := "adm-standard-k1gd" |>
    <| Status := StatusReady |> <| RunRetention := 1 |>.
Definition demo_run (i : uuid) : Run :=
  {| run_ID := i; run_PortfolioID := 1%N; run_Status := "success"; run_StartedAt := Some 0;
     run_FinishedAt := Some 1; run_DurationMs := Some 1; run_Error := None;
     run_SnapshotPath := Some "/s/1/" ; run_TriggeredBy := TriggerManual |}.
Definition demo_db : db :=
  {| portfolios := {[1%N := demo_portfolio]}; runs := {[2%N := demo_run 2%N; 3%N := demo_run 3%N]};
     next_uuid := 4; now := 5; faults := [] |}.

Lemma demo_db_inv : db_inv demo_db.
Proof.
  assert (∀ i r, runs demo_db !! i = Some r → (i = 2%N ∧ r = demo_run 2%N) ∨ (i = 3%N ∧ r = demo_run 3%N)) as Hr.
  { intros i r. cbn. intros [[<- <-]|[_ [<- <-]%lookup_singleton_Some]]%lookup_insert_Some; auto. }
  assert (∀ i p, portfolios demo_db !! i = Some p → i = 1%N ∧ p = demo_portfolio) as Hp.
  { intros i p. cbn. intros [<- <-]%lookup_singleton_Some. auto. }
  split.
  - by intros i p [-> ->]%Hp.
  - by intros i j p q [-> ->]%Hp [-> ->]%Hp.
  - by intros i p [-> ->]%Hp.
  - intros i p [-> ->]%Hp. unfold portfolio_status_enum. set_solver.
  - by intros i r [[-> ->]|[-> ->]]%Hr.
  - intros i r [[-> ->]|[-> ->]]%Hr; by eexists.
  - intros i r [[-> ->]|[-> ->]]%Hr; unfold run_status_enum; set_solver.
  - by intros i j r s [[-> ->]|[-> ->]]%Hr [[-> ->]|[-> ->]]%Hr.
  - split; [intros i [p [-> ->]%Hp]|intros i [r [[-> ->]|[-> ->]]%Hr]]; done.
  - done.
Qed.

Lemma writes_preserve_schema_witness :
  db_inv (fold_left (λ d op, exec (λ _, None) op d)
    [OpCreateRun 1%N "queued" TriggerManual; OpMarkRunningTx 1%N 4%N; OpPruneRuns 1%N] demo_db).
Proof. apply (writes_preserve_schema (λ _, None)). exact demo_db_inv. Defined.

Lemma prune_keeps_newest_witness :
  (PruneRuns 1%N demo_db).2 = Ok ["/s/1/"] ∧
  ∃ p, portfolios demo_db !! 1%N = Some p ∧
    runs_of 1%N (PruneRuns 1%N demo_db).1 = take (Z.to_nat (RunRetention p)) (runs_of 1%N demo_db).
Proof.
  split; [vm_compute; reflexivity|]. pose proof (prune_keeps_newest 1%N demo_db demo_db_inv) as Hp.
  destruct (PruneRuns 1%N demo_db) as [d' [paths|e]].
  - destruct Hp as (p & Hp & _ & _ & Hr & _). by exists p.
  - destruct Hp as [_ Hp]. by destruct (Hp eq_refl) as [? _].
Defined.

Lemma claim_due_spec_witness :
  (ClaimDue day_of 8 demo_db).2 = Ok [1%N] ∧ ∃ p, portfolios demo_db !! 1%N = Some p ∧ dispatchable day_of demo_db p.
Proof.
  split; [vm_compute; reflexivity|].
  destruct (claim_due_spec day_of 8 demo_db demo_db [1%N]) as (_ & _ & _ & Hd & _);
    [exact demo_db_inv|vm_compute; reflexivity|]. apply Hd. by left.
Defined.

Lemma create_run_excludes_witness :
  in_flight (CreateRun 1%N "queued" TriggerManual demo_db).1 1%N.
Proof.
  pose proof (create_run_excludes day_of 1%N TriggerManual demo_db demo_db_inv eq_refl) as Hc.
  assert (is_ok (CreateRun 1%N "queued" TriggerManual demo_db).2 = true) as Hok by (vm_compute; reflexivity).
  destruct (CreateRun _ _ _ demo_db) as [d' [r|e]]; [|done].
  apply Hc. set_solver.
Defined.

Lemma insert_then_get_witness :
  ∃ row, Get "auth0|b" "adm-standard-k1gd" (Insert (λ _, None) (demo_portfolio <| OwnerSub := "auth0|b" |>) demo_db).1
    = ((Insert (λ _, None) (demo_portfolio <| OwnerSub := "auth0|b" |>) demo_db).1, Ok row).
Proof.
  assert (StatusReady ∈ portfolio_status_enum) as Hst by (unfold portfolio_status_enum; set_solver).
  pose proof (insert_then_get (λ _, None) (demo_portfolio <| OwnerSub := "auth0|b" |>) demo_db
    demo_db_inv eq_refl eq_refl (Z.le_refl 1) Hst) as Hi.
  assert (is_ok (Insert (λ _, None) (demo_portfolio <| OwnerSub := "auth0|b" |>) demo_db).2 = true) as Hok
    by (vm_compute; reflexivity).
  destruct (Insert _ _ demo_db) as [d' [[]|e]]; [|done].
  destruct Hi as (_ & _ & row & Hrow & _). by exists row.
Defined.

End demo.
