(* ===== verification/Params.v ===== *)
(** Slugs, request validation, parameter diffs and preset matching
    (src/portfolio/slug.go, src/portfolio/validate.go and the parameter merge of
    src/portfolio/upgrade.go). *)
From S2P Require Import Prelude GoStrings GoTime Utf8 Types Json.
From Stdlib Require Import Ascii.

Definition ErrStrategyNotReady' := sentinel_err ErrStrategyNotReady "strategy not installed".
Definition ErrStrategyVersionMismatch' := sentinel_err ErrStrategyVersionMismatch "strategy version not installed".
Definition ErrUnknownParameter' := sentinel_err ErrUnknownParameter "unknown parameter".
Definition ErrMissingParameter' := sentinel_err ErrMissingParameter "missing required parameter".
Definition ErrInvalidStrategyDescribe' := sentinel_err ErrInvalidStrategyDescribe "strategy describe JSON is malformed".
Definition ErrEndBeforeStart' := sentinel_err ErrEndBeforeStart "endDate must be on or after startDate".
Definition ErrInvalidRunRetention' := sentinel_err ErrInvalidRunRetention "run_retention must be >= 1".

Section params.
Context `{MapRange, UnicodeTables}.
Context (format_float : float64 → string).
(** [json.Unmarshal] into [any], and into a [strategy.Describe]. *)
Context (json_unmarshal : string → result json).
Context (unmarshal_describe : string → result Describe).

(** ** src/portfolio/slug.go *)
Definition base32Alphabet : string := "abcdefghijklmnopqrstuvwxyz234567".

(** [presetParametersEqual]. *)
Definition presetParametersEqual (a b : gmap string json) : bool :=
  match canonicalJSON format_float a with
  | Err _ => false
  | Ok aj =>
    match canonicalJSON format_float b with
    | Err _ => false
    | Ok bj =>
      if negb (bool_decide (aj = bj)) then false
      else match json_unmarshal aj with
           | Err _ => false
           | Ok ad => match json_unmarshal bj with
                      | Err _ => false
                      | Ok bd => deep_equal ad bd
                      end
           end
    end
  end.

(** [kebabCase]: the loop, with the bytes written so far and [lastHyphen]. *)
Fixpoint kebab_loop (rs : list rune) (lastHyphen : bool) : list ascii :=
  match rs with
  | [] => []
  | r :: rs =>
    if is_letter r || is_digit r then encode_rune (to_lower r) ++ kebab_loop rs false
    else if lastHyphen then kebab_loop rs true
    else byte 45 :: kebab_loop rs true
  end.
Definition kebabCase (s : string) : string :=
  trim_suffix (of_bytes (kebab_loop (range_string s).*2 true)) "-".

(** [fnv.New32a]: the 32-bit FNV-1a state and [Write]. *)
Definition fnv_offset : Z := 2166136261.
Definition fnv_prime : Z := 16777619.
Definition fnv_write (h : Z) (data : string) : Z :=
  fold_left (λ h c, (Z.lxor h (Z.of_nat (code c)) * fnv_prime) mod 2 ^ 32) (bytes_of data) h.

(** [base32Alphabet[i]]. *)
Definition base32_char (i : Z) : ascii := nth (Z.to_nat i) (bytes_of base32Alphabet) (byte 0).

(** The loop filling [suffix] from its last byte. *)
Fixpoint suffix_loop (n : nat) (sum : Z) (acc : list ascii) : list ascii :=
  match n with
  | O => acc
  | S n => suffix_loop n (Z.shiftr sum 5) (base32_char (Z.land sum 31) :: acc)
  end.

(** The hashed text of [Slug]. *)
Definition slug_hash (req : CreateRequest) (canon : string) : Z :=
  let nul := String (byte 0) "" in
  let h := fold_left fnv_write [r_Name req; nul; canon; nul; r_Benchmark req; nul] fnv_offset in
  match r_StartDate req with
  | Some t => fnv_write h (format_date t)
  | None => h
  end.

(** The preset segment of [Slug]. *)
Definition slug_preset (params : gmap string json) (d : Describe) : string :=
  match list_find (λ p, presetParametersEqual (ps_Parameters p) params = true) (d_Presets d) with
  | Some (_, p) => kebabCase (ps_Name p)
  | None => "custom"
  end.

(** [Slug]. *)
Definition Slug (req : CreateRequest) (d : Describe) : result string :=
  let preset := slug_preset (r_Parameters req) d in
  match canonicalJSON format_float (r_Parameters req) with
  | Err e => Err (wrap "canonicalizing parameters: " e)
  | Ok canon =>
    let sum := Z.land (slug_hash req canon) 1048575 in
    Ok (r_StrategyCode req +:+ "-" +:+ preset +:+ "-" +:+ of_bytes (suffix_loop 4 sum []))
  end.

(** ** src/portfolio/validate.go *)

(** [validateRunRetention]. *)
Definition validateRunRetention (v : option Z) : result unit :=
  match v with
  | None => Ok ()
  | Some v => if v <? 1 then Err ErrInvalidRunRetention' else Ok ()
  end.

(** [validateDates]. *)
Definition validateDates (start end_ : option instant) : result unit :=
  match start, end_ with
  | Some s, Some e => if e <? s then Err ErrEndBeforeStart' else Ok ()
  | _, _ => Ok ()
  end.

Definition declared_names (d : Describe) : gset string := list_to_set (map dp_Name (d_Parameters d)).

(** [validateParameters]. *)
Definition validateParameters (params : gmap string json) (d : Describe) : result unit :=
  let declared := declared_names d in
  match list_find (λ k, k ∉ declared) (range_map params).*1 with
  | Some (_, k) => Err (wrap_post ErrUnknownParameter' (": " +:+ k))
  | None =>
    match list_find (λ p, params !! dp_Name p = None) (d_Parameters d) with
    | Some (_, p) => Err (wrap_post ErrMissingParameter' (": " +:+ dp_Name p))
    | None => Ok ()
    end
  end.

(** [ValidateCreate]. *)
Definition ValidateCreate (req : CreateRequest) (s : Strategy) : result CreateRequest :=
  _ ← validateRunRetention (r_RunRetention req);
  match s_InstalledVer s with
  | None => Err (wrap_post ErrStrategyNotReady'
      (": " +:+ s_ShortCode s +:+ " is still installing — try again shortly"))
  | Some ver =>
    if bool_decide (s_DescribeJSON s = "") then
      Err (wrap_post ErrStrategyNotReady'
        (": " +:+ s_ShortCode s +:+ " is still installing — try again shortly"))
    else if bool_decide (r_StrategyVer req ≠ "") && bool_decide (r_StrategyVer req ≠ ver) then
      Err (wrap_post ErrStrategyVersionMismatch'
        (": want " +:+ r_StrategyVer req +:+ ", installed is " +:+ ver))
    else
      let norm := req <| r_StrategyVer := ver |> in
      match unmarshal_describe (s_DescribeJSON s) with
      | Err e => Err (wrap2 ErrInvalidStrategyDescribe' e)
      | Ok d =>
        _ ← validateParameters (r_Parameters norm) d;
        let norm := if bool_decide (r_Benchmark norm = "")
                    then norm <| r_Benchmark := d_Benchmark d |> else norm in
        _ ← validateDates (r_StartDate norm) (r_EndDate norm);
        Ok norm
      end
  end.

(** [ValidateCreateUnofficial]. *)
Definition ValidateCreateUnofficial (req : CreateRequest) (d : Describe) : result CreateRequest :=
  _ ← validateRunRetention (r_RunRetention req);
  _ ← validateParameters (r_Parameters req) d;
  let norm := if bool_decide (r_Benchmark req = "")
              then req <| r_Benchmark := d_Benchmark d |> else req in
  _ ← validateDates (r_StartDate norm) (r_EndDate norm);
  Ok norm.

Record ParameterRetype := { rt_Name : string; rt_From : string; rt_To : string }.

Record ParameterDiff := {
  Kept : list string; AddedWithDefault : list string; AddedWithoutDefault : list string;
  Removed : list string; Retyped : list ParameterRetype;
}.

(** [ParameterDiff.Compatible]. *)
Definition Compatible (d : ParameterDiff) : bool :=
  (length (Removed d) =? 0)%nat && (length (Retyped d) =? 0)%nat
  && (length (AddedWithoutDefault d) =? 0)%nat.

Definition by_name (ps : list DescribeParameter) : gmap string DescribeParameter :=
  fold_left (λ m p, <[dp_Name p := p]> m) ps ∅.

Definition zero_diff : ParameterDiff :=
  {| Kept := []; AddedWithDefault := []; AddedWithoutDefault := []; Removed := []; Retyped := [] |}.

(** The bodies of the two loops of [DiffParameters]. *)
Definition diff_old (newByName : gmap string DescribeParameter) (d : ParameterDiff)
    (e : string * DescribeParameter) : ParameterDiff :=
  let '(name, oldP) := e in
  match newByName !! name with
  | None =>
    {| Kept := Kept d; AddedWithDefault := AddedWithDefault d;
       AddedWithoutDefault := AddedWithoutDefault d; Removed := Removed d ++ [name]; Retyped := Retyped d |}
  | Some newP =>
    if bool_decide (dp_Type oldP ≠ dp_Type newP) then
      {| Kept := Kept d; AddedWithDefault := AddedWithDefault d;
         AddedWithoutDefault := AddedWithoutDefault d; Removed := Removed d;
         Retyped := Retyped d ++ [{| rt_Name := name; rt_From := dp_Type oldP; rt_To := dp_Type newP |}] |}
    else
      {| Kept := Kept d ++ [name]; AddedWithDefault := AddedWithDefault d;
         AddedWithoutDefault := AddedWithoutDefault d; Removed := Removed d; Retyped := Retyped d |}
  end.

Definition diff_new (oldByName : gmap string DescribeParameter) (d : ParameterDiff)
    (e : string * DescribeParameter) : ParameterDiff :=
  let '(name, newP) := e in
  match oldByName !! name with
  | Some _ => d
  | None =>
    match dp_Default newP with
    | Some _ =>
      {| Kept := Kept d; AddedWithDefault := AddedWithDefault d ++ [name];
         AddedWithoutDefault := AddedWithoutDefault d; Removed := Removed d; Retyped := Retyped d |}
    | None =>
      {| Kept := Kept d; AddedWithDefault := AddedWithDefault d;
         AddedWithoutDefault := AddedWithoutDefault d ++ [name]; Removed := Removed d; Retyped := Retyped d |}
    end
  end.

(** [DiffParameters]. *)
Definition DiffParameters (oldDescribe newDescribe : Describe) : ParameterDiff :=
  let oldByName := by_name (d_Parameters oldDescribe) in
  let newByName := by_name (d_Parameters newDescribe) in
  let d := fold_left (diff_old newByName) (range_map oldByName) zero_diff in
  fold_left (diff_new oldByName) (range_map newByName) d.

(** [MatchPresetName]; [presetMatch] of src/portfolio/handler.go is the same loop. *)
Definition MatchPresetName (current : gmap string json) (newDescribe : Describe) : option string :=
  match list_find (λ p, presetParametersEqual (ps_Parameters p) current = true) (d_Presets newDescribe) with
  | Some (_, p) => Some (ps_Name p)
  | None => None
  end.
Definition presetMatch (params : gmap string json) (d : Describe) : option string :=
  match list_find (λ p, presetParametersEqual (ps_Parameters p) params = true) (d_Presets d) with
  | Some (_, p) => Some (ps_Name p)
  | None => None
  end.

(** ** src/portfolio/upgrade.go *)

(** A map element that may be absent or nil. *)
Definition elem_or_nil (v : option json) : json := default JNull v.

(** [mergeKeptAndDefaults]. *)
Definition mergeKeptAndDefaults (current : gmap string json) (d : Describe) (diff : ParameterDiff) :
    gmap string json :=
  let out := fold_left (λ out k, <[k := elem_or_nil (current !! k)]> out) (Kept diff) ∅ in
  fold_left (λ out name,
    match list_find (λ p, dp_Name p = name) (d_Parameters d) with
    | Some (_, p) => <[name := elem_or_nil (dp_Default p)]> out
    | None => out
    end) (AddedWithDefault diff) out.

(** [deref]. *)
Definition deref (s : option string) : string := default "" s.

End params.
