(* ===== verification/ParamsLaws.v ===== *)
(** Laws of request validation, parameter diffs, the upgrade merge, preset
    matching and slugs. *)
From S2P Require Import Prelude GoStrings GoTime Utf8 Types Json Params.
From Stdlib Require Import Ascii.

(** ** Validation *)

Lemma list_find_none_all {A} (P : A → Prop) `{∀ x, Decision (P x)} (l : list A) :
  list_find P l = None ↔ ∀ x, x ∈ l → ¬ P x.
Proof. rewrite list_find_None, Forall_forall. done. Qed.

Lemma list_find_some_in {A} (P : A → Prop) `{∀ x, Decision (P x)} (l : list A) i x :
  list_find P l = Some (i, x) → x ∈ l ∧ P x.
Proof. rewrite list_find_Some. intros (Hi & HP & _). split; [|done]. by eapply list_elem_of_lookup_2. Qed.

Lemma elem_of_declared d k : k ∈ declared_names d ↔ ∃ p, p ∈ d_Parameters d ∧ dp_Name p = k.
Proof.
  unfold declared_names. rewrite elem_of_list_to_set, list_elem_of_fmap. naive_solver.
Qed.

Section validation.
Context `{MapRange}.
Context (unmarshal_describe : string → result Describe).

(** Parameters validate exactly when their names are the declared ones; the
    error names an undeclared parameter if there is one, else a missing one. *)
Lemma validate_parameters_spec (params : gmap string json) (d : Describe) :
  match validateParameters params d with
  | Ok _ => dom params = declared_names d
  | Err e =>
    (∃ k, k ∈ dom params ∧ k ∉ declared_names d ∧
       e = wrap_post ErrUnknownParameter' (": " +:+ k)) ∨
    (dom params ⊆ declared_names d ∧ ∃ k, k ∈ declared_names d ∧ k ∉ dom params ∧
       e = wrap_post ErrMissingParameter' (": " +:+ k))
  end.
Proof.
  unfold validateParameters.
  destruct (list_find (λ k, k ∉ declared_names d) (range_map params).*1) as [[i k]|] eqn:Hu.
  { apply list_find_some_in in Hu as [Hk Hd]. left. exists k.
    rewrite elem_of_range_keys in Hk. by rewrite elem_of_dom. }
  rewrite list_find_none_all in Hu.
  assert (dom params ⊆ declared_names d) as Hsub.
  { intros k Hk. apply elem_of_dom, elem_of_range_keys in Hk. apply Hu in Hk. by apply dec_stable. }
  destruct (list_find (λ p, params !! dp_Name p = None) (d_Parameters d)) as [[i p]|] eqn:Hm.
  - apply list_find_some_in in Hm as [Hp Hn]. right. split; [done|]. exists (dp_Name p).
    rewrite elem_of_declared, not_elem_of_dom. eauto.
  - rewrite list_find_none_all in Hm. apply set_eq. intros k. split; [by apply Hsub|].
    intros (p & Hp & <-)%elem_of_declared. apply elem_of_dom. specialize (Hm p Hp).
    destruct (params !! dp_Name p); [by eexists|done].
Qed.

Lemma validate_parameters_ok params d :
  validateParameters params d = Ok () ↔ dom params = declared_names d.
Proof.
  pose proof (validate_parameters_spec params d) as Hs.
  destruct (validateParameters params d) as [[]|e]; [done|]. split; [done|]. intros Hd.
  rewrite Hd in Hs. naive_solver.
Qed.

Definition retention_ok (v : option Z) : Prop := match v with Some v => 1 ≤ v | None => True end.
Definition dates_ok (a b : option instant) : Prop :=
  match a, b with Some s, Some e => s ≤ e | _, _ => True end.

Lemma validate_retention_ok v : validateRunRetention v = Ok () ↔ retention_ok v.
Proof. destruct v as [v|]; cbn; [|done]. destruct (Z.ltb_spec v 1); split; (done || lia). Qed.

Lemma validate_dates_ok a b : validateDates a b = Ok () ↔ dates_ok a b.
Proof. destruct a as [a|], b as [b|]; cbn; try done. destruct (Z.ltb_spec b a); split; (done || lia). Qed.

(** Defaulting the benchmark touches nothing date validation reads. *)
Lemma default_benchmark (req : CreateRequest) (d : Describe) :
  (if bool_decide (r_Benchmark req = "") then req <| r_Benchmark := d_Benchmark d |> else req) =
  req <| r_Benchmark := if decide (r_Benchmark req = "") then d_Benchmark d else r_Benchmark req |>.
Proof.
  destruct (decide (r_Benchmark req = "")) as [Hb|Hb].
  - by rewrite bool_decide_eq_true_2.
  - rewrite bool_decide_eq_false_2 by done. by destruct req.
Qed.

(** An official create request is accepted exactly when the strategy is
    installed with a well-formed describe, the requested version is empty or the
    installed one, the parameters are the declared ones, the retention is
    positive and the dates are in order; the accepted request differs only in
    the version and in a defaulted benchmark. *)
Theorem validate_create_spec (req norm : CreateRequest) (s : Strategy) :
  ValidateCreate unmarshal_describe req s = Ok norm ↔
  ∃ ver d,
    s_InstalledVer s = Some ver ∧ s_DescribeJSON s ≠ "" ∧
    unmarshal_describe (s_DescribeJSON s) = Ok d ∧
    (r_StrategyVer req = "" ∨ r_StrategyVer req = ver) ∧
    retention_ok (r_RunRetention req) ∧ dates_ok (r_StartDate req) (r_EndDate req) ∧
    dom (r_Parameters req) = declared_names d ∧
    norm = req <| r_StrategyVer := ver |>
             <| r_Benchmark := if decide (r_Benchmark req = "") then d_Benchmark d else r_Benchmark req |>.
Proof.
  setoid_rewrite <-validate_retention_ok. setoid_rewrite <-validate_dates_ok.
  setoid_rewrite <-validate_parameters_ok. unfold ValidateCreate.
  destruct (validateRunRetention (r_RunRetention req)) as [[]|e]; cbn [mbind result_bind];
    [|split; naive_solver].
  destruct (s_InstalledVer s) as [ver|]; [|split; naive_solver].
  destruct (bool_decide_reflect (s_DescribeJSON s = "")) as [|Hd]; [split; naive_solver|].
  destruct (bool_decide_reflect (r_StrategyVer req ≠ "")) as [Hv|Hv%dec_stable],
    (bool_decide_reflect (r_StrategyVer req ≠ ver)) as [Hw|Hw%dec_stable]; cbn [andb];
    [split; naive_solver|..].
  all: destruct (unmarshal_describe (s_DescribeJSON s)) as [d|] eqn:Hdesc; [|split; naive_solver].
  all: change (r_Parameters (req <| r_StrategyVer := ver |>)) with (r_Parameters req); destruct (validateParameters (r_Parameters req) d) as [[]|] eqn:Hp;
    cbn [mbind result_bind];
    [|split; [done|intros (? & ? & [= <-] & _ & [= <-] & _ & _ & _ & ? & _); congruence]].
  all: rewrite (default_benchmark (req <| r_StrategyVer := ver |>) d); cbn [r_StartDate r_EndDate r_Benchmark set_field].
  all: destruct (validateDates (r_StartDate req) (r_EndDate req)) as [[]|]; cbn [mbind result_bind];
    [|split; [done|intros (? & ? & [= <-] & _ & [= <-] & _ & _ & ? & _ & _); congruence]].
  all: split; [intros [= <-]; exists ver, d; by eauto 10|].
  all: intros (ver' & d' & [= <-] & _ & [= <-] & _ & _ & _ & _ & ->); done.
Qed.

End validation.

(** ** Parameter diffs *)
Section diff.
Context `{MapRange}.

Lemma by_name_foldl l (m : gmap string DescribeParameter) n :
  fold_left (λ m p, <[dp_Name p := p]> m) l m !! n =
  match last (filter (λ p, dp_Name p = n) l) with Some p => Some p | None => m !! n end.
Proof.
  revert m. induction l as [|p l IH]; intros m; [done|]. cbn [fold_left]. rewrite IH, filter_cons.
  destruct (decide (dp_Name p = n)) as [<-|Hn].
  - rewrite lookup_insert_eq, last_cons. by destruct (last _).
  - by rewrite lookup_insert_ne by done.
Qed.

(** The last declaration of a name wins. *)
Lemma by_name_lookup l n : by_name l !! n = last (filter (λ p, dp_Name p = n) l).
Proof. unfold by_name. rewrite by_name_foldl, lookup_empty. by destruct (last _). Qed.

Lemma by_name_Some l n p : by_name l !! n = Some p → p ∈ l ∧ dp_Name p = n.
Proof.
  rewrite by_name_lookup. intros Hl%last_Some_elem_of. apply list_elem_of_filter in Hl. naive_solver.
Qed.

Lemma by_name_is_Some d n : is_Some (by_name (d_Parameters d) !! n) ↔ n ∈ declared_names d.
Proof.
  rewrite elem_of_declared. split.
  - intros [p Hp]. exists p. by apply by_name_Some.
  - intros (p & Hp & Hn). rewrite by_name_lookup, last_is_Some. intros Hf.
    assert (p ∈ filter (λ p, dp_Name p = n) (d_Parameters d)) as Hin by (by apply list_elem_of_filter).
    rewrite Hf in Hin. by apply not_elem_of_nil in Hin.
Qed.

Lemma by_name_NoDup l n p :
  NoDup (map dp_Name l) → p ∈ l → dp_Name p = n → by_name l !! n = Some p.
Proof.
  intros Hnd Hp Hn. destruct (by_name l !! n) as [q|] eqn:Hq.
  - apply by_name_Some in Hq as [Hq1 Hq2]. f_equal.
    apply list_elem_of_lookup in Hp as [i Hi], Hq1 as [j Hj].
    assert (i = j) as ->; [|congruence].
    eapply (NoDup_lookup _ i j n Hnd); rewrite list_lookup_fmap, ?Hi, ?Hj; cbn; congruence.
  - rewrite by_name_lookup, last_None in Hq.
    assert (p ∈ filter (λ p, dp_Name p = n) l) as Hin by (by apply list_elem_of_filter).
    rewrite Hq in Hin. by apply not_elem_of_nil in Hin.
Qed.

Lemma elem_of_nil_inv {A} (l : list A) : l = [] ↔ ∀ x, x ∉ l.
Proof.
  split; [intros ->; apply not_elem_of_nil|]. destruct l as [|x l]; [done|]. intros Hl.
  destruct (Hl x). by left.
Qed.

Definition keep_of (nb : gmap string DescribeParameter) (e : string * DescribeParameter) : option string :=
  p ← nb !! e.1; if bool_decide (dp_Type e.2 ≠ dp_Type p) then None else Some e.1.
Definition retype_of (nb : gmap string DescribeParameter) (e : string * DescribeParameter) : option ParameterRetype :=
  p ← nb !! e.1; if bool_decide (dp_Type e.2 ≠ dp_Type p)
    then Some {| rt_Name := e.1; rt_From := dp_Type e.2; rt_To := dp_Type p |} else None.
Definition removed_of (nb : gmap string DescribeParameter) (e : string * DescribeParameter) : option string :=
  if decide (nb !! e.1 = None) then Some e.1 else None.
Definition added_of (want : bool) (ob : gmap string DescribeParameter) (e : string * DescribeParameter) : option string :=
  if decide (ob !! e.1 = None ∧ bool_decide (is_Some (dp_Default e.2)) = want) then Some e.1 else None.

Lemma diff_old_foldl nb l d :
  fold_left (diff_old nb) l d =
  {| Kept := Kept d ++ omap (keep_of nb) l; AddedWithDefault := AddedWithDefault d;
     AddedWithoutDefault := AddedWithoutDefault d; Removed := Removed d ++ omap (removed_of nb) l;
     Retyped := Retyped d ++ omap (retype_of nb) l |}.
Proof.
  revert d. induction l as [|[n o] l IH]; intros d; cbn [fold_left].
  { cbn. rewrite !app_nil_r. by destruct d. }
  rewrite IH. cbn [omap list_omap]. unfold diff_old, keep_of, removed_of, retype_of. cbn [fst snd].
  destruct (nb !! n) as [p|]; cbn [mbind option_bind].
  - rewrite decide_False by done. case_bool_decide; cbn; by rewrite <-?app_assoc.
  - rewrite decide_True by done. cbn. by rewrite <-app_assoc.
Qed.

Lemma diff_new_foldl ob l d :
  fold_left (diff_new ob) l d =
  {| Kept := Kept d; AddedWithDefault := AddedWithDefault d ++ omap (added_of true ob) l;
     AddedWithoutDefault := AddedWithoutDefault d ++ omap (added_of false ob) l;
     Removed := Removed d; Retyped := Retyped d |}.
Proof.
  revert d. induction l as [|[n p] l IH]; intros d; cbn [fold_left].
  { cbn. rewrite !app_nil_r. by destruct d. }
  rewrite IH. cbn [omap list_omap]. unfold diff_new, added_of. cbn [fst snd].
  destruct (ob !! n) as [o|]; [by rewrite !decide_False by naive_solver|].
  destruct (dp_Default p); cbn; by rewrite <-app_assoc.
Qed.

Lemma DiffParameters_eq old new :
  DiffParameters old new =
  let ob := by_name (d_Parameters old) in let nb := by_name (d_Parameters new) in
  {| Kept := omap (keep_of nb) (range_map ob); AddedWithDefault := omap (added_of true ob) (range_map nb);
     AddedWithoutDefault := omap (added_of false ob) (range_map nb);
     Removed := omap (removed_of nb) (range_map ob); Retyped := omap (retype_of nb) (range_map ob) |}.
Proof. unfold DiffParameters. by rewrite diff_old_foldl, diff_new_foldl. Qed.

Lemma NoDup_omap_key {A} (f : string * A → option string) (m : gmap string A) :
  (∀ e k, f e = Some k → k = e.1) → NoDup (omap f (range_map m)).
Proof.
  intros Hf. pose proof (NoDup_range_keys m) as Hnd. induction (range_map m) as [|e l IH]; [constructor|].
  rewrite fmap_cons, NoDup_cons in Hnd. destruct Hnd as [He Hl]. cbn.
  destruct (f e) as [k|] eqn:Hk; [|auto]. apply NoDup_cons. split; [|auto].
  rewrite list_elem_of_omap. intros (e' & He' & Hk'). apply He.
  apply Hf in Hk, Hk'. subst k. rewrite Hk'. by apply list_elem_of_fmap_2.
Qed.

Lemma keep_of_key nb e k : keep_of nb e = Some k → k = e.1.
Proof. unfold keep_of. destruct (nb !! e.1); cbn; [|done]. by case_bool_decide; intros [= <-]. Qed.
Lemma removed_of_key nb e k : removed_of nb e = Some k → k = e.1.
Proof. unfold removed_of. by case_decide; intros [= <-]. Qed.
Lemma added_of_key w ob e k : added_of w ob e = Some k → k = e.1.
Proof. unfold added_of. by case_decide; intros [= <-]. Qed.

Section classes.
Context (old new : Describe).
Let ob := by_name (d_Parameters old).
Let nb := by_name (d_Parameters new).

Lemma elem_of_kept n :
  n ∈ omap (keep_of nb) (range_map ob) ↔
  ∃ o p, ob !! n = Some o ∧ nb !! n = Some p ∧ dp_Type o = dp_Type p.
Proof.
  rewrite list_elem_of_omap. split.
  - intros ([k o] & Ho%elem_of_range_map & Hk). pose proof (keep_of_key _ _ _ Hk) as ->.
    unfold keep_of in Hk. cbn in *. destruct (nb !! k) as [p|] eqn:Hp; [|done]. cbn in Hk.
    case_bool_decide as Ht; [done|]. exists o, p. split; [done|]. done.
  - intros (o & p & Ho & Hp & Ht). exists (n, o). rewrite elem_of_range_map. split; [done|].
    unfold keep_of. cbn. rewrite Hp. cbn. rewrite bool_decide_eq_false_2; [done|]. by intros Hne.
Qed.

Lemma elem_of_removed n :
  n ∈ omap (removed_of nb) (range_map ob) ↔ n ∈ declared_names old ∧ n ∉ declared_names new.
Proof.
  rewrite <-!by_name_is_Some, <-eq_None_not_Some, list_elem_of_omap. split.
  - intros ([k o] & Ho%elem_of_range_map & Hk). pose proof (removed_of_key _ _ _ Hk) as ->.
    unfold removed_of in Hk. cbn in *. case_decide; [|done]. eauto.
  - intros [[o Ho] Hn]. exists (n, o). rewrite elem_of_range_map. split; [done|].
    unfold removed_of. cbn. by rewrite decide_True.
Qed.

Lemma elem_of_retyped r :
  r ∈ omap (retype_of nb) (range_map ob) ↔
  ∃ o p, ob !! rt_Name r = Some o ∧ nb !! rt_Name r = Some p ∧ dp_Type o ≠ dp_Type p ∧
    rt_From r = dp_Type o ∧ rt_To r = dp_Type p.
Proof.
  rewrite list_elem_of_omap. split.
  - intros ([k o] & Ho%elem_of_range_map & Hk). unfold retype_of in Hk. cbn in Hk.
    destruct (nb !! k) as [p|] eqn:Hp; [|done]. cbn in Hk. case_bool_decide as Ht; [|done].
    injection Hk as <-. cbn. eauto 10.
  - intros (o & p & Ho & Hp & Ht & Hf & Hto). exists (rt_Name r, o). rewrite elem_of_range_map.
    split; [done|]. unfold retype_of. cbn. rewrite Hp. cbn. rewrite bool_decide_eq_true_2 by done.
    destruct r; cbn in *; congruence.
Qed.

Lemma elem_of_added (w : bool) n :
  n ∈ omap (added_of w ob) (range_map nb) ↔
  n ∉ declared_names old ∧ ∃ p, nb !! n = Some p ∧
    if w then is_Some (dp_Default p) else dp_Default p = None.
Proof.
  rewrite <-by_name_is_Some, <-eq_None_not_Some, list_elem_of_omap. split.
  - intros ([k p] & Hp%elem_of_range_map & Hk). pose proof (added_of_key _ _ _ _ Hk) as ->.
    unfold added_of in Hk. cbn in *. case_decide as Hd; [|done]. destruct Hd as [Ho <-].
    split; [done|]. exists p. split; [done|]. case_bool_decide; [done|]. by apply eq_None_not_Some.
  - intros (Ho & p & Hp & Hd). exists (n, p). rewrite elem_of_range_map. split; [done|].
    unfold added_of. cbn. rewrite decide_True; [done|]. split; [done|].
    destruct w; [by apply bool_decide_eq_true_2|]. apply bool_decide_eq_false_2. by rewrite <-eq_None_not_Some.
Qed.

Lemma compatible_spec :
  Compatible {| Kept := omap (keep_of nb) (range_map ob); AddedWithDefault := omap (added_of true ob) (range_map nb);
     AddedWithoutDefault := omap (added_of false ob) (range_map nb);
     Removed := omap (removed_of nb) (range_map ob); Retyped := omap (retype_of nb) (range_map ob) |} = true ↔
  declared_names old ⊆ declared_names new ∧
  (∀ n o p, ob !! n = Some o → nb !! n = Some p → dp_Type o = dp_Type p) ∧
  (∀ n p, n ∉ declared_names old → nb !! n = Some p → is_Some (dp_Default p)).
Proof.
  unfold Compatible. cbn. rewrite !andb_true_iff, !Nat.eqb_eq, !length_zero_iff_nil, !elem_of_nil_inv.
  setoid_rewrite elem_of_removed. setoid_rewrite elem_of_retyped. setoid_rewrite (elem_of_added false). split.
  - intros [[Hrem Hret] Hadd]. split; [|split].
    + intros n Hn. destruct (decide (n ∈ declared_names new)); [done|]. by destruct (Hrem n).
    + intros n o p Ho Hp. destruct (decide (dp_Type o = dp_Type p)) as [|Ht]; [done|].
      destruct (Hret {| rt_Name := n; rt_From := dp_Type o; rt_To := dp_Type p |}). cbn. eauto 10.
    + intros n p Hn Hp. destruct (dp_Default p) as [v|] eqn:Hd; [by eexists|]. by destruct (Hadd n); eauto.
  - intros (Hsub & Ht & Hd). split; [split|].
    + intros n [Hn Hn']. by apply Hn', Hsub.
    + intros r (o & p & Ho & Hp & Hne & _). by eapply Hne, Ht.
    + intros n (Hn & p & Hp & Hnone). destruct (Hd n p Hn Hp). congruence.
Qed.
End classes.

(** The five classes of [DiffParameters] are what their documentation says
    of the declarations by name, they have no duplicates, and [Compatible] means
    that every old name survives with its type and every new one has a default. *)
Theorem diff_parameters_spec (old new : Describe) :
  let ob := by_name (d_Parameters old) in
  let nb := by_name (d_Parameters new) in
  let d := DiffParameters old new in
  (∀ n, n ∈ Kept d ↔ ∃ o p, ob !! n = Some o ∧ nb !! n = Some p ∧ dp_Type o = dp_Type p) ∧
  (∀ n, n ∈ Removed d ↔ n ∈ declared_names old ∧ n ∉ declared_names new) ∧
  (∀ r, r ∈ Retyped d ↔ ∃ o p, ob !! rt_Name r = Some o ∧ nb !! rt_Name r = Some p ∧
     dp_Type o ≠ dp_Type p ∧ rt_From r = dp_Type o ∧ rt_To r = dp_Type p) ∧
  (∀ n, n ∈ AddedWithDefault d ↔ n ∉ declared_names old ∧ ∃ p, nb !! n = Some p ∧ is_Some (dp_Default p)) ∧
  (∀ n, n ∈ AddedWithoutDefault d ↔ n ∉ declared_names old ∧ ∃ p, nb !! n = Some p ∧ dp_Default p = None) ∧
  NoDup (Kept d ++ AddedWithDefault d ++ AddedWithoutDefault d) ∧ NoDup (Removed d) ∧
  (Compatible d = true ↔
     declared_names old ⊆ declared_names new ∧
     (∀ n o p, ob !! n = Some o → nb !! n = Some p → dp_Type o = dp_Type p) ∧
     (∀ n p, n ∉ declared_names old → nb !! n = Some p → is_Some (dp_Default p))).
Proof.
  cbv zeta. rewrite DiffParameters_eq. cbv zeta. cbn [Kept Removed Retyped AddedWithDefault AddedWithoutDefault].
  set (ob := by_name (d_Parameters old)). set (nb := by_name (d_Parameters new)).
  split; [apply elem_of_kept|]. split; [apply elem_of_removed|]. split; [apply elem_of_retyped|].
  split; [apply (elem_of_added _ _ true)|]. split; [apply (elem_of_added _ _ false)|].
  split; [|split; [apply NoDup_omap_key; intros e k; apply removed_of_key|]].
  - rewrite !NoDup_app. split; [apply NoDup_omap_key, keep_of_key|].
    split; [|split; [apply NoDup_omap_key, added_of_key|split; [|apply NoDup_omap_key, added_of_key]]].
    + intros n (o & p & Ho & _)%elem_of_kept Hn.
      assert (n ∉ declared_names old) as Hno; [|apply Hno, by_name_is_Some; eauto].
      apply elem_of_app in Hn as [Hn|Hn]; apply elem_of_added in Hn; tauto.
    + intros n (_ & p & Hp & Hd)%elem_of_added (_ & q & Hq & Hd')%elem_of_added.
      assert (p = q) as -> by congruence. rewrite Hd' in Hd. by destruct Hd.
  - apply compatible_spec.
Qed.

(** The classes the merge reads. *)
Lemma diff_classes (old new : Describe) :
  let ob := by_name (d_Parameters old) in
  let nb := by_name (d_Parameters new) in
  let d := DiffParameters old new in
  (∀ n, n ∈ Kept d ↔ ∃ o p, ob !! n = Some o ∧ nb !! n = Some p ∧ dp_Type o = dp_Type p) ∧
  (∀ n, n ∈ AddedWithDefault d ↔ n ∉ declared_names old ∧ ∃ p, nb !! n = Some p ∧ is_Some (dp_Default p)) ∧
  (Compatible d = true ↔
     declared_names old ⊆ declared_names new ∧
     (∀ n o p, ob !! n = Some o → nb !! n = Some p → dp_Type o = dp_Type p) ∧
     (∀ n p, n ∉ declared_names old → nb !! n = Some p → is_Some (dp_Default p))).
Proof.
  cbv zeta. rewrite DiffParameters_eq. cbv zeta. cbn [Kept AddedWithDefault].
  split; [apply elem_of_kept|]. split; [apply (elem_of_added _ _ true)|apply compatible_spec].
Qed.

End diff.

(** ** Merging *)
Section merge.
Context `{MapRange}.

Lemma foldl_insert_some {V} (h : gmap string V → string → gmap string V) (g : string → option V)
    (l : list string) (m : gmap string V) n :
  (∀ m k, h m k = match g k with Some v => <[k := v]> m | None => m end) →
  fold_left h l m !! n =
  if decide (n ∈ l) then match g n with Some v => Some v | None => m !! n end else m !! n.
Proof.
  intros Hh. revert m.
  induction l as [|k l IH]; intros m; [by rewrite decide_False by apply not_elem_of_nil|].
  cbn [fold_left]. rewrite IH, Hh. destruct (decide (k = n)) as [->|Hk].
  - rewrite (decide_True (P := n ∈ n :: l)) by (by left).
    destruct (g n) as [v|] eqn:Hg; [rewrite lookup_insert_eq|]; by case_decide.
  - rewrite (decide_ext (n ∈ k :: l) (n ∈ l)) by (rewrite elem_of_cons; naive_solver).
    destruct (g k); [by rewrite lookup_insert_ne by done|done].
Qed.

Definition default_of (d : Describe) (name : string) : option json :=
  match list_find (λ p, dp_Name p = name) (d_Parameters d) with
  | Some (_, p) => Some (elem_or_nil (dp_Default p))
  | None => None
  end.

Lemma merge_lookup current d diff n :
  mergeKeptAndDefaults current d diff !! n =
  let kept := if decide (n ∈ Kept diff) then Some (elem_or_nil (current !! n)) else None in
  if decide (n ∈ AddedWithDefault diff)
  then match default_of d n with Some v => Some v | None => kept end else kept.
Proof.
  unfold mergeKeptAndDefaults. rewrite (foldl_insert_some _ (default_of d)).
  2:{ intros m k. unfold default_of. by destruct (list_find _ _) as [[]|]. }
  rewrite (foldl_insert_some _ (λ k, Some (elem_or_nil (current !! k)))) by done.
  by rewrite lookup_empty.
Qed.

Lemma default_of_declared d n : n ∈ declared_names d → is_Some (default_of d n).
Proof.
  intros (p & Hp & Hn)%elem_of_declared. unfold default_of.
  destruct (list_find (λ p, dp_Name p = n) (d_Parameters d)) as [[i q]|] eqn:Hf; [by eexists|].
  rewrite list_find_none_all in Hf. by destruct (Hf p Hp).
Qed.

Lemma default_of_NoDup d p :
  NoDup (map dp_Name (d_Parameters d)) → p ∈ d_Parameters d →
  default_of d (dp_Name p) = Some (elem_or_nil (dp_Default p)).
Proof.
  intros Hnd Hp. unfold default_of.
  destruct (list_find (λ q, dp_Name q = dp_Name p) (d_Parameters d)) as [[i q]|] eqn:Hf.
  - apply list_find_some_in in Hf as [Hq Hn].
    pose proof (by_name_NoDup _ _ _ Hnd Hp eq_refl). pose proof (by_name_NoDup _ _ _ Hnd Hq Hn).
    congruence.
  - rewrite list_find_none_all in Hf. by destruct (Hf p Hp).
Qed.

(** When the diff is compatible, merging parameters that validate against
    the old describe gives parameters that validate against the new one: the
    user's values are kept and each new parameter takes its declared default. *)
Lemma compatible_merge_validates (current : gmap string json) (old new : Describe) :
  validateParameters current old = Ok () →
  Compatible (DiffParameters old new) = true →
  let merged := mergeKeptAndDefaults current new (DiffParameters old new) in
  validateParameters merged new = Ok () ∧
  (∀ n, n ∈ declared_names old → merged !! n = current !! n) ∧
  (NoDup (map dp_Name (d_Parameters new)) → ∀ p, p ∈ d_Parameters new → dp_Name p ∉ declared_names old →
     ∃ v, dp_Default p = Some v ∧ merged !! dp_Name p = Some v).
Proof.
  intros Hval Hcomp. pose proof (diff_classes old new) as (Hk & Ha & Hc).
  apply Hc in Hcomp as (Hsub & Hty & Hdef). apply validate_parameters_ok in Hval. cbv zeta.
  set (diff := DiffParameters old new) in *.
  assert (∀ n, n ∈ Kept diff ↔ n ∈ declared_names old) as Hkept.
  { intros n. rewrite Hk. split.
    - intros (o & _ & Ho & _). apply by_name_is_Some. eauto.
    - intros Hn. pose proof (Hsub n Hn) as Hn'. apply by_name_is_Some in Hn as [o Ho], Hn' as [p Hp].
      eauto 10. }
  assert (∀ n, n ∈ AddedWithDefault diff ↔ n ∈ declared_names new ∧ n ∉ declared_names old) as Hadd.
  { intros n. rewrite Ha. split.
    - intros (Hn & p & Hp & _). split; [|done]. apply by_name_is_Some. eauto.
    - intros [[p Hp]%by_name_is_Some Hn]. eauto. }
  assert (∀ n, n ∈ declared_names old → mergeKeptAndDefaults current new diff !! n = current !! n) as Hkeep.
  { intros n Hn. rewrite merge_lookup. cbv zeta. rewrite decide_False by (rewrite Hadd; tauto).
    rewrite decide_True by (by apply Hkept). rewrite <-Hval in Hn. apply elem_of_dom in Hn as [v ->]. done. }
  split; [|split; [exact Hkeep|]].
  - apply validate_parameters_ok, set_eq. intros n. rewrite elem_of_dom. split.
    + rewrite merge_lookup. cbv zeta. destruct (decide (n ∈ AddedWithDefault diff)) as [Hn|Hn]; [apply Hadd in Hn; tauto|].
      destruct (decide (n ∈ Kept diff)) as [Hn'|Hn']; [|intros [? [=]]]. by apply Hkept, Hsub in Hn'.
    + intros Hn. destruct (decide (n ∈ declared_names old)) as [Ho|Ho].
      * rewrite Hkeep by done. rewrite <-Hval in Ho. by apply elem_of_dom.
      * rewrite merge_lookup. cbv zeta. rewrite decide_True by (by apply Hadd).
        by destruct (default_of_declared _ _ Hn) as [v ->].
  - intros Hnd p Hp Hn. pose proof (by_name_NoDup _ _ _ Hnd Hp eq_refl) as Hb.
    destruct (Hdef _ _ Hn Hb) as [v Hv]. exists v. split; [done|]. rewrite merge_lookup. cbv zeta.
    rewrite decide_True by (apply Hadd; split; [apply by_name_is_Some; eauto|done]).
    by rewrite default_of_NoDup, Hv by done.
Qed.
End merge.

(** ** Presets and slugs *)
Section slug.
Context `{MapRange, UnicodeTables}.
Context (format_float : float64 → string) (json_unmarshal : string → result json).

(** What [json.Unmarshal] documents of text [json.Marshal] wrote: it is accepted,
    and no JSON number is a NaN. *)
Hypothesis unmarshal_marshal : ∀ v s,
  marshal format_float v = Some s → ∃ w, json_unmarshal s = Ok w ∧ nan_free w = true.

(** Two parameter maps match exactly when both have a canonical JSON form and
    it is the same text. *)
Lemma preset_parameters_equal_iff a b :
  presetParametersEqual format_float json_unmarshal a b = true ↔
  ∃ s, canonicalJSON format_float a = Ok s ∧ canonicalJSON format_float b = Ok s.
Proof.
  unfold presetParametersEqual.
  destruct (canonicalJSON format_float a) as [aj|] eqn:Ha; [|split; [done|naive_solver]].
  destruct (canonicalJSON format_float b) as [bj|] eqn:Hb; [|split; [done|naive_solver]].
  destruct (bool_decide_reflect (aj = bj)) as [->|Hne]; cbn [negb]; [|split; [done|naive_solver]].
  unfold canonicalJSON in Ha. destruct (marshal _ _) as [s|] eqn:Hm; [|done]. injection Ha as ->.
  apply unmarshal_marshal in Hm as (w & -> & Hw). rewrite deep_equal_refl by done. naive_solver.
Qed.

(** [MatchPresetName] and the create handler's preset match return the first
    preset whose parameters have the same canonical JSON as the given ones, and
    [Slug] names that same preset; with none, there is no preset name and the
    slug says custom. *)
Theorem preset_match_first (params : gmap string json) (d : Describe) :
  let same p := ∃ s, canonicalJSON format_float (ps_Parameters p) = Ok s ∧
                     canonicalJSON format_float params = Ok s in
  presetMatch format_float json_unmarshal params d = MatchPresetName format_float json_unmarshal params d ∧
  match MatchPresetName format_float json_unmarshal params d with
  | Some n =>
    ∃ pre p post, d_Presets d = pre ++ p :: post ∧ same p ∧ (∀ q, q ∈ pre → ¬ same q) ∧ n = ps_Name p ∧
      slug_preset format_float json_unmarshal params d = kebabCase n
  | None => (∀ q, q ∈ d_Presets d → ¬ same q) ∧ slug_preset format_float json_unmarshal params d = "custom"
  end.
Proof.
  cbv zeta. split; [done|]. unfold MatchPresetName, slug_preset.
  destruct (list_find _ (d_Presets d)) as [[i p]|] eqn:Hf.
  - apply list_find_Some in Hf as (Hi & Hp & Hbefore). apply preset_parameters_equal_iff in Hp.
    exists (take i (d_Presets d)), p, (drop (S i) (d_Presets d)).
    split; [by rewrite take_drop_middle|]. split; [done|]. split; [|done].
    intros q [j Hj]%list_elem_of_lookup Hq. apply lookup_take_Some in Hj as [Hj Hlt].
    apply preset_parameters_equal_iff in Hq. by eapply Hbefore.
  - rewrite list_find_none_all in Hf. split; [|done].
    intros q Hq Hs. apply preset_parameters_equal_iff in Hs. by eapply Hf.
Qed.

(** Base 32 digits, most significant first. *)
Definition base32_index (c : ascii) : option Z :=
  (λ x : nat * ascii, Z.of_nat x.1) <$> list_find (λ d, d = c) (bytes_of base32Alphabet).
Definition base32_value (l : list ascii) : option Z :=
  fold_left (λ v c, v ← v; i ← base32_index c; Some (v * 32 + i)) l (Some 0).

Lemma base32_index_char i : 0 ≤ i < 32 → base32_index (base32_char i) = Some i.
Proof.
  intros Hi. assert (i ∈ seqZ 0 32) as Hin by (apply elem_of_seqZ; lia).
  assert (forallb (λ i, bool_decide (base32_index (base32_char i) = Some i)) (seqZ 0 32) = true) as Hall
    by (vm_compute; reflexivity).
  rewrite forallb_forall in Hall. apply list_elem_of_In in Hin. by apply Hall, bool_decide_eq_true in Hin.
Qed.

Lemma suffix_loop_app n sum acc : suffix_loop n sum acc = suffix_loop n sum [] ++ acc.
Proof.
  revert sum acc. induction n as [|n IH]; intros sum acc; cbn; [done|].
  rewrite IH, (IH _ [_]). by rewrite <-app_assoc.
Qed.

Lemma length_suffix_loop n sum : length (suffix_loop n sum []) = n.
Proof.
  revert sum. induction n as [|n IH]; intros sum; cbn; [done|].
  rewrite suffix_loop_app, length_app, IH. cbn. lia.
Qed.

Lemma base32_value_suffix n sum :
  0 ≤ sum → base32_value (suffix_loop n sum []) = Some (sum mod 32 ^ Z.of_nat n).
Proof.
  revert sum. induction n as [|n IH]; intros sum Hs.
  { cbn [suffix_loop]. rewrite Z.mod_1_r. done. }
  cbn [suffix_loop]. rewrite suffix_loop_app. unfold base32_value in *. rewrite fold_left_app.
  rewrite IH by (by apply Z.shiftr_nonneg). cbn [fold_left mbind option_bind].
  change 31 with (Z.ones 5). rewrite Z.shiftr_div_pow2, (Z.land_ones sum 5) by lia.
  rewrite base32_index_char by (apply Z.mod_pos_bound; lia). cbn [mbind option_bind]. f_equal.
  rewrite Nat2Z.inj_succ, Z.pow_succ_r by lia. rewrite Z.rem_mul_r by lia.
  change (2 ^ 5) with 32. lia.
Qed.

(** A slug is the strategy code, the preset segment and four base-32 digits
    that spell the low twenty bits of the hash; it fails exactly when the
    parameters have no JSON form; it reads the name, parameters, benchmark,
    start date and code of the request and nothing else of it. *)
Theorem slug_shape (req req' : CreateRequest) (d : Describe) :
  match Slug format_float json_unmarshal req d with
  | Ok s =>
    ∃ canon suffix,
      canonicalJSON format_float (r_Parameters req) = Ok canon ∧
      s = r_StrategyCode req +:+ "-" +:+ slug_preset format_float json_unmarshal (r_Parameters req) d
            +:+ "-" +:+ of_bytes suffix ∧
      length suffix = 4%nat ∧ base32_value suffix = Some (slug_hash req canon mod 2 ^ 20)
  | Err _ => ∀ s, canonicalJSON format_float (r_Parameters req) ≠ Ok s
  end ∧
  (r_Name req' = r_Name req → r_StrategyCode req' = r_StrategyCode req →
   r_Parameters req' = r_Parameters req → r_Benchmark req' = r_Benchmark req →
   r_StartDate req' = r_StartDate req →
   Slug format_float json_unmarshal req' d = Slug format_float json_unmarshal req d).
Proof.
  split.
  - unfold Slug. destruct (canonicalJSON format_float (r_Parameters req)) as [canon|e]; [|done].
    exists canon, (suffix_loop 4 (Z.land (slug_hash req canon) 1048575) []).
    split; [done|]. split; [done|]. split; [apply length_suffix_loop|].
    change 1048575 with (Z.ones 20). rewrite Z.land_ones by lia.
    rewrite base32_value_suffix by (apply Z.mod_pos_bound; lia). f_equal.
    change (32 ^ Z.of_nat 4) with (2 ^ 20). by rewrite Zmod_mod.
  - intros Hn Hc Hp Hb Hd. unfold Slug, slug_hash. by rewrite Hn, Hc, Hp, Hb, Hd.
Qed.

End slug.

(** ** Kebab case *)
Section kebab.
Context `{UnicodeTables}.

(** No hyphen follows a hyphen; [prev] says whether one came just before. *)
Fixpoint no_double (prev : bool) (l : list ascii) : bool :=
  match l with
  | [] => true
  | c :: l => if decide (c = byte 45) then negb prev && no_double true l else no_double false l
  end.

Lemma zbyte_not_hyphen z : 0 ≤ z < 256 → z ≠ 45 → zbyte z ≠ byte 45.
Proof.
  intros Hz Hne Heq. apply (f_equal code) in Heq. unfold zbyte, byte, code in Heq.
  rewrite !nat_ascii_embedding in Heq by lia. lia.
Qed.

Lemma encode_rune_nil r : encode_rune r ≠ [].
Proof. unfold encode_rune. by repeat case_match. Qed.

Ltac high_byte := apply zbyte_not_hyphen; Z.to_euclidean_division_equations; lia.

Lemma encode_rune_no_hyphen r c : r ≠ 45 → c ∈ encode_rune r → c ≠ byte 45.
Proof.
  intros Hr. unfold encode_rune.
  destruct (Z.leb_spec 0 r), (Z.ltb_spec r 128); cbn [andb].
  1: intros ->%list_elem_of_singleton; apply zbyte_not_hyphen; lia.
  all: destruct (Z.leb_spec 128 r), (Z.ltb_spec r 2048); cbn [andb]; try lia.
  1: rewrite !elem_of_cons, elem_of_nil; intros [->|[->|[]]]; high_byte.
  all: destruct (Z.ltb_spec r 0), (Z.ltb_spec 1114111 r); try lia; cbn [orb].
  all: try (rewrite !elem_of_cons, elem_of_nil; intros [->|[->|[->|[]]]]; by vm_compute).
  destruct ((55296 <=? r) && (r <=? 57343)).
  { rewrite !elem_of_cons, elem_of_nil; intros [->|[->|[->|[]]]]; by vm_compute. }
  destruct (Z.ltb_spec r 65536).
  - rewrite !elem_of_cons, elem_of_nil; intros [->|[->|[->|[]]]]; high_byte.
  - rewrite !elem_of_cons, elem_of_nil; intros [->|[->|[->|[->|[]]]]]; high_byte.
Qed.

Lemma to_lower_not_hyphen r : is_letter r || is_digit r = true → to_lower r ≠ 45.
Proof.
  intros Hr%to_lower_alnum Heq. rewrite Heq in Hr.
  by rewrite is_letter_ascii, is_digit_ascii in Hr.
Qed.

Lemma no_double_app_clean l k prev :
  l ≠ [] → (∀ c, c ∈ l → c ≠ byte 45) → no_double prev (l ++ k) = no_double false k.
Proof.
  revert prev. induction l as [|c l IH]; intros prev Hne Hl; [done|]. cbn.
  rewrite decide_False by (apply Hl; by left). destruct l as [|d l]; [done|].
  apply IH; [done|]. intros; apply Hl; by right.
Qed.

Lemma no_double_kebab rs h : no_double h (kebab_loop rs h) = true.
Proof.
  revert h. induction rs as [|r rs IH]; intros h; [done|]. cbn [kebab_loop].
  destruct (is_letter r || is_digit r) eqn:Hr.
  - rewrite no_double_app_clean; [apply IH|apply encode_rune_nil|].
    intros c. apply encode_rune_no_hyphen. by apply to_lower_not_hyphen.
  - destruct h; [apply IH|]. cbn [no_double]. rewrite decide_True by done. apply IH.
Qed.

(** A final hyphen has no hyphen before it. *)
Lemma no_double_snoc l prev :
  no_double prev (l ++ [byte 45]) = true → no_double prev l = true ∧ last l ≠ Some (byte 45).
Proof.
  revert prev. induction l as [|c l IH]; intros prev; [done|]. cbn [app no_double].
  destruct (decide (c = byte 45)) as [->|Hc].
  - rewrite !andb_true_iff. intros [Hp Hl]. destruct l as [|d l]; [done|].
    apply IH in Hl as [Hl1 Hl2]. done.
  - intros [Hl1 Hl2]%IH. split; [done|]. destruct l; [|done]. cbn. congruence.
Qed.

Lemma rev_string_of_bytes l : rev_string (of_bytes l) = of_bytes (rev l).
Proof. unfold rev_string. by rewrite bytes_of_of. Qed.

(** [strings.TrimSuffix(s, "-")]. *)
Lemma trim_hyphen l :
  trim_suffix (of_bytes (l ++ [byte 45])) "-" = of_bytes l ∧
  (last l ≠ Some (byte 45) → trim_suffix (of_bytes l) "-" = of_bytes l).
Proof.
  unfold trim_suffix, strip_suffix. rewrite !rev_string_of_bytes, rev_app_distr. split.
  - cbn. rewrite decide_True by done. cbn. by rewrite rev_string_of_bytes, rev_involutive.
  - intros Hl. destruct l as [|c k _] using rev_ind; [done|].
    rewrite rev_app_distr. cbn. rewrite last_snoc in Hl.
    case_decide as Hc; [|done]. destruct Hl. f_equal. by rewrite <-Hc.
Qed.

(** For every name, Unicode or not, the kebab-cased preset segment neither
    starts nor ends with a hyphen and never holds two in a row. *)
Theorem kebab_case_clean (s : string) :
  no_double true (bytes_of (kebabCase s)) = true ∧
  last (bytes_of (kebabCase s)) ≠ Some (byte 45).
Proof.
  unfold kebabCase. set (l := kebab_loop _ true).
  assert (no_double true l = true) as Hl by apply no_double_kebab.
  destruct l as [|c k _] using rev_ind; [done|]. destruct (decide (c = byte 45)) as [->|Hc].
  - rewrite (proj1 (trim_hyphen _)), bytes_of_of. by apply no_double_snoc in Hl.
  - rewrite (proj2 (trim_hyphen _)), bytes_of_of by (rewrite last_snoc; congruence).
    split; [done|]. rewrite last_snoc. congruence.
Qed.

End kebab.

(** ** Witnesses *)
Section demo.
#[local] Existing Instance canonical_range.
#[local] Existing Instance ascii_tables.

Definition demo_param (n ty : string) (v : option json) : DescribeParameter :=
  {| dp_Name := n; dp_Type := ty; dp_Default := v; dp_Description := "" |}.
Definition demo_old : Describe := zero_Describe <| d_Parameters := [demo_param "risk" "string" None] |>.
Definition demo_new : Describe :=
  zero_Describe <| d_Parameters := [demo_param "lookback" "number" (Some (JNum (S754_zero false)));
                                    demo_param "risk" "string" None] |>.
Definition demo_params : gmap string json := {["risk" := JStr "low"]}.

Definition demo_presets : Describe :=
  zero_Describe <| d_Presets := [{| ps_Name := "High Risk"; ps_Parameters := {["risk" := JStr "high"]} |};
                                 {| ps_Name := "Low Risk"; ps_Parameters := demo_params |}] |>.
Definition demo_unmarshal (s : string) : result json := Ok (JStr s).

Lemma preset_match_first_witness :
  MatchPresetName (λ _, "0") demo_unmarshal demo_params demo_presets = Some "Low Risk" ∧
  slug_preset (λ _, "0") demo_unmarshal demo_params demo_presets = "low-risk".
Proof.
  assert (∀ v s, marshal (λ _, "0") v = Some s → ∃ w, demo_unmarshal s = Ok w ∧ nan_free w = true) as Hu.
  { intros v s _. by exists (JStr s). }
  pose proof (preset_match_first (λ _, "0") demo_unmarshal Hu demo_params demo_presets) as [_ Hm].
  assert (MatchPresetName (λ _, "0") demo_unmarshal demo_params demo_presets = Some "Low Risk") as Hp
    by (vm_compute; reflexivity).
  split; [exact Hp|]. rewrite Hp in Hm. destruct Hm as (? & ? & ? & _ & _ & _ & _ & ->).
  vm_compute. reflexivity.
Defined.

Definition demo_request : CreateRequest :=
  {| r_Name := "Mine"; r_StrategyCode := "adm"; r_StrategyVer := "v1"; r_StrategyCloneURL := "";
     r_Parameters := demo_params; r_Benchmark := "SPY"; r_StartDate := None; r_EndDate := None;
     r_RunRetention := None |}.

Lemma slug_shape_witness :
  Slug (λ _, "0") demo_unmarshal (demo_request <| r_StrategyVer := "v2" |>) demo_presets =
  Slug (λ _, "0") demo_unmarshal demo_request demo_presets.
Proof.
  apply (slug_shape (λ _, "0") demo_unmarshal demo_request (demo_request <| r_StrategyVer := "v2" |>) demo_presets);
    reflexivity.
Defined.
End demo.
