(* ===== verification/Backtest.v ===== *)
(** The backtest orchestrator: CLI arguments, configuration, the run of one
    backtest and the host runner (src/backtest/args.go, config.go, run.go,
    host.go, runner.go).  The orchestrator is a program of calls ([Prog.v]) on
    the stores, the filesystem, the runner, the progress hub and the notifier. *)
From S2P Require Import Prelude GoStrings GoTime Utf8 Types Json Path Prog.
From Stdlib Require Import Ascii.

(** ** src/backtest/args.go *)
Section args.
Context `{MapRange, UnicodeTables}.
(** [fmt.Sprintf("%v", f)] of a double. *)
Context (format_v : float64 → string).

(** [toKebab]. *)
Definition toKebab (s : string) : string :=
  of_bytes (flat_map (λ ir : nat * rune,
    let '(i, r) := ir in
    if r =? 95 then [byte 45]
    else if is_upper r then (if (0 <? i)%nat then [byte 45] else []) ++ encode_rune (to_lower r)
    else encode_rune r) (range_string s)).

(** [fmt.Sprintf("%v", v)]; maps print with their keys sorted. *)
Fixpoint sprintv (v : json) : string :=
  match v with
  | JNull => "<nil>"
  | JBool b => if b then "true" else "false"
  | JNum f => format_v f
  | JStr s => s
  | JArr l => "[" +:+ join (map sprintv l) " " +:+ "]"
  | JObj m => "map[" +:+ join (map (λ kv : string * string, kv.1 +:+ ":" +:+ kv.2)
                (sorted_members (sprintv <$> m))) " " +:+ "]"
  end.

(** [stringify]. *)
Fixpoint stringify (v : json) : string :=
  match v with
  | JStr s => s
  | JArr l => join (map stringify l) ","
  | v => sprintv v
  end.

(** [BuildArgs]. *)
Definition BuildArgs (params : gmap string json) (benchmark : string)
    (startDate endDate : option instant) : list string :=
  let keys := sort_strings (range_map params).*1 in
  flat_map (λ k, ["--" +:+ toKebab k; stringify (default JNull (params !! k))]) keys
  ++ match startDate with Some t => ["--start"; format_date t] | None => [] end
  ++ match endDate with Some t => ["--end"; format_date t] | None => [] end
  ++ (if bool_decide (benchmark = "") then [] else ["--benchmark"; benchmark]).

End args.

(** ** src/backtest/config.go *)
Section config.

Record Config := {
  SnapshotsDir : string; MaxConcurrency : Z; Timeout : Z; RunnerMode : string; OrphanGCInterval : Z;
}.

(** [ApplyDefaults] on a machine with [numCPU] processors. *)
Definition ApplyDefaults (numCPU : Z) (c : Config) : Config :=
  {| SnapshotsDir := SnapshotsDir c;
     MaxConcurrency := if MaxConcurrency c =? 0 then numCPU else MaxConcurrency c;
     Timeout := if Timeout c =? 0 then 15 * 60 * nsPerSecond else Timeout c;
     RunnerMode := RunnerMode c;
     OrphanGCInterval := if OrphanGCInterval c =? 0 then 7 * 24 * 3600 * nsPerSecond
                         else OrphanGCInterval c |}.

Definition ErrSnapshotsDirRequired :=
  sentinel_err backtest_ErrSnapshotsDirRequired "backtest: snapshots_dir is required".
Definition ErrInvalidConcurrency :=
  sentinel_err backtest_ErrInvalidConcurrency "backtest: max_concurrency must be >= 0".
Definition ErrUnsupportedRunnerMode := sentinel_err backtest_ErrUnsupportedRunnerMode
  ("backtest: runner.mode must be " +:+ quote +:+ "host" +:+ quote +:+ " or " +:+ quote +:+ "docker"
   +:+ quote +:+ " (kubernetes lands in plan 9)").

(** [Config.Validate]. *)
Definition Validate (c : Config) : result unit :=
  if bool_decide (SnapshotsDir c = "") then Err ErrSnapshotsDirRequired
  else if MaxConcurrency c <? 0 then Err ErrInvalidConcurrency
  else if bool_decide (RunnerMode c ∈ ["host"; "docker"]) then Ok ()
  else Err ErrUnsupportedRunnerMode.

End config.

(** ** src/backtest/errors.go *)
Definition bt_ErrRunnerFailed := sentinel_err backtest_ErrRunnerFailed "backtest: runner failed".
Definition bt_ErrTimedOut := sentinel_err backtest_ErrTimedOut "backtest: runner timed out".
Definition bt_ErrAlreadyRunning := sentinel_err backtest_ErrAlreadyRunning "backtest: portfolio already running".
Definition bt_ErrQueueFull := sentinel_err backtest_ErrQueueFull "backtest: dispatcher queue full".
Definition bt_ErrStrategyNotInstalled :=
  sentinel_err backtest_ErrStrategyNotInstalled "backtest: strategy binary not installed".
Definition bt_ErrArtifactKindMismatch :=
  sentinel_err backtest_ErrArtifactKindMismatch "backtest: artifact kind mismatch".
Definition bt_ErrNonCanonicalSnapshotPath :=
  sentinel_err backtest_ErrNonCanonicalSnapshotPath "fsync: refusing non-canonical tmp path".

(** ** src/backtest/runner.go *)
Inductive ArtifactKind := ArtifactBinary | ArtifactImage.
#[export] Instance ArtifactKind_eq_dec : EqDecision ArtifactKind.
Proof. solve_decision. Defined.

(** [RunRequest]; the progress writer is present or absent. *)
Record RunRequest := {
  rr_RunID : uuid; rr_Artifact : string; rr_ArtifactKind : ArtifactKind; rr_Args : list string;
  rr_OutPath : string; rr_Timeout : Z; rr_ProgressWriter : bool;
}.

(** [backtest.PortfolioRow]. *)
Record PortfolioRow := {
  pr_ID : uuid; pr_StrategyCode : string; pr_StrategyVer : string; pr_StrategyCloneURL : string;
  pr_Parameters : gmap string json; pr_Benchmark : string; pr_Status : string;
  pr_SnapshotPath : option string; pr_StartDate : option instant; pr_EndDate : option instant;
}.

(** [snapshot.Kpis] / [SetKpis]. *)
Record SetKpis := {
  k_CurrentValue : float64; k_YtdReturn : option float64; k_MaxDrawdown : option float64;
  k_Sharpe : option float64; k_Cagr : option float64; k_InceptionDate : instant;
}.

(** ** src/backtest/run.go *)

(** [durationMs] of a duration in nanoseconds. *)
Definition MaxInt32 : Z := 2147483647.
Definition durationMs (d : Z) : Z :=
  let ms := Z.quot d 1000000 in
  if ms <? 0 then 0 else if MaxInt32 <? ms then MaxInt32 else ms.

(** The calls of the orchestrator. *)
Inductive call : Type → Type :=
  | Now : call instant
  | GetByID (portfolioID : uuid) : call (result PortfolioRow)
  | UpdateRunFailed (runID : uuid) (errMsg : string) (durationMs : Z) : call (result unit)
  | MarkRunningTx (portfolioID runID : uuid) : call (result unit)
  | MarkReadyTx (portfolioID runID : uuid) (snapshotPath : string) (kp : SetKpis) (durationMs : Z) :
      call (result unit)
  | MarkFailedTx (portfolioID runID : uuid) (errMsg : string) (durationMs : Z) : call (result unit)
  | PruneRuns (portfolioID : uuid) : call (result (list string))
  | Resolve (cloneURL ver : string) : call (result string)
  | Cleanup : call unit
  | MkdirAll (path : string) : call (result unit)
  | Remove (path : string) : call (result unit)
  | RunnerRun (req : RunRequest) : call (result unit)
  | OpenFile (path : string) : call (result unit)
  | Sync (path : string) : call (result unit)
  | CloseFile (path : string) : call (result unit)
  | Rename (from to : string) : call (result unit)
  | OpenSnapshot (path : string) : call (result unit)
  | Kpis (path : string) : call (result SetKpis)
  | CloseSnapshot (path : string) : call (result unit)
  | HubComplete (runID : uuid) (status errMsg : string) : call unit
  | NotifyRunComplete (portfolioID runID : uuid) (success : bool) : call (result unit).

Record orchestrator := {
  o_cfg : Config;
  o_artifactKind : ArtifactKind;
  o_notifier : bool;
  o_hub : bool;
}.

Section orchestrator_run.
Context `{MapRange, UnicodeTables}.
Context (format_v : float64 → string) (uuid_String : uuid → string).
Context (quote_string : string → string).
Context (o : orchestrator).

Notation M := (prog call).

(** [fsyncAndRename]. *)
Definition fsyncAndRename (tmp final : string) : M (result unit) :=
  let cleaned := Clean tmp in
  if bool_decide (cleaned ≠ tmp) then
    Ret (Err (wrap_post bt_ErrNonCanonicalSnapshotPath (": " +:+ quote_string tmp)))
  else
    f ← do (OpenFile cleaned);
    match f with
    | Err e => Ret (Err (wrap "open tmp: " e))
    | Ok _ =>
      s ← do (Sync cleaned);
      match s with
      | Err e => _ ← do (CloseFile cleaned); Ret (Err (wrap "fsync tmp: " e))
      | Ok _ =>
        c ← do (CloseFile cleaned);
        match c with
        | Err e => Ret (Err (wrap "close tmp: " e))
        | Ok _ =>
          r ← do (Rename tmp final);
          match r with
          | Err e => Ret (Err (wrap "rename: " e))
          | Ok _ => Ret (Ok ())
          end
        end
      end
    end.

(** [readKpisFromSnapshot]. *)
Definition readKpisFromSnapshot (path : string) : M (result SetKpis) :=
  r ← do (OpenSnapshot path);
  match r with
  | Err e => Ret (Err (wrap "open snapshot: " e))
  | Ok _ =>
    kp ← do (Kpis path);
    c ← do (CloseSnapshot path);
    let kpisErr := match kp, c with
                   | Err e, _ => Some e
                   | Ok _, Err e => Some (wrap "close snapshot: " e)
                   | Ok _, Ok _ => None
                   end in
    match kp, kpisErr with
    | _, Some e => Ret (Err (wrap "read kpis: " e))
    | r, None => Ret r
    end
  end.

(** The loop of [prune] over the returned paths. *)
Fixpoint remove_all (paths : list string) : M unit :=
  match paths with
  | [] => Ret ()
  | p :: paths =>
    if bool_decide (p = "") then remove_all paths
    else _ ← do (Remove p); remove_all paths
  end.

(** [prune]. *)
Definition prune (portfolioID : uuid) : M unit :=
  r ← do (PruneRuns portfolioID);
  match r with Err _ => Ret () | Ok paths => remove_all paths end.

(** The error text [fail] records: [msg[:2048]]. *)
Definition fail_msg (err : goerror) : string :=
  if 2048 <? len (err_text err) then slice_to (err_text err) 2048 else err_text err.

(** [time.Since(started)]. *)
Definition since (started : instant) : M Z := t ← do Now; Ret (t - started).

Definition hub_complete (runID : uuid) (status msg : string) : M unit :=
  if o_hub o then do (HubComplete runID status msg) else Ret ().

Definition notify (portfolioID runID : uuid) (scheduled success : bool) : M unit :=
  if o_notifier o && scheduled then _ ← do (NotifyRunComplete portfolioID runID success); Ret ()
  else Ret ().

(** [fail]. *)
Definition fail (portfolioID runID : uuid) (started : instant) (scheduled : bool) (err : goerror) :
    M (option goerror) :=
  let msg := fail_msg err in
  d ← since started;
  _ ← do (MarkFailedTx portfolioID runID msg (durationMs d));
  _ ← prune portfolioID;
  _ ← hub_complete runID "failed" msg;
  _ ← notify portfolioID runID scheduled false;
  Ret (Some (if errors_is err context_DeadlineExceeded || errors_is err context_Canceled
             then wrap_post bt_ErrTimedOut (": " +:+ msg) else err)).

(** The body of [Run] once the artifact is resolved, before the deferred cleanup. *)
Definition run_resolved (portfolioID runID : uuid) (started : instant) (scheduled : bool)
    (row : PortfolioRow) (artifact : string) : M (option goerror) :=
  let failed err := fail portfolioID runID started scheduled err in
  let portfolioDir := Join [SnapshotsDir (o_cfg o); uuid_String portfolioID] in
  m ← do (MkdirAll portfolioDir);
  match m with
  | Err e => failed (wrap "mkdir snapshots subdir: " e)
  | Ok _ =>
    let tmp := Join [portfolioDir; uuid_String runID +:+ ".sqlite.tmp"] in
    let final := Join [portfolioDir; uuid_String runID +:+ ".sqlite"] in
    _ ← do (Remove tmp);
    r ← do (RunnerRun {|
      rr_RunID := runID; rr_Artifact := artifact; rr_ArtifactKind := o_artifactKind o;
      rr_Args := BuildArgs format_v (pr_Parameters row) (pr_Benchmark row) (pr_StartDate row) (pr_EndDate row);
      rr_OutPath := tmp; rr_Timeout := Timeout (o_cfg o); rr_ProgressWriter := o_hub o |});
    match r with
    | Err e => failed e
    | Ok _ =>
      f ← fsyncAndRename tmp final;
      match f with
      | Err e => failed e
      | Ok _ =>
        kp ← readKpisFromSnapshot final;
        match kp with
        | Err e => failed e
        | Ok kp =>
          d ← since started;
          w ← do (MarkReadyTx portfolioID runID final kp (durationMs d));
          match w with
          | Err e => failed (wrap "mark ready: " e)
          | Ok _ =>
            _ ← prune portfolioID;
            _ ← hub_complete runID "success" "";
            _ ← notify portfolioID runID scheduled true;
            Ret None
          end
        end
      end
    end
  end.

(** [Run]; [None] is the nil error. *)
Definition Run (portfolioID runID : uuid) (scheduled : bool) : M (option goerror) :=
  started ← do Now;
  let failed err := fail portfolioID runID started scheduled err in
  row ← do (GetByID portfolioID);
  match row with
  | Err e => failed (wrap "load portfolio: " e)
  | Ok row =>
    if bool_decide (pr_Status row = "running") then
      d ← since started;
      _ ← do (UpdateRunFailed runID "portfolio already running" (durationMs d));
      Ret (Some bt_ErrAlreadyRunning)
    else
      m ← do (MarkRunningTx portfolioID runID);
      match m with
      | Err e => failed (wrap "mark running: " e)
      | Ok _ =>
        a ← do (Resolve (pr_StrategyCloneURL row) (pr_StrategyVer row));
        match a with
        | Err e => failed (wrap2 bt_ErrStrategyNotInstalled e)
        | Ok artifact =>
          r ← run_resolved portfolioID runID started scheduled row artifact;
          _ ← do Cleanup;
          Ret r
        end
      end
  end.

End orchestrator_run.

(** ** src/backtest/host.go *)
Section host.

(** [firstNBytes]. *)
Definition firstNBytes (s : string) (n : nat) : string :=
  if len s <=? Z.of_nat n then s else slice_to s n.

(** [logWriter]: the loop of [Write] takes the complete lines off the buffer and
    logs them; each iteration removes a byte, so the buffer's length is fuel
    enough.  Nothing flushes what is left when the process ends. *)
Fixpoint log_loop (fuel : nat) (buf : string) : list string * string :=
  match fuel with
  | O => ([], buf)
  | S fuel =>
    match index_byte buf (byte 10) with
    | None => ([], buf)
    | Some idx =>
      let line := slice_to buf idx in
      let '(lines, rest) := log_loop fuel (slice_from buf (idx + 1)) in (line :: lines, rest)
    end
  end.
(** The lines logged, the new buffer, and the count returned. *)
Definition logWriter_Write (pending p : string) : list string * string * Z :=
  let buf := pending +:+ p in (log_loop (String.length buf) buf, len p).

(** What is observed of the child process: [cmd.Run]'s error, [timeoutCtx.Err()],
    [ctx.Err()] and the captured standard error. *)
Record process_result := {
  proc_runErr : option goerror; proc_timeoutCtxErr : option goerror; proc_ctxErr : option goerror;
  proc_stderr : string;
}.

Definition err_is (e : option goerror) (s : sentinel) : bool :=
  match e with Some e => errors_is e s | None => false end.

(** The command line [HostRunner.Run] executes. *)
Definition host_args (req : RunRequest) : list string :=
  ["backtest"; "--output"; rr_OutPath req]
  ++ (if rr_ProgressWriter req then ["--json"] else []) ++ rr_Args req.

Definition kind_number (k : ArtifactKind) : Z := match k with ArtifactBinary => 0 | ArtifactImage => 1 end.

(** [HostRunner.Run]: executes the artifact, then classifies the outcome. *)
Definition HostRunner_Run {W} (exec : string → list string → Z → W → W * process_result)
    (req : RunRequest) (w : W) : W * result unit :=
  if bool_decide (rr_ArtifactKind req ≠ ArtifactBinary) then
    (w, Err (wrap_post bt_ErrArtifactKindMismatch
      (": HostRunner requires ArtifactBinary, got " +:+ itoa (kind_number (rr_ArtifactKind req)))))
  else
    let '(w, p) := exec (rr_Artifact req) (host_args req) (rr_Timeout req) w in
    if err_is (proc_timeoutCtxErr p) context_DeadlineExceeded || err_is (proc_ctxErr p) context_Canceled then
      (w, Err (wrap_post bt_ErrTimedOut (": " +:+ firstNBytes (proc_stderr p) 2048)))
    else match proc_runErr p with
         | Some e => (w, Err (wrap_post bt_ErrRunnerFailed
             (": " +:+ err_text e +:+ ": " +:+ firstNBytes (proc_stderr p) 2048)))
         | None => (w, Ok ())
         end.

End host.
