(* ===== verification/BacktestLaws.v ===== *)
(** What a backtest run does under every behaviour of its environment, the CLI
    arguments it passes, and the host runner's classification of outcomes. *)
From S2P Require Import Prelude GoStrings GoTime Utf8 Types Json Path Prog Backtest.
From S2P Require Progress.
From Stdlib Require Import Ascii.

(** ** Arguments *)
Section args_laws.
Context `{UnicodeTables}.
Context (format_v : float64 → string).

(** The CLI arguments do not depend on map iteration order: one flag and
    value per parameter, by ascending key, then the start, the end and the
    benchmark when they are set. *)
Theorem build_args_canonical (r1 : MapRange) (params : gmap string json) (benchmark : string)
    (startDate endDate : option instant) :
  let keys := sort_strings (elements (dom params)) in
  @BuildArgs r1 _ format_v params benchmark startDate endDate =
    flat_map (λ k, ["--" +:+ toKebab k; stringify format_v (default JNull (params !! k))]) keys
    ++ (match startDate with Some t => ["--start"; format_date t] | None => [] end
    ++ match endDate with Some t => ["--end"; format_date t] | None => [] end
    ++ if bool_decide (benchmark = "") then [] else ["--benchmark"; benchmark]) ∧
  Sorted string_le keys ∧ NoDup keys ∧ (∀ k, k ∈ keys ↔ is_Some (params !! k)).
Proof.
  cbv zeta. assert (NoDup (sort_strings (elements (dom params)))) as Hnd
    by (rewrite sort_strings_perm; apply NoDup_elements).
  split; [|split; [apply sort_strings_sorted|split; [done|]]].
  - unfold BuildArgs. rewrite (sort_strings_ext (range_map params).*1 (elements (dom params))); [done|].
    apply NoDup_Permutation; [apply NoDup_range_keys|apply NoDup_elements|].
    intros k. by rewrite elem_of_range_keys, elem_of_elements, elem_of_dom.
  - intros k. by rewrite sort_strings_perm, elem_of_elements, elem_of_dom.
Qed.

End args_laws.

(** ** Durations and messages *)
Lemma durationMs_bounds d : 0 ≤ durationMs d ≤ MaxInt32.
Proof. unfold durationMs, MaxInt32. cbv zeta. repeat case_match; lia. Qed.

Lemma fail_msg_bound e : len (fail_msg e) ≤ 2048.
Proof.
  unfold fail_msg. destruct (Z.ltb_spec 2048 (len (err_text e))); [|lia].
  unfold len, slice_to. rewrite <-length_bytes_of, bytes_of_of, length_take. lia.
Qed.

(** ** Observations of a run *)
Section run_laws.
Context `{MapRange, UnicodeTables}.
Context (format_v : float64 → string) (uuid_String : uuid → string) (quote_string : string → string).
Context (o : orchestrator).

(** The calls that matter to the rest of the program, with their outcome. *)
Inductive obs :=
  | ORefused (runID : uuid) (msg : string)
  | ORunning (pid rid : uuid) (ok : bool)
  | OResolve (ok : bool)
  | ORunner (out : string) (ok : bool)
  | OReady (pid rid : uuid) (path : string) (ok : bool)
  | OFailed (pid rid : uuid) (msg : string)
  | OPrune (pid : uuid)
  | OComplete (rid : uuid) (status msg : string)
  | ONotify (pid rid : uuid) (success : bool)
  | OCleanup.

Definition observe (e : event Backtest.call) : option obs :=
  match e with
  | Event _ c a =>
    match c in Backtest.call A return A → option obs with
    | UpdateRunFailed r m _ => λ _, Some (ORefused r m)
    | MarkRunningTx p r => λ a, Some (ORunning p r (is_ok a))
    | Resolve _ _ => λ a, Some (OResolve (is_ok a))
    | RunnerRun q => λ a, Some (ORunner (rr_OutPath q) (is_ok a))
    | MarkReadyTx p r path _ _ => λ a, Some (OReady p r path (is_ok a))
    | MarkFailedTx p r m _ => λ _, Some (OFailed p r m)
    | Backtest.PruneRuns p => λ _, Some (OPrune p)
    | HubComplete r s m => λ _, Some (OComplete r s m)
    | NotifyRunComplete p r b => λ _, Some (ONotify p r b)
    | Cleanup => λ _, Some OCleanup
    | _ => λ _, None
    end a
  end.

Definition observed (tr : list (event Backtest.call)) : list obs := omap observe tr.

Lemma observed_app tr tr' : observed (tr ++ tr') = observed tr ++ observed tr'.
Proof. apply omap_app. Qed.
Lemma observed_cons e tr :
  observed (e :: tr) = match observe e with Some x => x :: observed tr | None => observed tr end.
Proof. done. Qed.

Definition completion (rid : uuid) (status msg : string) : list obs :=
  if o_hub o then [OComplete rid status msg] else [].
Definition notification (pid rid : uuid) (scheduled success : bool) : list obs :=
  if o_notifier o && scheduled then [ONotify pid rid success] else [].

(** What recording a failure shows. *)
Definition failure (pid rid : uuid) (scheduled : bool) (err : goerror) : list obs :=
  [OFailed pid rid (fail_msg err); OPrune pid]
  ++ completion rid "failed" (fail_msg err) ++ notification pid rid scheduled false.

Definition fail_result (err : goerror) : option goerror :=
  Some (if errors_is err context_DeadlineExceeded || errors_is err context_Canceled
        then wrap_post bt_ErrTimedOut (": " +:+ fail_msg err) else err).

Ltac inv_traces :=
  unfold do, mbind, prog_bind in *; repeat (cbn [pbind] in *; match goal with
  | H : traces (Call _ _) _ _ |- _ => apply traces_Call in H as (? & ? & -> & H)
  | H : traces (Ret _) _ _ |- _ => apply traces_Ret in H as [-> ->]
  | H : traces (pbind _ _) _ _ |- _ => apply traces_pbind in H as (? & ? & ? & -> & ? & H)
  end); cbn [pbind] in *.

Lemma remove_all_traces paths tr r : traces (remove_all paths) tr r → observed tr = [].
Proof.
  revert tr. induction paths as [|p paths IH]; intros tr Ht; cbn in Ht; [by inv_traces|].
  case_bool_decide; [auto|]. inv_traces. rewrite observed_cons. cbn. auto.
Qed.

Lemma prune_traces pid tr r : traces (prune pid) tr r → observed tr = [OPrune pid].
Proof.
  unfold prune. intros Ht. inv_traces. rewrite observed_cons. cbn. destruct x as [paths|e].
  - apply remove_all_traces in Ht. by rewrite Ht.
  - by inv_traces.
Qed.

Lemma hub_traces rid s m tr r : traces (hub_complete o rid s m) tr r → observed tr = completion rid s m.
Proof. unfold hub_complete, completion. destruct (o_hub o); intros Ht; by inv_traces. Qed.

Lemma notify_traces pid rid sch b tr r :
  traces (notify o pid rid sch b) tr r → observed tr = notification pid rid sch b.
Proof. unfold notify, notification. destruct (o_notifier o && sch); intros Ht; by inv_traces. Qed.

Ltac run_traces :=
  repeat (inv_traces; match goal with
  | H : traces (match ?x with _ => _ end) _ _ |- _ => destruct x eqn:?
  end); inv_traces.

Ltac obs_traces :=
  repeat match goal with
  | H : traces (prune _) _ _ |- _ => apply prune_traces in H
  | H : traces (hub_complete _ _ _ _) _ _ |- _ => apply hub_traces in H
  | H : traces (notify _ _ _ _ _) _ _ |- _ => apply notify_traces in H
  end;
  repeat (rewrite ?observed_cons, ?observed_app; cbn [observe]);
  repeat match goal with H : observed _ = _ |- _ => rewrite H; clear H end.

Lemma fail_traces pid rid st sch err tr r :
  traces (fail o pid rid st sch err) tr r →
  observed tr = failure pid rid sch err ∧ r = fail_result err.
Proof.
  unfold fail, since. intros Ht. inv_traces. split; [|done]. obs_traces. cbn.
  by rewrite app_nil_r.
Qed.

Lemma fsync_traces tmp final tr r :
  traces (fsyncAndRename quote_string tmp final) tr r → observed tr = [].
Proof. unfold fsyncAndRename. intros Ht. by run_traces. Qed.

Lemma kpis_traces path tr r : traces (readKpisFromSnapshot path) tr r → observed tr = [].
Proof. unfold readKpisFromSnapshot. intros Ht. by run_traces. Qed.

Definition dir_of (pid : uuid) : string := Join [SnapshotsDir (o_cfg o); uuid_String pid].
Definition tmp_of (pid rid : uuid) : string := Join [dir_of pid; uuid_String rid +:+ ".sqlite.tmp"].
Definition final_of (pid rid : uuid) : string := Join [dir_of pid; uuid_String rid +:+ ".sqlite"].

(** The protocol of a run: what the stores, the runner, the hub and the notifier
    see of it, and the error it returns. *)
Inductive protocol (pid rid : uuid) (scheduled : bool) : list obs → option goerror → Prop :=
  | refused : protocol pid rid scheduled [ORefused rid "portfolio already running"] (Some bt_ErrAlreadyRunning)
  | failed_early err before :
      before ∈ [[]; [ORunning pid rid false]; [ORunning pid rid true; OResolve false]] →
      protocol pid rid scheduled (before ++ failure pid rid scheduled err) (fail_result err)
  | failed_late err before :
      before ∈ [[]; [ORunner (tmp_of pid rid) false]; [ORunner (tmp_of pid rid) true];
                [ORunner (tmp_of pid rid) true; OReady pid rid (final_of pid rid) false]] →
      protocol pid rid scheduled
        ([ORunning pid rid true; OResolve true] ++ before ++ failure pid rid scheduled err ++ [OCleanup])
        (fail_result err)
  | succeeded :
      protocol pid rid scheduled
        ([ORunning pid rid true; OResolve true; ORunner (tmp_of pid rid) true;
          OReady pid rid (final_of pid rid) true; OPrune pid]
         ++ completion rid "success" "" ++ notification pid rid scheduled true ++ [OCleanup]) None.

(** [run_resolved] by itself. *)
Lemma run_resolved_traces pid rid st sch row art tr r :
  traces (run_resolved format_v uuid_String quote_string o pid rid st sch row art) tr r →
  (∃ err before,
     before ∈ [[]; [ORunner (tmp_of pid rid) false]; [ORunner (tmp_of pid rid) true];
               [ORunner (tmp_of pid rid) true; OReady pid rid (final_of pid rid) false]] ∧
     observed tr = before ++ failure pid rid sch err ∧ r = fail_result err) ∨
  (observed tr = [ORunner (tmp_of pid rid) true; OReady pid rid (final_of pid rid) true; OPrune pid]
     ++ completion rid "success" "" ++ notification pid rid sch true ∧ r = None).
Proof.
  unfold run_resolved, since. intros Ht. run_traces.
  all: repeat match goal with
  | H : traces (fail _ _ _ _ _ ?e) _ _ |- _ => apply fail_traces in H as [? ->]; left; exists e
  | H : traces (fsyncAndRename _ _ _) _ _ |- _ => apply fsync_traces in H
  | H : traces (readKpisFromSnapshot _) _ _ |- _ => apply kpis_traces in H
  end; try (right; obs_traces; by rewrite ?app_nil_r).
  all: obs_traces; cbn [rr_OutPath is_ok app].
  all: first [exists []; split; [by left|split; [done|done]]
    | exists [ORunner (tmp_of pid rid) false]; split; [right; by left|split; [done|done]]
    | exists [ORunner (tmp_of pid rid) true]; split; [do 2 right; by left|split; [done|done]]
    | exists [ORunner (tmp_of pid rid) true; OReady pid rid (final_of pid rid) false];
      split; [do 3 right; by left|split; [done|done]]].
Qed.

(** C37: under every behaviour of the stores, the filesystem, the runner, the
    hub and the notifier, a run follows the protocol: it either refuses a
    running portfolio, or records one failure (after the artifact was released
    or before it was taken), or records success last; it prunes once, completes
    the progress stream once, notifies only scheduled runs, releases what it
    resolved, and turns a cancelled context into [ErrTimedOut]. *)
Theorem run_protocol (pid rid : uuid) (scheduled : bool) (tr : list (event Backtest.call)) (r : option goerror) :
  traces (Run format_v uuid_String quote_string o pid rid scheduled) tr r →
  protocol pid rid scheduled (observed tr) r.
Proof.
  unfold Run, since. intros Ht. run_traces.
  all: repeat match goal with
  | H : traces (fail _ _ _ _ _ _) _ _ |- _ => apply fail_traces in H as [? ->]
  | H : traces (run_resolved _ _ _ _ _ _ _ _ _ _) _ _ |- _ => apply run_resolved_traces in H
  end; obs_traces; cbn [is_ok].
  - apply refused.
  - match goal with H : _ ∨ _ |- _ => destruct H as [(err & before & Hb & Hobs & ->)|[Hobs ->]] end.
    + rewrite Hobs. cbn. rewrite <-app_assoc. by apply (failed_late _ _ _ err before).
    + rewrite Hobs. cbn. rewrite <-!app_assoc. apply succeeded.
  - apply (failed_early _ _ _ _ [_; _]). do 2 right. by left.
  - apply (failed_early _ _ _ _ [_]). right. by left.
  - apply (failed_early _ _ _ _ []). by left.
Qed.

End run_laws.

(** ** Snapshot paths *)
Section paths.
Context (uuid_String : uuid → string) (quote_string : string → string) (o : orchestrator).

(** [uuid.UUID.String] as documented: distinct for distinct 128-bit values, at
    least 36 characters, none of them a slash. *)
Hypothesis uuid_inj : ∀ u v, (u < 2 ^ 128)%N → (v < 2 ^ 128)%N → uuid_String u = uuid_String v → u = v.
Hypothesis uuid_len : ∀ u, (36 ≤ String.length (uuid_String u))%nat.
Hypothesis uuid_no_slash : ∀ u, no_slash (uuid_String u).

Lemma proper_uuid u suffix :
  no_slash suffix → proper (uuid_String u +:+ suffix) ∧ uuid_String u +:+ suffix ≠ "..".
Proof.
  intros Hs. assert (36 ≤ String.length (uuid_String u +:+ suffix))%nat as Hl
    by (rewrite string_length_app; pose proof (uuid_len u); lia).
  split; [split; [|split]|].
  - intros Heq. rewrite Heq in Hl. cbn in Hl. lia.
  - intros Heq. rewrite Heq in Hl. cbn in Hl. lia.
  - unfold no_slash. rewrite bytes_of_app, elem_of_app. intros [Hu|?]; [by apply uuid_no_slash in Hu|done].
  - intros Heq. rewrite Heq in Hl. cbn in Hl. lia.
Qed.

Lemma string_app_inj_r (s t u : string) : s +:+ u = t +:+ u → s = t.
Proof.
  intros Heq. apply bytes_of_inj. apply (f_equal bytes_of) in Heq. rewrite !bytes_of_app in Heq.
  by apply app_inv_tail in Heq.
Qed.

Lemma snapshot_path p r suffix :
  SnapshotsDir (o_cfg o) ≠ "" → no_slash suffix →
  let S := SnapshotsDir (o_cfg o) in
  let base := clean_elems (is_rooted S) [] (split_byte S slash) in
  Join [dir_of uuid_String o p; uuid_String r +:+ suffix]
    = render (is_rooted S) (base ++ [uuid_String p; uuid_String r +:+ suffix]) ∧
  clean_list (is_rooted S) (base ++ [uuid_String p; uuid_String r +:+ suffix]).
Proof.
  intros Hd Hs. cbv zeta. destruct (proper_uuid p "") as [Hp Hpd]; [by intros ?%not_elem_of_nil|].
  rewrite string_app_nil_r in Hp, Hpd. destruct (proper_uuid r suffix Hs) as [Hr Hrd].
  by apply Join_two.
Qed.

Lemma no_slash_dec s : bool_decide (slash ∈ bytes_of s) = false → no_slash s.
Proof. by rewrite bool_decide_eq_false. Qed.

(** Snapshot paths are canonical, so the traversal guard of
    [fsyncAndRename] never fires on them; a temporary path is never a final
    one, and different runs have different final paths. *)
Theorem snapshot_paths_unique (p r p' r' : uuid) :
  SnapshotsDir (o_cfg o) ≠ "" →
  (p < 2 ^ 128)%N → (r < 2 ^ 128)%N → (p' < 2 ^ 128)%N → (r' < 2 ^ 128)%N →
  (∀ tr res, traces (fsyncAndRename quote_string (tmp_of uuid_String o p r) (final_of uuid_String o p r)) tr res →
     ∃ a tr', tr = Event _ (OpenFile (tmp_of uuid_String o p r)) a :: tr') ∧
  tmp_of uuid_String o p r ≠ final_of uuid_String o p' r' ∧
  (final_of uuid_String o p r = final_of uuid_String o p' r' → p = p' ∧ r = r').
Proof.
  intros Hd Hp Hr Hp' Hr'. unfold tmp_of, final_of.
  assert (no_slash ".sqlite.tmp" ∧ no_slash ".sqlite") as [Ht Hf]
    by (split; apply no_slash_dec; vm_compute; reflexivity).
  destruct (snapshot_path p r _ Hd Ht) as [Htmp Htmpc], (snapshot_path p r _ Hd Hf) as [Hfin Hfinc],
    (snapshot_path p' r' _ Hd Hf) as [Hfin' Hfinc'].
  split; [|split].
  - intros tr res Htr. unfold fsyncAndRename in Htr.
    rewrite bool_decide_eq_false_2 in Htr.
    2:{ intros Hne. apply Hne. apply Clean_Join. rewrite Htmp. by apply render_ne. }
    unfold do, mbind, prog_bind in Htr. cbn [pbind] in Htr.
    rewrite Clean_Join in Htr by (rewrite Htmp; by apply render_ne).
    apply traces_Call in Htr as (a & tr' & -> & _). eauto.
  - rewrite Htmp, Hfin'. intros Heq. apply render_inj in Heq; [|done|done].
    apply app_inv_head in Heq. injection Heq as _ Heq. apply (f_equal bytes_of) in Heq.
    rewrite !bytes_of_app in Heq. apply (f_equal last) in Heq. by rewrite !last_app in Heq.
  - rewrite Hfin, Hfin'. intros Heq. apply render_inj in Heq; [|done|done].
    apply app_inv_head in Heq. injection Heq as Hpp Hrr. apply string_app_inj_r in Hrr.
    split; by apply uuid_inj.
Qed.

End paths.

(** ** Concrete runs *)
Section demo.
#[local] Existing Instance canonical_range.
#[local] Existing Instance ascii_tables.

(** Identifiers in decimal, padded to 39 digits: enough for 128 bits. *)
Definition demo_uuid (u : uuid) : string := pad 39 (Z.of_N u).
Definition demo_o : orchestrator :=
  {| o_cfg := {| SnapshotsDir := "/snap"; MaxConcurrency := 2; Timeout := 0; RunnerMode := "host";
                 OrphanGCInterval := 0 |};
     o_artifactKind := ArtifactBinary; o_notifier := true; o_hub := true |}.

Lemma run_protocol_witness :
  ∃ tr, traces (Run (λ _, "0") demo_uuid (λ s, s) demo_o 1%N 2%N true) tr
          (Some (wrap_post bt_ErrTimedOut ": load portfolio: context canceled")) ∧
  protocol demo_uuid demo_o 1%N 2%N true (observed tr)
    (Some (wrap_post bt_ErrTimedOut ": load portfolio: context canceled")).
Proof.
  assert (∃ tr, traces (Run (λ _, "0") demo_uuid (λ s, s) demo_o 1%N 2%N true) tr
          (Some (wrap_post bt_ErrTimedOut ": load portfolio: context canceled"))) as [tr Htr].
  { exists [Event _ Now 0; Event _ (GetByID 1%N) (Err (sentinel_err context_Canceled "context canceled"));
      Event _ Now 3000000; Event _ (MarkFailedTx 1%N 2%N "load portfolio: context canceled" 3) (Ok ());
      Event _ (PruneRuns 1%N) (Ok []); Event _ (HubComplete 2%N "failed" "load portfolio: context canceled") ();
      Event _ (NotifyRunComplete 1%N 2%N false) (Ok ())].
    unfold Run, fail, since, prune, hub_complete, notify, do, mbind, prog_bind. cbn [pbind].
    repeat (apply traces_call; cbn [pbind demo_o o_hub o_notifier andb remove_all]).
    apply traces_ret. }
  exists tr. split; [done|]. by apply (run_protocol (λ _, "0") demo_uuid (λ s, s) demo_o).
Defined.

Lemma demo_uuid_inj u v : (u < 2 ^ 128)%N → (v < 2 ^ 128)%N → demo_uuid u = demo_uuid v → u = v.
Proof.
  intros Hu Hv Heq. apply (f_equal (digits_val 0)) in Heq. unfold demo_uuid in Heq.
  assert (2 ^ 128 < 10 ^ Z.of_nat 39) by (vm_compute; reflexivity).
  assert ((2 ^ 128)%N = Z.to_N (2 ^ 128)) as Hp by (vm_compute; reflexivity). rewrite Hp in *.
  rewrite !digits_val_pad in Heq by lia. injection Heq as Heq. lia.
Qed.

Lemma pad_no_slash w n : no_slash (pad w n).
Proof.
  revert n. induction w as [|w IH]; intros n; cbn [pad]; [by intros ?%not_elem_of_nil|].
  unfold no_slash. rewrite bytes_of_app, elem_of_app. intros [Hin|Hin]; [by apply IH in Hin|].
  apply list_elem_of_singleton in Hin. pose proof (digit_val_digit n) as Hd. by rewrite <-Hin in Hd.
Qed.

Lemma snapshot_paths_unique_witness :
  final_of demo_uuid demo_o 1%N 2%N ≠ final_of demo_uuid demo_o 1%N 3%N.
Proof.
  assert (∀ u, (36 ≤ String.length (demo_uuid u))%nat) as Hl
    by (intros u; unfold demo_uuid; rewrite length_pad; lia).
  assert (∀ u, no_slash (demo_uuid u)) as Hns by (intros; apply pad_no_slash).
  assert (SnapshotsDir (o_cfg demo_o) ≠ "") as Hd by done.
  assert (∀ n, (n < 10 → n < 2 ^ 128)%N) as Hlt.
  { intros n Hn. eapply N.lt_trans; [exact Hn|]. by vm_compute. }
  intros Heq. apply (snapshot_paths_unique demo_uuid (λ s, s) demo_o demo_uuid_inj Hl Hns 1%N 2%N 1%N 3%N Hd) in Heq;
    [by destruct Heq as [_ ?]|apply Hlt; by vm_compute..].
Defined.

End demo.

(** ** The log of the strategy's output *)
Section log_lines.

#[local] Existing Instances Progress.outcome_ret Progress.outcome_bind.
Definition handle_lines parse (r : uuid) : list string → Progress.Hub → Progress.outcome Progress.Hub :=
  foldr (λ line k h, h' ← Progress.handle_line parse h r line; k h') Progress.Done.

(** The progress writer, which shares the strategy's standard output with the log,
    handles exactly the lines the log gets, in their order. *)
Lemma progress_sees_logged_lines parse fuel h r s :
  Progress.write_loop parse fuel h r s
  = (h' ← handle_lines parse r (log_loop fuel s).1 h; Progress.Done (h', (log_loop fuel s).2)).
Proof.
  revert h s. induction fuel as [|fuel IH]; intros h s; [done|]. cbn. unfold Progress.newline.
  destruct (index_byte s (byte 10)) as [idx|]; [|done].
  specialize (λ h', IH h' (slice_from s (idx + 1))).
  destruct (log_loop fuel _) as [lines rest]; cbn in *.
  destruct (Progress.handle_line _ _ _ _); cbn; [by apply IH|done..].
Qed.

(** Nothing is logged twice or lost, but for the unterminated rest: the lines, each
    with its newline, and the rest are what was written, and the rest has none. *)
Lemma log_loop_spec fuel s lines rest :
  (String.length s ≤ fuel)%nat → log_loop fuel s = (lines, rest) →
  foldr (λ line acc, line +:+ String (byte 10) acc) rest lines = s ∧ index_byte rest (byte 10) = None.
Proof.
  revert s lines rest. induction fuel as [|fuel IH]; intros s lines rest Hl.
  - destruct s; [|cbn in Hl; lia]. by intros [= <- <-].
  - cbn. destruct (index_byte s (byte 10)) as [idx|] eqn:Hi; [|by intros [= <- <-]].
    pose proof (index_byte_split _ _ _ Hi) as [Hs Hlt].
    destruct (log_loop fuel _) as [ls rest'] eqn:Hd. intros [= <- <-].
    apply IH in Hd as [Hc Hn]; [|rewrite length_slice_from; lia]. split; [|done].
    cbn. rewrite Hc, Nat.add_1_r. by symmetry.
Qed.

End log_lines.
