(* ===== verification/Docker.v ===== *)
(** The container runner of backtests (src/backtest/docker.go): a one-shot
    container per run, killed when the run's time is over, with the first bytes
    of its standard error kept for the error message. *)
From S2P Require Import Prelude GoStrings Types Prog Backtest.

(** ** [tailWriter] *)
Record tailWriter := { t_buf : string; t_max : nat }.

(** [Write]: always reports the whole chunk written. *)
Definition Write (p : string) (t : tailWriter) : tailWriter * nat :=
  let remaining := Z.of_nat (t_max t) - len (t_buf t) in
  if remaining <=? 0 then (t, String.length p)
  else if remaining <? len p
       then ({| t_buf := t_buf t +:+ slice_to p (Z.to_nat remaining); t_max := t_max t |}, String.length p)
       else ({| t_buf := t_buf t +:+ p; t_max := t_max t |}, String.length p).

Definition concat_chunks (l : list string) : string := foldr String.append "" l.

(** Writing a chunk is appending it and cutting at the limit. *)
Lemma Write_cut p t :
  (String.length (t_buf t) ≤ t_max t)%nat →
  Write p t = ({| t_buf := slice_to (t_buf t +:+ p) (t_max t); t_max := t_max t |}, String.length p).
Proof.
  intros Hle. unfold Write, len. destruct t as [b m]. cbn [t_buf t_max] in *.
  assert (∀ n, (String.length b ≤ n)%nat → slice_to (b +:+ p) n = b +:+ slice_to p (n - String.length b)) as Happ.
  { intros n Hn. unfold slice_to. rewrite bytes_of_app, take_app, length_bytes_of.
    rewrite take_ge by (rewrite length_bytes_of; lia). apply bytes_of_inj. by rewrite bytes_of_app, !bytes_of_of. }
  rewrite Happ by done. destruct (Z.leb_spec (Z.of_nat m - Z.of_nat (String.length b)) 0) as [Hm|Hm].
  - replace (m - String.length b)%nat with 0%nat by lia. f_equal. f_equal. unfold slice_to. cbn. by rewrite string_app_nil_r.
  - destruct (Z.ltb_spec (Z.of_nat m - Z.of_nat (String.length b)) (Z.of_nat (String.length p))) as [Hp|Hp].
    + by replace (Z.to_nat _) with (m - String.length b)%nat by lia.
    + f_equal. f_equal. f_equal. unfold slice_to. rewrite take_ge by (rewrite length_bytes_of; lia). by rewrite of_bytes_of.
Qed.

(** ** [DockerRunner] *)
Record DockerRunner := {
  dr_Network : string; dr_NanoCPUs : Z; dr_MemoryBytes : Z; dr_SnapshotsHostDir : string; dr_SnapshotsDir : string;
}.

(** The fields of the container the runner sets. *)
Record container := {
  ct_Image : string; ct_Cmd : list string; ct_AutoRemove : bool; ct_Network : string; ct_NanoCPUs : Z;
  ct_Memory : Z; ct_Mount : string * string; ct_Tmpfs : list (string * string); ct_Name : string;
}.

(** A chunk of the demultiplexed log stream. *)
Inductive chunk := Stdout (p : string) | Stderr (p : string).

(** How the [select] ends: [wait.Error], [wait.Result] or the context. *)
Inductive wait_end := WaitError (e : goerror) | WaitResult (status : Z) | WaitDone.

Inductive docker_call : Type → Type :=
  | SetTimeout (d : Z) : docker_call unit
  | ContainerCreate (c : container) : docker_call (result string)
  | ContainerStart (id : string) : docker_call (option goerror)
  | ContainerLogs (id : string) : docker_call (option goerror)
  | ContainerWait (id : string) : docker_call wait_end
  | DrainLogs (id : string) : docker_call (list chunk)
  | ContainerKill (id : string) : docker_call unit.

Notation D := (prog docker_call).

(** [streamContainerLogs]: what the progress writer receives, and the tail. *)
Fixpoint streamContainerLogs (progress : bool) (l : list chunk) (tail : tailWriter) : list string * tailWriter :=
  match l with
  | [] => ([], tail)
  | Stdout p :: l => let '(out, tail) := streamContainerLogs progress l tail in
                     (if progress then p :: out else out, tail)
  | Stderr p :: l => streamContainerLogs progress l (Write p tail).1
  end.

(** [truncID]. *)
Definition truncID (s : string) : string := if 12 <? len s then slice_to s 12 else s.

(** [containerNameForRun]. *)
Definition containerNameForRun (uuid_String : uuid → string) (runID : uuid) : string :=
  if bool_decide (runID = uuid_Nil) then "" else "pvapi-bt-" +:+ truncID (uuid_String runID).

Section docker.
Context (uuid_String : uuid → string) (r : DockerRunner).

Definition container_for (req : RunRequest) : container :=
  {| ct_Image := rr_Artifact req; ct_Cmd := host_args req; ct_AutoRemove := true; ct_Network := dr_Network r;
     ct_NanoCPUs := dr_NanoCPUs r; ct_Memory := dr_MemoryBytes r;
     ct_Mount := (dr_SnapshotsHostDir r, dr_SnapshotsDir r); ct_Tmpfs := [("/tmp", "size=256m")];
     ct_Name := containerNameForRun uuid_String (rr_RunID req) |}.

(** [drainLogs]: nothing when the log stream did not open. *)
Definition drain (req : RunRequest) (id : string) (lerr : option goerror) : D (list string * string) :=
  match lerr with
  | Some _ => Ret ([], "")
  | None =>
    l ← do (DrainLogs id);
    let '(out, t) := streamContainerLogs (rr_ProgressWriter req) l {| t_buf := ""; t_max := 2048 |} in
    Ret (out, t_buf t)
  end.

Definition timed_out (req : RunRequest) (id : string) (lerr : option goerror) : D (list string * result unit) :=
  _ ← do (ContainerKill id);
  '(out, tail) ← drain req id lerr;
  Ret (out, Err (wrap_post bt_ErrTimedOut (": " +:+ firstNBytes tail 2048))).

(** The [select]: what follows the end of the wait. *)
Definition settle (req : RunRequest) (id : string) (lerr : option goerror) (w : wait_end) :
    D (list string * result unit) :=
  match w with
  | WaitError werr =>
    if errors_is werr context_DeadlineExceeded || errors_is werr context_Canceled then timed_out req id lerr
    else
      '(out, _) ← drain req id lerr;
      Ret (out, Err (wrap2 bt_ErrRunnerFailed (wrap "wait: " werr)))
  | WaitResult status =>
    '(out, tail) ← drain req id lerr;
    Ret (out, if status =? 0 then Ok ()
              else Err (wrap_post bt_ErrRunnerFailed
                     (": exit=" +:+ itoa status +:+ ": " +:+ firstNBytes tail 2048)))
  | WaitDone => timed_out req id lerr
  end.

(** [DockerRunner.Run]: what the progress writer received, and the result. *)
Definition DockerRunner_Run (req : RunRequest) : D (list string * result unit) :=
  if bool_decide (rr_ArtifactKind req ≠ ArtifactImage) then
    Ret ([], Err (wrap_post bt_ErrArtifactKindMismatch
      (": DockerRunner requires ArtifactImage, got " +:+ itoa (kind_number (rr_ArtifactKind req)))))
  else
    _ ← (if 0 <? rr_Timeout req then do (SetTimeout (rr_Timeout req)) else Ret ());
    resp ← do (ContainerCreate (container_for req));
    match resp with
    | Err e => Ret ([], Err (wrap2 bt_ErrRunnerFailed (wrap "container create: " e)))
    | Ok id =>
      s ← do (ContainerStart id);
      match s with
      | Some e => Ret ([], Err (wrap2 bt_ErrRunnerFailed (wrap "container start: " e)))
      | None =>
        lerr ← do (ContainerLogs id);
        w ← do (ContainerWait id);
        settle req id lerr w
      end
    end.

(** ** What a run does, whatever the daemon answers *)

Definition created_of (ev : event docker_call) : option (container * result string) :=
  let '(Event _ e a) := ev in
  match e in docker_call A return A → option (container * result string) with
  | ContainerCreate c => λ a, Some (c, a)
  | _ => λ _, None
  end a.
Definition waited_of (ev : event docker_call) : option (string * wait_end) :=
  let '(Event _ e a) := ev in
  match e in docker_call A return A → option (string * wait_end) with
  | ContainerWait id => λ a, Some (id, a)
  | _ => λ _, None
  end a.
Definition drained_of (ev : event docker_call) : option (list chunk) :=
  let '(Event _ e a) := ev in
  match e in docker_call A return A → option (list chunk) with
  | DrainLogs _ => λ a, Some a
  | _ => λ _, None
  end a.
Definition killed_of (ev : event docker_call) : option string :=
  match ev_call ev with ContainerKill id => Some id | _ => None end.

(** Everything the container wrote to its standard error, as far as it was read. *)
Definition stderr_text (l : list chunk) : string :=
  concat_chunks (omap (λ c, match c with Stderr p => Some p | Stdout _ => None end) l).
End docker.

(** The wait was cut short by the context. *)
Definition cut_short (w : wait_end) : bool :=
  match w with
  | WaitError e => errors_is e context_DeadlineExceeded || errors_is e context_Canceled
  | WaitResult _ => false
  | WaitDone => true
  end.

Lemma take_app_take {A} n (l k : list A) : take n (take n l ++ k) = take n (l ++ k).
Proof.
  rewrite !take_app, take_take, Nat.min_id, length_take.
  destruct (decide (length l ≤ n)%nat); [by rewrite Nat.min_r by lia|].
  by rewrite Nat.min_l, Nat.sub_diag, (proj2 (Nat.sub_0_le n (length l))) by lia.
Qed.
Lemma slice_to_twice s t n : slice_to (slice_to s n +:+ t) n = slice_to (s +:+ t) n.
Proof. unfold slice_to. by rewrite !bytes_of_app, bytes_of_of, take_app_take. Qed.
Lemma length_slice_to s n : (String.length (slice_to s n) ≤ n)%nat.
Proof. unfold slice_to. rewrite <-length_bytes_of, bytes_of_of, length_take. lia. Qed.
Lemma slice_to_all s n : (String.length s ≤ n)%nat → slice_to s n = s.
Proof. intros Hs. unfold slice_to. rewrite take_ge by (by rewrite length_bytes_of). apply of_bytes_of. Qed.

(** The tail kept is the head of what was written. *)
Lemma stream_tail progress l t :
  (String.length (t_buf t) ≤ t_max t)%nat →
  t_buf (streamContainerLogs progress l t).2 = slice_to (t_buf t +:+ stderr_text l) (t_max t).
Proof.
  revert t. induction l as [|[p|p] l IH]; intros t Ht; cbn [streamContainerLogs].
  - unfold stderr_text. cbn. by rewrite string_app_nil_r, slice_to_all.
  - specialize (IH t Ht). by destruct (streamContainerLogs progress l t).
  - rewrite Write_cut by done. cbn [fst]. rewrite IH by apply length_slice_to. cbn [t_buf t_max].
    rewrite slice_to_twice. change (stderr_text (Stderr p :: l)) with (p +:+ stderr_text l).
    by rewrite string_app_assoc.
Qed.
Lemma firstNBytes_slice s n : firstNBytes (slice_to s n) n = slice_to s n.
Proof.
  unfold firstNBytes, len. pose proof (length_slice_to s n).
  destruct (Z.leb_spec (Z.of_nat (String.length (slice_to s n))) (Z.of_nat n)); [done|lia].
Qed.

(** ** Every run of the runner *)
Section runs.
Context (uuid_String : uuid → string) (r : DockerRunner) (req : RunRequest).

(** The drained text, nothing when the stream did not open. *)
Definition stderr_of (tr : list (event docker_call)) : string :=
  stderr_text (concat (omap drained_of tr)).

Lemma drain_traces id lerr tr out tail :
  traces (drain req id lerr) tr (out, tail) →
  tail = slice_to (stderr_of tr) 2048 ∧ omap created_of tr = [] ∧ omap waited_of tr = [] ∧ omap killed_of tr = [].
Proof.
  unfold drain, stderr_of. destruct lerr as [e|].
  - by intros [-> [= -> ->]]%traces_Ret.
  - intros (l & tr' & -> & Ht)%traces_Call. cbn [mbind prog_bind pbind] in Ht.
    pose proof (stream_tail (rr_ProgressWriter req) l {| t_buf := ""; t_max := 2048 |}) as Hs. cbn [t_buf t_max] in Hs.
    destruct (streamContainerLogs (rr_ProgressWriter req) l _) as [out' t'].
    apply traces_Ret in Ht as [-> [= -> ->]]. cbn in *. rewrite app_nil_r. split; [|done]. apply Hs. lia.
Qed.

Definition text_of (tr : list (event docker_call)) : string := slice_to (stderr_of tr) 2048.

(** What the end of the wait makes of the run. *)
Definition verdict (w : wait_end) (text : string) : result unit :=
  match w with
  | WaitResult n => if n =? 0 then Ok ()
                    else Err (wrap_post bt_ErrRunnerFailed (": exit=" +:+ itoa n +:+ ": " +:+ text))
  | WaitError e => if cut_short w then Err (wrap_post bt_ErrTimedOut (": " +:+ text))
                   else Err (wrap2 bt_ErrRunnerFailed (wrap "wait: " e))
  | WaitDone => Err (wrap_post bt_ErrTimedOut (": " +:+ text))
  end.

Lemma timed_out_traces id lerr tr out res :
  traces (timed_out req id lerr) tr (out, res) →
  omap created_of tr = [] ∧ omap waited_of tr = [] ∧ omap killed_of tr = [id] ∧
  res = Err (wrap_post bt_ErrTimedOut (": " +:+ text_of tr)).
Proof.
  intros (a & tr' & -> & Ht)%traces_Call.
  apply traces_pbind in Ht as ([out' tail] & tr1 & tr2 & -> & (-> & H1 & H2 & H3)%drain_traces & [-> [= <- ->]]%traces_Ret).
  rewrite app_nil_r. cbn. rewrite H1, H2, H3, firstNBytes_slice. done.
Qed.

Lemma settle_traces id lerr w tr out res :
  traces (settle req id lerr w) tr (out, res) →
  omap created_of tr = [] ∧ omap waited_of tr = [] ∧
  omap killed_of tr = (if cut_short w then [id] else []) ∧ res = verdict w (text_of tr).
Proof.
  assert (∀ (f : string → result unit) tr, traces ('(out, tail) ← drain req id lerr; Ret (out, f tail)) tr (out, res) →
    omap created_of tr = [] ∧ omap waited_of tr = [] ∧ omap killed_of tr = [] ∧ res = f (text_of tr)) as Hdrain.
  { intros f tr0 Ht. apply traces_pbind in Ht
      as ([out' tail] & tr1 & tr2 & -> & (-> & H1 & H2 & H3)%drain_traces & [-> [= <- ->]]%traces_Ret).
    by rewrite app_nil_r, H1, H2, H3. }
  intros Ht. destruct w as [e|n|]; cbn [settle] in Ht.
  - cbn [cut_short verdict]. destruct (errors_is e context_DeadlineExceeded || errors_is e context_Canceled).
    + by apply timed_out_traces in Ht.
    + by apply (Hdrain (λ _, Err (wrap2 bt_ErrRunnerFailed (wrap "wait: " e)))) in Ht.
  - apply (Hdrain (λ tail, if n =? 0 then Ok () else Err (wrap_post bt_ErrRunnerFailed
      (": exit=" +:+ itoa n +:+ ": " +:+ firstNBytes tail 2048)))) in Ht as (H1 & H2 & H3 & ->).
    unfold text_of. by rewrite firstNBytes_slice.
  - by apply timed_out_traces in Ht.
Qed.

(** C25: the container runner, whatever the daemon answers.  A request for another
    kind of artifact makes no call; otherwise exactly one container is created,
    with the run's command line and mount, and only that one is waited for.  The
    run succeeds exactly when its container exits with 0.  The container is
    killed exactly when the context ends the wait, and then the run has timed
    out; its error, and that of a non-zero exit, carry the first 2048 bytes of
    what the container wrote to its standard error. *)
Theorem docker_run_outcome tr out res :
  traces (DockerRunner_Run uuid_String r req) tr (out, res) →
  (rr_ArtifactKind req ≠ ArtifactImage → tr = []) ∧
  (rr_ArtifactKind req = ArtifactImage → ∃ a, omap created_of tr = [(container_for uuid_String r req, a)] ∧
     ∀ id w, (id, w) ∈ omap waited_of tr → a = Ok id) ∧
  (res = Ok () ↔ ∃ id, omap waited_of tr = [(id, WaitResult 0)]) ∧
  omap killed_of tr = (filter (λ iw, cut_short iw.2 = true) (omap waited_of tr)).*1 ∧
  (∀ id, id ∈ omap killed_of tr → res = Err (wrap_post bt_ErrTimedOut (": " +:+ text_of tr))) ∧
  (∀ id n, (id, WaitResult n) ∈ omap waited_of tr → n ≠ 0 →
     res = Err (wrap_post bt_ErrRunnerFailed (": exit=" +:+ itoa n +:+ ": " +:+ text_of tr))).
Proof.
  unfold DockerRunner_Run. destruct (decide (rr_ArtifactKind req = ArtifactImage)) as [Hk|Hk].
  2: { rewrite bool_decide_eq_true_2 by done. intros [-> [= -> ->]]%traces_Ret. cbn. set_solver. }
  rewrite bool_decide_eq_false_2 by (by intros H). intros Ht.
  apply traces_pbind in Ht as (u & tr0 & tr1 & -> & H0 & Ht).
  assert (omap created_of tr0 = [] ∧ omap waited_of tr0 = [] ∧ omap killed_of tr0 = [] ∧ omap drained_of tr0 = [])
    as (C0 & W0 & K0 & D0).
  { destruct (0 <? rr_Timeout req); [|by apply traces_Ret in H0 as [-> _]].
    apply traces_Call in H0 as (a & tr' & -> & [-> _]%traces_Ret). done. }
  split; [done|]. unfold text_of, stderr_of. rewrite !omap_app, C0, W0, K0, D0. clear tr0 H0 C0 W0 K0 D0.
  apply traces_Call in Ht as (a & tr2 & -> & Ht). destruct a as [id|e]; cbn [mbind prog_bind pbind] in Ht.
  2: { apply traces_Ret in Ht as [-> [= -> ->]]. cbn. set_solver. }
  apply traces_Call in Ht as (st & tr3 & -> & Ht). destruct st as [e|]; cbn [mbind prog_bind pbind] in Ht.
  { apply traces_Ret in Ht as [-> [= -> ->]]. cbn. set_solver. }
  apply traces_Call in Ht as (lerr & tr4 & -> & Ht). cbn [mbind prog_bind pbind] in Ht.
  apply traces_Call in Ht as (w & tr5 & -> & Ht). cbn [mbind prog_bind pbind] in Ht.
  apply settle_traces in Ht as (C & W & K & ->). cbn [app omap list_omap created_of waited_of killed_of drained_of ev_call].
  unfold text_of, stderr_of in *. cbn [concat app]. set (text := slice_to _ 2048).
  rewrite C, W, K.
  split; [intros _; exists (Ok id); split; [done|intros id' w' [= -> ->]%list_elem_of_singleton; done]|].
  destruct w as [e|n|]; cbn; [destruct (_ || _)|destruct (Z.eqb_spec n 0) as [->|Hn]|].
  all: split; [split; [by eauto|by intros (? & [=])]|].
  all: split; [done|split; [set_solver|intros ? ? [= ? ?]%list_elem_of_singleton; congruence]].
Qed.
End runs.

(** A run that is killed after writing more than it may keep. *)
Definition demo_runner : DockerRunner :=
  {| dr_Network := ""; dr_NanoCPUs := 0; dr_MemoryBytes := 0; dr_SnapshotsHostDir := "/srv"; dr_SnapshotsDir := "/data" |}.
Definition demo_request : RunRequest :=
  {| rr_RunID := 7%N; rr_Artifact := "pvapi-strategy/acme:v1"; rr_ArtifactKind := ArtifactImage; rr_Args := [];
     rr_OutPath := "/data/out.sqlite.tmp"; rr_Timeout := 0; rr_ProgressWriter := true |}.
Definition demo_trace : list (event docker_call) :=
  [Event _ (ContainerCreate (container_for (λ _, "0197") demo_runner demo_request)) (Ok "c1");
   Event _ (ContainerStart "c1") None; Event _ (ContainerLogs "c1") None; Event _ (ContainerWait "c1") WaitDone;
   Event _ (ContainerKill "c1") (); Event _ (DrainLogs "c1") [Stderr "loading"; Stdout "{}"]].

Lemma docker_run_outcome_witness :
  traces (DockerRunner_Run (λ _, "0197") demo_runner demo_request) demo_trace
    (["{}"], Err (wrap_post bt_ErrTimedOut ": loading")) ∧
  omap killed_of demo_trace = ["c1"].
Proof.
  assert (traces (DockerRunner_Run (λ _, "0197") demo_runner demo_request) demo_trace
    (["{}"], Err (wrap_post bt_ErrTimedOut ": loading"))) as Ht.
  { unfold demo_trace. repeat constructor. }
  split; [exact Ht|].
  destruct (docker_run_outcome _ _ _ _ _ _ Ht) as (_ & _ & _ & Hk & _). rewrite Hk. reflexivity.
Defined.
