(* ===== verification/Registry.v ===== *)
(** The table of strategies (src/strategy/db.go) over the schema of
    src/sql/migrations: every statement the registry runs.

    A registry is its rows by [short_code], the clock [NOW()] reads and a script
    of faults: each statement consumes one entry, [Some e] meaning that the
    server or the connection fails it with [e].  A statement that writes text the
    server does not take (PgText) fails and changes nothing. *)
From S2P Require Import Prelude GoStrings GoTime Types Json PgText.

Record registry := {
  rg_rows : gmap string Strategy;
  rg_now : instant;
  rg_faults : list (option goerror);
}.
#[export] Instance eta_registry : Eta registry := λ r,
  {| rg_rows := rg_rows r; rg_now := rg_now r; rg_faults := rg_faults r |}.

Definition ErrNotFound : goerror := sentinel_err strategy_ErrNotFound "strategy not found".

Section statements.

(** One autocommitted statement. *)
Definition statement {A} (q : registry → result (registry * A)) (r : registry) : registry * result A :=
  let '(r, f) := match rg_faults r with
                 | [] => (r, None)
                 | f :: fs => (r <| rg_faults := fs |>, f)
                 end in
  match f with
  | Some e => (r, Err e)
  | None => match q r with Ok (r', a) => (r', Ok a) | Err e => (r, Err e) end
  end.

(** [UPDATE strategies SET f WHERE short_code = code]. *)
Definition update (code : string) (f : Strategy → Strategy) (r : registry) : result (registry * unit) :=
  Ok (r <| rg_rows := alter f code (rg_rows r) |>, ()).

Definition wrapped {A} (pre : string) (m : registry * result A) : registry * result A :=
  (m.1, match m.2 with Ok a => Ok a | Err e => Err (wrap pre e) end).

Definition check_violation : goerror :=
  opaque_err "ERROR: new row violates check constraint (SQLSTATE 23514)".
Definition invalid_input : goerror := opaque_err "ERROR: invalid input value (SQLSTATE 22P02)".
Definition null_into_string : goerror := opaque_err "cannot scan NULL into *string".
End statements.

(** ** src/strategy/db.go *)
Section strategy_db.
Context `{MapRange}.
(** Postgres's [jsonb]: the text a value is read back as, if the input is JSON. *)
Context (jsonb : string → option string).

(** [ORDER BY short_code]. *)
Definition by_code (r : registry) : list Strategy := (sorted_members (rg_rows r)).*2.

Definition List (r : registry) : registry * result (list Strategy) :=
  wrapped "querying strategies: " (statement (λ r, Ok (r, by_code r)) r).

Definition Get (shortCode : string) : registry → registry * result Strategy :=
  statement (λ r, match rg_rows r !! shortCode with Some s => Ok (r, s) | None => Err ErrNotFound end).

(** [LIMIT 1] without an order: any of the matching rows. *)
Definition GetByCloneURL (cloneURL : string) : registry → registry * result Strategy :=
  statement (λ r,
    match filter (λ s, s_CloneURL s = cloneURL) (range_map (rg_rows r)).*2 with
    | s :: _ => Ok (r, s)
    | [] => Err ErrNotFound
    end).

(** The CHECK of the table. *)
Definition owner_check (s : Strategy) : bool :=
  match s_OwnerSub s with None => s_IsOfficial s | Some _ => negb (s_IsOfficial s) end.

Definition upsert_row (s : Strategy) (t : instant) (old : option Strategy) : Strategy :=
  match old with
  | Some o => o <| s_RepoOwner := s_RepoOwner s |> <| s_RepoName := s_RepoName s |>
                <| s_CloneURL := s_CloneURL s |> <| s_Description := s_Description s |>
                <| s_Categories := s_Categories s |> <| s_Stars := s_Stars s |> <| s_UpdatedAt := t |>
  | None => listed_Strategy (s_ShortCode s) (s_RepoOwner s) (s_RepoName s) (s_CloneURL s)
              (s_IsOfficial s) (s_OwnerSub s) (s_Description s) (s_Categories s) (s_Stars s) t
  end.

(** The TEXT columns [Upsert] writes. *)
Definition upsert_texts (s : Strategy) : list string :=
  [s_ShortCode s; s_RepoOwner s; s_RepoName s; s_CloneURL s] ++ option_list (s_OwnerSub s) ++
  option_list (s_Description s) ++ s_Categories s.

Definition Upsert (s : Strategy) (r : registry) : registry * result unit :=
  wrapped ("upsert strategy " +:+ s_ShortCode s +:+ ": ") (statement (with_text (upsert_texts s) (λ r,
    if negb (owner_check s) then Err check_violation
    else Ok (r <| rg_rows := <[s_ShortCode s := upsert_row s (rg_now r) (rg_rows r !! s_ShortCode s)]> (rg_rows r) |>,
             ()))) r).

Definition MarkAttempt (shortCode version : string) (r : registry) : registry * result unit :=
  wrapped ("mark attempt " +:+ shortCode +:+ "@" +:+ version +:+ ": ") (statement (with_text [version] (λ r,
    update shortCode (λ s, s <| s_LastAttemptedVer := Some version |> <| s_InstallError := None |>
                             <| s_UpdatedAt := rg_now r |>) r)) r).

Definition success (version kind ref describe : string) (t : instant) (s : Strategy) : Strategy :=
  s <| s_InstalledVer := Some version |> <| s_InstalledAt := Some t |> <| s_LastAttemptedVer := Some version |>
    <| s_ArtifactKind := Some kind |> <| s_ArtifactRef := Some ref |> <| s_DescribeJSON := describe |>
    <| s_InstallError := None |> <| s_UpdatedAt := t |>.

(** The enum type [artifact_kind]. *)
Definition artifact_kinds : list string := [artifactKindBinary; artifactKindImage].

(** A nil [describeJSON] is stored as NULL. *)
Definition MarkSuccess (shortCode version artifactKind artifactRef describeJSON : string) (r : registry) :
    registry * result unit :=
  wrapped ("mark success " +:+ shortCode +:+ "@" +:+ version +:+ ": ") (statement (with_text [version; artifactRef] (λ r,
    if bool_decide (artifactKind ∉ artifact_kinds) then Err invalid_input
    else match (if bool_decide (describeJSON = "") then Some "" else jsonb describeJSON) with
         | None => Err invalid_input
         | Some j => update shortCode (success version artifactKind artifactRef j (rg_now r)) r
         end)) r).

Definition failure (version errText : string) (t : instant) (s : Strategy) : Strategy :=
  s <| s_LastAttemptedVer := Some version |> <| s_InstallError := Some errText |> <| s_UpdatedAt := t |>.

Definition MarkFailure (shortCode version errText : string) (r : registry) : registry * result unit :=
  wrapped ("mark failure " +:+ shortCode +:+ "@" +:+ version +:+ ": ") (statement (with_text [version; errText] (λ r,
    update shortCode (failure version errText (rg_now r)) r)) r).

Definition ListInstalled (r : registry) : registry * result (list Strategy) :=
  wrapped "listing installed strategies: " (statement (λ r,
    Ok (r, filter (λ s, is_Some (s_ArtifactRef s)) (by_code r))) r).

Definition set_stats (x : StatsResult) (t : instant) (s : Strategy) : Strategy :=
  s <| s_CAGR := r_CAGR x |> <| s_MaxDrawdown := r_MaxDrawdown x |> <| s_Sharpe := r_Sharpe x |>
    <| s_Sortino := r_Sortino x |> <| s_UlcerIndex := r_UlcerIndex x |> <| s_Beta := r_Beta x |>
    <| s_Alpha := r_Alpha x |> <| s_StdDev := r_StdDev x |> <| s_TaxCostRatio := r_TaxCostRatio x |>
    <| s_OneYearReturn := r_OneYearReturn x |> <| s_YtdReturn := r_YtdReturn x |>
    <| s_BenchmarkYtdReturn := r_BenchmarkYtdReturn x |> <| s_StatsAsOf := Some (r_AsOf x) |>
    <| s_StatsError := None |> <| s_UpdatedAt := t |>.

Definition UpdateStats (shortCode : string) (x : StatsResult) (r : registry) : registry * result unit :=
  wrapped ("update stats " +:+ shortCode +:+ ": ")
    (statement (λ r, update shortCode (set_stats x (rg_now r)) r) r).

Definition MarkStatsError (shortCode errText : string) (r : registry) : registry * result unit :=
  wrapped ("mark stats error " +:+ shortCode +:+ ": ")
    (statement (with_text [errText]
      (λ r, update shortCode (λ s, s <| s_StatsError := Some errText |> <| s_UpdatedAt := rg_now r |>) r)) r).

(** A matching row with no [artifact_ref] fails the scan into a string. *)
Definition LookupArtifact (cloneURL installedVer : string) (r : registry) : registry * result string :=
  let m := statement (λ r,
    match filter (λ s, s_CloneURL s = cloneURL ∧ s_InstalledVer s = Some installedVer ∧ s_InstallError s = None)
            (range_map (rg_rows r)).*2 with
    | s :: _ => match s_ArtifactRef s with Some ref => Ok (r, ref) | None => Err null_into_string end
    | [] => Err (sentinel_err sql_ErrNoRows "no rows in result set")
    end) r in
  (m.1, match m.2 with
        | Ok ref => Ok ref
        | Err e => if errors_is e sql_ErrNoRows then Err ErrNotFound else Err (wrap "looking up artifact: " e)
        end).
End strategy_db.
