(* ===== verification/Sync.v ===== *)
(** The strategy registry's reconciliation (src/strategy/sync.go) with the
    installer it drives (src/strategy/install.go): programs over the calls they
    make of GitHub, git, the Go tool chain, the store and the background tasks. *)
From S2P Require Import Prelude GoStrings GoTime Types Path Prog.
From Stdlib Require Import Ascii.

Definition ErrRunInterval : goerror :=
  sentinel_err strategy_ErrRunInterval "Syncer.Run requires SyncerOptions.Interval > 0".
Definition ErrNoTagsFound : goerror := sentinel_err strategy_ErrNoTagsFound "no tags found".
Definition ErrInstallMissingFields : goerror :=
  sentinel_err strategy_ErrInstallMissingFields "InstallRequest: all fields required".

(** ** src/strategy/install.go *)
Record InstallRequest := { ir_ShortCode : string; ir_CloneURL : string; ir_Version : string; ir_DestDir : string }.
Record InstallResult := { BinPath : string; ArtifactRef : string; DescribeJSON : string; res_ShortCode : string }.

(** Processes and files: a command with its directory gives its error, if any,
    and its output. *)
Inductive exec_call : Type → Type :=
  | RunCmd (argv : list string) (dir : string) : exec_call (option goerror * string)
  | OsRename (from to : string) : exec_call (option goerror).

Definition newline : string := String (byte 10) "".

Section install.
Context (unmarshal_describe : string → result Describe).

Definition Install (req : InstallRequest) : prog exec_call (result InstallResult) :=
  if bool_decide (ir_CloneURL req = "" ∨ ir_Version req = "" ∨ ir_DestDir req = "") then
    Ret (Err ErrInstallMissingFields)
  else
    c ← do (RunCmd ["git"; "clone"; "--depth=1"; "--branch"; ir_Version req; ir_CloneURL req; ir_DestDir req] "");
    match c : option goerror * string with
    | (Some e, out) => Ret (Err (wrap ("git clone " +:+ ir_CloneURL req +:+ "@" +:+ ir_Version req +:+ ": ")
                                   (wrap_post e (newline +:+ out))))
    | (None, _) =>
      let tmpBinPath := Join [ir_DestDir req; "strategy.bin"] in
      b ← do (RunCmd ["go"; "build"; "-o"; tmpBinPath; "."] (ir_DestDir req));
      match b : option goerror * string with
      | (Some e, out) => Ret (Err (wrap "go build: " (wrap_post e (newline +:+ out))))
      | (None, _) =>
        d ← do (RunCmd [tmpBinPath; "describe"; "--json"] "");
        match d : option goerror * string with
        | (Some e, _) => Ret (Err (wrap (tmpBinPath +:+ " describe --json: ") e))
        | (None, describeBytes) =>
          match unmarshal_describe describeBytes with
          | Err e => Ret (Err (wrap "parsing describe output: " e))
          | Ok parsed =>
            let binPath := Join [ir_DestDir req; d_ShortCode parsed +:+ ".bin"] in
            r ← do (OsRename tmpBinPath binPath);
            match r with
            | Some e => Ret (Err (wrap ("rename binary to " +:+ binPath +:+ ": ") e))
            | None => Ret (Ok {| BinPath := binPath; ArtifactRef := binPath; DescribeJSON := describeBytes;
                                 res_ShortCode := d_ShortCode parsed |})
            end
          end
        end
      end
    end.
End install.

(** The loop of [ResolveVerWithGit] over the lines of [git ls-remote]: the first tag. *)
Fixpoint first_tag (lines : list string) : option string :=
  match lines with
  | [] => None
  | line :: ls =>
    let line := trim_space line in
    if bool_decide (line = "") then first_tag ls
    else match fields line with
         | [_; ref] =>
           let ref := trim_suffix ref "^{}" in
           if negb (has_prefix ref "refs/tags/") then first_tag ls
           else Some (trim_prefix ref "refs/tags/")
         | _ => first_tag ls
         end
  end.
Definition ResolveVerWithGit (cloneURL : string) : prog exec_call (result string) :=
  o ← do (RunCmd ["git"; "ls-remote"; "--tags"; "--sort=-v:refname"; cloneURL] "");
  match o : option goerror * string with
  | (Some e, out) => Ret (Err (wrap ("git ls-remote --tags " +:+ cloneURL +:+ ": ") (wrap_post e (newline +:+ out))))
  | (None, out) =>
    match first_tag (split_byte out (byte 10)) with
    | Some v => Ret (Ok v)
    | None => Ret (Err (wrap_post ErrNoTagsFound (" on " +:+ cloneURL)))
    end
  end.

(** ** src/strategy/sync.go *)
Inductive sync_call : Type → Type :=
  | Discovery : sync_call (result (list Listing))
  | GetByCloneURL (cloneURL : string) : sync_call (result Strategy)
  | ResolveVer (cloneURL : string) : sync_call (result string)
  | RunInstaller (docker : bool) (req : InstallRequest) : sync_call (result InstallResult)
  | Upsert (s : Strategy) : sync_call (result unit)
  | MarkSuccess (shortCode version kind ref describe : string) : sync_call (result unit)
  | MarkFailure (shortCode version errText : string) : sync_call (result unit)
  | GoStats (shortCode : string) : sync_call unit
  | GoAutoUpgrade (shortCode newVer : string) : sync_call unit.

Notation S := (prog sync_call).

(** [SyncerOptions]; a nil function or interface is [false]. *)
Record SyncerOptions := {
  o_Installer : bool; o_DockerInstaller : bool; o_RunnerMode : string; o_OfficialDir : string;
  o_Concurrency : Z; o_Interval : Z; o_Stats : bool; o_AutoUpgrader : bool;
}.
#[export] Instance eta_SyncerOptions : Eta SyncerOptions := λ o,
  {| o_Installer := o_Installer o; o_DockerInstaller := o_DockerInstaller o; o_RunnerMode := o_RunnerMode o;
     o_OfficialDir := o_OfficialDir o; o_Concurrency := o_Concurrency o; o_Interval := o_Interval o;
     o_Stats := o_Stats o; o_AutoUpgrader := o_AutoUpgrader o |}.

Definition expectedArtifactKind (mode : string) : string :=
  if bool_decide (mode = "docker") then artifactKindImage else artifactKindBinary.
Definition NewSyncer (opts : SyncerOptions) : SyncerOptions :=
  if o_Concurrency opts <? 1 then opts <| o_Concurrency := 1 |> else opts.

Definition strPtr (s : string) : option string := if bool_decide (s = "") then None else Some s.
Definition zero_Strategy : Strategy := listed_Strategy "" "" "" "" false None None [] None 0.

Record job := { j_listing : Listing; j_version : string; j_dest : string }.

Section syncer.
Context (opts : SyncerOptions).

(** The row is at the remote version, of the kind this mode installs. *)
Definition up_to_date (existing : Strategy) (remote : string) : bool :=
  bool_decide (s_LastAttemptedVer existing = Some remote) &&
  match s_ArtifactKind existing with
  | None => true
  | Some k => bool_decide (k = expectedArtifactKind (o_RunnerMode opts))
  end.

Definition job_of (l : Listing) (remote : string) : job :=
  {| j_listing := l; j_version := remote;
     j_dest := Join [o_OfficialDir opts; l_Owner l; l_Name l; remote] |}.

(** The loop of [Tick] over the listings. *)
Fixpoint collect (listings : list Listing) (jobs : list job) : S (list job) :=
  match listings with
  | [] => Ret jobs
  | l :: ls =>
    row ← do (GetByCloneURL (l_CloneURL l));
    match match row with
          | Ok s => Some s
          | Err e => if errors_is e strategy_ErrNotFound then Some zero_Strategy else None
          end with
    | None => collect ls jobs
    | Some existing =>
      remote ← do (ResolveVer (l_CloneURL l));
      match remote with
      | Err _ => collect ls jobs
      | Ok remote =>
        if up_to_date existing remote then collect ls jobs
        else collect ls (jobs ++ [job_of l remote])
      end
    end
  end.

(** The rows [runInstall] writes. *)
Definition row_of (code : string) (l : Listing) : Strategy :=
  listed_Strategy code (l_Owner l) (l_Name l) (l_CloneURL l) true None (strPtr (l_Description l))
    (l_Categories l) (Some (l_Stars l)) 0.

Definition recordFailure (l : Listing) (version errText : string) : S unit :=
  _ ← do (Upsert (row_of (l_Name l) l));
  _ ← do (MarkFailure (l_Name l) version errText);
  Ret ().

Definition runInstall (l : Listing) (version dest : string) : S unit :=
  let docker := bool_decide (o_RunnerMode opts = "docker") in
  let kind := if docker then artifactKindImage else artifactKindBinary in
  if negb (if docker then o_DockerInstaller opts else o_Installer opts) then
    recordFailure l version ("no installer wired for runner mode " +:+ o_RunnerMode opts)
  else
    r ← do (RunInstaller docker {| ir_ShortCode := ""; ir_CloneURL := l_CloneURL l; ir_Version := version;
                                   ir_DestDir := dest |});
    match r with
    | Err e => recordFailure l version (err_text e)
    | Ok res =>
      let shortCode := if bool_decide (res_ShortCode res = "") then l_Name l else res_ShortCode res in
      u ← do (Upsert (row_of shortCode l));
      match u with
      | Err _ => Ret ()
      | Ok _ =>
        m ← do (MarkSuccess shortCode version kind (ArtifactRef res) (DescribeJSON res));
        match m with
        | Err _ => Ret ()
        | Ok _ =>
          _ ← (if o_Stats opts then do (GoStats shortCode) else Ret ());
          if o_AutoUpgrader opts then do (GoAutoUpgrade shortCode version) else Ret ()
        end
      end
    end.

(** The installs of a tick, in the order they take their turns.  The code runs
    them at once, as many as the semaphore lets through; one at a time in any
    order is all the same to the table when no two share a short code, since
    each then writes rows and directories of its own. *)
Fixpoint run_jobs (jobs : list job) : S unit :=
  match jobs with
  | [] => Ret ()
  | j :: js => _ ← runInstall (j_listing j) (j_version j) (j_dest j); run_jobs js
  end.

(** The order in which the goroutines of a tick run. *)
Context (order : list job → list job).

Definition Tick : S (option goerror) :=
  listings ← do Discovery;
  match listings with
  | Err e => Ret (Some (wrap "discovery: " e))
  | Ok ls =>
    jobs ← collect ls [];
    _ ← run_jobs (order jobs);
    Ret None
  end.

(** [Syncer.Run], with the number of ticks before its context is cancelled. *)
Fixpoint ticks (n : nat) : S unit :=
  match n with O => Ret () | Datatypes.S n => _ ← Tick; ticks n end.
Definition Run (n : nat) : S (option goerror) :=
  if o_Interval opts <=? 0 then Ret (Some ErrRunInterval)
  else _ ← Tick; _ ← ticks n; Ret None.
End syncer.
