(* ===== verification/SyncLaws.v ===== *)
(** What the registry keeps true of its rows, and what a reconciliation tick
    leaves behind: installs recorded under the binary's short code, failures
    under the repository's name, and nothing left to do for the next tick. *)
From S2P Require Import Prelude GoStrings GoTime Types Json PgText Path Prog.
From S2P Require Registry.
From S2P Require Import Sync.
#[local] Existing Instance Registry.eta_registry.

(** ** The rows every statement keeps *)
Definition row_ok (code : string) (s : Strategy) : Prop :=
  s_ShortCode s = code ∧ Registry.owner_check s = true ∧
  (is_Some (s_InstalledVer s) → is_Some (s_InstalledAt s) ∧ is_Some (s_ArtifactRef s) ∧
     ∃ k, s_ArtifactKind s = Some k ∧ k ∈ Registry.artifact_kinds) ∧
  (∀ k, s_ArtifactKind s = Some k → k ∈ Registry.artifact_kinds).
Definition registry_ok (r : Registry.registry) : Prop := map_Forall row_ok (Registry.rg_rows r).

(** The writes of src/strategy/db.go. *)
Inductive write :=
  | WUpsert (s : Strategy)
  | WMarkAttempt (code version : string)
  | WMarkSuccess (code version kind ref describe : string)
  | WMarkFailure (code version errText : string)
  | WUpdateStats (code : string) (x : StatsResult)
  | WMarkStatsError (code errText : string).

Section registry.
Context `{MapRange} (jsonb : string → option string).

Definition perform (o : write) (r : Registry.registry) : Registry.registry * result unit :=
  match o with
  | WUpsert s => Registry.Upsert s r
  | WMarkAttempt c v => Registry.MarkAttempt c v r
  | WMarkSuccess c v k a d => Registry.MarkSuccess jsonb c v k a d r
  | WMarkFailure c v e => Registry.MarkFailure c v e r
  | WUpdateStats c x => Registry.UpdateStats c x r
  | WMarkStatsError c e => Registry.MarkStatsError c e r
  end.

Lemma statement_keeps {A} (q : Registry.registry → result (Registry.registry * A)) r :
  registry_ok r →
  (∀ r0 r1 a, registry_ok r0 → q r0 = Ok (r1, a) → registry_ok r1) →
  registry_ok (Registry.statement q r).1.
Proof.
  intros Hr Hq. unfold Registry.statement.
  destruct (Registry.rg_faults r) as [|[e|] fs]; [|done|].
  - destruct (q r) as [[r1 a]|e] eqn:Hqr; [|done]. eapply Hq; [|exact Hqr]; done.
  - destruct (q _) as [[r1 a]|e] eqn:Hqr; [|done]. eapply Hq; [|exact Hqr]; done.
Qed.

Lemma update_keeps code f r0 r1 a :
  (∀ s, row_ok code s → row_ok code (f s)) → registry_ok r0 →
  Registry.update code f r0 = Ok (r1, a) → registry_ok r1.
Proof.
  intros Hf Hr [= <- _]. intros k s Hk. cbn in Hk.
  destruct (decide (k = code)) as [->|Hne].
  - rewrite lookup_alter_eq in Hk. destruct (Registry.rg_rows r0 !! code) as [s0|] eqn:Hs; [|done].
    injection Hk as <-. by apply Hf, Hr.
  - rewrite lookup_alter_ne in Hk by done. by apply Hr.
Qed.

Lemma success_ok code v k ref d t s :
  k ∈ Registry.artifact_kinds → row_ok code s → row_ok code (Registry.success v k ref d t s).
Proof.
  intros Hk (Hc & Ho & _ & _). split; [done|]. split; [done|]. cbn. split; [|by intros ? [= <-]].
  intros _. split; [done|]. split; [done|]. eauto.
Qed.

Lemma upsert_row_ok s t old :
  Registry.owner_check s = true → (∀ o, old = Some o → row_ok (s_ShortCode s) o) →
  row_ok (s_ShortCode s) (Registry.upsert_row s t old).
Proof.
  intros Hs Ho. destruct old as [o|].
  - destruct (Ho o eq_refl) as (? & ? & ? & ?). done.
  - split; [done|]. split; [done|]. cbn. by split; [intros [? ?]|].
Qed.

(** Whatever the sequence of writes and of database faults, each strategy
    row keeps its key and its owner rule, and an installed version always comes
    with its time, artifact and a known artifact kind. *)
Theorem registry_writes_keep_rows (ops : list write) (r : Registry.registry) :
  registry_ok r → registry_ok (fold_left (λ r o, (perform o r).1) ops r).
Proof.
  revert r. induction ops as [|o ops IH]; intros r Hr; [done|]. apply IH. clear IH.
  destruct o; cbn [perform]; unfold Registry.Upsert, Registry.MarkAttempt, Registry.MarkSuccess,
    Registry.MarkFailure, Registry.UpdateStats, Registry.MarkStatsError, Registry.wrapped; cbn [fst];
    apply statement_keeps; try done; intros r0 r1 a Hr0 Hq; try apply with_text_Ok in Hq;
    try (eapply update_keeps; [|exact Hr0|exact Hq]; by intros ? (? & ? & ? & ?)).
  - destruct (Registry.owner_check s) eqn:Hs; [|done]. injection Hq as <- _. intros k x Hk. cbn in Hk.
    apply lookup_insert_Some in Hk as [[<- <-]|[_ Hk]]; [|by apply Hr0].
    apply upsert_row_ok; [done|]. intros o Ho. by apply Hr0.
  - case_bool_decide as Hk; [done|]. destruct (if bool_decide _ then _ else _); [|done].
    eapply update_keeps; [|exact Hr0|exact Hq]. intros x. by apply success_ok.
Qed.
End registry.

(** ** A tick against the registry *)
Inductive spawned := SStats (code : string) | SUpgrade (code version : string).
Record world := { w_reg : Registry.registry; w_spawned : list spawned }.
#[export] Instance eta_world : Eta world := λ w, {| w_reg := w_reg w; w_spawned := w_spawned w |}.

Section ticks.
Context `{MapRange} (jsonb : string → option string).
(** GitHub, git and the installer. *)
Context (discover : result (list Listing)) (remote : string → result string).
Context (install : bool → InstallRequest → result InstallResult).
Context (opts : SyncerOptions) (order : list job → list job).

Definition on_reg {A} (f : Registry.registry → Registry.registry * A) (w : world) : world * A :=
  let '(r, a) := f (w_reg w) in (w <| w_reg := r |>, a).

(** How the calls of the syncer are answered. *)
Definition answer (A : Type) (c : sync_call A) : world → world * A :=
  match c in sync_call A return world → world * A with
  | Discovery => λ w, (w, discover)
  | GetByCloneURL u => on_reg (Registry.GetByCloneURL u)
  | ResolveVer u => λ w, (w, remote u)
  | RunInstaller d req => λ w, (w, install d req)
  | Upsert s => on_reg (Registry.Upsert s)
  | MarkSuccess c v k a d => on_reg (Registry.MarkSuccess jsonb c v k a d)
  | MarkFailure c v e => on_reg (Registry.MarkFailure c v e)
  | GoStats c => λ w, (w <| w_spawned := w_spawned w ++ [SStats c] |>, ())
  | GoAutoUpgrade c v => λ w, (w <| w_spawned := w_spawned w ++ [SUpgrade c v] |>, ())
  end.
Notation exec p w := (exec_prog answer p w).
Notation rows w := (Registry.rg_rows (w_reg w)).
Notation clock w := (Registry.rg_now (w_reg w)).
Notation quiet w := (Registry.rg_faults (w_reg w) = []).

Lemma exec_bind {A B} (p : prog sync_call A) (f : A → prog sync_call B) w :
  exec (p ≫= f) w = let '(w', a) := exec p w in exec (f a) w'.
Proof.
  unfold mbind, prog_bind. revert w. induction p as [a|X e k IH]; intros w; [done|]. cbn.
  destruct (answer X e w) as [w' x]. apply IH.
Qed.

(** What the installer answers for a listing at a version. *)
Definition docker : bool := bool_decide (o_RunnerMode opts = "docker").
Definition kind : string := expectedArtifactKind (o_RunnerMode opts).
Definition wired : bool := if docker then o_DockerInstaller opts else o_Installer opts.
Definition installed (l : Listing) (v : string) : result InstallResult :=
  if negb wired then Err (opaque_err ("no installer wired for runner mode " +:+ o_RunnerMode opts))
  else install docker {| ir_ShortCode := ""; ir_CloneURL := l_CloneURL l; ir_Version := v;
                         ir_DestDir := j_dest (job_of opts l v) |}.

(** The key an install is recorded under: the binary's short code, or the
    repository's name. *)
Definition key (l : Listing) (v : string) : string :=
  match installed l v with
  | Ok res => if bool_decide (res_ShortCode res = "") then l_Name l else res_ShortCode res
  | Err _ => l_Name l
  end.
(** The describe output as the database reads it back. *)
Definition described (res : InstallResult) : option string :=
  if bool_decide (DescribeJSON res = "") then Some "" else jsonb (DescribeJSON res).

(** The database takes what an install has it record. *)
Definition recordable (l : Listing) (v : string) : Prop :=
  forallb storable (Registry.upsert_texts (row_of (key l v) l)) = true ∧
  match installed l v with
  | Ok res => forallb storable [v; ArtifactRef res] = true ∧ is_Some (described res)
  | Err e => forallb storable [v; err_text e] = true
  end.

(** The row an install leaves, from the row there was. *)
Definition after (l : Listing) (v : string) (t : instant) (old : option Strategy) : Strategy :=
  let s := Registry.upsert_row (row_of (key l v) l) t old in
  match installed l v with
  | Ok res => Registry.success v kind (ArtifactRef res) (default "" (described res)) t s
  | Err e => Registry.failure v (err_text e) t s
  end.
Definition tasks (l : Listing) (v : string) : list spawned :=
  match installed l v with
  | Ok _ => (if o_Stats opts then [SStats (key l v)] else []) ++
            (if o_AutoUpgrader opts then [SUpgrade (key l v) v] else [])
  | Err _ => []
  end.
Definition set_row (k : string) (s : Strategy) (w : world) : world :=
  w <| w_reg := w_reg w <| Registry.rg_rows := <[k := s]> (rows w) |> |>.
Definition install_world (l : Listing) (v : string) (w : world) : world :=
  set_row (key l v) (after l v (clock w) (rows w !! key l v)) w <| w_spawned := w_spawned w ++ tasks l v |>.

Lemma upsert_quiet s w :
  quiet w → Registry.owner_check s = true → forallb storable (Registry.upsert_texts s) = true →
  answer _ (Upsert s) w = (set_row (s_ShortCode s) (Registry.upsert_row s (clock w) (rows w !! s_ShortCode s)) w, Ok ()).
Proof.
  intros Hq Hs Ht. unfold answer, on_reg, Registry.Upsert, Registry.wrapped, Registry.statement.
  by rewrite Hq, with_text_storable, Hs.
Qed.
Lemma update_row f k s w :
  rows w !! k = Some s → w <| w_reg := w_reg w <| Registry.rg_rows := alter f k (rows w) |> |> = set_row k (f s) w.
Proof.
  intros Hk. unfold set_row. destruct w as [[rs t fs] sp]. cbn in *. do 2 f_equal. apply map_eq. intros i.
  destruct (decide (i = k)) as [->|Hne].
  - by rewrite lookup_alter_eq, Hk, lookup_insert_eq.
  - by rewrite lookup_alter_ne, lookup_insert_ne.
Qed.
Lemma set_row_twice k s s' w : set_row k s' (set_row k s w) = set_row k s' w.
Proof. unfold set_row. destruct w as [[rs t fs] sp]. cbn. do 2 f_equal. by rewrite insert_insert_eq. Qed.

Lemma mark_failure_quiet k v e s w :
  quiet w → rows w !! k = Some s → forallb storable [v; e] = true →
  answer _ (MarkFailure k v e) w = (set_row k (Registry.failure v e (clock w) s) w, Ok ()).
Proof.
  intros Hq Hk Ht. unfold answer, on_reg, Registry.MarkFailure, Registry.wrapped, Registry.statement.
  rewrite Hq, with_text_storable by done. cbn.
  by rewrite <-(update_row _ _ _ _ Hk).
Qed.
Lemma mark_success_quiet k v kd ref d j s w :
  quiet w → rows w !! k = Some s → kd ∈ Registry.artifact_kinds → forallb storable [v; ref] = true →
  (if bool_decide (d = "") then Some "" else jsonb d) = Some j →
  answer _ (MarkSuccess k v kd ref d) w = (set_row k (Registry.success v kd ref j (clock w) s) w, Ok ()).
Proof.
  intros Hq Hk Hkd Ht Hj. unfold answer, on_reg, Registry.MarkSuccess, Registry.wrapped, Registry.statement.
  rewrite Hq, with_text_storable by done.
  rewrite bool_decide_eq_false_2 by (by intros ?). rewrite Hj. cbn. by rewrite <-(update_row _ _ _ _ Hk).
Qed.

Lemma kind_known : kind ∈ Registry.artifact_kinds.
Proof. unfold kind, expectedArtifactKind, Registry.artifact_kinds. case_bool_decide; set_solver. Qed.

Lemma record_failure_exec l v e w :
  quiet w → forallb storable (Registry.upsert_texts (row_of (l_Name l) l)) = true → forallb storable [v; e] = true →
  exec (recordFailure l v e) w =
    (set_row (l_Name l) (Registry.failure v e (clock w) (Registry.upsert_row (row_of (l_Name l) l) (clock w) (rows w !! l_Name l))) w, ()).
Proof.
  intros Hq Ht Hte. unfold recordFailure, do, mbind, prog_bind. cbn [pbind exec_prog].
  rewrite (upsert_quiet (row_of (l_Name l) l)) by done. change (s_ShortCode (row_of (l_Name l) l)) with (l_Name l).
  cbv iota. erewrite mark_failure_quiet; [|done|apply lookup_insert_eq|done]. by rewrite set_row_twice.
Qed.

Lemma answer_install d r w : answer _ (RunInstaller d r) w = (w, install d r).
Proof. done. Qed.

(** One install, with a working database. *)
Lemma run_install_exec l v w :
  quiet w → recordable l v →
  exec (runInstall opts l v (j_dest (job_of opts l v))) w = (install_world l v w, ()).
Proof.
  intros Hq [Hu Hd]. unfold runInstall. fold docker. cbv zeta. fold wired. unfold install_world, after, tasks, key in *.
  destruct (installed l v) as [res|e] eqn:Hi; unfold installed in Hi.
  - destruct wired; cbn [negb] in Hi |- *; [|done]. destruct Hd as (Ht & j & Hj).
    unfold do, mbind, prog_bind. cbn [pbind exec_prog]. rewrite answer_install, Hi. cbv iota beta. cbn [pbind exec_prog].
    set (code := if bool_decide (res_ShortCode res = "") then l_Name l else res_ShortCode res).
    rewrite (upsert_quiet (row_of code l)) by done. change (s_ShortCode (row_of code l)) with code. cbv iota beta.
    unfold described in *. rewrite Hj. cbn [from_option default].
    replace (if docker then artifactKindImage else artifactKindBinary) with kind by done.
    cbn [pbind exec_prog].
    erewrite mark_success_quiet; [|done|apply lookup_insert_eq|apply kind_known|exact Ht|exact Hj]. rewrite set_row_twice.
    cbv iota beta.
    destruct (o_Stats opts), (o_AutoUpgrader opts); cbn [pbind exec_prog answer app];
      unfold set_row; cbn; rewrite ?app_nil_r, <-?app_assoc; by destruct w as [[] ?].
  - assert (e = opaque_err ("no installer wired for runner mode " +:+ o_RunnerMode opts) ∧ wired = false ∨
      wired = true ∧ install docker {| ir_ShortCode := ""; ir_CloneURL := l_CloneURL l; ir_Version := v;
        ir_DestDir := j_dest (job_of opts l v) |} = Err e) as Hcase.
    { destruct wired; cbn [negb] in Hi; [by right|]. injection Hi as <-. by left. }
    destruct Hcase as [[-> ->]|[-> He]]; cbn [negb].
    + rewrite record_failure_exec by done. unfold set_row. cbn. by rewrite app_nil_r; destruct w as [[] ?].
    + unfold do, mbind at 1, prog_bind at 1. cbn [pbind exec_prog]. rewrite answer_install, He. cbv iota beta.
      rewrite record_failure_exec by done. unfold set_row. cbn. by rewrite app_nil_r; destruct w as [[] ?].
Qed.

(** ** The queue of a tick *)
Definition with_url (u : string) (w : world) : list Strategy :=
  filter (λ s, s_CloneURL s = u) (range_map (rows w)).*2.
Definition existing (u : string) (w : world) : Strategy := default zero_Strategy (head (with_url u w)).
Definition queued (w : world) (l : Listing) : option job :=
  match remote (l_CloneURL l) with
  | Ok v => if up_to_date opts (existing (l_CloneURL l) w) v then None else Some (job_of opts l v)
  | Err _ => None
  end.

Lemma get_url_quiet u w :
  quiet w →
  answer _ (GetByCloneURL u) w =
    (w, match with_url u w with s :: _ => Ok s | [] => Err Registry.ErrNotFound end).
Proof.
  intros Hq. unfold answer, on_reg, Registry.GetByCloneURL, Registry.statement, with_url. rewrite Hq.
  destruct (filter _ _); by destruct w as [[] ?].
Qed.

Lemma collect_exec ls jobs w :
  quiet w → exec (collect opts ls jobs) w = (w, jobs ++ omap (queued w) ls).
Proof.
  intros Hq. revert jobs. induction ls as [|l ls IH]; intros jobs; [by rewrite app_nil_r|].
  cbn [collect]. unfold do, mbind, prog_bind. cbn [pbind exec_prog]. rewrite get_url_quiet by done. cbv iota beta.
  assert (match match with_url (l_CloneURL l) w with s :: _ => Ok s | [] => Err Registry.ErrNotFound end with
    | Ok s => Some s | Err e => if errors_is e strategy_ErrNotFound then Some zero_Strategy else None end
    = Some (existing (l_CloneURL l) w)) as -> by (unfold existing; by destruct (with_url _ w)).
  cbn [pbind exec_prog answer]. cbn [omap list_omap]. unfold queued at 1.
  destruct (remote (l_CloneURL l)) as [v|e]; [|apply IH].
  destruct (up_to_date opts _ v); rewrite IH; [done|]. by rewrite <-app_assoc.
Qed.

(** The row with a URL, when no two rows share it. *)
Lemma existing_row w k s :
  rows w !! k = Some s → (∀ k' s', rows w !! k' = Some s' → s_CloneURL s' = s_CloneURL s → k' = k) →
  existing (s_CloneURL s) w = s.
Proof.
  intros Hk Hu. unfold existing. destruct (with_url (s_CloneURL s) w) as [|x xs] eqn:Hw.
  - assert (s ∈ with_url (s_CloneURL s) w) as Hin; [|rewrite Hw in Hin; by apply not_elem_of_nil in Hin].
    apply list_elem_of_filter. split; [done|]. apply list_elem_of_fmap. exists (k, s).
    split; [done|]. by apply elem_of_range_map.
  - assert (x ∈ with_url (s_CloneURL s) w) as Hin by (rewrite Hw; by left). cbn.
    apply list_elem_of_filter in Hin as [Hx Hin]. apply list_elem_of_fmap in Hin as ([k' s'] & -> & Hin).
    apply elem_of_range_map in Hin. cbn in *. rewrite (Hu _ _ Hin Hx) in Hin. congruence.
Qed.
Lemma existing_cases u w :
  existing u w = zero_Strategy ∨ ∃ k, rows w !! k = Some (existing u w) ∧ s_CloneURL (existing u w) = u.
Proof.
  unfold existing. destruct (with_url u w) as [|x xs] eqn:Hw; [by left|]. right.
  assert (x ∈ with_url u w) as Hin by (rewrite Hw; by left).
  apply list_elem_of_filter in Hin as [Hx Hin]. apply list_elem_of_fmap in Hin as ([k s] & -> & Hin).
  apply elem_of_range_map in Hin. by exists k.
Qed.

(** ** The installs of a tick *)
Notation jkey j := (key (j_listing j) (j_version j)).
Definition install_job (w : world) (j : job) : world := install_world (j_listing j) (j_version j) w.
Definition from_listing (j : job) : Prop :=
  j = job_of opts (j_listing j) (j_version j) ∧ recordable (j_listing j) (j_version j).

Lemma install_quiet w j : quiet w → quiet (install_job w j).
Proof. done. Qed.

Lemma run_jobs_exec js w :
  quiet w → Forall from_listing js → exec (run_jobs opts js) w = (foldl install_job w js, ()).
Proof.
  intros Hq Hjs. revert w Hq. induction Hjs as [|j js [Hj Hd] Hjs IH]; intros w Hq; [done|].
  cbn [run_jobs]. rewrite exec_bind. rewrite Hj at 3. rewrite run_install_exec by done.
  rewrite IH by by apply install_quiet. done.
Qed.

Lemma install_rows w j k :
  rows (install_job w j) !! k =
    if decide (jkey j = k) then Some (after (j_listing j) (j_version j) (clock w) (rows w !! k)) else rows w !! k.
Proof.
  unfold install_job, install_world, set_row. cbn. case_decide as Hk; [subst; by rewrite lookup_insert_eq|].
  by rewrite lookup_insert_ne.
Qed.

Lemma jobs_rows js w k :
  NoDup (map (λ j, jkey j) js) →
  rows (foldl install_job w js) !! k =
    match list_find (λ j, jkey j = k) js with
    | Some (_, j) => Some (after (j_listing j) (j_version j) (clock w) (rows w !! k))
    | None => rows w !! k
    end.
Proof.
  revert w. induction js as [|j js IH]; intros w Hnd; [done|]. apply NoDup_cons in Hnd as [Hj Hnd].
  cbn [foldl list_find]. rewrite IH by done. rewrite install_rows. case_decide as Hk.
  - destruct (list_find (λ j, jkey j = k) js) as [[i j']|] eqn:Hf; [|done].
    exfalso. apply Hj. apply list_find_Some in Hf as (Hi & Hk' & _). rewrite Hk, <-Hk'.
    apply list_elem_of_In, (in_map (λ j, jkey j)), list_elem_of_In. by eapply list_elem_of_lookup_2.
  - by destruct (list_find (λ j, jkey j = k) js) as [[i j']|].
Qed.
Lemma jobs_spawned js w :
  w_spawned (foldl install_job w js) = w_spawned w ++ flat_map (λ j, tasks (j_listing j) (j_version j)) js.
Proof.
  revert w. induction js as [|j js IH]; intros w; cbn; [by rewrite app_nil_r|]. rewrite IH. cbn. by rewrite <-app_assoc.
Qed.

Lemma after_fields l v t old :
  s_LastAttemptedVer (after l v t old) = Some v ∧ s_CloneURL (after l v t old) = l_CloneURL l ∧
  match installed l v with
  | Ok res => DeriveInstallState (after l v t old) = InstallStateReady ∧
      s_InstalledVer (after l v t old) = Some v ∧ s_ArtifactKind (after l v t old) = Some kind ∧
      s_ArtifactRef (after l v t old) = Some (ArtifactRef res)
  | Err e => s_InstallError (after l v t old) = Some (err_text e) ∧
      s_InstalledVer (after l v t old) = (old ≫= s_InstalledVer) ∧
      s_ArtifactKind (after l v t old) = (old ≫= s_ArtifactKind) ∧
      s_ArtifactRef (after l v t old) = (old ≫= s_ArtifactRef)
  end.
Proof. unfold after, Registry.upsert_row. destruct (installed l v), old; done. Qed.

(** ** Ticks settle *)
Record settles (ls : list Listing) (w : world) : Prop := {
  se_discover : discover = Ok ls;
  se_quiet : quiet w;
  (** One listing per repository. *)
  se_urls : NoDup (map l_CloneURL ls);
  (** Two listings do not install under one key. *)
  se_keys l l' v v' : l ∈ ls → l' ∈ ls → remote (l_CloneURL l) = Ok v → remote (l_CloneURL l') = Ok v' →
    key l v = key l' v' → l = l';
  (** The rows of a listing's repository are under the key it installs under. *)
  se_rows l v k s : l ∈ ls → remote (l_CloneURL l) = Ok v → rows w !! k = Some s →
    s_CloneURL s = l_CloneURL l → k = key l v;
  (** What is recorded is text and JSON the database takes. *)
  se_recordable l v : l ∈ ls → remote (l_CloneURL l) = Ok v → recordable l v;
}.

(** The install failed over an artifact of the other kind: the row keeps that
    artifact, and with it the reason to install again. *)
Definition mismatched (w : world) (l : Listing) (v : string) : bool :=
  match installed l v, rows w !! key l v ≫= s_ArtifactKind with
  | Err _, Some k => negb (bool_decide (k = kind))
  | _, _ => false
  end.

Section settle.
Hypothesis order_perm : ∀ js, order js ≡ₚ js.
Context (ls : list Listing) (w : world).
Hypothesis Hs : settles ls w.
Notation js := (order (omap (queued w) ls)).
Notation w' := (foldl install_job w js).

Lemma url_inj l l' : l ∈ ls → l' ∈ ls → l_CloneURL l = l_CloneURL l' → l = l'.
Proof using Hs.
  pose proof (se_urls _ _ Hs) as Hu. revert Hu. clear. induction ls as [|x xs IH]; [by intros _ ?%not_elem_of_nil|].
  intros [Hx Hu]%NoDup_cons [->|Hl]%elem_of_cons [->|Hl']%elem_of_cons Heq; [done| | |by apply IH];
    exfalso; apply Hx; apply list_elem_of_In, in_map_iff; eexists; (split; [|by apply list_elem_of_In]); done.
Qed.

Lemma queued_job l j :
  queued w l = Some j → ∃ v, remote (l_CloneURL l) = Ok v ∧ j = job_of opts l v ∧
    up_to_date opts (existing (l_CloneURL l) w) v = false.
Proof.
  unfold queued. destruct (remote _) as [v|]; [|done]. destruct (up_to_date _ _ _) eqn:Hu; [done|].
  intros [= <-]. eauto.
Qed.
Lemma job_in j : j ∈ js → ∃ l v, l ∈ ls ∧ remote (l_CloneURL l) = Ok v ∧ j = job_of opts l v ∧ queued w l = Some j.
Proof using order_perm.
  rewrite order_perm, list_elem_of_omap. intros (l & Hl & Hq). destruct (queued_job _ _ Hq) as (v & Hv & Hj & _).
  by exists l, v.
Qed.
Lemma js_from : Forall from_listing js.
Proof using order_perm Hs.
  apply Forall_forall. intros j (l & v & Hl & Hv & -> & _)%job_in. split; [done|]. by apply (se_recordable _ _ Hs).
Qed.
Lemma js_keys : NoDup (map (λ j, jkey j) js).
Proof using order_perm Hs.
  rewrite order_perm. assert (NoDup ls) as Hnd by (eapply NoDup_fmap_1; exact (se_urls _ _ Hs)).
  assert (∀ l, l ∈ ls → l ∈ ls) as Hin by done. revert Hnd Hin. generalize ls at 1 2 4. intros xs.
  induction xs as [|l xs IH]; intros Hnd Hin; [constructor|]. apply NoDup_cons in Hnd as [Hl Hnd].
  assert (NoDup (map (λ j, jkey j) (omap (queued w) xs))) as Hxs by (apply IH; [done|]; intros x Hx; apply Hin; by right).
  cbn [omap list_omap]. destruct (queued w l) as [j|] eqn:Hq; [|done]. cbn [map]. apply NoDup_cons. split; [|done].
  intros Hk. apply list_elem_of_In, in_map_iff in Hk as (j' & Hkj & Hj'). apply list_elem_of_In, list_elem_of_omap in Hj' as (l' & Hl' & Hq').
  destruct (queued_job _ _ Hq) as (v & Hv & -> & _), (queued_job _ _ Hq') as (v' & Hv' & -> & _).
  assert (l' = l) as ->; [|done]. eapply (se_keys _ _ Hs); [..|exact Hkj]; [apply Hin; by right|apply Hin; by left|done|done].
Qed.

(** What the jobs make of a key. *)
Lemma settled_row k :
  (∃ l v, l ∈ ls ∧ remote (l_CloneURL l) = Ok v ∧ key l v = k ∧ queued w l = Some (job_of opts l v) ∧
     rows w' !! k = Some (after l v (clock w) (rows w !! k))) ∨
  (∀ l v, l ∈ ls → remote (l_CloneURL l) = Ok v → key l v = k → queued w l = None) ∧ rows w' !! k = rows w !! k.
Proof using order_perm Hs.
  rewrite (jobs_rows js w k js_keys). destruct (list_find (λ j, jkey j = k) js) as [[i j]|] eqn:Hf.
  - left. apply list_find_Some in Hf as (Hi & Hk & _). apply list_elem_of_lookup_2 in Hi.
    destruct (job_in _ Hi) as (l & v & Hl & Hv & -> & Hq). by exists l, v.
  - right. split; [|done]. intros l v Hl Hv Hk. destruct (queued w l) as [j|] eqn:Hq; [|done]. exfalso.
    apply list_find_None in Hf. rewrite Forall_forall in Hf. destruct (queued_job _ _ Hq) as (v' & Hv' & -> & _).
    apply (Hf (job_of opts l v')); [rewrite order_perm; apply list_elem_of_omap; by exists l|].
    cbn. congruence.
Qed.

Lemma settled l v :
  l ∈ ls → remote (l_CloneURL l) = Ok v →
  ∃ s, rows w' !! key l v = Some s ∧ s_CloneURL s = l_CloneURL l ∧ s_LastAttemptedVer s = Some v ∧
    up_to_date opts s v = negb (mismatched w l v) ∧
    match queued w l with
    | Some _ => s = after l v (clock w) (rows w !! key l v)
    | None => rows w !! key l v = Some s
    end.
Proof using order_perm Hs.
  intros Hl Hv. destruct (settled_row (key l v)) as [(l' & v' & Hl' & Hv' & Hk & Hq & Hr)|[Hq Hr]].
  - assert (l' = l) as -> by (by eapply (se_keys _ _ Hs)). assert (v' = v) as -> by congruence.
    rewrite Hr, Hq. eexists. split; [done|].
    destruct (after_fields l v (clock w) (rows w !! key l v)) as (Ha & Hu & Hi). do 2 (split; [done|]). split; [|done].
    unfold up_to_date, mismatched. rewrite Ha, bool_decide_eq_true_2 by done. cbn [andb].
    destruct (installed l v) as [res|e] eqn:Hin.
    + destruct Hi as (_ & _ & -> & _). by apply bool_decide_eq_true.
    + destruct Hi as (_ & _ & -> & _). destruct (rows w !! key l v ≫= s_ArtifactKind); [|done].
      by rewrite negb_involutive.
  - specialize (Hq l v Hl Hv eq_refl). rewrite Hr, Hq. unfold queued in Hq. rewrite Hv in Hq.
    destruct (up_to_date opts (existing (l_CloneURL l) w) v) eqn:Hup; [|done].
    destruct (existing_cases (l_CloneURL l) w) as [He|(k & Hk & Hu)]; [by rewrite He in Hup|].
    pose proof (se_rows _ _ Hs _ _ _ _ Hl Hv Hk Hu) as ->. eexists. split; [exact Hk|]. split; [done|].
    apply andb_true_iff in Hup as Hup'. destruct Hup' as [Hlast%bool_decide_eq_true Hkind]. split; [done|]. split; [|done].
    rewrite Hup. unfold mismatched. rewrite Hk. cbn. destruct (installed l v), (s_ArtifactKind _); try done.
    fold kind in Hkind. by rewrite Hkind.
Qed.

Lemma settled_queue l v :
  l ∈ ls → remote (l_CloneURL l) = Ok v →
  queued w' l = if mismatched w l v then Some (job_of opts l v) else None.
Proof using order_perm Hs.
  intros Hl Hv. unfold queued at 1. rewrite Hv.
  destruct (settled l v Hl Hv) as (s & Hr & Hu & _ & Hup & _).
  assert (existing (s_CloneURL s) w' = s) as He.
  { apply (existing_row w' (key l v)); [done|]. intros k' s' Hk' Hu'. rewrite Hu in Hu'.
    destruct (settled_row k') as [(l1 & v1 & Hl1 & Hv1 & Hk1 & _ & Hr1)|[_ Hr1]]; rewrite Hr1 in Hk'.
    - injection Hk' as <-. destruct (after_fields l1 v1 (clock w) (rows w !! k')) as (_ & Hu1 & _).
      assert (l1 = l) as -> by (apply url_inj; [done..|congruence]). congruence.
    - by eapply (se_rows _ _ Hs). }
  rewrite <-Hu, He, Hup. by destruct (mismatched w l v).
Qed.

Lemma tick_exec ls' v :
  discover = Ok ls' → quiet v → Forall from_listing (order (omap (queued v) ls')) →
  exec (Tick opts order) v = (foldl install_job v (order (omap (queued v) ls')), None).
Proof.
  intros Hd Hq Hj. unfold Tick. rewrite exec_bind. change (exec (do Discovery) v) with (v, discover).
  rewrite Hd. cbv iota beta. rewrite exec_bind, collect_exec by done. cbv iota beta. cbn [app].
  by rewrite exec_bind, run_jobs_exec by done.
Qed.

Lemma foldl_quiet l v : quiet v → quiet (foldl install_job v l).
Proof. revert v. induction l as [|j l IH]; intros v Hv; [done|]. apply IH. done. Qed.
End settle.

(** C30: a tick of the registry's reconciliation.  The database has no fault, there
    is one listing per repository, no two listings install under one key, the row
    of a listing's repository, if any, is under the key it installs under, and what
    is recorded is text and JSON the database takes.  Then every listing whose
    version resolves is recorded at that version: if it was due, with what the
    installer gave - ready with its artifact, or failed with the previous artifact
    kept - and unchanged otherwise; background tasks are started for the successful
    installs only; and a second tick with the same answers queues exactly the
    installs that failed over an artifact of the other runner mode's kind - it tries
    those again, as every later tick does - so that without such an install it
    finds nothing to do and changes nothing. *)
Theorem tick_settles (order_perm : ∀ js, order js ≡ₚ js) (ls : list Listing) (w : world) :
  settles ls w →
  let w' := (exec (Tick opts order) w).1 in
  (exec (Tick opts order) w).2 = None ∧
  (∀ l v, l ∈ ls → remote (l_CloneURL l) = Ok v →
    ∃ s, rows w' !! key l v = Some s ∧ s_CloneURL s = l_CloneURL l ∧ s_LastAttemptedVer s = Some v ∧
    if up_to_date opts (existing (l_CloneURL l) w) v then rows w !! key l v = Some s
    else match installed l v with
      | Ok res => DeriveInstallState s = InstallStateReady ∧ s_InstalledVer s = Some v ∧
          s_ArtifactKind s = Some kind ∧ s_ArtifactRef s = Some (ArtifactRef res)
      | Err e => s_InstallError s = Some (err_text e) ∧
          s_InstalledVer s = (rows w !! key l v ≫= s_InstalledVer) ∧
          s_ArtifactRef s = (rows w !! key l v ≫= s_ArtifactRef)
      end) ∧
  w_spawned w' ≡ₚ w_spawned w ++ flat_map (λ j, tasks (j_listing j) (j_version j)) (omap (queued w) ls) ∧
  (∀ l v, l ∈ ls → remote (l_CloneURL l) = Ok v →
    queued w' l = if mismatched w l v then Some (job_of opts l v) else None) ∧
  ((∀ l v, l ∈ ls → remote (l_CloneURL l) = Ok v → mismatched w l v = false) →
    exec (Tick opts order) w' = (w', None)).
Proof.
  intros Hs. cbv zeta. pose proof (se_discover _ _ Hs) as Hd. pose proof (se_quiet _ _ Hs) as Hq.
  rewrite (tick_exec ls w Hd Hq (js_from order_perm ls w Hs)). cbn [fst snd]. split; [done|].
  split; [|split; [|split]].
  - intros l v Hl Hv. destruct (settled order_perm ls w Hs l v Hl Hv) as (s & Hr & Hu & Hlast & _ & Hcase).
    exists s. do 3 (split; [done|]). unfold queued in Hcase. rewrite Hv in Hcase.
    destruct (up_to_date opts (existing (l_CloneURL l) w) v); [done|]. subst s.
    destruct (after_fields l v (clock w) (rows w !! key l v)) as (_ & _ & Hi).
    destruct (installed l v); [tauto|]. destruct Hi as (? & ? & _ & ?). done.
  - rewrite jobs_spawned. apply Permutation_app; [done|]. apply Permutation_flat_map. apply order_perm.
  - by apply settled_queue.
  - intros Hmis. assert (∀ l, l ∈ ls → queued (foldl install_job w (order (omap (queued w) ls))) l = None) as Hsq.
    { intros l Hl. destruct (remote (l_CloneURL l)) as [v|e] eqn:Hv; [|unfold queued at 1; by rewrite Hv].
      by rewrite (settled_queue order_perm ls w Hs l v Hl Hv), (Hmis l v Hl Hv). }
    assert (omap (queued (foldl install_job w (order (omap (queued w) ls)))) ls = []) as Hnone.
    { set (w' := foldl _ _ _) in *. clearbody w'. clear Hs Hd Hmis. induction ls as [|l xs IH]; [done|].
      cbn [omap list_omap]. rewrite Hsq by by left. apply IH. intros x Hx. apply Hsq. by right. }
    assert (order [] = []) as Hnil by (apply Permutation_nil; symmetry; apply order_perm).
    rewrite (tick_exec ls); [by rewrite Hnone, Hnil|done|by apply foldl_quiet|by rewrite Hnone, Hnil].
Qed.
End ticks.

(** ** A concrete registry *)
Section demo.
#[local] Existing Instance canonical_range.
Definition demo_listing : Listing :=
  {| l_Name := "momentum-repo"; l_Owner := "penny-vault"; l_Description := ""; l_Categories := [];
     l_CloneURL := "https://github.com/penny-vault/momentum-repo.git"; l_Stars := 3; l_UpdatedAt := 0 |}.
Definition demo_opts : SyncerOptions :=
  {| o_Installer := true; o_DockerInstaller := false; o_RunnerMode := "host"; o_OfficialDir := "/opt/strategies";
     o_Concurrency := 2; o_Interval := 1; o_Stats := true; o_AutoUpgrader := true |}.
Definition demo_install (d : bool) (req : InstallRequest) : result InstallResult :=
  if bool_decide (ir_Version req = "v1") then Err (opaque_err "go build: exit status 1")
  else Ok {| BinPath := "/b"; ArtifactRef := "/b"; DescribeJSON := "{}"; res_ShortCode := "adm" |}.
Definition demo_registry (rows : gmap string Strategy) : world :=
  {| w_reg := {| Registry.rg_rows := rows; Registry.rg_now := 7; Registry.rg_faults := [] |}; w_spawned := [] |}.
Definition demo_tick (v : string) (w : world) : world :=
  (exec_prog (answer Some (Ok [demo_listing]) (λ _, Ok v) demo_install) (Tick demo_opts id) w).1.

Lemma registry_writes_keep_rows_witness :
  registry_ok (fold_left (λ r o, (perform Some o r).1)
    [WUpsert (row_of "adm" demo_listing); WMarkSuccess "adm" "v1" "binary" "/b" "{}"; WMarkFailure "adm" "v2" "x"]
    (w_reg (demo_registry ∅))).
Proof. apply registry_writes_keep_rows. intros k s Hk. done. Defined.

Lemma tick_settles_witness :
  let w' := demo_tick "v2" (demo_registry ∅) in
  (∃ s, Registry.rg_rows (w_reg w') !! "adm" = Some s ∧ DeriveInstallState s = InstallStateReady) ∧
  demo_tick "v2" w' = w'.
Proof.
  cbv zeta. assert (settles Some (Ok [demo_listing]) (λ _, Ok "v2") demo_install demo_opts [demo_listing] (demo_registry ∅)) as Hs.
  { split; try done.
    - by apply NoDup_singleton.
    - by intros l l' v v' ->%list_elem_of_singleton ->%list_elem_of_singleton.
    - intros l v ->%list_elem_of_singleton [= <-]. vm_compute. eauto. }
  destruct (tick_settles Some (Ok [demo_listing]) (λ _, Ok "v2") demo_install demo_opts id (λ js, reflexivity js)
    [demo_listing] (demo_registry ∅) Hs) as (_ & Hrow & _ & _ & Hagain). split.
  - destruct (Hrow demo_listing "v2") as (s & Hr & _ & _ & Hst); [by left|done|].
    exists s. split; [exact Hr|].
    assert (up_to_date demo_opts (existing (l_CloneURL demo_listing) (demo_registry ∅)) "v2" = false) as Hup
      by (vm_compute; reflexivity).
    rewrite Hup in Hst. exact (proj1 Hst).
  - refine (f_equal fst (Hagain _)). by intros l v ->%list_elem_of_singleton [= <-].
Defined.

(** A failed first install is recorded under the repository's name, a later
    successful one under the binary's short code: with two rows for the
    repository, every tick reads the stale one and installs again. *)
Lemma stale_failure_reinstalls :
  let w := demo_tick "v2" (demo_tick "v1" (demo_registry ∅)) in
  w_spawned w = [SStats "adm"; SUpgrade "adm" "v2"] ∧
  w_spawned (demo_tick "v2" w) = w_spawned w ++ w_spawned w ∧
  w_spawned (demo_tick "v2" (demo_tick "v2" w)) = w_spawned w ++ w_spawned w ++ w_spawned w.
Proof. vm_compute. done. Qed.

(** Two repositories whose binaries report one short code take the row from each
    other: every tick finds one of them missing and installs it again. *)
Definition demo_fork : Listing :=
  {| l_Name := "momentum-fork"; l_Owner := "someone"; l_Description := ""; l_Categories := [];
     l_CloneURL := "https://github.com/someone/momentum-fork.git"; l_Stars := 0; l_UpdatedAt := 0 |}.
Definition demo_tick2 (w : world) : world :=
  (exec_prog (answer Some (Ok [demo_listing; demo_fork]) (λ _, Ok "v2") demo_install) (Tick demo_opts id) w).1.
Example shared_code_reinstalls :
  map (λ n, length (w_spawned (Nat.iter n demo_tick2 (demo_registry ∅)))) [1; 2; 3; 4]%nat = [4; 6; 8; 10]%nat.
Proof. vm_compute. reflexivity. Qed.

(** After a switch to images, a listing whose image does not build is built again
    by every tick: the failure keeps the binary's kind. *)
Definition demo_docker : SyncerOptions := demo_opts <| o_RunnerMode := "docker" |> <| o_DockerInstaller := true |>.
Definition demo_builds (w : world) : list job :=
  omap (queued (λ _, Ok "v2") demo_docker w) [demo_listing].
Definition demo_docker_tick (w : world) : world :=
  (exec_prog (answer Some (Ok [demo_listing]) (λ _, Ok "v2") (λ _ _, Err (opaque_err "docker build: exit status 1")))
     (Tick demo_docker id) w).1.
Example failed_switch_rebuilds :
  let w := demo_registry {["momentum-repo" := Registry.success "v2" artifactKindBinary "/b" "{}" 1
             (row_of "momentum-repo" demo_listing)]} in
  map (λ n, length (demo_builds (Nat.iter n demo_docker_tick w))) [0; 1; 2; 3]%nat = [1; 1; 1; 1]%nat.
Proof. vm_compute. reflexivity. Qed.
End demo.
