(* ===== verification/Builds.v ===== *)
(** Builds of strategies: the throw-away builds of unofficial ones
    (src/strategy/ephemeral.go, docker_ephemeral.go), the image installer
    (docker_install.go, dockerfile.go) and the artifact resolution of the
    backtest runner (src/cmd/server.go), as programs over git, the Go tool
    chain, the file system and the Docker daemon. *)
From S2P Require Import Prelude GoStrings Types Json Path Prog Sync.
From Stdlib Require Import Ascii.

Definition ErrInvalidCloneURL : goerror := sentinel_err strategy_ErrInvalidCloneURL
  "cloneUrl must be an https GitHub URL of the form https://github.com/<owner>/<repo>(.git)?".
Definition ErrDockerBuildFailed : goerror :=
  sentinel_err strategy_ErrDockerBuildFailed "strategy: docker image build failed".
Definition ErrDockerClientNil : goerror :=
  sentinel_err strategy_ErrDockerClientNil "strategy: docker client is nil".
Definition ErrDescribeNonZeroExit : goerror :=
  sentinel_err strategy_ErrDescribeNonZeroExit "strategy: describe container exited non-zero".

(** ** Clone URLs *)

(** The class [[A-Za-z0-9_.-]]. *)
Definition url_char (c : ascii) : bool :=
  let n := Z.of_nat (code c) in
  ((65 <=? n) && (n <=? 90)) || ((97 <=? n) && (n <=? 122)) || ((48 <=? n) && (n <=? 57))
  || (n =? 95) || (n =? 46) || (n =? 45).
Definition url_element (s : string) : bool := negb (bool_decide (s = "")) && forallb url_char (bytes_of s).

(** [cloneURLRe]: the optional [.git] lies within the class before it, and the
    class holds no slash, so the text after the host is two elements. *)
Definition cloneURLRe (s : string) : bool :=
  match strip_prefix "https://github.com/" s with
  | Some rest => match split_byte rest slash with [owner; repo] => url_element owner && url_element repo | _ => false end
  | None => false
  end.

(** [ValidateCloneURL]. *)
Definition ValidateCloneURL (cloneURL : string) : option goerror :=
  if bool_decide (cloneURL = "") || negb (cloneURLRe cloneURL) then Some ErrInvalidCloneURL else None.

(** ** Dockerfile *)
Definition DefaultGoVersion : string := "1.24".

(** [RenderDockerfile]. *)
Definition dockerfile_lines (goVer : string) : list string :=
  ["# syntax=docker/dockerfile:1.7"; "FROM golang:" +:+ goVer +:+ "-alpine AS build"; "WORKDIR /src"; "COPY . .";
   "RUN CGO_ENABLED=0 go build -trimpath -o /out/strategy ."; "";
   "FROM gcr.io/distroless/static-debian12:nonroot"; "COPY --from=build /out/strategy /strategy";
   "USER nonroot:nonroot"; "ENTRYPOINT [" +:+ quote +:+ "/strategy" +:+ quote +:+ "]"; ""].
Definition RenderDockerfile (goVer : string) : string :=
  join (dockerfile_lines (if bool_decide (goVer = "") then DefaultGoVersion else goVer)) newline.

(** ** The calls *)

(** One callback of [filepath.Walk]: the path, the error it reports, whether the
    file is regular, and what [tar.FileInfoHeader] says of it. *)
Record walked := { wk_path : string; wk_err : option goerror; wk_header : option goerror; wk_regular : bool }.

(** How a wait for a container ends: [wait.Error], [wait.Result] or the context. *)
Inductive wait_end := WaitError (e : goerror) | WaitResult (status : Z) | WaitDone (e : goerror).

Inductive build_call : Type → Type :=
  | WithTimeout (d : Z) : build_call unit
  | MkdirAll (dir : string) : build_call (option goerror)
  | MkdirTemp (parent pattern : string) : build_call (result string)
  | Run (argv : list string) (dir : string) : build_call (option goerror * string)
  | RemoveAll (dir : string) : build_call unit
  | ReadFile (path : string) : build_call (result string)
  | WriteFile (path data : string) : build_call (option goerror)
  | Walk (dir : string) : build_call (list walked)
  | TarHeader (name : string) : build_call (option goerror)
  | TarFile (path : string) : build_call (option goerror)
  | TarClose : build_call (result string)
  | NewUUID : build_call string
  | ImageBuild (context tag : string) : build_call (result string)
  | ImageRemove (tag : string) : build_call unit
  | ContainerCreate (image : string) (cmd : list string) : build_call (result string)
  | ContainerStart (id : string) : build_call (option goerror)
  | ContainerWait (id : string) : build_call wait_end
  | ContainerLogs (id : string) : build_call (result string)
  | Lookup (cloneURL ver : string) : build_call (result string).

Notation B := (prog build_call).

Definition git_clone (ver url dir : string) : list string :=
  ["git"; "clone"; "--depth=1"] ++ (if bool_decide (ver = "") then [] else ["--branch"; ver]) ++ [url; dir].
Definition defaultEphemeralTimeout : Z := 5 * 60 * 1000000000.

(** [EphemeralOptions] and [DockerEphemeralOptions]; a nil client is [false]. *)
Record EphemeralOptions := {
  eo_CloneURL : string; eo_Ver : string; eo_Dir : string; eo_Timeout : Z; eo_SkipURLValidation : bool;
}.
Record DockerEphemeralOptions := {
  de_opts : EphemeralOptions; de_Client : bool; de_ImagePrefix : string;
}.

(** What a build leaves for its user: a binary, or an image with its context. *)
Inductive built :=
  | BuiltBinary (binPath buildDir : string)
  | BuiltImage (tag buildDir : string).

Section builds.
(** [os.TempDir()]. *)
Context (TempDir : string).
(** [modfile.ParseLax]: the [go] directive of a go.mod, if there is one. *)
Context (go_directive : string → option string).
(** The frames of a build stream: their text and error message, and the error the
    JSON decoder ends with. *)
Context (decode_frames : string → list (string * option string) * option goerror).
(** [stdcopy.StdCopy]: the standard output in a log stream; reaching its end is no error. *)
Context (StdCopy : string → result string).
(** [url.Parse]: host and path. *)
Context (url_parse : string → result (string * string)).
Context (unmarshal_describe : string → result Describe).

(** *** src/strategy/dockerfile.go *)

(** [ParseGoVersion]. *)
Definition ParseGoVersion (dir : string) : B string :=
  data ← do (ReadFile (Join [dir; "go.mod"]));
  Ret (match data with Ok data => default "" (go_directive data) | Err _ => "" end).

(** [writeDockerfileIntoDir]. *)
Definition writeDockerfileIntoDir (dir : string) : B (option goerror) :=
  goVer ← ParseGoVersion dir;
  e ← do (WriteFile (Join [dir; "Dockerfile"]) (RenderDockerfile goVer));
  Ret (wrap "write Dockerfile: " <$> (e : option goerror)).

(** *** src/strategy/docker_install.go *)

(** [filepath.Rel] of a path that [Walk] found under [dir]. *)
Definition rel (dir path : string) : string :=
  if bool_decide (Clean dir = Clean path) then "."
  else default (Clean path) (strip_prefix (Clean dir +:+ "/") (Clean path)).

(** The callback of [tarDir]; the first error ends the walk. *)
Definition tar_entry (dir : string) (w : walked) : B (option goerror) :=
  match wk_err w with
  | Some e => Ret (Some e)
  | None =>
    let name := rel dir (wk_path w) in
    if bool_decide (name = ".") then Ret None
    else match wk_header w with
         | Some e => Ret (Some e)
         | None =>
           h ← do (TarHeader name);
           match h with
           | Some e => Ret (Some e)
           | None => if wk_regular w then do (TarFile (wk_path w)) else Ret None
           end
         end
  end.
Fixpoint tar_walk (dir : string) (l : list walked) : B (option goerror) :=
  match l with
  | [] => Ret None
  | w :: l => e ← tar_entry dir w; match e with Some e => Ret (Some e) | None => tar_walk dir l end
  end.

(** [tarDir]. *)
Definition tarDir (dir : string) : B (result string) :=
  l ← do (Walk dir);
  e ← tar_walk dir l;
  match e with Some e => Ret (Err e) | None => do TarClose end.

(** [drainBuildStream]: the text so far, and the error. *)
Fixpoint drain_frames (out : string) (frames : list (string * option string)) (e : option goerror) :
    string * option goerror :=
  match frames with
  | [] => (out, e)
  | (text, detail) :: frames =>
    match detail with
    | Some msg => (out +:+ text, Some (wrap_post ErrDockerBuildFailed (": " +:+ msg)))
    | None => drain_frames (out +:+ text) frames e
    end
  end.
Definition drainBuildStream (body : string) : string * option goerror :=
  let '(frames, e) := decode_frames body in drain_frames "" frames e.

(** [buildDockerImage]. *)
Definition buildDockerImage (dir tag : string) : B (option goerror) :=
  ctx ← tarDir dir;
  match ctx with
  | Err e => Ret (Some (wrap "tar build context: " e))
  | Ok ctx =>
    resp ← do (ImageBuild ctx tag);
    match resp with
    | Err e => Ret (Some (wrap2 ErrDockerBuildFailed e))
    | Ok body =>
      match drainBuildStream body with
      | (out, Some e) => Ret (Some (wrap_post (wrap2 ErrDockerBuildFailed e) (newline +:+ out)))
      | (_, None) => Ret None
      end
    end
  end.

(** [runDescribeInContainer]. *)
Definition runDescribeInContainer (image : string) : B (result string) :=
  resp ← do (ContainerCreate image ["describe"; "--json"]);
  match resp with
  | Err e => Ret (Err (wrap "container create: " e))
  | Ok id =>
    s ← do (ContainerStart id);
    match s with
    | Some e => Ret (Err (wrap "container start: " e))
    | None =>
      w ← do (ContainerWait id);
      match w with
      | WaitError e => Ret (Err (wrap "container wait: " e))
      | WaitDone e => Ret (Err e)
      | WaitResult status =>
        if negb (status =? 0) then Ret (Err (wrap_post ErrDescribeNonZeroExit (": exit " +:+ itoa status)))
        else
          logs ← do (ContainerLogs id);
          match logs with
          | Err e => Ret (Err (wrap "container logs: " e))
          | Ok stream =>
            Ret (match StdCopy stream with
                 | Err e => Err (wrap "demux logs: " e)
                 | Ok stdout => Ok (trim_space stdout)
                 end)
          end
      end
    end
  end.

(** [describeDockerImage]. *)
Definition describeDockerImage (tag : string) : B (result (string * Describe)) :=
  d ← runDescribeInContainer tag;
  match d with
  | Err e => Ret (Err (wrap "describe after build: " e))
  | Ok describeJSON =>
    match unmarshal_describe describeJSON with
    | Err e => Ret (Err (wrap "parsing describe output: " e))
    | Ok parsed => Ret (Ok (describeJSON, parsed))
    end
  end.

(** [ImageTag]. *)
Definition replace_all (s : string) (a b : ascii) : string :=
  of_bytes (map (λ c, if decide (c = a) then b else c) (bytes_of s)).
Definition ImageTag (prefix cloneURL ver : string) : string :=
  let unknown slug :=
    prefix +:+ "/unknown/" +:+ replace_all (replace_all slug slash (byte 45)) (byte 58) (byte 45) +:+ ":" +:+ ver in
  match url_parse cloneURL with
  | Ok (host, path) =>
    let other := unknown (if bool_decide (host = "") then cloneURL else host +:+ path) in
    if bool_decide (host = "github.com") then
      let path := trim_suffix (trim_prefix path "/") ".git" in
      match index_byte path slash with
      | Some n => prefix +:+ "/" +:+ slice_to path n +:+ "/" +:+ slice_from path (Datatypes.S n) +:+ ":" +:+ ver
      | None => other
      end
    else other
  | Err _ => unknown cloneURL
  end.

(** [DockerInstallDeps] and [validateDockerInstallInputs], which fills in defaults. *)
Record DockerInstallDeps := { di_Client : bool; di_ImagePrefix : string; di_BuildTimeout : Z }.
Definition validateDockerInstallInputs (req : InstallRequest) (deps : DockerInstallDeps) :
    result DockerInstallDeps :=
  if bool_decide (ir_CloneURL req = "" ∨ ir_Version req = "" ∨ ir_DestDir req = "") then Err ErrInstallMissingFields
  else if negb (di_Client deps) then Err ErrDockerClientNil
  else Ok {| di_Client := true;
             di_ImagePrefix := if bool_decide (di_ImagePrefix deps = "") then "pvapi-strategy" else di_ImagePrefix deps;
             di_BuildTimeout := if di_BuildTimeout deps <=? 0 then 10 * 60 * 1000000000 else di_BuildTimeout deps |}.

(** [InstallDocker]; the build directory is the caller's. *)
Definition InstallDocker (req : InstallRequest) (deps : DockerInstallDeps) : B (result InstallResult) :=
  match validateDockerInstallInputs req deps with
  | Err e => Ret (Err e)
  | Ok deps =>
    _ ← do (WithTimeout (di_BuildTimeout deps));
    c ← do (Run ["git"; "clone"; "--depth=1"; "--branch"; ir_Version req; ir_CloneURL req; ir_DestDir req] "");
    match c : option goerror * string with
    | (Some e, out) => Ret (Err (wrap ("git clone " +:+ ir_CloneURL req +:+ "@" +:+ ir_Version req +:+ ": ")
                                   (wrap_post e (newline +:+ out))))
    | (None, _) =>
      w ← writeDockerfileIntoDir (ir_DestDir req);
      match w with
      | Some e => Ret (Err e)
      | None =>
        let tag := ImageTag (di_ImagePrefix deps) (ir_CloneURL req) (ir_Version req) in
        b ← buildDockerImage (ir_DestDir req) tag;
        match b with
        | Some e => Ret (Err e)
        | None =>
          d ← describeDockerImage tag;
          match d with
          | Err e => Ret (Err e)
          | Ok (describeJSON, parsed) =>
            Ret (Ok {| BinPath := ""; ArtifactRef := tag; DescribeJSON := describeJSON;
                       res_ShortCode := d_ShortCode parsed |})
          end
        end
      end
    end
  end.

(** *** src/strategy/ephemeral.go *)

(** [removeDir] and the cleanup of an image: the flag says that it ran. *)
Definition cleanup (b : built) (removed : bool) : B bool :=
  if removed then Ret true
  else match b with
       | BuiltBinary _ dir => _ ← do (RemoveAll dir); Ret true
       | BuiltImage tag dir => _ ← do (ImageRemove tag); _ ← do (RemoveAll dir); Ret true
       end.
Fixpoint cleanups (b : built) (n : nat) (removed : bool) : B bool :=
  match n with 0%nat => Ret removed | Datatypes.S n => r ← cleanup b removed; cleanups b n r end.

Definition or_default (s d : string) : string := if bool_decide (s = "") then d else s.
Definition or_timeout (t : Z) : Z := if t =? 0 then defaultEphemeralTimeout else t.

(** [EphemeralBuild]; the deferred [removeDir] of an error path runs once. *)
Definition EphemeralBuild (opts : EphemeralOptions) : B (result built) :=
  match (if eo_SkipURLValidation opts then None else ValidateCloneURL (eo_CloneURL opts)) with
  | Some e => Ret (Err e)
  | None =>
    let parent := or_default (eo_Dir opts) TempDir in
    m ← do (MkdirAll parent);
    match m with
    | Some e => Ret (Err (wrap "ephemeral: create parent dir: " e))
    | None =>
      t ← do (MkdirTemp parent "build-*");
      match t with
      | Err e => Ret (Err (wrap "ephemeral: mkdtemp: " e))
      | Ok buildDir =>
        _ ← do (WithTimeout (or_timeout (eo_Timeout opts)));
        c ← do (Run (git_clone (eo_Ver opts) (eo_CloneURL opts) buildDir) "");
        match c : option goerror * string with
        | (Some e, out) =>
          _ ← do (RemoveAll buildDir);
          Ret (Err (wrap ("ephemeral: git clone " +:+ eo_CloneURL opts +:+ ": ") (wrap_post e (newline +:+ out))))
        | (None, _) =>
          let binPath := Join [buildDir; "strategy.bin"] in
          g ← do (Run ["go"; "build"; "-o"; binPath; "."] buildDir);
          match g : option goerror * string with
          | (Some e, out) =>
            _ ← do (RemoveAll buildDir);
            Ret (Err (wrap "ephemeral: go build: " (wrap_post e (newline +:+ out))))
          | (None, _) => Ret (Ok (BuiltBinary binPath buildDir))
          end
        end
      end
    end
  end.

(** *** src/strategy/docker_ephemeral.go *)

(** [normalizeEphemeralOptions]. *)
Definition normalizeEphemeralOptions (o : DockerEphemeralOptions) : result DockerEphemeralOptions :=
  let opts := de_opts o in
  match (if eo_SkipURLValidation opts then None else ValidateCloneURL (eo_CloneURL opts)) with
  | Some e => Err e
  | None =>
    if negb (de_Client o) then Err ErrDockerClientNil
    else Ok {| de_opts := {| eo_CloneURL := eo_CloneURL opts; eo_Ver := eo_Ver opts;
                             eo_Dir := or_default (eo_Dir opts) TempDir; eo_Timeout := or_timeout (eo_Timeout opts);
                             eo_SkipURLValidation := eo_SkipURLValidation opts |};
               de_Client := true; de_ImagePrefix := or_default (de_ImagePrefix o) "pvapi-strategy" |}
  end.

(** [prepareEphemeralBuildDir]. *)
Definition prepareEphemeralBuildDir (parent : string) : B (result string) :=
  m ← do (MkdirAll parent);
  match m with
  | Some e => Ret (Err (wrap "ephemeral-image: parent dir: " e))
  | None =>
    t ← do (MkdirTemp parent "build-*");
    Ret (match t with Err e => Err (wrap "ephemeral-image: mkdtemp: " e) | Ok d => Ok d end)
  end.

(** [ephemeralClone]. *)
Definition ephemeralClone (cloneURL ver buildDir : string) : B (option goerror) :=
  c ← do (Run (git_clone ver cloneURL buildDir) "");
  match c : option goerror * string with
  | (Some e, out) => Ret (Some (wrap "ephemeral-image: git clone: " (wrap_post e (newline +:+ out))))
  | (None, _) => Ret None
  end.

(** [ephemeralBuildImage]. *)
Definition ephemeralBuildImage (buildDir tag : string) : B (option goerror) :=
  ctx ← tarDir buildDir;
  match ctx with
  | Err e => Ret (Some (wrap "ephemeral-image: tar: " e))
  | Ok ctx =>
    resp ← do (ImageBuild ctx tag);
    match resp with
    | Err e => Ret (Some (wrap2 ErrDockerBuildFailed e))
    | Ok body => Ret (wrap2 ErrDockerBuildFailed <$> (drainBuildStream body).2)
    end
  end.

(** The steps of [EphemeralImageBuild] between its directory and its result. *)
Definition image_steps (opts : EphemeralOptions) (buildDir tag : string) : B (option goerror) :=
  c ← ephemeralClone (eo_CloneURL opts) (eo_Ver opts) buildDir;
  match c with
  | Some e => Ret (Some e)
  | None =>
    w ← writeDockerfileIntoDir buildDir;
    match w with
    | Some e => Ret (Some (wrap "ephemeral-image: " e))
    | None => ephemeralBuildImage buildDir tag
    end
  end.

(** [EphemeralImageBuild]. *)
Definition EphemeralImageBuild (o : DockerEphemeralOptions) : B (result built) :=
  match normalizeEphemeralOptions o with
  | Err e => Ret (Err e)
  | Ok o =>
    let opts := de_opts o in
    d ← prepareEphemeralBuildDir (eo_Dir opts);
    match d with
    | Err e => Ret (Err e)
    | Ok buildDir =>
      id ← do NewUUID;
      let tag := de_ImagePrefix o +:+ "/ephemeral/" +:+ id +:+ ":latest" in
      _ ← do (WithTimeout (eo_Timeout opts));
      e ← image_steps opts buildDir tag;
      match e with
      | Some e => _ ← do (RemoveAll buildDir); Ret (Err e)
      | None => Ret (Ok (BuiltImage tag buildDir))
      end
    end
  end.

(** *** The artifact of a backtest (src/cmd/server.go) *)

(** The [resolve] closures of the two runner modes: an installed version, else a
    throw-away build; an installed artifact needs no cleanup. *)
Definition resolve (build : EphemeralOptions → B (result built)) (dir : string) (timeout : Z) (cloneURL ver : string) :
    B (result (string + built)) :=
  let ephemeral :=
    r ← build {| eo_CloneURL := cloneURL; eo_Ver := ver; eo_Dir := dir; eo_Timeout := timeout;
                 eo_SkipURLValidation := false |};
    Ret (match r with Ok b => Ok (inr b) | Err e => Err e end) in
  if bool_decide (ver = "") then ephemeral
  else
    a ← do (Lookup cloneURL ver);
    match a with
    | Ok artifact => if bool_decide (artifact = "") then ephemeral else Ret (Ok (inl artifact))
    | Err e => if errors_is e strategy_ErrNotFound then ephemeral else Ret (Err e)
    end.
End builds.

(** ** What a throw-away build leaves behind *)

Definition made_of (ev : event build_call) : option string :=
  let '(Event _ e a) := ev in
  match e in build_call A return A → option string with
  | MkdirTemp _ _ => λ a, match a with Ok d => Some d | Err _ => None end
  | _ => λ _, None
  end a.
Definition removed_of (ev : event build_call) : option string :=
  match ev_call ev with RemoveAll d => Some d | _ => None end.
Definition image_removed_of (ev : event build_call) : option string :=
  match ev_call ev with ImageRemove t => Some t | _ => None end.
Definition build_dir (b : built) : string := match b with BuiltBinary _ d | BuiltImage _ d => d end.
Definition build_images (b : built) : list string := match b with BuiltBinary _ _ => [] | BuiltImage t _ => [t] end.

(** Programs that neither make nor remove a directory. *)
Definition tidy {R} (p : B R) : Prop :=
  ∀ tr r, traces p tr r → omap made_of tr = [] ∧ omap removed_of tr = [].

Lemma tidy_Ret {R} (r : R) : tidy (Ret r).
Proof. by intros tr r' [-> _]%traces_Ret. Qed.
Lemma tidy_bind {A R} (p : B A) (f : A → B R) : tidy p → (∀ a, tidy (f a)) → tidy (pbind f p).
Proof.
  intros Hp Hf tr r (a & tr1 & tr2 & -> & [H1 H2]%Hp & [H3 H4]%Hf)%traces_pbind.
  by rewrite !omap_app, H1, H2, H3, H4.
Qed.
Lemma tidy_Call {A R} (e : build_call A) (k : A → B R) :
  (∀ a, made_of (Event _ e a) = None ∧ removed_of (Event _ e a) = None) → (∀ a, tidy (k a)) → tidy (Call e k).
Proof.
  intros He Hk tr r (a & tr' & -> & [H1 H2]%Hk)%traces_Call. destruct (He a) as [H3 H4].
  cbn [omap list_omap]. by rewrite H3, H4.
Qed.
Ltac tidy :=
  repeat first
    [ apply tidy_Ret | match goal with |- ∀ _, _ => intro end
    | apply tidy_Call; [intros; split; reflexivity|] | apply tidy_bind
    | progress cbn [mbind prog_bind pbind do]
    | match goal with |- tidy (match ?x with _ => _ end) => destruct x end ].

Section laws.
Context (TempDir : string) (go_directive : string → option string).
Context (decode_frames : string → list (string * option string) * option goerror).

Lemma tidy_writeDockerfile dir : tidy (writeDockerfileIntoDir go_directive dir).
Proof. unfold writeDockerfileIntoDir, ParseGoVersion. tidy. Qed.
Lemma tidy_tar_walk dir l : tidy (tar_walk dir l).
Proof. induction l as [|w l IH]; cbn [tar_walk]; unfold tar_entry; tidy. apply IH. Qed.
Lemma tidy_image_steps opts dir tag : tidy (image_steps go_directive decode_frames opts dir tag).
Proof.
  unfold image_steps, ephemeralClone, ephemeralBuildImage, tarDir. tidy.
  apply tidy_tar_walk.
Qed.

Lemma cleanups_done b n tr x : traces (cleanups b n true) tr x → tr = [].
Proof.
  revert tr. induction n as [|n IH]; intros tr Ht; cbn in Ht; [by apply traces_Ret in Ht as [-> _]|by apply IH].
Qed.
Lemma cleanups_once b n tr x :
  traces (cleanups b (Datatypes.S n) false) tr x →
  omap removed_of tr = [build_dir b] ∧ omap image_removed_of tr = build_images b.
Proof.
  destruct b as [bin d|t d]; cbn.
  - by intros ([] & tr' & -> & ->%cleanups_done)%traces_Call.
  - intros ([] & tr' & -> & Ht)%traces_Call. by apply traces_Call in Ht as ([] & tr2 & -> & ->%cleanups_done).
Qed.

(** A build made a directory and either returns it or has removed it. *)
Definition tidy_outcome (tr : list (event build_call)) (r : result built) : Prop :=
  match r with
  | Ok b => omap made_of tr = [build_dir b] ∧ omap removed_of tr = []
  | Err _ => omap removed_of tr = omap made_of tr
  end.

Lemma EphemeralBuild_outcome opts tr r : traces (EphemeralBuild TempDir opts) tr r → tidy_outcome tr r.
Proof.
  unfold EphemeralBuild. destruct (if eo_SkipURLValidation opts then _ else _); [by intros [-> ->]%traces_Ret|].
  intros ([e|] & tr1 & -> & Ht)%traces_Call; [by apply traces_Ret in Ht as [-> ->]|].
  apply traces_Call in Ht as ([d|e] & tr2 & -> & Ht); [|by apply traces_Ret in Ht as [-> ->]].
  apply traces_Call in Ht as (u & tr3 & -> & Ht).
  apply traces_Call in Ht as ([[e|] out] & tr4 & -> & Ht).
  { apply traces_Call in Ht as (u' & tr5 & -> & [-> ->]%traces_Ret). done. }
  apply traces_Call in Ht as ([[e|] out'] & tr5 & -> & Ht); [|by apply traces_Ret in Ht as [-> ->]].
  apply traces_Call in Ht as (u' & tr6 & -> & [-> ->]%traces_Ret). done.
Qed.

Lemma EphemeralImageBuild_outcome o tr r :
  traces (EphemeralImageBuild TempDir go_directive decode_frames o) tr r → tidy_outcome tr r.
Proof.
  unfold EphemeralImageBuild. destruct (normalizeEphemeralOptions TempDir o) as [o'|e]; [|by intros [-> ->]%traces_Ret].
  intros ([e|] & tr1 & -> & Ht)%traces_Call; [by apply traces_Ret in Ht as [-> ->]|].
  apply traces_Call in Ht as ([d|e] & tr2 & -> & Ht); [|by apply traces_Ret in Ht as [-> ->]].
  apply traces_Call in Ht as (id & tr3 & -> & Ht). apply traces_Call in Ht as (u & tr4 & -> & Ht).
  apply traces_pbind in Ht as (x & tr5 & tr6 & -> & [Hm Hr]%tidy_image_steps & Ht).
  destruct x as [e|].
  - apply traces_Call in Ht as (u' & tr7 & -> & [-> ->]%traces_Ret).
    cbn [tidy_outcome omap list_omap app made_of removed_of ev_call]. by rewrite !omap_app, Hm, Hr.
  - apply traces_Ret in Ht as [-> ->].
    cbn [tidy_outcome omap list_omap app made_of removed_of ev_call build_dir]. by rewrite !omap_app, Hm, Hr.
Qed.

(** The two throw-away builds of the runner modes. *)
Definition ephemeral_build (image : bool) (o : DockerEphemeralOptions) : B (result built) :=
  if image then EphemeralImageBuild TempDir go_directive decode_frames o else EphemeralBuild TempDir (de_opts o).

(** C24: throw-away builds of user-supplied repositories, host binary or image,
    under every answer of git, the tool chain, the file system and the daemon.
    A clone URL outside the allowlist is refused before any call is made.  A
    build that fails has removed exactly the directory it made, if it made one;
    a build that succeeds has removed nothing, and running its cleanup, once or
    often, removes its directory and its image exactly once. *)
Theorem ephemeral_builds_clean_up (image : bool) (o : DockerEphemeralOptions) tr r :
  traces (ephemeral_build image o) tr r →
  (eo_SkipURLValidation (de_opts o) = false → cloneURLRe (eo_CloneURL (de_opts o)) = false →
     tr = [] ∧ r = Err ErrInvalidCloneURL) ∧
  match r with
  | Ok b => omap made_of tr = [build_dir b] ∧ omap removed_of tr = [] ∧
      ∀ n tr' x, traces (cleanups b (Datatypes.S n) false) tr' x →
        omap removed_of tr' = [build_dir b] ∧ omap image_removed_of tr' = build_images b
  | Err _ => omap removed_of tr = omap made_of tr
  end.
Proof.
  intros Ht. split.
  - intros Hs Hu. unfold ephemeral_build, EphemeralImageBuild, normalizeEphemeralOptions, EphemeralBuild, ValidateCloneURL in Ht.
    rewrite Hs, Hu, orb_true_r in Ht. by destruct image; apply traces_Ret in Ht as [-> ->].
  - assert (tidy_outcome tr r) as Ho
      by (destruct image; [by eapply EphemeralImageBuild_outcome|by eapply EphemeralBuild_outcome]).
    destruct r as [b|e]; [|done]. destruct Ho as [H1 H2]. split_and!; [done|done|].
    intros n tr' x. apply cleanups_once.
Qed.
End laws.

(** A repository that does not compile. *)
Definition demo_options : DockerEphemeralOptions :=
  {| de_opts := {| eo_CloneURL := "https://github.com/acme/momentum.git"; eo_Ver := ""; eo_Dir := "/var/builds";
                   eo_Timeout := 0; eo_SkipURLValidation := false |};
     de_Client := true; de_ImagePrefix := "" |}.
Definition demo_build : list (event build_call) :=
  [Event _ (MkdirAll "/var/builds") None; Event _ (MkdirTemp "/var/builds" "build-*") (Ok "/var/builds/build-1");
   Event _ (WithTimeout defaultEphemeralTimeout) ();
   Event _ (Run (git_clone "" "https://github.com/acme/momentum.git" "/var/builds/build-1") "") (None, "");
   Event _ (Run ["go"; "build"; "-o"; "/var/builds/build-1/strategy.bin"; "."] "/var/builds/build-1")
     (Some (opaque_err "exit status 1"), "main.go:3: undefined: x");
   Event _ (RemoveAll "/var/builds/build-1") ()].

Lemma ephemeral_builds_clean_up_witness : ∃ e,
  traces (ephemeral_build "/tmp" (λ _, None) (λ _, ([], None)) false demo_options) demo_build (Err e) ∧
  omap removed_of demo_build = ["/var/builds/build-1"].
Proof.
  eexists (wrap "ephemeral: go build: " (wrap_post (opaque_err "exit status 1") (newline +:+ "main.go:3: undefined: x"))).
  assert (traces (ephemeral_build "/tmp" (λ _, None) (λ _, ([], None)) false demo_options) demo_build
    (Err (wrap "ephemeral: go build: " (wrap_post (opaque_err "exit status 1") (newline +:+ "main.go:3: undefined: x"))))) as Ht.
  { unfold demo_build. repeat constructor. }
  split; [exact Ht|]. destruct (ephemeral_builds_clean_up _ _ _ _ _ _ _ Ht) as [_ Hr]. cbv beta iota in Hr.
  rewrite Hr. reflexivity.
Defined.

(** The allowlist admits two path elements under github.com and nothing else. *)
Example clone_urls :
  map cloneURLRe ["https://github.com/acme/momentum"; "https://github.com/acme/momentum.git";
                  "http://github.com/acme/momentum"; "https://github.com/acme"; "https://github.com/acme/a/b";
                  "https://github.com/acme/mo mentum"; "https://github.com//momentum"; ""]
  = [true; true; false; false; false; false; false; false].
Proof. reflexivity. Qed.
