(* ===== verification/Strategies.v ===== *)
(** The strategy endpoints (src/strategy/handler.go, src/strategy/describe.go),
    the official discovery filter (src/strategy/github.go) and the daily
    statistics refresh (src/strategy/stats.go). *)
From S2P Require Import Prelude GoStrings GoTime Types Path Prog.
From S2P Require Registry.
#[local] Existing Instance Registry.eta_registry.

(** ** src/strategy/github.go *)

(** A listing as pvbt's library returns it. *)
Record SearchResult := {
  sr_Name : string; sr_Owner : string; sr_Description : string; sr_Categories : list string;
  sr_CloneURL : string; sr_Stars : Z; sr_UpdatedAt : string;
}.
(** [DiscoverOfficial], given what [pvbtlib.Search] returned; [parse_time] is
    [time.Parse] with RFC 3339, the zero time on failure.  The token only lives
    in the process environment around the search. *)
Definition DiscoverOfficial (parse_time : string → instant) (ExpectOwner : string)
    (search : result (list SearchResult)) : result (list Listing) :=
  match search with
  | Err e => Err (wrap "pvbt search: " e)
  | Ok raw =>
    Ok (map (λ r, {| l_Name := sr_Name r; l_Owner := sr_Owner r; l_Description := sr_Description r;
                     l_Categories := sr_Categories r; l_CloneURL := sr_CloneURL r; l_Stars := sr_Stars r;
                     l_UpdatedAt := parse_time (sr_UpdatedAt r) |})
         (filter (λ r, ExpectOwner = "" ∨ sr_Owner r = ExpectOwner) raw))
  end.

(** ** src/strategy/handler.go *)
Record strategyView := {
  v_ShortCode : string; v_RepoOwner : string; v_RepoName : string; v_CloneURL : string;
  v_IsOfficial : bool; v_OwnerSub : option string; v_Description : option string;
  v_Categories : list string; v_Stars : option Z; v_InstallState : string;
  v_InstalledVer : option string; v_LastAttemptedVer : option string; v_InstallError : option string;
  v_InstalledAt : option string; v_Describe : option Describe;
  v_CAGR : option float64; v_MaxDrawdown : option float64; v_Sharpe : option float64;
  v_Sortino : option float64; v_UlcerIndex : option float64; v_Beta : option float64;
  v_Alpha : option float64; v_StdDev : option float64; v_TaxCostRatio : option float64;
  v_OneYearReturn : option float64; v_YtdReturn : option float64; v_BenchmarkYtdReturn : option float64;
}.

(** A response before its body is marshalled. *)
Inductive body :=
  | Problem (title : string) (detail instance : string)
  | Views (l : list strategyView)
  | View (v : strategyView)
  | Described (d : Describe).
Record response := { status : Z; content_type : string; payload : body }.

Definition install_state (s : InstallState) : string :=
  match s with
  | InstallStatePending => "pending" | InstallStateInstalling => "installing"
  | InstallStateReady => "ready" | InstallStateFailed => "failed"
  end.

Section endpoints.
Context (unmarshal_describe : string → result Describe).
(** Why [sonic.Marshal] refuses a body, if it does. *)
Context (sonic_err : body → option goerror).

Definition toView (s : Strategy) : strategyView :=
  {| v_ShortCode := s_ShortCode s; v_RepoOwner := s_RepoOwner s; v_RepoName := s_RepoName s;
     v_CloneURL := s_CloneURL s; v_IsOfficial := s_IsOfficial s; v_OwnerSub := s_OwnerSub s;
     v_Description := s_Description s; v_Categories := s_Categories s; v_Stars := s_Stars s;
     v_InstallState := install_state (DeriveInstallState s); v_InstalledVer := s_InstalledVer s;
     v_LastAttemptedVer := s_LastAttemptedVer s; v_InstallError := s_InstallError s;
     v_InstalledAt := format_timestamp <$> s_InstalledAt s;
     v_Describe := if bool_decide (s_DescribeJSON s = "") then None
                   else match unmarshal_describe (s_DescribeJSON s) with Ok d => Some d | Err _ => None end;
     v_CAGR := s_CAGR s; v_MaxDrawdown := s_MaxDrawdown s; v_Sharpe := s_Sharpe s; v_Sortino := s_Sortino s;
     v_UlcerIndex := s_UlcerIndex s; v_Beta := s_Beta s; v_Alpha := s_Alpha s; v_StdDev := s_StdDev s;
     v_TaxCostRatio := s_TaxCostRatio s; v_OneYearReturn := s_OneYearReturn s;
     v_YtdReturn := s_YtdReturn s; v_BenchmarkYtdReturn := s_BenchmarkYtdReturn s |}.

Definition writeProblem (path : string) (st : Z) (title detail : string) : response :=
  {| status := st; content_type := "application/problem+json"; payload := Problem title detail path |}.
Definition internal (path : string) (e : goerror) : response :=
  writeProblem path 500 "Internal Server Error" (err_text e).

(** The marshalled body with a 200, or a 500. *)
Definition send (path : string) (b : body) : response :=
  match sonic_err b with
  | Some e => internal path e
  | None => {| status := 200; content_type := "application/json"; payload := b |}
  end.

(** [Handler.List], given what the store returned. *)
Definition List (path : string) (rows : result (list Strategy)) : response :=
  match rows with
  | Err e => internal path e
  | Ok rows => send path (Views (map toView rows))
  end.

(** [Handler.Get]. *)
Definition Get (path shortCode : string) (row : result Strategy) : response :=
  match row with
  | Err e => if errors_is e strategy_ErrNotFound
             then writeProblem path 404 "Not Found" ("strategy not found: " +:+ shortCode)
             else internal path e
  | Ok s => send path (View (toView s))
  end.

(** ** src/strategy/describe.go *)
Inductive describe_call : Type → Type :=
  | Builder (cloneURL : string) : describe_call (result string)
  | RunDescribe (binPath : string) : describe_call (result string)
  | Cleanup (binPath : string) : describe_call unit.

(** [DescribeHandler.Describe]; the cleanup is deferred. *)
Definition Describe_ (URLValidator : string → option goerror) (path cloneURL : string) :
    prog describe_call response :=
  match URLValidator cloneURL with
  | Some e => Ret (writeProblem path 400 "Bad Request" (err_text e))
  | None =>
    b ← do (Builder cloneURL);
    match b with
    | Err e => Ret (writeProblem path 422 "Build failed" (err_text e))
    | Ok binPath =>
      raw ← do (RunDescribe binPath);
      let r := match raw with
               | Err e => writeProblem path 422 "Describe failed" (err_text e)
               | Ok raw =>
                 match unmarshal_describe raw with
                 | Err e => writeProblem path 422 "Describe JSON malformed" (err_text e)
                 | Ok d => send path (Described d)
                 end
               end in
      _ ← do (Cleanup binPath);
      Ret r
    end
  end.
End endpoints.

(** ** src/strategy/stats.go *)
Definition ErrInvalidRefreshTime : goerror :=
  sentinel_err strategy_ErrInvalidRefreshTime "invalid RefreshTime: expected HH:MM".
Definition ErrNoInstalledArtifact : goerror :=
  sentinel_err strategy_ErrNoInstalledArtifact "strategy has no installed artifact".

Record StatRunRequest := { sr_Artifact : string; sr_Args : list string; sr_OutPath : string }.
(** The zero time is [None]. *)
Record StatsRefresherConfig := {
  c_StartDate : option instant; c_RefreshTime : string; c_TickInterval : Z; c_SnapshotDir : string;
}.
Record StatsRefresher := {
  rf_cfg : StatsRefresherConfig; rf_StartDate : instant; rf_refreshHour : Z; rf_refreshMin : Z;
}.

(** [NewStatsRefresher], where [scan] is the hour and minute [fmt.Sscanf] reads
    with "%d:%d", if it reads both. *)
Definition NewStatsRefresher (scan : string → option (Z * Z)) (quote_string : string → string)
    (cfg : StatsRefresherConfig) : result StatsRefresher :=
  let tick := if c_TickInterval cfg =? 0 then 5 * 60 * 1000000000 else c_TickInterval cfg in
  let start := default (date_utc 2010 1 1) (c_StartDate cfg) in
  let time := if bool_decide (c_RefreshTime cfg = "") then "17:00" else c_RefreshTime cfg in
  let bad := Err (wrap_post ErrInvalidRefreshTime (": " +:+ quote_string time)) in
  match scan time with
  | None => bad
  | Some (h, m) =>
    if (h <? 0) || (23 <? h) || (m <? 0) || (59 <? m) then bad
    else Ok {| rf_cfg := {| c_StartDate := Some start; c_RefreshTime := time; c_TickInterval := tick;
                            c_SnapshotDir := c_SnapshotDir cfg |};
               rf_StartDate := start; rf_refreshHour := h; rf_refreshMin := m |}
  end.

(** [buildArgs]. *)
Definition buildArgs (benchmark : string) (startDate : option instant) : list string :=
  match startDate with Some t => ["--start"; format_date t] | None => [] end ++
  if bool_decide (benchmark = "") then [] else ["--benchmark"; benchmark].

Inductive stats_call : Type → Type :=
  | StNow : stats_call instant
  | StGet (shortCode : string) : stats_call (result Strategy)
  | StListInstalled : stats_call (result (list Strategy))
  | MkdirTemp (dir : string) : stats_call (result string)
  | StRun (req : StatRunRequest) : stats_call (result unit)
  | ReadKpis (path : string) : stats_call (result StatsResult)
  | StUpdateStats (shortCode : string) (r : StatsResult) : stats_call (result unit)
  | StMarkStatsError (shortCode errText : string) : stats_call (result unit)
  | StRemoveAll (dir : string) : stats_call unit.

Section refresher.
Context (unmarshal_describe : string → result Describe).
Context (r : StatsRefresher).
(** US Eastern: the civil day of an instant, and the instant of a day's clock time. *)
Context (et_day : instant → Z) (et_clock : Z → Z → Z → instant).

Definition parseBenchmark (describeJSON : string) : string :=
  if bool_decide (describeJSON = "") then ""
  else match unmarshal_describe describeJSON with Ok d => d_Benchmark d | Err _ => "" end.

Definition PastRefreshTime (now : instant) : bool :=
  negb (now <? et_clock (et_day now) (rf_refreshHour r) (rf_refreshMin r)).

(** A run of the artifact, its metrics and what is recorded of them. *)
Definition measure (shortCode : string) (req : StatRunRequest) : prog stats_call (option goerror) :=
  run ← do (StRun req);
  match run with
  | Err e =>
    _ ← do (StMarkStatsError shortCode (err_text e));
    Ret (Some (wrap ("stats backtest for " +:+ shortCode +:+ ": ") e))
  | Ok _ =>
    kpis ← do (ReadKpis (sr_OutPath req));
    match kpis with
    | Err e =>
      _ ← do (StMarkStatsError shortCode (err_text e));
      Ret (Some (wrap ("reading kpis for " +:+ shortCode +:+ ": ") e))
    | Ok k =>
      t ← do StNow;
      let result := {| r_CAGR := r_CAGR k; r_MaxDrawdown := r_MaxDrawdown k; r_Sharpe := r_Sharpe k;
        r_Sortino := r_Sortino k; r_UlcerIndex := r_UlcerIndex k; r_Beta := r_Beta k; r_Alpha := r_Alpha k;
        r_StdDev := r_StdDev k; r_TaxCostRatio := r_TaxCostRatio k; r_OneYearReturn := r_OneYearReturn k;
        r_YtdReturn := r_YtdReturn k; r_BenchmarkYtdReturn := r_BenchmarkYtdReturn k; r_AsOf := t |} in
      u ← do (StUpdateStats shortCode result);
      match u with
      | Err e => Ret (Some (wrap ("writing stats for " +:+ shortCode +:+ ": ") e))
      | Ok _ => Ret None
      end
    end
  end.

(** [RunOne]; the temporary directory is removed on every exit. *)
Definition RunOne (shortCode : string) : prog stats_call (option goerror) :=
  s ← do (StGet shortCode);
  match s with
  | Err e => Ret (Some (wrap ("loading strategy " +:+ shortCode +:+ ": ") e))
  | Ok s =>
    match s_ArtifactRef s, s_ArtifactKind s with
    | Some ref, Some kind =>
      if bool_decide (kind = artifactKindImage) then Ret None
      else
        d ← do (MkdirTemp (c_SnapshotDir (rf_cfg r)));
        match d with
        | Err e => Ret (Some (wrap "creating temp dir for stats snapshot: " e))
        | Ok tmpDir =>
          e ← measure shortCode {| sr_Artifact := ref;
                sr_Args := buildArgs (parseBenchmark (s_DescribeJSON s)) (Some (rf_StartDate r));
                sr_OutPath := Join [tmpDir; "stats.sqlite"] |};
          _ ← do (StRemoveAll tmpDir);
          Ret e
        end
    | _, _ => Ret (Some (wrap_post ErrNoInstalledArtifact (": " +:+ shortCode)))
    end
  end.

(** The loop of [RefreshDue]. *)
Fixpoint refresh (today : instant) (l : list Strategy) : prog stats_call unit :=
  match l with
  | [] => Ret ()
  | s :: l =>
    if match s_StatsAsOf s with Some t => negb (t <? today) | None => false end then refresh today l
    else _ ← RunOne (s_ShortCode s); refresh today l
  end.
Definition RefreshDue : prog stats_call (option goerror) :=
  l ← do StListInstalled;
  match l with
  | Err e => Ret (Some e)
  | Ok l => t ← do StNow; _ ← refresh (midnight (day_of t)) l; Ret None
  end.

(** One tick of [Run]. *)
Definition on_tick : prog stats_call unit :=
  t ← do StNow;
  if negb (PastRefreshTime t) then Ret () else _ ← RefreshDue; Ret ().
End refresher.

(** ** The refresh day *)
Section refresh_day.
Context (unmarshal_describe : string → result Describe) (r : StatsRefresher).

(** Eastern daylight time. *)
Definition edt : Z := 4 * 3600 * 1000000000.
Definition edt_day (t : instant) : Z := day_of (t - edt).
Definition edt_clock (d h m : Z) : instant := midnight d + (h * 3600 + m * 60) * 1000000000 + edt.

(** The gate counts Eastern days and the staleness test UTC ones: after a refresh
    at 20:05 on day [d], which the gate allows, the one at 17:00 on day [d + 1]
    skips the strategy. *)
Lemma evening_refresh_hides_next (d : Z) (s : Strategy) :
  rf_refreshHour r = 17 → rf_refreshMin r = 0 →
  let evening := edt_clock d 20 5 in let next := edt_clock (d + 1) 17 0 in
  edt_day evening = d ∧ edt_day next = d + 1 ∧
  PastRefreshTime r edt_day edt_clock evening = true ∧ PastRefreshTime r edt_day edt_clock next = true ∧
  (s_StatsAsOf s = Some evening →
   refresh unmarshal_describe r (midnight (day_of next)) [s] = Ret ()).
Proof.
  intros Hh Hm. cbv zeta.
  assert (edt_day (edt_clock d 20 5) = d ∧ edt_day (edt_clock (d + 1) 17 0) = d + 1) as [H1 H2].
  { unfold edt_day, edt_clock, day_of, midnight, nsPerDay, edt. split; symmetry;
      [apply Z.div_unique with (r := 72300000000000)|apply Z.div_unique with (r := 61200000000000)]; lia. }
  assert (day_of (edt_clock (d + 1) 17 0) = d + 1) as H3.
  { unfold edt_clock, day_of, midnight, nsPerDay, edt. symmetry. apply Z.div_unique with (r := 75600000000000); lia. }
  split; [done|]. split; [done|]. unfold PastRefreshTime. rewrite H1, H2, Hh, Hm.
  assert (edt_clock d 20 5 <? edt_clock d 17 0 = false) as -> by (unfold edt_clock; lia).
  rewrite Z.ltb_irrefl. split; [done|]. split; [done|]. intros Hs. cbn [refresh]. rewrite Hs, H3.
  assert (edt_clock d 20 5 <? midnight (d + 1) = false) as -> by (unfold edt_clock, midnight, nsPerDay, edt; lia).
  done.
Qed.
End refresh_day.
