(* ===== verification/GoFloat.v ===== *)
(** Doubles as [math] rounds them and as [fmt] and [strconv] print them with a
    fixed number of decimals. *)
From S2P Require Import Prelude GoStrings Types.
From Stdlib Require Import Ascii.

(** [n / d] to the nearest integer, ties to even ([d > 0], [n >= 0]). *)
Definition div_half_even (n d : Z) : Z :=
  let q := n / d in let r := n mod d in
  if 2 * r <? d then q else if d <? 2 * r then q + 1 else if Z.even q then q else q + 1.

(** The integer nearest to [10^p * m * 2^e]. *)
Definition scaled (p : Z) (m : positive) (e : Z) : Z :=
  if 0 <=? e then Zpos m * 2 ^ e * 10 ^ p else div_half_even (Zpos m * 10 ^ p) (2 ^ (- e)).

(** Its digits with the point before the last [p]. *)
Definition decimals (p : nat) (n : Z) : string :=
  itoa (n / 10 ^ Z.of_nat p) +:+ match p with O => "" | _ => "." +:+ pad p (n mod 10 ^ Z.of_nat p) end.

(** [fmt.Sprintf("%.pf", f)]. *)
Definition fmt_fixed (p : nat) (f : float64) : string :=
  let sign (s : bool) := if s then "-" else "" in
  match f with
  | S754_zero s => sign s +:+ decimals p 0
  | S754_infinity s => if s then "-Inf" else "+Inf"
  | S754_nan => "NaN"
  | S754_finite s m e => sign s +:+ decimals p (scaled (Z.of_nat p) m e)
  end.

(** [math.Round]: to the nearest integer, ties away from zero. *)
Definition fround (f : float64) : float64 :=
  match f with
  | S754_finite s m e =>
    if 0 <=? e then f
    else let n := (2 * Zpos m + 2 ^ (- e)) / (2 * 2 ^ (- e)) in
         if n =? 0 then S754_zero s else fnorm (if s then - n else n) 0
  | f => f
  end.

(** [-f], [f < 0], [f > 0], [f == 0]. *)
Definition fneg (f : float64) : float64 := SFopp f.
Definition fneg_p (f : float64) : bool := fltb f fzero.
Definition fpos_p (f : float64) : bool := fltb fzero f.

(** A decimal constant [n / 10^p] as the compiler rounds it. *)
Definition fconst (n : Z) (p : Z) : float64 := fdiv (f_of_Z n) (f_of_Z (10 ^ p)).

Example fixed_1 : fmt_fixed 2 (fdiv (f_of_Z 1) (f_of_Z 3)) = "0.33". Proof. vm_compute. done. Qed.
Example fixed_2 : fmt_fixed 0 (fdiv (f_of_Z 5) (f_of_Z 2)) = "2". Proof. vm_compute. done. Qed.
Example fixed_3 : fmt_fixed 2 (fconst (-12345) 1) = "-1234.50". Proof. vm_compute. done. Qed.
Example round_1 : fround (fconst (-25) 1) = f_of_Z (-3). Proof. vm_compute. done. Qed.
