(* ===== verification/Crypto.v ===== *)
(** What the unsubscribe tokens use of Go's [crypto] and [encoding] packages:
    SHA-256 (FIPS 180-4), HMAC (RFC 2104) and base64 in the unpadded URL alphabet. *)
From S2P Require Import Prelude GoStrings.
From Stdlib Require Import Ascii.

Definition octet (c : ascii) : Z := Z.of_nat (code c).
Definition of_octet (z : Z) : ascii := byte (Z.to_nat (z mod 256)).

(** ** SHA-256 *)
Section sha256.
Definition w32 (z : Z) : Z := z mod 2 ^ 32.
Definition rotr (n x : Z) : Z := Z.lor (Z.shiftr x n) (w32 (Z.shiftl x (32 - n))).

Definition K : list Z :=
  [1116352408; 1899447441; 3049323471; 3921009573; 961987163; 1508970993; 2453635748; 2870763221;
   3624381080; 310598401; 607225278; 1426881987; 1925078388; 2162078206; 2614888103; 3248222580;
   3835390401; 4022224774; 264347078; 604807628; 770255983; 1249150122; 1555081692; 1996064986;
   2554220882; 2821834349; 2952996808; 3210313671; 3336571891; 3584528711; 113926993; 338241895;
   666307205; 773529912; 1294757372; 1396182291; 1695183700; 1986661051; 2177026350; 2456956037;
   2730485921; 2820302411; 3259730800; 3345764771; 3516065817; 3600352804; 4094571909; 275423344;
   430227734; 506948616; 659060556; 883997877; 958139571; 1322822218; 1537002063; 1747873779;
   1955562222; 2024104815; 2227730452; 2361852424; 2428436474; 2756734187; 3204031479; 3329325298].
Definition H0 : list Z :=
  [1779033703; 3144134277; 1013904242; 2773480762; 1359893119; 2600822924; 528734635; 1541459225].

(** The message, a one bit, zeros and the length in bits, a multiple of 64 bytes. *)
Definition sha_pad (m : list Z) : list Z :=
  let n := Z.of_nat (length m) in
  m ++ [128] ++ repeat 0 (Z.to_nat ((55 - n) mod 64)) ++
  map (λ i, Z.shiftr (8 * n) (8 * Z.of_nat i) mod 256) [7; 6; 5; 4; 3; 2; 1; 0]%nat.

(** Big-endian words. *)
Fixpoint words (l : list Z) : list Z :=
  match l with
  | a :: b :: c :: d :: l => a * 2 ^ 24 + b * 2 ^ 16 + c * 2 ^ 8 + d :: words l
  | _ => []
  end.

(** The message schedule, newest word first. *)
Fixpoint schedule (n : nat) (w : list Z) : list Z :=
  match n with
  | O => w
  | S n =>
    let w2 := nth 1 w 0 in let w7 := nth 6 w 0 in let w15 := nth 14 w 0 in let w16 := nth 15 w 0 in
    let s0 := Z.lxor (Z.lxor (rotr 7 w15) (rotr 18 w15)) (Z.shiftr w15 3) in
    let s1 := Z.lxor (Z.lxor (rotr 17 w2) (rotr 19 w2)) (Z.shiftr w2 10) in
    schedule n (w32 (w16 + s0 + w7 + s1) :: w)
  end.

Definition round (h : list Z) (kw : Z * Z) : list Z :=
  match h with
  | [a; b; c; d; e; f; g; h] =>
    let s1 := Z.lxor (Z.lxor (rotr 6 e) (rotr 11 e)) (rotr 25 e) in
    let ch := Z.lxor (Z.land e f) (Z.land (Z.lxor e (2 ^ 32 - 1)) g) in
    let t1 := h + s1 + ch + kw.1 + kw.2 in
    let s0 := Z.lxor (Z.lxor (rotr 2 a) (rotr 13 a)) (rotr 22 a) in
    let maj := Z.lxor (Z.lxor (Z.land a b) (Z.land a c)) (Z.land b c) in
    [w32 (t1 + s0 + maj); a; b; c; w32 (d + t1); e; f; g]
  | h => h
  end.
Definition compress (h block : list Z) : list Z :=
  let w := rev (schedule 48 (rev block)) in
  zip_with (λ x y, w32 (x + y)) h (fold_left round (zip K w) h).
Fixpoint blocks (fuel : nat) (h w : list Z) : list Z :=
  match fuel, w with
  | S fuel, _ :: _ => blocks fuel (compress h (take 16 w)) (drop 16 w)
  | _, _ => h
  end.
Definition bytes4 (w : Z) : list Z := map (λ i, Z.shiftr w (8 * i) mod 256) [3; 2; 1; 0].
Definition sha256 (m : list Z) : list Z :=
  let w := words (sha_pad m) in flat_map bytes4 (blocks (length w) H0 w).
End sha256.

(** ** HMAC-SHA256 *)
Definition hmac_key (key : list Z) : list Z :=
  let k := if (64 <? length key)%nat then sha256 key else key in
  k ++ repeat 0 (64 - length k).
Definition hmac_sha256 (key msg : list Z) : list Z :=
  let k := hmac_key key in
  sha256 (map (λ b, Z.lxor b 92) k ++ sha256 (map (λ b, Z.lxor b 54) k ++ msg)).
Definition hmac (secret payload : string) : string :=
  of_bytes (map of_octet (hmac_sha256 (map octet (bytes_of secret)) (map octet (bytes_of payload)))).

Definition hex (s : list Z) : string :=
  of_bytes (flat_map (λ b, map (λ n, byte (Z.to_nat (if n <? 10 then 48 + n else 87 + n))) [b / 16; b mod 16]) s).
Example sha256_abc :
  hex (sha256 (map octet (bytes_of "abc"))) = "ba7816bf8f01cfea414140de5dae2223b00361a396177a9cb410ff61f20015ad".
Proof. vm_compute. done. Qed.
Example sha256_two_blocks :
  hex (sha256 (map octet (bytes_of "abcdbcdecdefdefgefghfghighijhijkijkljklmklmnlmnomnopnopq")))
    = "248d6a61d20638b8e5c026930c3e6039a33ce45964ff2167f6ecedd419db06c1".
Proof. vm_compute. done. Qed.
Example hmac_rfc4231_2 :
  hex (hmac_sha256 (map octet (bytes_of "Jefe")) (map octet (bytes_of "what do ya want for nothing?")))
    = "5bdcc146bf60754e6a042426089575c75a003f089d2739839dec58b964ec3843".
Proof. vm_compute. done. Qed.

(** ** [base64.RawURLEncoding] *)
Definition url_alphabet : list ascii :=
  bytes_of "ABCDEFGHIJKLMNOPQRSTUVWXYZabcdefghijklmnopqrstuvwxyz0123456789-_".
Definition enc6 (n : Z) : ascii := nth (Z.to_nat n) url_alphabet (byte 0).
Definition dec6 (c : ascii) : option Z :=
  let n := octet c in
  if (65 <=? n) && (n <=? 90) then Some (n - 65)
  else if (97 <=? n) && (n <=? 122) then Some (n - 71)
  else if (48 <=? n) && (n <=? 57) then Some (n + 4)
  else if n =? 45 then Some 62 else if n =? 95 then Some 63 else None.

Fixpoint encode_octets (l : list Z) : list ascii :=
  match l with
  | a :: b :: c :: l =>
    enc6 (a / 4) :: enc6 (a mod 4 * 16 + b / 16) :: enc6 (b mod 16 * 4 + c / 64) :: enc6 (c mod 64) :: encode_octets l
  | [a; b] => [enc6 (a / 4); enc6 (a mod 4 * 16 + b / 16); enc6 (b mod 16 * 4)]
  | [a] => [enc6 (a / 4); enc6 (a mod 4 * 16)]
  | [] => []
  end.
(** Quadruples of sextets; the bits a partial one leaves over are dropped. *)
Fixpoint decode_sextets (l : list Z) : option (list Z) :=
  match l with
  | a :: b :: c :: d :: l =>
    r ← decode_sextets l;
    Some ((a * 4 + b / 16) :: (b mod 16 * 16 + c / 4) :: (c mod 4 * 64 + d) :: r)
  | [a; b; c] => Some [a * 4 + b / 16; b mod 16 * 16 + c / 4]
  | [a; b] => Some [a * 4 + b / 16]
  | [_] => None
  | [] => Some []
  end.

Definition base64_encode (s : string) : string := of_bytes (encode_octets (map octet (bytes_of s))).
(** [DecodeString]: line ends are skipped, any other byte outside the alphabet
    is an error. *)
Definition base64_decode (s : string) : option string :=
  sextets ← mapM dec6 (filter (λ c, c ≠ byte 10 ∧ c ≠ byte 13) (bytes_of s));
  octets ← decode_sextets sextets;
  Some (of_bytes (map of_octet octets)).

(** ** Decoding what was encoded *)
Lemma of_octet_octet c : of_octet (octet c) = c.
Proof.
  unfold of_octet, octet, byte, code. pose proof (nat_ascii_bounded c). rewrite Z.mod_small by lia.
  by rewrite Nat2Z.id, ascii_nat_embedding.
Qed.
Lemma octet_range c : 0 ≤ octet c < 256.
Proof. unfold octet, code. pose proof (nat_ascii_bounded c). lia. Qed.

Definition good_sextet (n : Z) : bool :=
  bool_decide (dec6 (enc6 n) = Some n) && bool_decide (enc6 n ≠ byte 10) && bool_decide (enc6 n ≠ byte 13).
Lemma sextet n : 0 ≤ n < 64 → dec6 (enc6 n) = Some n ∧ enc6 n ≠ byte 10 ∧ enc6 n ≠ byte 13.
Proof.
  intros Hn. assert (forallb (λ i, good_sextet (Z.of_nat i)) (seq 0 64) = true) as Hall by (vm_compute; reflexivity).
  rewrite forallb_forall in Hall. specialize (Hall (Z.to_nat n)). rewrite in_seq, Z2Nat.id in Hall by lia.
  specialize (Hall ltac:(lia)). unfold good_sextet in Hall.
  rewrite !andb_true_iff, !bool_decide_eq_true in Hall. by destruct Hall as [[? ?] ?].
Qed.

(** The sextets of a list of octets. *)
Fixpoint sextets (l : list Z) : list Z :=
  match l with
  | a :: b :: c :: l => a / 4 :: a mod 4 * 16 + b / 16 :: b mod 16 * 4 + c / 64 :: c mod 64 :: sextets l
  | [a; b] => [a / 4; a mod 4 * 16 + b / 16; b mod 16 * 4]
  | [a] => [a / 4; a mod 4 * 16]
  | [] => []
  end.

(** Induction three elements at a time. *)
Lemma list_ind3 {A} (P : list A → Prop) :
  P [] → (∀ a, P [a]) → (∀ a b, P [a; b]) → (∀ a b c l, P l → P (a :: b :: c :: l)) → ∀ l, P l.
Proof.
  intros H0 H1 H2 H3. fix IH 1. intros [|a [|b [|c l]]]; [apply H0|apply H1|apply H2|apply H3, IH].
Qed.

Lemma encode_sextets l : encode_octets l = map enc6 (sextets l).
Proof. induction l as [|a|a b|a b c l IH] using list_ind3; cbn; [done..|by rewrite IH]. Qed.

Ltac Zdivs := repeat match goal with
  | |- context [?a / ?b] => lazymatch goal with H : a = b * (a / b) + a mod b |- _ => fail | _ =>
      pose proof (Z.div_mod a b ltac:(lia)); pose proof (Z.mod_pos_bound a b ltac:(lia)) end
  | |- context [?a mod ?b] => lazymatch goal with H : a = b * (a / b) + a mod b |- _ => fail | _ =>
      pose proof (Z.div_mod a b ltac:(lia)); pose proof (Z.mod_pos_bound a b ltac:(lia)) end
  end.

Lemma sextets_range l : Forall (λ n, 0 ≤ n < 256) l → Forall (λ n, 0 ≤ n < 64) (sextets l).
Proof.
  induction l as [|a|a b|a b c l IH] using list_ind3; intros Hl; cbn; repeat (apply Forall_cons in Hl as [? Hl]);
    repeat apply Forall_cons_2; try apply Forall_nil_2; auto; Zdivs; lia.
Qed.

Lemma decode_sextets_octets l :
  Forall (λ n, 0 ≤ n < 256) l → decode_sextets (sextets l) = Some l.
Proof.
  induction l as [|a|a b|a b c l IH] using list_ind3; intros Hl; repeat (apply Forall_cons in Hl as [? Hl]);
    cbn [sextets decode_sextets]; [done|..].
  - do 2 f_equal. Zdivs. lia.
  - repeat f_equal; Zdivs; lia.
  - rewrite IH by done. cbn. repeat f_equal; Zdivs; lia.
Qed.

Lemma mapM_sextets l : Forall (λ n, 0 ≤ n < 64) l → mapM dec6 (map enc6 l) = Some l.
Proof.
  induction 1 as [|n l Hn Hl IH]; [done|]. cbn [map mapM]. destruct (sextet n Hn) as [-> _]. cbn. by rewrite IH.
Qed.

Lemma base64_roundtrip s : base64_decode (base64_encode s) = Some s.
Proof.
  assert (Forall (λ n, 0 ≤ n < 256) (map octet (bytes_of s))) as Ho.
  { apply Forall_forall. intros n Hn. apply list_elem_of_In, in_map_iff in Hn as (c & <- & _). apply octet_range. }
  unfold base64_decode, base64_encode. rewrite bytes_of_of, encode_sextets.
  pose proof (sextets_range _ Ho) as Hs.
  assert (filter (λ c, c ≠ byte 10 ∧ c ≠ byte 13) (map enc6 (sextets (map octet (bytes_of s))))
    = map enc6 (sextets (map octet (bytes_of s)))) as ->.
  { clear Ho. induction Hs as [|n l Hn Hl IH]; [done|]. cbn [map]. rewrite filter_cons_True; [by rewrite IH|].
    by destruct (sextet n Hn). }
  rewrite mapM_sextets by done. cbn. rewrite decode_sextets_octets by done. cbn. f_equal. apply bytes_of_inj.
  rewrite bytes_of_of, map_map. rewrite <-(map_id (bytes_of s)) at 2. apply map_ext. apply of_octet_octet.
Qed.
