(* ===== verification/Email.v ===== *)
(** The alert emails' formatting (src/alert/email/template.go). *)
From S2P Require Import Prelude GoStrings GoTime Utf8 Types GoFloat.
From Stdlib Require Import Ascii.

Definition newline : string := String (byte 10) "".

Record TradeRow := {
  tr_Ticker : string; tr_Action : string; tr_ActionColor : string; tr_ActionBgColor : string;
  tr_Shares : string; tr_Value : string;
}.
Record HoldingRow := {
  hr_Ticker : string; hr_TickerColor : string; hr_Shares : string; hr_WeightPct : string; hr_Value : string;
}.
Record ReturnCell := { rc_Pct : string; rc_Color : string }.
Record ReturnsRow := {
  rr_Label : string; rr_Day : ReturnCell; rr_Wtd : ReturnCell; rr_Mtd : ReturnCell; rr_Ytd : ReturnCell;
  rr_OneYear : ReturnCell;
}.
Record ReturnsWindow := { rw_Label : string; rw_Cells : list ReturnCell }.

Record Payload := {
  PortfolioName : string; p_StrategyCode : string; RunDate : string; Success : bool; LogoDataURL : string;
  p_CurrentValue : string; HasDelta : bool; DeltaPct : string; DeltaAbs : string; SinceLabel : string;
  DeltaColor : string; TradesDate : string; Returns : list ReturnsRow; SeriesLabels : list string;
  ReturnWindows : list ReturnsWindow; Trades : list TradeRow; Holdings : list HoldingRow;
  PortfolioURL : string; UnsubscribeURL : string; ErrorMessage : string; LastKnownValue : string;
}.
#[export] Instance eta_Payload : Eta Payload := λ p,
  {| PortfolioName := PortfolioName p; p_StrategyCode := p_StrategyCode p; RunDate := RunDate p;
     Success := Success p; LogoDataURL := LogoDataURL p; p_CurrentValue := p_CurrentValue p;
     HasDelta := HasDelta p; DeltaPct := DeltaPct p; DeltaAbs := DeltaAbs p; SinceLabel := SinceLabel p;
     DeltaColor := DeltaColor p; TradesDate := TradesDate p; Returns := Returns p;
     SeriesLabels := SeriesLabels p; ReturnWindows := ReturnWindows p; Trades := Trades p;
     Holdings := Holdings p; PortfolioURL := PortfolioURL p; UnsubscribeURL := UnsubscribeURL p;
     ErrorMessage := ErrorMessage p; LastKnownValue := LastKnownValue p |}.

(** ** Numbers *)

(** The loop of [FormatMoneyVal] from the index [i]. *)
Fixpoint groups (fuel : nat) (first : bool) (s : list ascii) : list ascii :=
  match fuel, s with
  | S fuel, _ :: _ => (if first then [] else [byte 44]) ++ take 3 s ++ groups fuel false (drop 3 s)
  | _, _ => []
  end.
Definition FormatMoneyVal (v : float64) : string :=
  let neg := fneg_p v in
  let sign := if neg then "-" else "" in
  let v := if neg then fneg v else v in
  let s := fmt_fixed 0 v in
  if len s <=? 3 then sign +:+ s
  else
    let l := bytes_of s in
    let offset := (length l mod 3)%nat in
    sign +:+ of_bytes (take offset l ++ groups (length l) (offset =? 0)%nat (drop offset l)).

Definition green : string := "#22c55e".
Definition red : string := "#ef4444".
Definition neutral : string := "#94a3b8".

Definition FormatReturnPct (v : float64) : string * string :=
  let rounded := fdiv (fround (fmul v (f_of_Z 10000))) (f_of_Z 100) in
  if feqb rounded fzero then ("0.00%", neutral)
  else
    let neg := fneg_p rounded in
    let sign := if neg then "-" else "+" in
    let rounded := if neg then fneg rounded else rounded in
    (sign +:+ fmt_fixed 2 rounded +:+ "%", if neg then "#dc2626" else "#16a34a").

(** ** Dates *)
Definition month_name (m : Z) : string :=
  nth (Z.to_nat (m - 1)) ["January"; "February"; "March"; "April"; "May"; "June"; "July"; "August";
    "September"; "October"; "November"; "December"] "".
Definition day_name (w : Z) : string :=
  nth (Z.to_nat w) ["Sunday"; "Monday"; "Tuesday"; "Wednesday"; "Thursday"; "Friday"; "Saturday"] "".
Definition first3 (s : string) : string := slice_to s 3.

(** The layouts "January 2, 2006", "Monday" and "Mon, Jan 2". *)
Definition format_long (t : instant) : string :=
  month_name (month_of t) +:+ " " +:+ itoa (mday_of t) +:+ ", " +:+ fmt_year (year_of t).
Definition format_weekday (t : instant) : string := day_name (weekday t).
Definition format_short (t : instant) : string :=
  first3 (day_name (weekday t)) +:+ ", " +:+ first3 (month_name (month_of t)) +:+ " " +:+ itoa (mday_of t).

(** [formatSinceLabel], for times in UTC. *)
Definition formatSinceLabel (lastSentAt now : instant) : string :=
  let diffDays := day_of now - day_of lastSentAt in
  if diffDays <=? 0 then "earlier today"
  else if diffDays =? 1 then "yesterday"
  else if (2 <=? diffDays) && (diffDays <=? 6) && negb (weekday lastSentAt =? weekday now)
  then format_weekday lastSentAt
  else format_short lastSentAt.

(** [FormatDelta]: percentage, amount, colour and label, or nothing. *)
Definition FormatDelta (currentValue previousValue : float64) (lastSentAt now : instant) :
    option (string * string * string * string) :=
  if fleb previousValue fzero then None
  else
    let diff := fsub currentValue previousValue in
    let pct := fmul (fdiv diff previousValue) (f_of_Z 100) in
    let roundedPct := fdiv (fround (fmul pct (f_of_Z 100))) (f_of_Z 100) in
    let roundedDiff := fround diff in
    let since := formatSinceLabel lastSentAt now in
    if feqb roundedPct fzero && feqb roundedDiff fzero then Some ("0.00%", "$0", neutral, since)
    else
      let neg := fneg_p diff in
      let sign := if neg then "-" else "+" in
      let diff := if neg then fneg diff else diff in
      let pct := if neg then fabs pct else pct in
      Some (sign +:+ fmt_fixed 2 pct +:+ "%", sign +:+ "$" +:+ FormatMoneyVal diff, if neg then red else green, since).

(** ** The plain text *)

(** [%-ns] and [%ns] count runes. *)
Definition rune_count (s : string) : nat := length (range_string s).
Fixpoint spaces (n : nat) : string := match n with O => "" | S n => " " +:+ spaces n end.
Definition pad_right (n : nat) (s : string) : string := s +:+ spaces (n - rune_count s).
Definition pad_left (n : nat) (s : string) : string := spaces (n - rune_count s) +:+ s.

Definition returns_line (label day wtd mtd ytd oney : string) : string :=
  pad_right 12 label +:+ " " +:+ pad_left 7 day +:+ " " +:+ pad_left 7 wtd +:+ " " +:+ pad_left 7 mtd
    +:+ " " +:+ pad_left 7 ytd +:+ " " +:+ pad_left 7 oney +:+ newline.
Definition concat_map {A} (f : A → string) (l : list A) : string := fold_right (λ x acc, f x +:+ acc) "" l.

Definition buildPlaintext (p : Payload) : string :=
  PortfolioName p +:+ " — " +:+ RunDate p +:+ newline +:+ newline +:+
  if negb (Success p) then "ERROR: " +:+ ErrorMessage p +:+ newline
  else
    "Portfolio Value: " +:+ p_CurrentValue p +:+ newline +:+
    (if HasDelta p then "Change: " +:+ DeltaPct p +:+ " (" +:+ DeltaAbs p +:+ ") since " +:+ SinceLabel p +:+ newline else "")
    +:+ newline +:+
    (match Returns p with
     | [] => ""
     | rows => returns_line "" "DAY" "WTD" "MTD" "YTD" "1Y" +:+
         concat_map (λ r, returns_line (rr_Label r) (rc_Pct (rr_Day r)) (rc_Pct (rr_Wtd r)) (rc_Pct (rr_Mtd r))
           (rc_Pct (rr_Ytd r)) (rc_Pct (rr_OneYear r))) rows +:+ newline
     end) +:+
    (match Trades p with
     | [] => "No trades required." +:+ newline +:+ newline
     | trades =>
       (if bool_decide (TradesDate p = "") then "Trades to Execute:" +:+ newline
        else "Trades to Execute (" +:+ TradesDate p +:+ "):" +:+ newline) +:+
       concat_map (λ t, "  " +:+ tr_Action t +:+ " " +:+ tr_Ticker t +:+ " " +:+ tr_Shares t +:+ " shares (~"
         +:+ tr_Value t +:+ ")" +:+ newline) trades +:+ newline
     end) +:+
    (match Holdings p with
     | [] => ""
     | hs => "Current Holdings:" +:+ newline +:+
         concat_map (λ h, "  " +:+ hr_Ticker h +:+ "  " +:+ hr_Shares h +:+ " shares  " +:+ hr_Value h +:+ "  "
           +:+ hr_WeightPct h +:+ "%" +:+ newline) hs +:+ newline
     end) +:+
    (if bool_decide (PortfolioURL p = "") then "" else "View portfolio: " +:+ PortfolioURL p +:+ newline) +:+
    (if bool_decide (UnsubscribeURL p = "") then "" else "Unsubscribe: " +:+ UnsubscribeURL p +:+ newline).

(** [Render]; [execute] is the HTML template the success flag selects. *)
Definition Render (execute : bool → Payload → result string) (p : Payload) : result (string * string) :=
  match execute (Success p) p with
  | Err e => Err (wrap "render email template: " e)
  | Ok html => Ok (html, buildPlaintext p)
  end.

Example money_1 : FormatMoneyVal (f_of_Z 1234567) = "1,234,567". Proof. vm_compute. done. Qed.
Example money_2 : FormatMoneyVal (f_of_Z (-123456)) = "-123,456". Proof. vm_compute. done. Qed.
Example pct_1 : FormatReturnPct (fconst 34 3) = ("+3.40%", "#16a34a"). Proof. vm_compute. done. Qed.
