(* ===== verification/Template.v ===== *)
(** Go's text/template, as far as the mails of src/alert/email use it: text, fields
    of the data, [if], [range], [else] and [end].  A template is parsed from its
    text, checked against the shape of its data, and executed. *)
From S2P Require Import Prelude GoStrings.
From Stdlib Require Import Ascii.

(** ** Data *)

(** What a template is executed on, and its shape. *)
Inductive value := VString (s : string) | VBool (b : bool) | VList (l : list value) | VStruct (l : list (string * value)).
Inductive shape := TString | TBool | TList (t : shape) | TStruct (l : list (string * shape)).

Fixpoint field_of {A} (l : list (string * A)) (name : string) : option A :=
  match l with
  | [] => None
  | (n, a) :: l => if decide (n = name) then Some a else field_of l name
  end.

(** ** Templates *)

(** A pipeline of these templates is one operand: the dot, or a chain of fields of it. *)
Definition operand : Type := list string.
Inductive node :=
  | Text (s : string)
  | Print (o : operand)
  | If (o : operand) (body orelse : list node)
  | Range (o : operand) (body orelse : list node).

(** *** Lexing *)

(** [strings.Cut(s, sep)] for a separator of two equal bytes, as [{{] and [}}]. *)
Fixpoint cut_pair (c : ascii) (s : string) : option (string * string) :=
  match s with
  | String a ((String b s2) as s1) =>
    if decide (a = c ∧ b = c) then Some ("", s2)
    else match cut_pair c s1 with Some (pre, post) => Some (String a pre, post) | None => None end
  | _ => None
  end.
Definition lbrace : ascii := byte 123.
Definition rbrace : ascii := byte 125.

Inductive token := TokText (s : string) | TokAction (s : string).
(** [fuel] bounds the actions; the length of the text is enough. *)
Fixpoint lex (fuel : nat) (s : string) : result (list token) :=
  match fuel with
  | O => Err (opaque_err "out of fuel")
  | S fuel =>
    let text (t : string) (l : list token) := if decide (t = "") then l else TokText t :: l in
    match cut_pair lbrace s with
    | None => Ok (text s [])
    | Some (pre, rest) =>
      match cut_pair rbrace rest with
      | None => Err (opaque_err "unclosed action")
      | Some (action, rest) => l ← lex fuel rest; Ok (text pre (TokAction action :: l))
      end
    end
  end.

(** *** Parsing *)

(** The words of an action; an operand is a dot with the names behind it. *)
Definition words (s : string) : list string := filter (λ w, w ≠ "") (split_byte s (byte 32)).
Definition alphanumeric (c : ascii) : bool :=
  let n := code c in
  ((48 <=? n) && (n <=? 57) || (65 <=? n) && (n <=? 90) || (97 <=? n) && (n <=? 122) || (n =? 95))%nat.
Definition operand_of (s : string) : option operand :=
  if decide (s = ".") then Some []
  else match s with
       | String c rest =>
         let names := split_byte rest (byte 46) in
         if decide (c = byte 46) then
           if forallb (λ n, negb (bool_decide (n = "")) && forallb alphanumeric (bytes_of n)) names
           then Some names else None
         else None
       | EmptyString => None
       end.

Inductive action := AField (o : operand) | AIf (o : operand) | ARange (o : operand) | AElse | AEnd.
Definition action_of (s : string) : result action :=
  match words s with
  | [w] => if decide (w = "end") then Ok AEnd else if decide (w = "else") then Ok AElse
           else match operand_of w with Some o => Ok (AField o) | None => Err (opaque_err ("unexpected " +:+ w)) end
  | [kw; w] =>
    match operand_of w with
    | None => Err (opaque_err ("unexpected " +:+ w))
    | Some o => if decide (kw = "if") then Ok (AIf o) else if decide (kw = "range") then Ok (ARange o)
                else Err (opaque_err ("unexpected " +:+ kw))
    end
  | _ => Err (opaque_err "unexpected action")
  end.

(** How a list of items ends: the input does, or an [{{else}}] or [{{end}}]. *)
Inductive ending := AtEOF | AtElse | AtEnd.

(** [itemList] and [parseControl]; every call consumes a token. *)
Fixpoint parse_list (fuel : nat) (ts : list token) : result (list node * ending * list token) :=
  match fuel with
  | O => Err (opaque_err "out of fuel")
  | S fuel =>
    let control (mk : list node → list node → node) (ts : list token) :=
      r ← parse_list fuel ts;
      let '(body, e, ts) := r in
      match e with
      | AtEOF => Err (opaque_err "unexpected EOF")
      | AtEnd =>
        r ← parse_list fuel ts; let '(l, e, ts) := r in Ok (mk body [] :: l, e, ts)
      | AtElse =>
        r ← parse_list fuel ts;
        let '(orelse, e, ts) := r in
        match e with
        | AtEnd => r ← parse_list fuel ts; let '(l, e, ts) := r in Ok (mk body orelse :: l, e, ts)
        | _ => Err (opaque_err "expected end")
        end
      end in
    match ts with
    | [] => Ok ([], AtEOF, [])
    | TokText s :: ts => r ← parse_list fuel ts; let '(l, e, ts) := r in Ok (Text s :: l, e, ts)
    | TokAction a :: ts =>
      a ← action_of a;
      match a with
      | AField o => r ← parse_list fuel ts; let '(l, e, ts) := r in Ok (Print o :: l, e, ts)
      | AIf o => control (If o) ts
      | ARange o => control (Range o) ts
      | AElse => Ok ([], AtElse, ts)
      | AEnd => Ok ([], AtEnd, ts)
      end
    end
  end.

(** [template.New(name).Parse(text)]. *)
Definition Parse (text : string) : result (list node) :=
  ts ← lex (S (String.length text)) text;
  r ← parse_list (S (length ts)) ts;
  match r with
  | (l, AtEOF, _) => Ok l
  | (_, AtElse, _) => Err (opaque_err "unexpected {{else}}")
  | (_, AtEnd, _) => Err (opaque_err "unexpected {{end}}")
  end.

(** ** Execution *)

Definition no_field (name : string) : goerror := opaque_err ("can't evaluate field " +:+ name).
Fixpoint evaluate (o : operand) (dot : value) : result value :=
  match o with
  | [] => Ok dot
  | name :: o =>
    match dot with
    | VStruct l => match field_of l name with Some v => evaluate o v | None => Err (no_field name) end
    | _ => Err (no_field name)
    end
  end.

(** [IsTrue]. *)
Definition truth (v : value) : bool :=
  match v with
  | VString s => negb (bool_decide (s = ""))
  | VBool b => b
  | VList l => match l with [] => false | _ => true end
  | VStruct _ => true
  end.

(** [printValue]: a string is written as it is.  The mails print strings only. *)
Definition print_value (v : value) : result string :=
  match v with
  | VString s => Ok s
  | VBool b => Ok (if b then "true" else "false")
  | _ => Err (opaque_err "not a string")
  end.

Fixpoint exec_node (n : node) (dot : value) : result string :=
  let exec_all := fix exec_all (l : list node) (dot : value) : result string :=
    match l with [] => Ok "" | n :: l => s ← exec_node n dot; t ← exec_all l dot; Ok (s +:+ t) end in
  match n with
  | Text s => Ok s
  | Print o => v ← evaluate o dot; print_value v
  | If o body orelse => v ← evaluate o dot; if truth v then exec_all body dot else exec_all orelse dot
  | Range o body orelse =>
    v ← evaluate o dot;
    match v with
    | VList [] => exec_all orelse dot
    | VList vs =>
      (fix each (vs : list value) : result string :=
         match vs with [] => Ok "" | v :: vs => s ← exec_all body v; t ← each vs; Ok (s +:+ t) end) vs
    | _ => Err (opaque_err "range can't iterate")
    end
  end.
(** [Execute] on a parsed template. *)
Fixpoint Execute (l : list node) (dot : value) : result string :=
  match l with [] => Ok "" | n :: l => s ← exec_node n dot; t ← Execute l dot; Ok (s +:+ t) end.

(** ** Templates that fit their data always execute *)

Inductive has_shape : value → shape → Prop :=
  | has_string s : has_shape (VString s) TString
  | has_bool b : has_shape (VBool b) TBool
  | has_list l t : Forall (λ v, has_shape v t) l → has_shape (VList l) (TList t)
  | has_struct l lt : Forall2 (λ f g, f.1 = g.1 ∧ has_shape f.2 g.2) l lt → has_shape (VStruct l) (TStruct lt).

Fixpoint shape_at (o : operand) (t : shape) : option shape :=
  match o, t with
  | [], _ => Some t
  | name :: o, TStruct l => match field_of l name with Some t => shape_at o t | None => None end
  | _, _ => None
  end.

(** Every operand exists; what is printed is a string, what is ranged over a list. *)
Fixpoint fits_node (n : node) (t : shape) : bool :=
  let all := fix all (l : list node) (t : shape) : bool :=
    match l with [] => true | n :: l => fits_node n t && all l t end in
  match n with
  | Text _ => true
  | Print o => match shape_at o t with Some (TString | TBool) => true | _ => false end
  | If o body orelse => match shape_at o t with Some _ => all body t && all orelse t | None => false end
  | Range o body orelse =>
    match shape_at o t with Some (TList u) => all body u && all orelse t | _ => false end
  end.
Fixpoint fits (l : list node) (t : shape) : bool :=
  match l with [] => true | n :: l => fits_node n t && fits l t end.

Lemma exec_if o body orelse dot :
  exec_node (If o body orelse) dot = (v ← evaluate o dot; if truth v then Execute body dot else Execute orelse dot).
Proof. reflexivity. Qed.
Definition each_value (body : list node) : list value → result string :=
  fix each (vs : list value) : result string :=
    match vs with [] => Ok "" | v :: vs => s ← Execute body v; t ← each vs; Ok (s +:+ t) end.
Lemma exec_range o body orelse dot :
  exec_node (Range o body orelse) dot =
  (v ← evaluate o dot;
   match v with
   | VList [] => Execute orelse dot
   | VList vs => each_value body vs
   | _ => Err (opaque_err "range can't iterate")
   end).
Proof. reflexivity. Qed.
Lemma fits_if o body orelse t :
  fits_node (If o body orelse) t = match shape_at o t with Some _ => fits body t && fits orelse t | None => false end.
Proof. reflexivity. Qed.
Lemma fits_range o body orelse t :
  fits_node (Range o body orelse) t =
  match shape_at o t with Some (TList u) => fits body u && fits orelse t | _ => false end.
Proof. reflexivity. Qed.

Lemma field_has_shape l lt name t :
  Forall2 (λ f g, f.1 = g.1 ∧ has_shape f.2 g.2) l lt → field_of lt name = Some t →
  ∃ v, field_of l name = Some v ∧ has_shape v t.
Proof.
  induction 1 as [|[n v] [m u] l lt [Hn Hv] _ IH]; cbn in *; [done|]. subst m.
  case_decide; [|done]. intros [= <-]. eauto.
Qed.

Lemma evaluate_has_shape o dot t u :
  has_shape dot t → shape_at o t = Some u → ∃ v, evaluate o dot = Ok v ∧ has_shape v u.
Proof.
  revert dot t. induction o as [|name o IH]; intros dot t Hd; cbn; [intros [= <-]; eauto|].
  destruct t as [| | |lt]; try done. inversion Hd; subst. destruct (field_of lt name) as [t'|] eqn:Hf; [|done].
  destruct (field_has_shape _ _ _ _ ltac:(done) Hf) as (v & -> & Hv). by apply IH.
Qed.

Lemma node_ind' (P : node → Prop) :
  (∀ s, P (Text s)) → (∀ o, P (Print o)) →
  (∀ o body orelse, Forall P body → Forall P orelse → P (If o body orelse)) →
  (∀ o body orelse, Forall P body → Forall P orelse → P (Range o body orelse)) → ∀ n, P n.
Proof.
  intros Ht Hp Hi Hr. fix IH 1.
  assert (∀ l, Forall P l) as Hall by (fix IHl 1; intros [|n l]; constructor; [apply IH|apply IHl]).
  intros [s|o|o body orelse|o body orelse]; [apply Ht|apply Hp|apply Hi; apply Hall|apply Hr; apply Hall].
Qed.

(** A template that fits executes without an error on all data of the shape. *)
Definition executes (n : node) : Prop :=
  ∀ dot t, has_shape dot t → fits_node n t = true → ∃ s, exec_node n dot = Ok s.
Lemma all_execute l dot t : Forall executes l → has_shape dot t → fits l t = true → ∃ s, Execute l dot = Ok s.
Proof.
  induction 1 as [|n l Hn _ IH]; cbn; [eauto|]. intros Hd [Hf Hl]%andb_true_iff.
  destruct (Hn _ _ Hd Hf) as [s ->], (IH Hd Hl) as [u Hu]. cbn. rewrite Hu. cbn. eauto.
Qed.
Lemma each_executes l vs t : Forall executes l → Forall (λ v, has_shape v t) vs → fits l t = true →
  ∃ s, each_value l vs = Ok s.
Proof.
  intros Hl Hvs Hf. induction Hvs as [|v vs Hv _ [u Hu]]; [by eexists|].
  destruct (all_execute _ _ _ Hl Hv Hf) as [s Hs]. cbn. rewrite Hs, Hu. cbn. eauto.
Qed.

Lemma fitting_executes n : executes n.
Proof.
  induction n as [s|o|o body orelse Hb He|o body orelse Hb He] using node_ind'; intros dot t Hd.
  - cbn. eauto.
  - cbn. destruct (shape_at o t) as [u|] eqn:Hu; [|done].
    destruct (evaluate_has_shape _ _ _ _ Hd Hu) as (v & -> & Hv). destruct u; try done; inversion Hv; cbn; eauto.
  - rewrite fits_if, exec_if. destruct (shape_at o t) as [u|] eqn:Hu; [|done].
    destruct (evaluate_has_shape _ _ _ _ Hd Hu) as (v & -> & Hv). intros [Hfb Hfe]%andb_true_iff. cbn.
    destruct (truth v); by eapply all_execute.
  - rewrite fits_range, exec_range. destruct (shape_at o t) as [u|] eqn:Hu; [|done]. destruct u as [| |u|]; try done.
    destruct (evaluate_has_shape _ _ _ _ Hd Hu) as (v & -> & Hv). intros [Hfb Hfe]%andb_true_iff. cbn.
    inversion Hv as [| |vs t' Hvs|]; subst. destruct vs; [by eapply all_execute|by eapply each_executes].
Qed.

(** A template that fits executes without an error on all data of the shape. *)
Lemma fits_Execute l dot t : has_shape dot t → fits l t = true → ∃ s, Execute l dot = Ok s.
Proof. apply all_execute, Forall_forall. intros n _. apply fitting_executes. Qed.

(** ** Strings that reach the output *)

(** [s] occurs in the output between what comes before and after it. *)
Lemma Execute_app l k dot : Execute (l ++ k) dot = (s ← Execute l dot; t ← Execute k dot; Ok (s +:+ t)).
Proof.
  induction l as [|n l IH]; cbn.
  - by destruct (Execute k dot).
  - rewrite IH. destruct (exec_node n dot); cbn; [|done]. destruct (Execute l dot); cbn; [|done].
    destruct (Execute k dot); cbn; [|done]. by rewrite string_app_assoc.
Qed.

(** A string field printed between two texts appears there as it is. *)
Lemma printed_verbatim l pre name post k dot fs s :
  dot = VStruct fs → field_of fs name = Some (VString s) →
  ∀ out, Execute (l ++ Text pre :: Print [name] :: Text post :: k) dot = Ok out →
  ∃ a b, out = a +:+ (pre +:+ s +:+ post) +:+ b.
Proof.
  intros -> Hf out. rewrite Execute_app. cbn. rewrite Hf. cbn.
  destruct (Execute l _) as [a|]; cbn; [|done]. destruct (Execute k _) as [b|]; cbn; [|done].
  intros [= <-]. exists a, b. by rewrite !string_app_assoc.
Qed.

Definition occurs (s out : string) : Prop := ∃ a b, out = a +:+ s +:+ b.
Lemma occurs_refl s : occurs s s.
Proof. exists "", "". by rewrite string_app_nil_r. Qed.
Lemma occurs_app_l s a b : occurs s a → occurs s (a +:+ b).
Proof. intros (c & d & ->). exists c, (d +:+ b). by rewrite !string_app_assoc. Qed.
Lemma occurs_app_r s a b : occurs s b → occurs s (a +:+ b).
Proof. intros (c & d & ->). exists (a +:+ c), d. by rewrite !string_app_assoc. Qed.

(** The strings a template prints, in order. *)
Fixpoint prints_node (n : node) (dot : value) : list string :=
  let all := fix all (l : list node) (dot : value) : list string :=
    match l with [] => [] | n :: l => prints_node n dot ++ all l dot end in
  match n with
  | Text _ => []
  | Print o => match evaluate o dot with Ok (VString s) => [s] | _ => [] end
  | If o body orelse =>
    match evaluate o dot with Ok v => if truth v then all body dot else all orelse dot | Err _ => [] end
  | Range o body orelse =>
    match evaluate o dot with
    | Ok (VList []) => all orelse dot
    | Ok (VList vs) => concat (map (all body) vs)
    | _ => []
    end
  end.
Fixpoint prints (l : list node) (dot : value) : list string :=
  match l with [] => [] | n :: l => prints_node n dot ++ prints l dot end.

(** A template without its text. *)
Fixpoint bare_node (n : node) : list node :=
  let all := fix all (l : list node) : list node := match l with [] => [] | n :: l => bare_node n ++ all l end in
  match n with
  | Text _ => []
  | Print o => [Print o]
  | If o body orelse => [If o (all body) (all orelse)]
  | Range o body orelse => [Range o (all body) (all orelse)]
  end.
Fixpoint bare (l : list node) : list node := match l with [] => [] | n :: l => bare_node n ++ bare l end.

Lemma prints_app l k dot : prints (l ++ k) dot = prints l dot ++ prints k dot.
Proof. induction l as [|n l IH]; [done|]. cbn. by rewrite IH, app_assoc. Qed.

Lemma prints_if o body orelse dot :
  prints_node (If o body orelse) dot =
  match evaluate o dot with Ok v => if truth v then prints body dot else prints orelse dot | Err _ => [] end.
Proof. reflexivity. Qed.
Lemma prints_range o body orelse dot :
  prints_node (Range o body orelse) dot =
  match evaluate o dot with
  | Ok (VList []) => prints orelse dot
  | Ok (VList vs) => concat (map (prints body) vs)
  | _ => []
  end.
Proof. reflexivity. Qed.
Lemma bare_if o body orelse : bare_node (If o body orelse) = [If o (bare body) (bare orelse)].
Proof. reflexivity. Qed.
Lemma bare_range o body orelse : bare_node (Range o body orelse) = [Range o (bare body) (bare orelse)].
Proof. reflexivity. Qed.

Lemma prints_bare_node n dot : prints (bare_node n) dot = prints_node n dot.
Proof.
  revert dot. induction n as [s|o|o body orelse Hb He|o body orelse Hb He] using node_ind'; intros dot;
    [done|cbn; by rewrite app_nil_r|..].
  all: assert (∀ l dot, Forall (λ n, ∀ dot, prints (bare_node n) dot = prints_node n dot) l → prints (bare l) dot = prints l dot) as Hall
    by (intros l d; induction 1 as [|n l Hn _ IH]; [done|]; cbn [bare prints]; by rewrite prints_app, Hn, IH).
  - rewrite bare_if. cbn [prints]. rewrite app_nil_r, !prints_if. destruct (evaluate o dot) as [v|]; [|done].
    destruct (truth v); by apply Hall.
  - rewrite bare_range. cbn [prints]. rewrite app_nil_r, !prints_range. destruct (evaluate o dot) as [[| |vs|]|]; try done.
    destruct vs as [|v vs]; [by apply Hall|]. f_equal. apply map_ext. intros u. by apply Hall.
Qed.
Lemma prints_bare l dot : prints (bare l) dot = prints l dot.
Proof. induction l as [|n l IH]; [done|]. cbn. by rewrite prints_app, prints_bare_node, IH. Qed.

(** Everything printed is in the output as it is. *)
Definition shows (n : node) : Prop :=
  ∀ dot out s, exec_node n dot = Ok out → s ∈ prints_node n dot → occurs s out.
Lemma all_shown l dot out s : Forall shows l → Execute l dot = Ok out → s ∈ prints l dot → occurs s out.
Proof.
  intros Hl. revert out. induction Hl as [|n l Hn _ IH]; cbn; intros out; [by intros _ []%not_elem_of_nil|].
  destruct (exec_node n dot) as [a|] eqn:Ha; cbn; [|done]. destruct (Execute l dot) as [b|] eqn:Hb; cbn; [|done].
  intros [= <-] [Hs|Hs]%elem_of_app; [by eapply occurs_app_l, Hn|by apply occurs_app_r, IH].
Qed.
Lemma each_shown l vs out s : Forall shows l → each_value l vs = Ok out → s ∈ concat (map (prints l) vs) → occurs s out.
Proof.
  intros Hl. revert out. induction vs as [|v vs IH]; cbn; intros out; [by intros _ []%not_elem_of_nil|].
  destruct (Execute l v) as [a|] eqn:Ha; cbn; [|done].
  destruct (each_value l vs) as [b|] eqn:Hb; cbn; [|done].
  intros [= <-] [Hs|Hs]%elem_of_app; [by eapply occurs_app_l, all_shown|by apply occurs_app_r, IH].
Qed.
Lemma node_shows n : shows n.
Proof.
  induction n as [u|o|o body orelse Hb He|o body orelse Hb He] using node_ind'; intros dot out s.
  - by intros _ []%not_elem_of_nil.
  - cbn. destruct (evaluate o dot) as [[]|]; cbn; try done; try (by intros _ []%not_elem_of_nil).
    intros [= <-] ->%list_elem_of_singleton. apply occurs_refl.
  - rewrite exec_if, prints_if. destruct (evaluate o dot) as [v|]; cbn; [|done]. destruct (truth v); by apply all_shown.
  - rewrite exec_range, prints_range. destruct (evaluate o dot) as [[| |[|v vs]|]|]; try done; cbn [mbind result_bind].
    + by apply all_shown.
    + by apply each_shown.
Qed.
Lemma Execute_shows l dot out s : Execute l dot = Ok out → s ∈ prints l dot → occurs s out.
Proof. apply all_shown, Forall_forall. intros n _. apply node_shows. Qed.
