(* ===== verification/Mail.v ===== *)
(** The mails as they are sent: the two templates executed on a payload
    (src/alert/email/template.go). *)
From S2P Require Import Prelude GoStrings Template MailTemplates Email.
From Stdlib Require Import Ascii.

(** ** The payload as the templates see it *)

Definition cell_value (c : ReturnCell) : value := VStruct [("Pct", VString (rc_Pct c)); ("Color", VString (rc_Color c))].
Definition row_value (r : ReturnsRow) : value :=
  VStruct [("Label", VString (rr_Label r)); ("Day", cell_value (rr_Day r)); ("Wtd", cell_value (rr_Wtd r));
           ("Mtd", cell_value (rr_Mtd r)); ("Ytd", cell_value (rr_Ytd r)); ("OneYear", cell_value (rr_OneYear r))].
Definition window_value (w : ReturnsWindow) : value :=
  VStruct [("Label", VString (rw_Label w)); ("Cells", VList (map cell_value (rw_Cells w)))].
Definition trade_value (t : TradeRow) : value :=
  VStruct [("Ticker", VString (tr_Ticker t)); ("Action", VString (tr_Action t));
           ("ActionColor", VString (tr_ActionColor t)); ("ActionBgColor", VString (tr_ActionBgColor t));
           ("Shares", VString (tr_Shares t)); ("Value", VString (tr_Value t))].
Definition holding_value (h : HoldingRow) : value :=
  VStruct [("Ticker", VString (hr_Ticker h)); ("TickerColor", VString (hr_TickerColor h));
           ("Shares", VString (hr_Shares h)); ("WeightPct", VString (hr_WeightPct h)); ("Value", VString (hr_Value h))].
Definition payload_value (p : Payload) : value :=
  VStruct [("PortfolioName", VString (PortfolioName p)); ("StrategyCode", VString (p_StrategyCode p));
           ("RunDate", VString (RunDate p)); ("Success", VBool (Success p)); ("LogoDataURL", VString (LogoDataURL p));
           ("CurrentValue", VString (p_CurrentValue p)); ("HasDelta", VBool (HasDelta p));
           ("DeltaPct", VString (DeltaPct p)); ("DeltaAbs", VString (DeltaAbs p)); ("SinceLabel", VString (SinceLabel p));
           ("DeltaColor", VString (DeltaColor p)); ("TradesDate", VString (TradesDate p));
           ("Returns", VList (map row_value (Returns p))); ("SeriesLabels", VList (map VString (SeriesLabels p)));
           ("ReturnWindows", VList (map window_value (ReturnWindows p))); ("Trades", VList (map trade_value (Trades p)));
           ("Holdings", VList (map holding_value (Holdings p))); ("PortfolioURL", VString (PortfolioURL p));
           ("UnsubscribeURL", VString (UnsubscribeURL p)); ("ErrorMessage", VString (ErrorMessage p));
           ("LastKnownValue", VString (LastKnownValue p))].

(** [template.Must(... Parse ...)], and the template [Render] executes. *)
Definition parsed (text : string) : list node := match Parse text with Ok l => l | Err _ => [] end.
Definition successTmpl : list node := parsed successHTML.
Definition failureTmpl : list node := parsed failureHTML.
Definition execute (success : bool) (p : Payload) : result string :=
  Execute (if success then successTmpl else failureTmpl) (payload_value p).

(** [Must] does not panic. *)
Lemma templates_parse : Parse successHTML = Ok successTmpl ∧ Parse failureHTML = Ok failureTmpl.
Proof. split; vm_compute; reflexivity. Qed.

(** ** The shape of a payload *)
Definition cell_shape : shape := TStruct [("Pct", TString); ("Color", TString)].
Definition payload_shape : shape :=
  TStruct [("PortfolioName", TString); ("StrategyCode", TString); ("RunDate", TString); ("Success", TBool);
    ("LogoDataURL", TString); ("CurrentValue", TString); ("HasDelta", TBool); ("DeltaPct", TString);
    ("DeltaAbs", TString); ("SinceLabel", TString); ("DeltaColor", TString); ("TradesDate", TString);
    ("Returns", TList (TStruct [("Label", TString); ("Day", cell_shape); ("Wtd", cell_shape); ("Mtd", cell_shape);
                                ("Ytd", cell_shape); ("OneYear", cell_shape)]));
    ("SeriesLabels", TList TString);
    ("ReturnWindows", TList (TStruct [("Label", TString); ("Cells", TList cell_shape)]));
    ("Trades", TList (TStruct [("Ticker", TString); ("Action", TString); ("ActionColor", TString);
                               ("ActionBgColor", TString); ("Shares", TString); ("Value", TString)]));
    ("Holdings", TList (TStruct [("Ticker", TString); ("TickerColor", TString); ("Shares", TString);
                                 ("WeightPct", TString); ("Value", TString)]));
    ("PortfolioURL", TString); ("UnsubscribeURL", TString); ("ErrorMessage", TString); ("LastKnownValue", TString)].

Lemma map_has_shape {A} (f : A → value) t l : (∀ a, has_shape (f a) t) → has_shape (VList (map f l)) (TList t).
Proof. intros Hf. constructor. induction l; constructor; auto. Qed.
Ltac shaped := repeat first [ reflexivity | apply map_has_shape; intros ? | constructor ].
Lemma payload_has_shape p : has_shape (payload_value p) payload_shape.
Proof. unfold payload_value, payload_shape, cell_shape, row_value, window_value, trade_value, holding_value, cell_value. shaped. Qed.

Lemma templates_fit (success : bool) : fits (if success then successTmpl else failureTmpl) payload_shape = true.
Proof. destruct success; vm_compute; reflexivity. Qed.

(** ** What the templates print *)
Definition cells (window : string) : list node := [Print [window; "Color"]; Print [window; "Pct"]].
Lemma success_prints : bare successTmpl =
  [Print ["PortfolioName"]; Print ["PortfolioName"]; Print ["LogoDataURL"]; Print ["PortfolioName"];
   Print ["StrategyCode"]; Print ["RunDate"]; Print ["CurrentValue"];
   If ["HasDelta"] (map (λ f, Print [f]) ["DeltaColor"; "DeltaPct"; "DeltaAbs"; "SinceLabel"]) [];
   Range ["Returns"] (Print ["Label"] :: concat (map cells ["Day"; "Wtd"; "Mtd"; "Ytd"; "OneYear"])) [];
   Range ["SeriesLabels"] [Print []] [];
   Range ["ReturnWindows"] [Print ["Label"]; Range ["Cells"] [Print ["Color"]; Print ["Pct"]] []] [];
   If ["TradesDate"] [Print ["TradesDate"]] [];
   If ["Trades"] [Range ["Trades"] (map (λ f, Print [f])
     ["Ticker"; "ActionBgColor"; "ActionColor"; "Action"; "Shares"; "Value"]) []] [];
   Range ["Holdings"] (map (λ f, Print [f]) ["TickerColor"; "Ticker"; "Shares"; "Value"; "WeightPct"]) [];
   If ["PortfolioURL"] [Print ["PortfolioURL"]] []; If ["UnsubscribeURL"] [Print ["UnsubscribeURL"]] []].
Proof. vm_compute. reflexivity. Qed.
Lemma failure_prints : bare failureTmpl =
  [Print ["PortfolioName"]; Print ["PortfolioName"]; Print ["LogoDataURL"]; Print ["PortfolioName"];
   Print ["StrategyCode"]; Print ["RunDate"]; If ["LastKnownValue"] [Print ["LastKnownValue"]] [];
   Print ["ErrorMessage"]; If ["UnsubscribeURL"] [Print ["UnsubscribeURL"]] []].
Proof. vm_compute. reflexivity. Qed.

(** ** What a mail shows *)

Definition row_shown (r : ReturnsRow) : list string :=
  rr_Label r :: concat (map (λ c, [rc_Color c; rc_Pct c]) [rr_Day r; rr_Wtd r; rr_Mtd r; rr_Ytd r; rr_OneYear r]).
Definition window_shown (w : ReturnsWindow) : list string :=
  rw_Label w :: concat (map (λ c, [rc_Color c; rc_Pct c]) (rw_Cells w)).
Definition trade_shown (t : TradeRow) : list string :=
  [tr_Ticker t; tr_ActionBgColor t; tr_ActionColor t; tr_Action t; tr_Shares t; tr_Value t].
Definition holding_shown (h : HoldingRow) : list string :=
  [hr_TickerColor h; hr_Ticker h; hr_Shares h; hr_Value h; hr_WeightPct h].
Definition unless_empty (s : string) : list string := if bool_decide (s = "") then [] else [s].
(** The strings of a payload, in the order of the mail. *)
Definition shown (p : Payload) : list string :=
  if Success p then
    concat [[PortfolioName p]; [PortfolioName p]; [LogoDataURL p]; [PortfolioName p]; [p_StrategyCode p]; [RunDate p];
            [p_CurrentValue p]; if HasDelta p then [DeltaColor p; DeltaPct p; DeltaAbs p; SinceLabel p] else [];
            concat (map row_shown (Returns p)); SeriesLabels p; concat (map window_shown (ReturnWindows p));
            unless_empty (TradesDate p); concat (map trade_shown (Trades p)); concat (map holding_shown (Holdings p));
            unless_empty (PortfolioURL p); unless_empty (UnsubscribeURL p)]
  else
    concat [[PortfolioName p]; [PortfolioName p]; [LogoDataURL p]; [PortfolioName p]; [p_StrategyCode p]; [RunDate p];
            unless_empty (LastKnownValue p); [ErrorMessage p]; unless_empty (UnsubscribeURL p)].

Lemma prints_list {A} (f : A → value) (g : A → list string) o body dot l :
  evaluate o dot = Ok (VList (map f l)) → (∀ a, prints body (f a) = g a) →
  prints_node (Range o body []) dot = concat (map g l).
Proof.
  intros He Hg. rewrite prints_range, He. destruct l as [|a l]; [done|]. cbn [map]. f_equal.
  change (map (prints body) (map f (a :: l)) = map g (a :: l)). rewrite map_map. apply map_ext, Hg.
Qed.
Lemma prints_when o dot s :
  evaluate o dot = Ok (VString s) → prints_node (If o [Print o] []) dot = unless_empty s.
Proof.
  intros He. rewrite prints_if, He. unfold unless_empty. cbn. case_bool_decide; cbn; [done|]. by rewrite He.
Qed.

Lemma prints_payload p :
  prints (if Success p then successTmpl else failureTmpl) (payload_value p) = shown p.
Proof.
  unfold shown. destruct (Success p); rewrite <-prints_bare, ?success_prints, ?failure_prints;
    repeat (refine (f_equal2 app _ _); [try reflexivity|]); try reflexivity;
    try (by apply prints_when).
  - by apply (prints_list row_value).
  - rewrite (prints_list VString (λ s, [s]) _ _ _ (SeriesLabels p)) by done.
    induction (SeriesLabels p) as [|s l IH]; [done|]. cbn. by rewrite IH.
  - apply (prints_list window_value); [done|]. intros w.
    change (rw_Label w :: prints_node (Range ["Cells"] [Print ["Color"]; Print ["Pct"]] []) (window_value w) ++ [] = window_shown w).
    rewrite app_nil_r. unfold window_shown. f_equal. by apply (prints_list cell_value).
  - rewrite prints_if. change (evaluate ["Trades"] (payload_value p)) with (@Ok value (VList (map trade_value (Trades p)))).
    cbn [prints]. rewrite app_nil_r, (prints_list trade_value trade_shown _ _ _ (Trades p)) by done.
    by destruct (Trades p).
  - by apply (prints_list holding_value).
Qed.

(** Every payload renders - neither template meets a field it cannot evaluate - and
    the HTML holds every string of the payload byte for byte, unescaped. *)
Lemma Render_total p : ∃ html, Render execute p = Ok (html, buildPlaintext p) ∧ ∀ s, s ∈ shown p → occurs s html.
Proof.
  destruct (fits_Execute _ _ _ (payload_has_shape p) (templates_fit (Success p))) as [html Hx].
  exists html. unfold Render, execute. rewrite Hx. split; [done|]. intros s Hs. eapply Execute_shows; [exact Hx|].
  by rewrite prints_payload.
Qed.
