(* ===== verification/SnapDb.v ===== *)
(** Snapshot files (src/snapshot/reader.go, the schema of src/snapshot/fixture.go):
    the tables a backtest leaves in a SQLite file, the way the readers query
    them, and the queries several readers share (src/snapshot/holdings.go,
    src/snapshot/returns.go, src/snapshot/summary.go). *)
From S2P Require Import Prelude GoStrings GoTime Types GoFloat.
From Stdlib Require Import Ascii.

Definition snapshot_ErrNotFound' : goerror := sentinel_err snapshot_ErrNotFound "snapshot: not found".

(** The zero [time.Time]. *)
Definition zero_time : instant := date_utc 1 1 1.
Definition IsZero (t : instant) : bool := t =? zero_time.

(** ** Stable insertion sort

    The element moves left while it is less than its neighbour; the sorted
    prefix is kept in reverse. *)
Section insertion.
Context {A : Type} (less : A → A → bool).

Fixpoint insert_rev (x : A) (prefix : list A) : list A :=
  match prefix with
  | [] => [x]
  | y :: r => if less x y then y :: insert_rev x r else x :: y :: r
  end.
Definition sort_by (l : list A) : list A := rev (foldl (λ acc x, insert_rev x acc) [] l).

Lemma insert_rev_perm x l : insert_rev x l ≡ₚ x :: l.
Proof. induction l as [|y l IH]; cbn; [done|]. case_match; [|done]. rewrite IH. apply perm_swap. Qed.

Lemma sort_by_perm l : sort_by l ≡ₚ l.
Proof.
  unfold sort_by. rewrite <-Permutation_rev.
  enough (∀ acc, foldl (λ acc x, insert_rev x acc) acc l ≡ₚ l ++ acc) as H by (by rewrite H, app_nil_r).
  induction l as [|x l IH]; intros acc; cbn; [done|].
  rewrite IH, insert_rev_perm. symmetry. apply Permutation_middle.
Qed.

(** No element is less than the one before it. *)
Definition not_after (a b : A) : Prop := less b a = false.

Lemma insert_rev_sorted x l :
  (∀ a b, less a b = true → less b a = false) →
  Sorted (flip not_after) l → Sorted (flip not_after) (insert_rev x l).
Proof.
  intros Has. induction 1 as [|y l Hl IH Hy]; cbn; [by repeat constructor|].
  destruct (less x y) eqn:E.
  - constructor; [done|]. destruct l as [|z l]; cbn.
    + constructor. unfold flip, not_after. by apply Has.
    + destruct (less x z); constructor; [|by apply Has]. by apply HdRel_inv in Hy.
  - constructor; [by constructor|]. by constructor.
Qed.

Lemma sorted_rev (R : relation A) l : Sorted (flip R) l → Sorted R (rev l).
Proof.
  induction 1 as [|x l Hl IH Hx]; cbn; [constructor|].
  destruct l as [|y l]; cbn in *; [by repeat constructor|]. apply HdRel_inv in Hx.
  revert IH. generalize (rev l). intros k. induction k as [|a k IHk]; cbn; intros Hs.
  - repeat constructor. done.
  - inversion_clear Hs as [|? ? Hk Ha]. constructor; [by apply IHk|].
    destruct k; cbn in *; constructor; by apply HdRel_inv in Ha.
Qed.

Lemma sort_by_sorted l :
  (∀ a b, less a b = true → less b a = false) → Sorted not_after (sort_by l).
Proof.
  intros Has. apply sorted_rev.
  enough (∀ acc, Sorted (flip not_after) acc →
    Sorted (flip not_after) (foldl (λ acc x, insert_rev x acc) acc l)) as H by (apply H; constructor).
  induction l as [|x l IH]; intros acc Hacc; cbn; [done|]. apply IH. by apply insert_rev_sorted.
Qed.

Lemma elem_of_sort_by x l : x ∈ sort_by l ↔ x ∈ l.
Proof. by rewrite sort_by_perm. Qed.
End insertion.

(** ** Tables *)
Record perf_row := { pf_date : string; pf_metric : string; pf_value : float64 }.
Record tx_row := {
  tx_batch : option Z; tx_date : option string; tx_type : option string; tx_ticker : option string;
  tx_figi : option string; tx_quantity : option float64; tx_price : option float64;
  tx_amount : option float64; tx_qualified : option Z; tx_justification : option string;
}.
Record holding_row := {
  hd_ticker : option string; hd_figi : option string; hd_quantity : option float64;
  hd_avg_cost : option float64; hd_market_value : option float64;
}.
Record metric_row := {
  mt_date : option string; mt_name : option string; mt_window : option string; mt_value : option float64;
}.
Record annotation_row := { an_batch : option Z; an_key : option string; an_value : option string }.
Record position_row := {
  ps_date : string; ps_ticker : string; ps_figi : string; ps_market_value : float64; ps_quantity : float64;
}.
Record ptx_row := {
  px_type : string; px_ticker : option string; px_figi : option string; px_quantity : option float64;
  px_price : option float64; px_amount : option float64; px_justification : option string;
}.
Record phold_row := { ph_ticker : string; ph_figi : string; ph_quantity : float64; ph_market_value : float64 }.

(** A snapshot; the rows of a table are in rowid order, a table that older
    versions of the schema lack may be absent. *)
Record snapdb := {
  metadata : gmap string (option string);
  perf_data : list perf_row;
  batches : list (Z * Z);
  transactions : list tx_row;
  holdings : list holding_row;
  metrics : list metric_row;
  annotations : list annotation_row;
  positions_daily : option (list position_row);
  prediction : option (list string);
  predicted_transactions : option (list ptx_row);
  predicted_holdings : option (list phold_row);
  predicted_annotations : option (list (string * string));
}.

(** ** Queries

    The next queries of a session may fail: at once, or after some rows were
    delivered. *)
Inductive fault :=
  | FNone
  | FQuery (e : goerror)
  | FRows (n : nat) (e : goerror).

(** A reading computation consumes one fault per query. *)
Definition rd (A : Type) : Type := list fault → list fault * result A.
#[export] Instance rd_ret : MRet rd := λ A a s, (s, Ok a).
#[export] Instance rd_bind : MBind rd := λ A B f m s,
  match m s with (s', Ok a) => f a s' | (s', Err e) => (s', Err e) end.
Definition fail {A} (e : goerror) : rd A := λ s, (s, Err e).
Definition lift {A} (r : result A) : rd A := λ s, (s, r).

(** What the driver, the standard library and the planner contribute: the order
    in which rows come when the query leaves it open, error texts, [math.Pow]. *)
Class Driver := {
  scan_order {A} : list A → list A;
  scan_order_perm {A} (l : list A) : scan_order l ≡ₚ l;
  null_scan : string → goerror;
  no_such_table : string → goerror;
  parse_error : string → string → goerror;
  pow : float64 → float64 → float64;
}.

Section queries.
Context `{Driver}.

(** Rows under [ORDER BY]: equal keys come in scan order. *)
Definition order_by {A} (less : A → A → bool) (l : list A) : list A := sort_by less (scan_order l).

(** NULL sorts first. *)
Definition null_ltb {A} (ltb : A → A → bool) (a b : option A) : bool :=
  match a, b with None, Some _ => true | Some a, Some b => ltb a b | _, _ => false end.
Definition on {A K} (key : A → K) (ltb : K → K → bool) (a b : A) : bool := ltb (key a) (key b).
Definition desc {A} (ltb : A → A → bool) (a b : A) : bool := ltb b a.

(** [QueryContext]: the rows delivered and what [rows.Err()] will say. *)
Definition query {A} (w : goerror → goerror) (q : list A) : rd (list A * option goerror) := λ s,
  match s with
  | FQuery e :: s => (s, Err (w e))
  | FRows n e :: s => (s, Ok (take n q, Some e))
  | FNone :: s => (s, Ok (q, None))
  | [] => ([], Ok (q, None))
  end.

(** The same on a table that may be absent. *)
Definition query_table {A} (w : goerror → goerror) (name : string) (table : option (list A))
    (q : list A → list A) : rd (list A * option goerror) := λ s,
  match s, table with
  | FQuery e :: s, _ => (s, Err (w e))
  | _ :: s, None => (s, Err (w (no_such_table name)))
  | [], None => ([], Err (w (no_such_table name)))
  | s, Some rows => query w (q rows) s
  end.

(** [QueryRowContext]: the first row, nothing for [sql.ErrNoRows], or an error. *)
Definition query_row {A} (w : goerror → goerror) (q : list A) : rd (option A) :=
  '(rows, e) ← query w q;
  match rows, e with
  | a :: _, _ => mret (Some a)
  | [], Some e => fail (w e)
  | [], None => mret None
  end.

(** [for rows.Next() { .. }] with a body that may return an error, and the
    check of [rows.Err()] after it. *)
Fixpoint foldR {S A} (step : S → A → result S) (s : S) (l : list A) : result S :=
  match l with [] => Ok s | a :: l => s ← step s a; foldR step s l end.
Definition each {S A} (w : goerror → goerror) (rows : list A * option goerror)
    (step : S → A → result S) (s : S) : rd S :=
  lift (s ← foldR step s rows.1; match rows.2 with Some e => Err (w e) | None => Ok s end).
Definition collect {A B} (w : goerror → goerror) (rows : list A * option goerror)
    (f : A → result B) : rd (list B) :=
  lift (l ← mapR f rows.1; match rows.2 with Some e => Err (w e) | None => Ok l end).

(** Scanning a nullable column into a value. *)
Definition scan {A} (w : goerror → goerror) (kind : string) (c : option A) : result A :=
  match c with Some a => Ok a | None => Err (w (null_scan kind)) end.

(** ** Dates *)
Definition is_digit (a : ascii) : bool := match digit_val a with Some _ => true | None => false end.

(** One or two digits: Go's hour accepts both. *)
Definition hour_digits (l : list ascii) : option (Z * list ascii) :=
  match l with
  | a :: b :: r =>
    x ← digit_val a;
    match digit_val b with Some y => Some (x * 10 + y, r) | None => Some (x, b :: r) end
  | [a] => x ← digit_val a; Some (x, [])
  | [] => None
  end.
Definition two_digits (l : list ascii) : option (Z * list ascii) :=
  match l with
  | a :: b :: r => x ← digit_val a; y ← digit_val b; Some (x * 10 + y, r)
  | _ => None
  end.
Definition expect (c : ascii) (l : list ascii) : option (list ascii) :=
  match l with a :: r => if bool_decide (a = c) then Some r else None | [] => None end.
Fixpoint skip_digits (l : list ascii) : list ascii :=
  match l with a :: r => if is_digit a then skip_digits r else l | [] => [] end.

(** A fraction after the seconds: a point or comma, at least one digit. *)
Definition skip_fraction (l : list ascii) : list ascii :=
  match l with
  | a :: b :: r =>
    if (bool_decide (a = "."%char) || bool_decide (a = ","%char)) && is_digit b then skip_digits r else l
  | _ => l
  end.

(** The layout "Z07:00". *)
Definition zone_ok (l : list ascii) : bool :=
  match l with
  | [a] => bool_decide (a = "Z"%char)
  | [sg; h1; h2; c; m1; m2] =>
    (bool_decide (sg = "+"%char) || bool_decide (sg = "-"%char)) && bool_decide (c = ":"%char) &&
    match two_digits [h1; h2], two_digits [m1; m2] with
    | Some (h, _), Some (m, _) => (h <=? 24) && (m <=? 60)
    | _, _ => false
    end
  | _ => false
  end.

(** [time.Parse(time.RFC3339, s)], reduced to the calendar day [t.Date()]
    gives: midnight UTC of the day as written, in the timestamp's own offset. *)
Definition parse_rfc3339_day (s : string) : option instant :=
  t ← parse_date (slice_to s 10);
  l ← expect "T"%char (drop 10 (bytes_of s));
  '(h, l) ← hour_digits l; l ← expect ":"%char l;
  '(mi, l) ← two_digits l; l ← expect ":"%char l;
  '(sec, l) ← two_digits l;
  if (h <? 24) && (mi <? 60) && (sec <? 60) && zone_ok (skip_fraction l) then Some t else None.

Definition rfc3339 : string := "2006-01-02T15:04:05Z07:00".
Definition quoted (s : string) : string := of_bytes [byte 34] +:+ s +:+ of_bytes [byte 34].

(** [parseMetadataDate]; [%q] of a value without characters to escape. *)
Definition parseMetadataDate (s : string) : result instant :=
  match parse_date s with
  | Some t => Ok t
  | None =>
    match parse_rfc3339_day s with
    | Some t => Ok t
    | None => Err (wrap ("parse metadata date " +:+ quoted s +:+ ": ") (parse_error rfc3339 s))
    end
  end.

(** ** Shared queries *)
Section readers.
Context (db : snapdb).

Definition key_in (keys : list string) (kv : string * option string) : bool := bool_decide (kv.1 ∈ keys).

(** [readEndDate]. *)
Definition readEndDate : rd instant :=
  r ← query_row (wrap "read end_date: ")
        (order_by (on fst string_ltb) (filter (λ kv, key_in ["end_date"; "run.end"] kv = true) (map_to_list (metadata db))));
  match r with
  | None => fail snapshot_ErrNotFound'
  | Some (_, v) => s ← lift (scan (wrap "read end_date: ") "string" v); lift (parseMetadataDate s)
  end.

(** One row of [readDateWindow]'s loop. *)
Definition window_row (se : instant * instant) (kv : string * option string) : result (instant * instant) :=
  v ← scan id "string" kv.2; t ← parseMetadataDate v;
  Ok (if bool_decide (kv.1 = "start_date") || bool_decide (kv.1 = "run.start") then (t, se.2) else (se.1, t)).

(** [readDateWindow]: [rows.Err()] is not consulted. *)
Definition readDateWindow : rd (instant * instant) :=
  rows ← query (wrap "read window: ")
    (scan_order (filter (λ kv, key_in ["start_date"; "end_date"; "run.start"; "run.end"] kv = true)
                   (map_to_list (metadata db))));
  se ← lift (foldR window_row (zero_time, zero_time) rows.1);
  if IsZero se.1 || IsZero se.2 then fail snapshot_ErrNotFound' else mret se.

Definition portfolio_metric (m : string) : bool :=
  bool_decide (m = "portfolio_value") || bool_decide (m = "PortfolioEquity").
Definition benchmark_metric (m : string) : bool :=
  bool_decide (m = "benchmark_value") || bool_decide (m = "PortfolioBenchmark").

(** The rows of [perf_data] a metric clause selects, by date. *)
Definition series_asc (clause : string → bool) : list perf_row :=
  order_by (on pf_date string_ltb) (filter (λ r, clause (pf_metric r) = true) (perf_data db)).
Definition series_desc (clause : string → bool) : list perf_row :=
  order_by (desc (on pf_date string_ltb)) (filter (λ r, clause (pf_metric r) = true) (perf_data db)).

Definition latest_first : metric_row → metric_row → bool := desc (on mt_date (null_ltb string_ltb)).

(** [readMetric]: the full-window value under any of the names. *)
Definition readMetric (name : string) (aliases : list string) : rd (option float64) :=
  let w := wrap ("read metric " +:+ name +:+ ": ") in
  r ← query_row w (order_by latest_first (filter (λ r,
        match mt_name r, mt_window r with
        | Some n, Some win => bool_decide (n ∈ name :: aliases) && bool_decide (win ∈ ["full"; "since_inception"])
        | _, _ => false
        end = true) (metrics db)));
  match r with
  | None => mret None
  | Some row => v ← lift (scan w "float64" (mt_value row)); mret (Some v)
  end.

(** [readWindowedMetric]: a NULL value is no value. *)
Definition readWindowedMetric (name window : string) : rd (option float64) :=
  r ← query_row (wrap ("read metric " +:+ name +:+ "/" +:+ window +:+ ": "))
        (order_by latest_first
          (filter (λ r, mt_name r = Some name ∧ mt_window r = Some window) (metrics db)));
  mret (r ≫= mt_value).
End readers.
End queries.

(** A driver to evaluate with: rows in rowid order. *)
Definition plain_driver : Driver := {|
  scan_order A l := l;
  scan_order_perm A l := reflexivity l;
  null_scan kind := opaque_err ("converting NULL to " +:+ kind +:+ " is unsupported");
  no_such_table t := opaque_err ("no such table: " +:+ t);
  parse_error layout v := opaque_err ("parsing time " +:+ v);
  pow _ _ := f_of_Z 1;
|}.

Example rfc_1 : parse_rfc3339_day "2024-01-08T23:59:59-05:00" = Some (date_utc 2024 1 8).
Proof. vm_compute. done. Qed.
Example rfc_2 : parse_rfc3339_day "2024-01-08T3:59:59.25Z" = Some (date_utc 2024 1 8).
Proof. vm_compute. done. Qed.
Example rfc_3 : parse_rfc3339_day "2024-01-08T23:59:60Z" = None.
Proof. vm_compute. done. Qed.
