(* ===== verification/SnapReturns.v ===== *)
(** What a snapshot says of a portfolio's returns: the KPI strip, the statistics
    and metrics panels, trailing and short-term returns, and the equity curve
    (src/snapshot/returns.go, kpis.go, summary.go, statistics.go, metrics.go,
    performance.go). *)
From S2P Require Import Prelude GoStrings GoTime Types GoFloat.
From S2P Require Import SnapDb.

(** ** Shapes of src/openapi/openapi.gen.go *)
Inductive ReturnRowKind := Portfolio_ | Benchmark_ | PortfolioTax | BenchmarkTax.
Record TrailingReturnRow := {
  tr_Title : string; tr_Kind : ReturnRowKind; tr_Ytd : option float64; tr_OneYear : option float64;
  tr_ThreeYear : option float64; tr_FiveYear : option float64; tr_TenYear : option float64;
  tr_SinceInception : option float64;
}.
Inductive MetricFormat := Percent | Number.
Record PortfolioStatistic := { pst_Label : string; pst_Format : MetricFormat; pst_Value : option float64 }.
Record PortfolioSummary := {
  su_CurrentValue : float64; su_YtdReturn : option float64; su_OneYearReturn : option float64;
  su_CagrSinceInception : option float64; su_MaxDrawDown : option float64; su_Sharpe : option float64;
  su_Sortino : option float64; su_Beta : option float64; su_Alpha : option float64;
  su_StdDev : option float64; su_UlcerIndex : option float64; su_TaxCostRatio : option float64;
}.
Record PerformancePoint := { pp_Date : instant; pp_PortfolioValue : float64; pp_BenchmarkValue : float64 }.
#[export] Instance eta_PerformancePoint : Eta PerformancePoint := λ p,
  {| pp_Date := pp_Date p; pp_PortfolioValue := pp_PortfolioValue p; pp_BenchmarkValue := pp_BenchmarkValue p |}.
Record PortfolioPerformance := {
  pe_PortfolioSlug : string; pe_From : instant; pe_To : instant; pe_Points : list PerformancePoint;
}.
Definition MetricGroup : Type := gmap string (list (option float64)).
Record PortfolioMetrics := {
  pm_Windows : list string; pm_Summary : option MetricGroup; pm_Risk : option MetricGroup;
  pm_Trade : option MetricGroup; pm_Withdrawal : option MetricGroup; pm_Tax : option MetricGroup;
  pm_Advanced : option MetricGroup;
}.
#[export] Instance eta_PortfolioMetrics : Eta PortfolioMetrics := λ m,
  {| pm_Windows := pm_Windows m; pm_Summary := pm_Summary m; pm_Risk := pm_Risk m; pm_Trade := pm_Trade m;
     pm_Withdrawal := pm_Withdrawal m; pm_Tax := pm_Tax m; pm_Advanced := pm_Advanced m |}.

(** [Kpis]. *)
Record Kpis_ := {
  k_CurrentValue : float64; k_YtdReturn : option float64; k_OneYearReturn : option float64;
  k_BenchmarkYtdReturn : option float64; k_BenchmarkOneYearReturn : option float64;
  k_Cagr : option float64; k_MaxDrawdown : option float64; k_Sharpe : option float64;
  k_Sortino : option float64; k_Beta : option float64; k_Alpha : option float64;
  k_StdDev : option float64; k_UlcerIndex : option float64; k_TaxCostRatio : option float64;
  k_InceptionDate : instant;
}.
Record DayChangeSummary := {
  dc_LatestDate : instant; dc_PriorDate : instant; dc_LatestValue : float64; dc_PriorValue : float64;
  dc_HasPrior : bool;
}.
Record ShortTermReturns_ := { st_Day : float64; st_WTD : float64; st_MTD : float64 }.

Section readers.
Context `{Driver} (db : snapdb).

(** ** kpis.go, summary.go *)

(** [kpisCurrentValue]. *)
Definition kpisCurrentValue : rd float64 :=
  r ← query_row (wrap "kpis current value: ") (series_desc db portfolio_metric);
  mret (from_option pf_value fzero r).

(** [Reader.Kpis]. *)
Definition Kpis : rd Kpis_ :=
  '(start, _) ← readDateWindow db;
  curVal ← kpisCurrentValue;
  ytd ← readWindowedMetric db "TWRR" "ytd";
  oneYear ← readWindowedMetric db "TWRR" "1yr";
  bYtd ← readWindowedMetric db "BenchmarkTWRR" "ytd";
  bOneYear ← readWindowedMetric db "BenchmarkTWRR" "1yr";
  cagr ← readWindowedMetric db "CAGR" "since_inception";
  maxDrawdown ← readMetric db "max_drawdown" ["MaxDrawdown"];
  sharpe ← readMetric db "sharpe_ratio" ["Sharpe"];
  sortino ← readMetric db "sortino_ratio" ["Sortino"];
  beta ← readMetric db "beta" ["Beta"];
  alpha ← readMetric db "alpha" ["Alpha"];
  stdDev ← readMetric db "std_dev" ["StdDev"];
  ulcerIndex ← readMetric db "ulcer_index" ["UlcerIndex"];
  taxCostRatio ← readMetric db "tax_cost_ratio" ["TaxCostRatio"];
  mret {| k_CurrentValue := curVal; k_YtdReturn := ytd; k_OneYearReturn := oneYear;
          k_BenchmarkYtdReturn := bYtd; k_BenchmarkOneYearReturn := bOneYear; k_Cagr := cagr;
          k_MaxDrawdown := maxDrawdown; k_Sharpe := sharpe; k_Sortino := sortino; k_Beta := beta;
          k_Alpha := alpha; k_StdDev := stdDev; k_UlcerIndex := ulcerIndex; k_TaxCostRatio := taxCostRatio;
          k_InceptionDate := start |}.

(** [Reader.Summary]. *)
Definition Summary : rd PortfolioSummary :=
  k ← Kpis;
  mret {| su_CurrentValue := k_CurrentValue k; su_YtdReturn := k_YtdReturn k;
          su_OneYearReturn := k_OneYearReturn k; su_CagrSinceInception := k_Cagr k;
          su_MaxDrawDown := k_MaxDrawdown k; su_Sharpe := k_Sharpe k; su_Sortino := k_Sortino k;
          su_Beta := k_Beta k; su_Alpha := k_Alpha k; su_StdDev := k_StdDev k;
          su_UlcerIndex := k_UlcerIndex k; su_TaxCostRatio := k_TaxCostRatio k |}.

(** ** statistics.go *)
Definition statisticMeta : list (string * string * string * MetricFormat) := [
  ("cagr", "CAGR", "CAGR", Percent);
  ("sharpe_ratio", "Sharpe", "Sharpe Ratio", Number);
  ("sortino_ratio", "Sortino", "Sortino Ratio", Number);
  ("calmar_ratio", "Calmar", "Calmar Ratio", Number);
  ("information_ratio", "InformationRatio", "Information Ratio", Number);
  ("beta", "Beta", "Beta", Number);
  ("alpha", "Alpha", "Alpha", Percent);
  ("std_dev", "StdDev", "Standard Deviation", Percent);
  ("ulcer_index", "UlcerIndex", "Ulcer Index", Number);
  ("max_drawdown", "MaxDrawdown", "Max Drawdown", Percent);
  ("upside_capture", "UpsideCaptureRatio", "Upside Capture", Percent);
  ("downside_capture", "DownsideCaptureRatio", "Downside Capture", Percent);
  ("win_rate", "WinRate", "Win Rate", Percent);
  ("profit_factor", "ProfitFactor", "Profit Factor", Number);
  ("tax_cost_ratio", "TaxCostRatio", "Tax Cost Ratio", Percent) ].

Definition wrap_err {A} (pre : string) (m : rd A) : rd A := λ s,
  match m s with (s', Err e) => (s', Err (wrap pre e)) | r => r end.

(** [Reader.Statistics]. *)
Definition Statistics : rd (list PortfolioStatistic) :=
  mapM (λ '(name, alias, label, fmt),
    v ← wrap_err ("statistics " +:+ name +:+ ": ") (readMetric db name [alias]);
    mret {| pst_Label := label; pst_Format := fmt; pst_Value := v |}) statisticMeta.

(** ** returns.go *)
Definition trailingRow (title : string) (kind : ReturnRowKind) (cumulative annualized : string) :
    rd TrailingReturnRow :=
  ytd ← readWindowedMetric db cumulative "ytd";
  one ← readWindowedMetric db cumulative "1yr";
  three ← readWindowedMetric db annualized "3yr";
  five ← readWindowedMetric db annualized "5yr";
  ten ← readWindowedMetric db annualized "10yr";
  since ← readWindowedMetric db annualized "since_inception";
  mret {| tr_Title := title; tr_Kind := kind; tr_Ytd := ytd; tr_OneYear := one; tr_ThreeYear := three;
          tr_FiveYear := five; tr_TenYear := ten; tr_SinceInception := since |}.

(** [Reader.TrailingReturns]. *)
Definition TrailingReturns : rd (list TrailingReturnRow) :=
  a ← trailingRow "Portfolio" Portfolio_ "TWRR" "CAGR";
  b ← trailingRow "Benchmark" Benchmark_ "BenchmarkTWRR" "BenchmarkCAGR";
  c ← trailingRow "Portfolio (after tax)" PortfolioTax "AfterTaxTWRR" "AfterTaxCAGR";
  d ← trailingRow "Benchmark (after tax)" BenchmarkTax "BenchmarkAfterTaxTWRR" "BenchmarkAfterTaxCAGR";
  mret [a; b; c; d].

Definition portfolioValueClause : string :=
  "metric IN ('portfolio_value','PortfolioEquity')".
Definition benchmarkValueClause : string :=
  "metric IN ('benchmark_value','PortfolioBenchmark')".

(** The first row of a query that must have one; [sql.ErrNoRows] is wrapped like
    any other error. *)
Definition first_value (w : goerror → goerror) (q : list perf_row) : rd float64 :=
  r ← query_row w q;
  match r with
  | Some row => mret (pf_value row)
  | None => fail (w (sentinel_err sql_ErrNoRows "sql: no rows in result set"))
  end.
(** [latestPerf], [earliestPerf]: [txt] is the clause's SQL. *)
Definition latestPerf (txt : string) (clause : string → bool) : rd float64 :=
  first_value (wrap ("latest " +:+ txt +:+ ": ")) (series_desc db clause).
Definition earliestPerf (txt : string) (clause : string → bool) : rd float64 :=
  first_value (wrap ("earliest " +:+ txt +:+ ": ")) (series_asc db clause).

(** [perfAsOf]. *)
Definition perfAsOf (txt : string) (clause : string → bool) (t : instant) (onOrAfter : bool) : rd float64 :=
  let day := format_date t in
  r ← query_row id
        (if onOrAfter then filter (λ r, string_leb day (pf_date r) = true) (series_asc db clause)
         else filter (λ r, string_leb (pf_date r) day = true) (series_desc db clause));
  match r with Some row => mret (pf_value row) | None => earliestPerf txt clause end.

Definition PortfolioValueAt (t : instant) : rd float64 :=
  perfAsOf portfolioValueClause portfolio_metric t false.
Definition BenchmarkCurrentValue : rd float64 := latestPerf benchmarkValueClause benchmark_metric.
Definition BenchmarkValueAt (t : instant) : rd float64 :=
  perfAsOf benchmarkValueClause benchmark_metric t false.

(** A row whose date must parse. *)
Definition parse_point (pre : string) (r : perf_row) : result (instant * float64) :=
  match parse_date (pf_date r) with
  | Some t => Ok (t, pf_value r)
  | None => Err (wrap pre (parse_error "2006-01-02" (pf_date r)))
  end.

Definition no_change : DayChangeSummary :=
  {| dc_LatestDate := zero_time; dc_PriorDate := zero_time; dc_LatestValue := fzero; dc_PriorValue := fzero;
     dc_HasPrior := false |}.

(** [Reader.DayChange]. *)
Definition DayChange : rd DayChangeSummary :=
  rows ← query (wrap "day change: ") (take 2 (series_desc db portfolio_metric));
  l ← collect id rows (parse_point "day change parse: ");
  mret (match l with
        | [] => no_change
        | [(d, v)] => {| dc_LatestDate := d; dc_PriorDate := zero_time; dc_LatestValue := v;
                         dc_PriorValue := fzero; dc_HasPrior := false |}
        | (d, v) :: (d', v') :: _ => {| dc_LatestDate := d; dc_PriorDate := d'; dc_LatestValue := v;
                                        dc_PriorValue := v'; dc_HasPrior := true |}
        end).

Definition pctReturn (latest baseline : float64) : float64 :=
  if fleb baseline fzero then fzero else fdiv (fsub latest baseline) baseline.

(** The returns of a series, latest day first. *)
Definition short_term (series : list (instant * float64)) : ShortTermReturns_ :=
  match series with
  | [] => {| st_Day := fzero; st_WTD := fzero; st_MTD := fzero |}
  | (d, v) :: earlier =>
    let dayBaseline := match earlier with (_, v') :: _ => v' | [] => v end in
    let wd := weekday d in
    let wd := if wd =? 0 then 7 else wd in
    let mondayStr := format_date (add_days d (- (wd - 1))) in
    let wtdBaseline := from_option snd v
      (head (filter (λ p, string_ltb (format_date p.1) mondayStr = true) series)) in
    let monthStr := format_date (date_utc (year_of d) (month_of d) 1) in
    let mtdBaseline := from_option snd v
      (last (filter (λ p, string_leb monthStr (format_date p.1) = true) series)) in
    {| st_Day := pctReturn v dayBaseline; st_WTD := pctReturn v wtdBaseline; st_MTD := pctReturn v mtdBaseline |}
  end.

(** [shortTermReturns] of the series a clause selects. *)
Definition shortTermReturns (clause : string → bool) : rd ShortTermReturns_ :=
  rows ← query (wrap "short term returns: ") (series_desc db clause);
  l ← collect id rows (parse_point "short term returns parse: ");
  mret (short_term l).
Definition ShortTermReturns : rd ShortTermReturns_ := shortTermReturns portfolio_metric.
Definition BenchmarkShortTermReturns : rd ShortTermReturns_ := shortTermReturns benchmark_metric.

(** ** performance.go *)

(** The points by date, in order of first appearance: the map [points] with the
    slice [order]. *)
Fixpoint upsert_point (ds : string) (f : PerformancePoint → PerformancePoint)
    (points : list (string * PerformancePoint)) : list (string * PerformancePoint) :=
  match points with
  | [] => [(ds, f {| pp_Date := default zero_time (parse_date ds); pp_PortfolioValue := fzero; pp_BenchmarkValue := fzero |})]
  | (k, p) :: r => if bool_decide (k = ds) then (k, f p) :: r else (k, p) :: upsert_point ds f r
  end.
Definition performance_row (points : list (string * PerformancePoint)) (r : perf_row) :
    list (string * PerformancePoint) :=
  upsert_point (pf_date r) (λ p,
    if portfolio_metric (pf_metric r) then p <| pp_PortfolioValue := pf_value r |>
    else p <| pp_BenchmarkValue := pf_value r |>) points.

(** [rebaseBenchmark]. *)
Definition rebaseBenchmark (points : list PerformancePoint) : list PerformancePoint :=
  match filter (λ p, fpos_p (pp_PortfolioValue p) && fpos_p (pp_BenchmarkValue p) = true) points with
  | [] => points
  | p :: _ =>
    let scale := fdiv (pp_PortfolioValue p) (pp_BenchmarkValue p) in
    (λ p, p <| pp_BenchmarkValue := fmul (pp_BenchmarkValue p) scale |>) <$> points
  end.

(** [Reader.Performance]. *)
Definition Performance (slug : string) (from to : option instant) : rd PortfolioPerformance :=
  '(start, end_) ← readDateWindow db;
  let from := default start from in
  let to := default end_ to in
  rows ← query (wrap "performance query: ")
    (filter (λ r, string_leb (format_date from) (pf_date r) && string_leb (pf_date r) (format_date to) = true)
       (series_asc db (λ m, portfolio_metric m || benchmark_metric m)));
  points ← each id rows (λ ps r, Ok (performance_row ps r)) [];
  mret {| pe_PortfolioSlug := slug; pe_From := from; pe_To := to; pe_Points := rebaseBenchmark points.*2 |}.

(** ** metrics.go *)
Inductive category := summary | risk | trade | withdrawal | tax | advanced.
#[local] Instance category_eq_dec : EqDecision category.
Proof. solve_decision. Defined.

Definition metricMeta : list (string * category) :=
  ((., summary) <$> ["TWRR"; "MWRR"; "Sharpe"; "Sortino"; "Calmar"; "KellerRatio"; "MaxDrawdown"; "StdDev";
     "BenchmarkTWRR"; "BenchmarkMWRR"; "BenchmarkSharpe"; "BenchmarkSortino"; "BenchmarkCalmar";
     "BenchmarkMaxDrawdown"; "BenchmarkStdDev"]) ++
  ((., risk) <$> ["Beta"; "Alpha"; "TrackingError"; "DownsideDeviation"; "InformationRatio"; "Treynor";
     "UlcerIndex"; "ExcessKurtosis"; "Skewness"; "RSquared"; "ValueAtRisk"; "UpsideCaptureRatio";
     "DownsideCaptureRatio"; "BenchmarkDownsideDeviation"; "BenchmarkUlcerIndex"; "BenchmarkExcessKurtosis";
     "BenchmarkSkewness"; "BenchmarkValueAtRisk"]) ++
  ((., trade) <$> ["WinRate"; "AverageWin"; "AverageLoss"; "ProfitFactor"; "AverageHoldingPeriod"; "Turnover";
     "NPositivePeriods"; "TradeGainLossRatio"; "AverageMFE"; "AverageMAE"; "MedianMFE"; "MedianMAE"; "EdgeRatio";
     "TradeCaptureRatio"; "LongWinRate"; "ShortWinRate"; "LongProfitFactor"; "ShortProfitFactor"]) ++
  ((., withdrawal) <$> ["SafeWithdrawalRate"; "PerpetualWithdrawalRate"; "DynamicWithdrawalRate"]) ++
  ((., tax) <$> ["LTCG"; "STCG"; "UnrealizedLTCG"; "UnrealizedSTCG"; "QualifiedDividends"; "NonQualifiedIncome";
     "TaxCostRatio"; "TaxDrag"; "AfterTaxTWRR"; "AfterTaxCAGR"; "BenchmarkAfterTaxTWRR"; "BenchmarkAfterTaxCAGR"]) ++
  ((., advanced) <$> ["CAGR"; "BenchmarkCAGR"; "ActiveReturn"; "SmartSharpe"; "SmartSortino"; "ProbabilisticSharpe";
     "KRatio"; "KellyCriterion"; "OmegaRatio"; "GainToPainRatio"; "CVaR"; "TailRatio"; "RecoveryFactor"; "Exposure";
     "ConsecutiveWins"; "ConsecutiveLosses"; "AvgDrawdown"; "AvgDrawdownDays"; "GainLossRatio"; "AvgUlcerIndex";
     "P90UlcerIndex"; "MedianUlcerIndex"; "BenchmarkAvgUlcerIndex"; "BenchmarkP90UlcerIndex";
     "BenchmarkMedianUlcerIndex"]).

Definition validWindows : list string :=
  ["since_inception"; "10yr"; "5yr"; "3yr"; "1yr"; "ytd"; "mtd"; "wtd"].

(** [filterWindows]. *)
Definition filterWindows (requested : list string) : list string :=
  foldl (λ out w, if bool_decide (w ∈ validWindows) && negb (bool_decide (w ∈ out)) then out ++ [w] else out)
    [] requested.

(** [filterMetrics]. *)
Definition filterMetrics (requested : list string) : list (string * category) :=
  match requested with
  | [] => metricMeta
  | _ => filter (λ m, m.1 ∈ requested) metricMeta
  end.

(** The latest row of each (name, window) pair, [ROW_NUMBER() .. = 1]: a row is
    kept unless an earlier kept row has its pair. *)
Definition pair_of (r : metric_row) : option string * option string := (mt_name r, mt_window r).
Definition first_of_pairs (l : list metric_row) : list metric_row :=
  foldl (λ out r, if bool_decide (pair_of r ∈ pair_of <$> out) then out else out ++ [r]) [] l.

(** One scanned row; a NULL in any column fails the scan. *)
Definition metric_cell (m : gmap (string * string) float64) (r : metric_row) :
    result (gmap (string * string) float64) :=
  let w := wrap "scan metric row: " in
  n ← scan w "string" (mt_name r); win ← scan w "string" (mt_window r); v ← scan w "float64" (mt_value r);
  Ok (<[(n, win) := v]> m).

(** [queryMetricRows]; the map of maps is keyed by the pair. *)
Definition queryMetricRows (names windows : list string) : rd (gmap (string * string) float64) :=
  if bool_decide (names = []) || bool_decide (windows = []) then mret ∅
  else
    rows ← query (wrap "query metrics: ") (scan_order (first_of_pairs (order_by latest_first
             (filter (λ r, match mt_name r, mt_window r with
                           | Some n, Some win => bool_decide (n ∈ names) && bool_decide (win ∈ windows)
                           | _, _ => false end = true) (metrics db)))));
    each id rows metric_cell ∅.

(** [setMetricValue]. *)
Definition put (name : string) (vals : list (option float64)) (g : option MetricGroup) : option MetricGroup :=
  Some (<[name := vals]> (default ∅ g)).
Definition setMetricValue (out : PortfolioMetrics) (c : category) (name : string) (vals : list (option float64)) :
    PortfolioMetrics :=
  match c with
  | summary => out <| pm_Summary := put name vals (pm_Summary out) |>
  | risk => out <| pm_Risk := put name vals (pm_Risk out) |>
  | trade => out <| pm_Trade := put name vals (pm_Trade out) |>
  | withdrawal => out <| pm_Withdrawal := put name vals (pm_Withdrawal out) |>
  | tax => out <| pm_Tax := put name vals (pm_Tax out) |>
  | advanced => out <| pm_Advanced := put name vals (pm_Advanced out) |>
  end.

(** [buildPortfolioMetrics]: a metric with no value in any window is left out. *)
Definition buildPortfolioMetrics (windows : list string) (entries : list (string * category))
    (dbRows : gmap (string * string) float64) : PortfolioMetrics :=
  foldl (λ out '(name, c),
      let vals := (λ w, dbRows !! (name, w)) <$> windows in
      if forallb (λ v, bool_decide (v = None)) vals then out else setMetricValue out c name vals)
    {| pm_Windows := windows; pm_Summary := None; pm_Risk := None; pm_Trade := None; pm_Withdrawal := None;
       pm_Tax := None; pm_Advanced := None |} entries.

(** [Reader.Metrics]. *)
Definition Metrics (windows metrics : list string) : rd PortfolioMetrics :=
  let resolvedWindows := match filterWindows windows with [] => ["since_inception"] | l => l end in
  let resolvedMeta := filterMetrics metrics in
  dbRows ← queryMetricRows resolvedMeta.*1 resolvedWindows;
  mret (buildPortfolioMetrics resolvedWindows resolvedMeta dbRows).
End readers.
