(* ===== verification/Holdings.v ===== *)
(** What a snapshot says of a portfolio's positions: current and historical
    holdings replayed from the transactions, the transactions themselves, the
    drawdowns of the equity curve and the next-trade prediction
    (src/snapshot/holdings.go, transactions.go, drawdowns.go, prediction.go). *)
From S2P Require Import Prelude GoStrings GoTime Types GoFloat.
From S2P Require Import SnapDb.

(** ** Shapes of src/openapi/openapi.gen.go *)
Record Holding := {
  ho_Ticker : string; ho_Figi : option string; ho_Quantity : float64; ho_AvgCost : float64;
  ho_MarketValue : float64;
}.
Record HoldingsResponse := { hs_Date : instant; hs_Items : list Holding; hs_TotalMarketValue : float64 }.
Record HistoricalHolding := {
  hh_Ticker : string; hh_Figi : option string; hh_Quantity : float64; hh_AvgCost : float64;
  hh_LastTradeValue : float64;
}.
Record HoldingsAsOfResponse := {
  ha_Date : instant; ha_Items : list HistoricalHolding; ha_TotalLastTradeValue : float64;
}.
Record HoldingsHistoryEntry := {
  he_BatchId : Z; he_Timestamp : instant; he_Items : list HistoricalHolding;
  he_PortfolioValue : option float64; he_Annotations : option (gmap string string);
}.
Record Transaction := {
  t_BatchId : Z; t_Date : instant; t_Type : string; t_Ticker : option string; t_Figi : option string;
  t_Quantity : option float64; t_Price : option float64; t_Amount : option float64;
  t_Qualified : option bool; t_Justification : option string;
}.
Record Drawdown := {
  dd_Start : instant; dd_Trough : instant; dd_Recovery : option instant; dd_Depth : float64; dd_Days : option Z;
}.
Record PredictedHolding := {
  pd_Ticker : string; pd_Figi : option string; pd_Quantity : float64; pd_MarketValue : float64; pd_Weight : float64;
}.
#[export] Instance eta_PredictedHolding : Eta PredictedHolding := λ h,
  {| pd_Ticker := pd_Ticker h; pd_Figi := pd_Figi h; pd_Quantity := pd_Quantity h;
     pd_MarketValue := pd_MarketValue h; pd_Weight := pd_Weight h |}.
Record PredictionResponse := {
  pr_Date : instant; pr_Transactions : list ptx_row; pr_Holdings : list PredictedHolding;
  pr_TotalMarketValue : float64; pr_Annotations : list (string * string);
}.
Record LatestBatchTrade := {
  lt_Ticker : string; lt_Type : string; lt_Date : string; lt_Quantity : float64; lt_Price : float64;
  lt_Amount : float64;
}.

Definition nonempty (s : string) : option string := if bool_decide (s = "") then None else Some s.
Definition fsum (l : list float64) : float64 := foldl fadd fzero l.

(** ** drawdowns.go *)
Section drawdowns.

(** [perfPoint]. *)
Record perfPoint := { d : instant; v : float64 }.

(** [minDrawdownDepth]. *)
Definition minDrawdownDepth : float64 := fconst 5 2.

(** [indexOfDate]. *)
Fixpoint index_from (i : Z) (series : list perfPoint) (day : instant) : option Z :=
  match series with
  | [] => None
  | p :: r => if d p =? day then Some i else index_from (i + 1) r day
  end.
Definition indexOfDate (series : list perfPoint) (day : instant) : Z := default 0 (index_from 0 series day).

(** The variables of [detectDrawdowns]; [trough] and [depth] are meaningful in a
    drawdown. *)
Record detect := { peak : perfPoint; inDrawdown : bool; trough : perfPoint; depth : float64; dds : list Drawdown }.
#[local] Instance eta_detect : Eta detect := λ s,
  {| peak := peak s; inDrawdown := inDrawdown s; trough := trough s; depth := depth s; dds := dds s |}.

Definition deep (dp : float64) : bool := fleb dp (fneg minDrawdownDepth).

(** The loop body at index [i]. *)
Definition detect_step (series : list perfPoint) (s : detect) (i : Z) (p : perfPoint) : detect :=
  if fleb (v (peak s)) (v p) then
    let s := if inDrawdown s then
               (if deep (depth s) then
                  s <| dds := dds s ++ [{| dd_Start := d (peak s); dd_Trough := d (trough s);
                                           dd_Recovery := Some (d p); dd_Depth := depth s;
                                           dd_Days := Some (i - indexOfDate series (d (peak s))) |}] |>
                else s) <| inDrawdown := false |>
             else s in
    s <| peak := p |>
  else
    (if negb (inDrawdown s) || fltb (v p) (v (trough s)) then
       s <| trough := p |> <| depth := fdiv (fsub (v p) (v (peak s))) (v (peak s)) |>
     else s) <| inDrawdown := true |>.
Fixpoint detect_from (series : list perfPoint) (s : detect) (i : Z) (l : list perfPoint) : detect :=
  match l with [] => s | p :: l => detect_from series (detect_step series s i p) (i + 1) l end.

(** [detectDrawdowns]; it panics on an empty series, [Drawdowns] never passes one. *)
Definition detectDrawdowns (series : list perfPoint) : list Drawdown :=
  match series with
  | [] => []
  | p0 :: rest =>
    let s := detect_from series {| peak := p0; inDrawdown := false; trough := {| d := zero_time; v := fzero |};
                                   depth := fzero; dds := [] |} 1 rest in
    if inDrawdown s && deep (depth s) then
      dds s ++ [{| dd_Start := d (peak s); dd_Trough := d (trough s); dd_Recovery := None; dd_Depth := depth s;
                   dd_Days := Some (Z.of_nat (length series) - indexOfDate series (d (peak s))) |}]
    else dds s
  end.

(** [sortDrawdowns]. *)
Definition sortDrawdowns (l : list Drawdown) : list Drawdown :=
  sort_by (λ a b, fltb (dd_Depth a) (dd_Depth b)) l.
End drawdowns.

(** ** The replayed ledger *)
Record ledgerRow := { lr_figi : string; lr_quantity : float64; lr_totalCost : float64; lr_lastPrice : float64 }.
#[export] Instance eta_ledgerRow : Eta ledgerRow := λ r,
  {| lr_figi := lr_figi r; lr_quantity := lr_quantity r; lr_totalCost := lr_totalCost r;
     lr_lastPrice := lr_lastPrice r |}.
Notation ledger := (gmap string ledgerRow).

(** [applyTxToLedger]. *)
Definition applyTxToLedger (pos : ledgerRow) (typeStr : string) (quantity price : float64) : ledgerRow :=
  if bool_decide (typeStr = "buy") then
    pos <| lr_totalCost := fadd (lr_totalCost pos) (fmul quantity price) |>
        <| lr_quantity := fadd (lr_quantity pos) quantity |>
  else if bool_decide (typeStr = "sell") then
    (if fpos_p (lr_quantity pos)
     then let avg := fdiv (lr_totalCost pos) (lr_quantity pos) in
          pos <| lr_totalCost := fsub (lr_totalCost pos) (fmul avg quantity) |>
     else pos) <| lr_quantity := fsub (lr_quantity pos) quantity |>
  else if bool_decide (typeStr = "split") then pos <| lr_quantity := fmul (lr_quantity pos) price |>
  else pos.

(** One transaction on the position it concerns. *)
Definition post (pos : ledgerRow) (typeStr : string) (quantity price : float64) : ledgerRow :=
  applyTxToLedger (if fpos_p price then pos <| lr_lastPrice := price |> else pos) typeStr quantity price.
Definition new_position (figi : option string) : ledgerRow :=
  {| lr_figi := default "" figi; lr_quantity := fzero; lr_totalCost := fzero; lr_lastPrice := fzero |}.

Section readers.
Context `{Driver, MapRange} (db : snapdb).

(** [replayTxIntoLedger]. *)
Definition replayTxIntoLedger (l : ledger) (t : tx_row) : result ledger :=
  let w := wrap "holdings asof scan: " in
  ticker ← scan w "string" (tx_ticker t);
  typeStr ← scan w "string" (tx_type t);
  quantity ← scan w "float64" (tx_quantity t);
  price ← scan w "float64" (tx_price t);
  if bool_decide (ticker = "") then Ok l
  else Ok (<[ticker := post (default (new_position (tx_figi t)) (l !! ticker)) typeStr quantity price]> l).

(** The transactions dated up to a day, in order of date and rowid. *)
Definition tx_by_date : tx_row → tx_row → bool := on tx_date (null_ltb string_ltb).
Definition transactions_until (day : string) : list tx_row :=
  sort_by tx_by_date
    (filter (λ t, from_option (λ s, string_leb s day) false (tx_date t) = true) (transactions db)).

(** [ledgerAsOf]. *)
Definition ledgerAsOf (date : instant) : rd ledger :=
  rows ← query (wrap "ledger asof query: ") (transactions_until (format_date date));
  each (wrap "ledger asof iterate: ") rows replayTxIntoLedger ∅.

(** One item, if the position is open; [daily] overrides the last trade's value. *)
Definition historical (l : ledger) (daily : gmap string float64) (ticker : string) : option HistoricalHolding :=
  pos ← l !! ticker;
  if fleb (lr_quantity pos) fzero then None
  else Some {| hh_Ticker := ticker; hh_Figi := nonempty (lr_figi pos); hh_Quantity := lr_quantity pos;
               hh_AvgCost := fdiv (lr_totalCost pos) (lr_quantity pos);
               hh_LastTradeValue := default (fmul (lr_quantity pos) (lr_lastPrice pos)) (daily !! ticker) |}.

(** The keys of a map in the order of [sort.Strings]. *)
Definition sorted_tickers (l : ledger) : list string := sort_strings (range_map l).*1.

(** [ledgerToAsOfResponse]. *)
Definition ledgerToAsOfResponse (date : instant) (l : ledger) : HoldingsAsOfResponse :=
  let items := omap (historical l ∅) (sorted_tickers l) in
  {| ha_Date := date; ha_Items := items; ha_TotalLastTradeValue := fsum (hh_LastTradeValue <$> items) |}.

(** [Reader.HoldingsAsOf]. *)
Definition HoldingsAsOf (date : instant) : rd HoldingsAsOfResponse :=
  '(startDate, endDate) ← readDateWindow db;
  if (date <? startDate) || (endDate <? date) then fail snapshot_ErrNotFound'
  else l ← ledgerAsOf date; mret (ledgerToAsOfResponse date l).

(** [Reader.CurrentHoldings]. *)
Definition holding_of (h : holding_row) : result Holding :=
  let w := wrap "holdings scan: " in
  ticker ← scan w "string" (hd_ticker h);
  figi ← scan w "string" (hd_figi h);
  quantity ← scan w "float64" (hd_quantity h);
  avg ← scan w "float64" (hd_avg_cost h);
  mv ← scan w "float64" (hd_market_value h);
  Ok {| ho_Ticker := ticker; ho_Figi := nonempty figi; ho_Quantity := quantity; ho_AvgCost := avg; ho_MarketValue := mv |}.
Definition CurrentHoldings : rd HoldingsResponse :=
  endDate ← readEndDate db;
  rows ← query (wrap "holdings query: ") (scan_order (holdings db));
  items ← collect (wrap "holdings iterate: ") rows holding_of;
  mret {| hs_Date := endDate; hs_Items := items; hs_TotalMarketValue := fsum (ho_MarketValue <$> items) |}.

(** ** Holdings history *)
Definition cashTicker : string := "$CASH".

(** [ledgerToHistoricalHoldings]. *)
Definition ledgerToHistoricalHoldings (l : ledger) (dailyMV : gmap string float64) : list HistoricalHolding :=
  omap (historical l dailyMV) (sorted_tickers l) ++
  match dailyMV !! cashTicker with
  | Some cash =>
    if feqb cash fzero then []
    else [{| hh_Ticker := cashTicker; hh_Figi := None; hh_Quantity := cash; hh_AvgCost := f_of_Z 1; hh_LastTradeValue := cash |}]
  | None => []
  end.

(** [readPortfolioValueOn]. *)
Definition readPortfolioValueOn (ts : instant) : rd (option float64) :=
  r ← query_row (wrap "read portfolio value: ")
        (scan_order (filter (λ r, portfolio_metric (pf_metric r) = true ∧ pf_date r = format_date ts) (perf_data db)));
  mret (pf_value <$> r).

(** [readPositionsDailyOn]: keyed by the ticker, the last row of a ticker wins. *)
Definition readPositionsDailyOn (ts : instant) : rd (gmap string float64) :=
  rows ← query_table (wrap ("positions daily on " +:+ format_date ts +:+ ": ")) "positions_daily" (positions_daily db)
           (λ l, scan_order (filter (λ r, ps_date r = format_date ts) l));
  each id rows (λ mv r, Ok (<[ps_ticker r := ps_market_value r]> mv)) ∅.

(** [readBatchAnnotations]. *)
Definition readBatchAnnotations (batchID : Z) : rd (gmap string string) :=
  rows ← query (wrap ("holdings history annotations " +:+ itoa batchID +:+ ": "))
           (order_by (on an_key (null_ltb string_ltb)) (filter (λ a, an_batch a = Some batchID) (annotations db)));
  each (wrap "holdings history annotations iterate: ") rows (λ m a,
    k ← scan id "string" (an_key a); x ← scan id "string" (an_value a); Ok (<[k := x]> m)) ∅.

(** [holdingsHistoryBatch]. *)
Definition holdingsHistoryBatch (batchID : Z) (ts : instant) : rd HoldingsHistoryEntry :=
  let w {A} (m : rd A) : rd A := λ s,
    match m s with
    | (s', Err e) => (s', Err (wrap ("holdings history batch " +:+ itoa batchID +:+ ": ") e))
    | r => r
    end in
  l ← w (ledgerAsOf ts);
  dailyMV ← w (readPositionsDailyOn ts);
  pv ← w (readPortfolioValueOn ts);
  ann ← readBatchAnnotations batchID;
  mret {| he_BatchId := batchID; he_Timestamp := ts; he_Items := ledgerToHistoricalHoldings l dailyMV;
          he_PortfolioValue := match pv with
                               | Some x => Some x
                               | None => if bool_decide (dailyMV = ∅) then None
                                         else Some (fsum (range_map dailyMV).*2)
                               end;
          he_Annotations := if bool_decide (ann = ∅) then None else Some ann |}.

Definition rebalance_type (t : option string) : bool :=
  match t with Some t => bool_decide (t ∈ ["buy"; "sell"; "split"]) | None => false end.

(** The batches [HoldingsHistory] selects: with a trade or an annotation, in
    the time range, by id. *)
Definition history_batches (from to : option instant) : list (Z * Z) :=
  sort_by (on fst Z.ltb) (filter (λ b : Z * Z,
    (existsb (λ t, bool_decide (tx_batch t = Some b.1) && rebalance_type (tx_type t)) (transactions db)
     || existsb (λ a, bool_decide (an_batch a = Some b.1)) (annotations db))
    && from_option (λ f, f <=? b.2) true from
    && from_option (λ t, b.2 <=? t + (24 * 3600 - 1) * nsPerSecond) true to = true) (batches db)).

(** [Reader.HoldingsHistory]. *)
Definition HoldingsHistory (from to : option instant) : rd (list HoldingsHistoryEntry) :=
  rows ← query (wrap "holdings history batches: ") (history_batches from to);
  bs ← collect id rows Ok;
  mapM (λ b : Z * Z, holdingsHistoryBatch b.1 b.2) bs.

(** ** transactions.go *)
Definition is_trade (t : option string) : bool :=
  match t with Some t => bool_decide (t ∈ ["buy"; "sell"]) | None => false end.

(** [SELECT MAX(batch_id) .. WHERE type IN ('buy','sell')]. *)
Definition latest_batch : option Z :=
  foldl (λ m t, match m, tx_batch t with
                | Some m, Some b => Some (Z.max m b)
                | None, b => b
                | m, None => m
                end) None (filter (λ t, is_trade (tx_type t) = true) (transactions db)).

(** [Reader.LatestBatchTrades]. *)
Definition trade_of (t : tx_row) : result LatestBatchTrade :=
  let w := wrap "latest batch trades scan: " in
  ticker ← scan w "string" (tx_ticker t); typ ← scan w "string" (tx_type t);
  date ← scan w "string" (tx_date t); quantity ← scan w "float64" (tx_quantity t);
  price ← scan w "float64" (tx_price t); amount ← scan w "float64" (tx_amount t);
  Ok {| lt_Ticker := ticker; lt_Type := typ; lt_Date := date; lt_Quantity := quantity; lt_Price := price;
        lt_Amount := amount |}.
Definition LatestBatchTrades : rd (list LatestBatchTrade) :=
  rows ← query (wrap "latest batch trades query: ")
    (filter (λ t, is_trade (tx_type t) && match latest_batch with
                                          | Some b => bool_decide (tx_batch t = Some b)
                                          | None => false end = true) (transactions db));
  collect (wrap "latest batch trades iterate: ") rows trade_of.

(** [Reader.Transactions]. *)
Definition transaction_of (t : tx_row) : result Transaction :=
  let w := wrap "transactions scan: " in
  b ← scan w "int64" (tx_batch t); dateStr ← scan w "string" (tx_date t); typeStr ← scan w "string" (tx_type t);
  match parse_date dateStr with
  | None => Err (wrap ("transactions parse date " +:+ quoted dateStr +:+ ": ") (parse_error "2006-01-02" dateStr))
  | Some day =>
    Ok {| t_BatchId := b; t_Date := day; t_Type := typeStr; t_Ticker := tx_ticker t; t_Figi := tx_figi t;
          t_Quantity := tx_quantity t; t_Price := tx_price t; t_Amount := tx_amount t;
          t_Qualified := (λ q, negb (q =? 0)) <$> tx_qualified t; t_Justification := tx_justification t |}
  end.
Definition tx_selected (from to : option instant) (types : list string) (t : tx_row) : bool :=
  from_option (λ f, from_option (λ s, string_leb (format_date f) s) false (tx_date t)) true from
  && from_option (λ x, from_option (λ s, string_leb s (format_date x)) false (tx_date t)) true to
  && (bool_decide (types = []) || from_option (λ ty, bool_decide (ty ∈ types)) false (tx_type t)).
Definition Transactions (from to : option instant) (types : list string) : rd (list Transaction) :=
  rows ← query (wrap "transactions query: ")
    (sort_by (on tx_batch (null_ltb Z.ltb)) (filter (λ t, tx_selected from to types t = true) (transactions db)));
  collect (wrap "transactions iterate: ") rows transaction_of.

(** ** Drawdowns *)

(** [Reader.Drawdowns]; dates that do not parse become the zero time. *)
Definition Drawdowns : rd (list Drawdown) :=
  rows ← query (wrap "drawdowns query: ") (series_asc db portfolio_metric);
  series ← collect id rows (λ r, Ok {| d := default zero_time (parse_date (pf_date r)); v := pf_value r |});
  mret (match series with [] => [] | _ => sortDrawdowns (detectDrawdowns series) end).

(** ** prediction.go *)

(** A lookup in [sqlite_master]. *)
Definition table_exists {A} (pre : string) (table : option A) : rd bool :=
  r ← query_row (wrap pre) [bool_decide (is_Some table)]; mret (default false r).

Definition phold_ltb (a b : phold_row) : bool :=
  string_ltb (ph_ticker a) (ph_ticker b) ||
  (bool_decide (ph_ticker a = ph_ticker b) && string_ltb (ph_figi a) (ph_figi b)).

(** [readPredictedHoldings]: the holdings, weighted, and their total. *)
Definition readPredictedHoldings : rd (list PredictedHolding * float64) :=
  rows ← query_table (wrap "predicted holdings query: ") "predicted_holdings" (predicted_holdings db) (order_by phold_ltb);
  items ← collect (wrap "predicted holdings iterate: ") rows (λ h,
    Ok {| pd_Ticker := ph_ticker h; pd_Figi := nonempty (ph_figi h); pd_Quantity := ph_quantity h;
          pd_MarketValue := ph_market_value h; pd_Weight := fzero |});
  let total := fsum (pd_MarketValue <$> items) in
  mret (if fpos_p total then (λ h, h <| pd_Weight := fdiv (pd_MarketValue h) total |>) <$> items else items, total).

(** [readPredictedTransactions], [readPredictedAnnotations]. *)
Definition readPredictedTransactions : rd (list ptx_row) :=
  rows ← query_table (wrap "predicted transactions query: ") "predicted_transactions" (predicted_transactions db) id;
  collect (wrap "predicted transactions iterate: ") rows Ok.
Definition readPredictedAnnotations : rd (list (string * string)) :=
  ok ← table_exists "predicted annotations table lookup: " (predicted_annotations db);
  if negb ok then mret []
  else rows ← query_table (wrap "predicted annotations query: ") "predicted_annotations" (predicted_annotations db) id;
       collect (wrap "predicted annotations iterate: ") rows Ok.

(** [Reader.Prediction]. *)
Definition Prediction : rd PredictionResponse :=
  ok ← table_exists "prediction table lookup: " (prediction db);
  if negb ok then fail snapshot_ErrNotFound'
  else
    r ← query_row (wrap "prediction query: ") (scan_order (default [] (prediction db)));
    match r with
    | None => fail snapshot_ErrNotFound'
    | Some dateStr =>
      match parse_date dateStr with
      | None => fail (wrap ("prediction parse date " +:+ quoted dateStr +:+ ": ") (parse_error "2006-01-02" dateStr))
      | Some date =>
        txs ← readPredictedTransactions;
        '(hs, total) ← readPredictedHoldings;
        anns ← readPredictedAnnotations;
        mret {| pr_Date := date; pr_Transactions := txs; pr_Holdings := hs; pr_TotalMarketValue := total;
                pr_Annotations := anns |}
      end
    end.
End readers.
