(* ===== verification/Impact.v ===== *)
(** The holdings-impact report: each holding's contribution to the portfolio's
    return over the canonical periods (src/snapshot/holdings_impact.go). *)
From S2P Require Import Prelude GoStrings GoTime Types GoFloat.
From S2P Require Import SnapDb Holdings.

Definition residualTolerance : float64 := fconst 1 4.
Definition minTopN : Z := 1.
Definition maxTopN : Z := 50.
Definition ErrZeroV0 : goerror :=
  sentinel_err snapshot_ErrZeroV0 "holdings-impact: opening equity is zero".
Definition ErrResidualCheck : goerror :=
  sentinel_err snapshot_ErrResidualCheck "holdings-impact: residual check failed".

(** [clampTopN]. *)
Definition clampTopN (n : Z) : Z :=
  if n <? minTopN then minTopN else if maxTopN <? n then maxTopN else n.

(** ** Shapes of src/openapi/openapi.gen.go *)
Record HoldingsImpactItem := {
  hi_Ticker : string; hi_Figi : option string; hi_Contribution : float64; hi_AvgWeight : float64;
  hi_HoldingDays : Z;
}.
#[export] Instance eta_HoldingsImpactItem : Eta HoldingsImpactItem := λ i,
  {| hi_Ticker := hi_Ticker i; hi_Figi := hi_Figi i; hi_Contribution := hi_Contribution i;
     hi_AvgWeight := hi_AvgWeight i; hi_HoldingDays := hi_HoldingDays i |}.
Record HoldingsImpactPeriod := {
  pe_AnnualizedReturn : float64; pe_CumulativeReturn : float64; pe_EndDate : instant;
  pe_Items : list HoldingsImpactItem; pe_Label : string; pe_Period : string;
  pe_RestContribution : float64; pe_RestCount : Z; pe_StartDate : instant; pe_Years : float64;
}.
Record HoldingsImpactResponse := {
  ir_PortfolioSlug : string; ir_AsOf : instant; ir_Currency : string; ir_Periods : list HoldingsImpactPeriod;
}.

(** ** The timeline *)
Definition tickerKey : Type := string * string.
Record posDay := { mv : float64; qty : float64 }.
Definition no_position : posDay := {| mv := fzero; qty := fzero |}.
Record timelineDay := {
  td_date : instant; td_v : float64; td_positions : gmap tickerKey posDay; td_flows : gmap tickerKey float64;
}.
#[export] Instance eta_timelineDay : Eta timelineDay := λ t,
  {| td_date := td_date t; td_v := td_v t; td_positions := td_positions t; td_flows := td_flows t |}.

(** Reading an absent map entry gives the zero value. *)
Definition position (t : timelineDay) (k : tickerKey) : posDay := default no_position (td_positions t !! k).
Definition flow (t : timelineDay) (k : tickerKey) : float64 := default fzero (td_flows t !! k).
Definition add_flow (k : tickerKey) (a : float64) (t : timelineDay) : timelineDay :=
  t <| td_flows := <[k := fadd (flow t k) a]> (td_flows t) |>.
Definition sub_flow (k : tickerKey) (a : float64) (t : timelineDay) : timelineDay :=
  t <| td_flows := <[k := fsub (flow t k) a]> (td_flows t) |>.

(** [applyTxFlow]. *)
Definition applyTxFlow (day : timelineDay) (typeStr ticker figi : string) (amount : float64) : timelineDay :=
  let cashKey := (cashTicker, "") in
  let assetKey := (ticker, figi) in
  if bool_decide (typeStr = "buy") then sub_flow cashKey amount (add_flow assetKey amount day)
  else if bool_decide (typeStr = "sell") then add_flow cashKey amount (sub_flow assetKey amount day)
  else if bool_decide (typeStr = "dividend") then add_flow cashKey amount (sub_flow assetKey amount day)
  else if bool_decide (typeStr = "fee") then sub_flow cashKey amount (add_flow assetKey amount day)
  else if bool_decide (typeStr = "deposit") then add_flow cashKey amount day
  else if bool_decide (typeStr = "withdrawal") then sub_flow cashKey amount day
  else day.

(** The days by date; [order] repeats a date the table repeats. *)
Record days := { byDate : gmap string timelineDay; order : list string }.

Section timeline.
Context `{Driver} (db : snapdb).

(** [loadHoldingsImpactPerfDays]. *)
Definition perf_day (s : days) (r : perf_row) : result days :=
  match parse_date (pf_date r) with
  | None => Err (wrap ("holdings-impact perf date " +:+ quoted (pf_date r) +:+ ": ")
                   (parse_error "2006-01-02" (pf_date r)))
  | Some t => Ok {| byDate := <[pf_date r := {| td_date := t; td_v := pf_value r; td_positions := ∅; td_flows := ∅ |}]>
                                (byDate s); order := order s ++ [pf_date r] |}
  end.
Definition loadHoldingsImpactPerfDays : rd days :=
  rows ← query (wrap "holdings-impact perf query: ") (series_asc db portfolio_metric);
  each (wrap "holdings-impact perf iterate: ") rows perf_day {| byDate := ∅; order := [] |}.

(** [mergeHoldingsImpactPositions]: the days and the number of rows seen. *)
Definition position_day (s : gmap string timelineDay * nat) (r : position_row) : result (gmap string timelineDay * nat) :=
  Ok (match s.1 !! ps_date r with
      | None => s.1
      | Some day => <[ps_date r := day <| td_positions := <[(ps_ticker r, ps_figi r) :=
                        {| mv := ps_market_value r; qty := ps_quantity r |}]> (td_positions day) |>]> s.1
      end, S s.2).
Definition mergeHoldingsImpactPositions (m : gmap string timelineDay) : rd (gmap string timelineDay * nat) :=
  rows ← query_table (wrap "holdings-impact positions query: ") "positions_daily" (positions_daily db)
           (order_by (on ps_date string_ltb));
  each (wrap "holdings-impact positions iterate: ") rows position_day (m, O).

(** [mergeHoldingsImpactTransactions]. *)
Definition transaction_day (m : gmap string timelineDay) (t : tx_row) : result (gmap string timelineDay) :=
  let w := wrap "holdings-impact transactions scan: " in
  ds ← scan w "string" (tx_date t); typeStr ← scan w "string" (tx_type t); ticker ← scan w "string" (tx_ticker t);
  figi ← scan w "string" (tx_figi t); amount ← scan w "float64" (tx_amount t);
  Ok (match m !! ds with
      | None => m
      | Some day => <[ds := applyTxFlow day typeStr ticker figi amount]> m
      end).
Definition mergeHoldingsImpactTransactions (m : gmap string timelineDay) : rd (gmap string timelineDay) :=
  rows ← query (wrap "holdings-impact transactions query: ") (sort_by tx_by_date (transactions db));
  each (wrap "holdings-impact transactions iterate: ") rows transaction_day m.

(** [loadHoldingsImpactTimeline]. *)
Definition loadHoldingsImpactTimeline : rd (list timelineDay) :=
  s ← loadHoldingsImpactPerfDays;
  '(m, positionRowCount) ← mergeHoldingsImpactPositions (byDate s);
  if (positionRowCount =? 0)%nat then fail snapshot_ErrNotFound'
  else m ← mergeHoldingsImpactTransactions m; mret (omap (λ ds, m !! ds) (order s)).
End timeline.

(** ** Periods *)
Record periodWindow := { w_id : string; w_label : string; startIdx : nat; endIdx : nat }.

(** [snapForward]. *)
Fixpoint snapForward (timeline : list timelineDay) (want : instant) : option nat :=
  match timeline with
  | [] => None
  | t :: r => if td_date t <? want then S <$> snapForward r want else Some O
  end.

(** Leading days without equity are skipped; at most [fuel] of them. *)
Fixpoint skip_zero (fuel : nat) (timeline : list timelineDay) (idx endIdx : nat) : nat :=
  match fuel with
  | O => idx
  | S fuel =>
    if (idx <? endIdx)%nat && from_option (λ t, feqb (td_v t) fzero) false (timeline !! idx)
    then skip_zero fuel timeline (S idx) endIdx else idx
  end.

(** The loop body of [buildPeriodWindows] for one specification. *)
Definition build_window (timeline : list timelineDay) (first : instant) (spec : string * string * instant) :
    option periodWindow :=
  let '(id, label, start) := spec in
  let endIdx := pred (length timeline) in
  if negb (bool_decide (id = "inception")) && negb (bool_decide (id = "ytd")) && (start <? first) then None
  else
    idx ← snapForward timeline start;
    if (endIdx <=? idx)%nat then None
    else
      let idx := skip_zero endIdx timeline idx endIdx in
      if (endIdx <=? idx)%nat then None
      else Some {| w_id := id; w_label := label; startIdx := idx; endIdx := endIdx |}.

Definition period_specs (first last : instant) : list (string * string * instant) :=
  let back n := date_utc (year_of last - n) (month_of last) (mday_of last) in
  [("inception", "Since inception", first); ("5y", "Last 5 years", back 5); ("3y", "Last 3 years", back 3);
   ("1y", "Last 1 year", back 1); ("ytd", "Year to date", date_utc (year_of last) 1 1)].

(** [buildPeriodWindows]; it panics on an empty timeline, [HoldingsImpact] never passes one. *)
Definition buildPeriodWindows (timeline : list timelineDay) : list periodWindow :=
  match timeline, last timeline with
  | t0 :: _, Some tl => omap (build_window timeline (td_date t0)) (period_specs (td_date t0) (td_date tl))
  | _, _ => []
  end.

(** [round6]. *)
Definition million : float64 := f_of_Z 1000000.
Definition round6 (x : float64) : float64 := fdiv (fround (fmul x million)) million.

(** The days of a window. *)
Definition span_of (timeline : list timelineDay) (w : periodWindow) : list timelineDay :=
  take (S (endIdx w) - startIdx w) (drop (startIdx w) timeline).

Section period.
Context `{Driver, MapRange}.

(** The weights, their number and the days held, over the window's days. *)
Definition weigh (k : tickerKey) (s : float64 * Z * Z) (t : timelineDay) : float64 * Z * Z :=
  let '(sum, count, held) := s in
  let p := position t k in
  let '(sum, count) := if fpos_p (td_v t) then (fadd sum (fdiv (mv p) (td_v t)), count + 1) else (sum, count) in
  (sum, count, if negb (feqb (mv p) fzero) || negb (feqb (qty p) fzero) then held + 1 else held).

(** [computePeriodItem]: the window's days are [t0 :: rest], the last is [t1]. *)
Definition computePeriodItem (t0 t1 : timelineDay) (rest : list timelineDay) (v0 : float64) (k : tickerKey) :
    HoldingsImpactItem * float64 :=
  let mv0 := mv (position t0 k) in
  let mv1 := mv (position t1 k) in
  let flowSum := fsum ((λ t, flow t k) <$> rest) in
  let pnl := fsub (fsub mv1 mv0) flowSum in
  let '(weightSum, weightCount, holdingDays) := foldl (weigh k) (fzero, 0, 0) (t0 :: rest) in
  let avgWeight := if 0 <? weightCount then fdiv weightSum (f_of_Z weightCount) else fzero in
  ({| hi_Ticker := k.1; hi_Figi := nonempty k.2; hi_Contribution := fdiv pnl v0;
      hi_AvgWeight := round6 avgWeight; hi_HoldingDays := holdingDays |}, pnl).

(** The keys of the positions of some days. *)
Definition period_keys (ds : list timelineDay) : gmap tickerKey unit :=
  foldl (λ ks t, ks ∪ (const () <$> td_positions t)) ∅ ds.

(** [computePeriodItems]: the keys come in the order of a map. *)
Definition computePeriodItems (t0 t1 : timelineDay) (rest : list timelineDay) (v0 : float64) :
    list HoldingsImpactItem * float64 :=
  let r := computePeriodItem t0 t1 rest v0 <$> (range_map (period_keys (t0 :: rest))).*1 in
  (r.*1, fsum r.*2).

(** The comparison of [sort.SliceStable]. *)
Definition item_less (a b : HoldingsImpactItem) : bool :=
  let ai := fabs (hi_Contribution a) in let aj := fabs (hi_Contribution b) in
  if negb (feqb ai aj) then fltb aj ai
  else
    let bi := fabs (hi_AvgWeight a) in let bj := fabs (hi_AvgWeight b) in
    if negb (feqb bi bj) then fltb bj bi else string_ltb (hi_Ticker a) (hi_Ticker b).

(** [t1.Sub(t0).Hours() / 24.0 / 365.25]; the difference saturates. *)
Definition max_duration : Z := 2 ^ 63 - 1.
Definition hours (dur : Z) : float64 :=
  fadd (f_of_Z (Z.quot dur (3600 * nsPerSecond)))
       (fdiv (f_of_Z (Z.rem dur (3600 * nsPerSecond))) (f_of_Z (3600 * nsPerSecond))).
Definition years_between (t0 t1 : instant) : float64 :=
  fdiv (fdiv (hours (Z.max (-2 ^ 63) (Z.min max_duration (t1 - t0)))) (f_of_Z 24)) (fconst 36525 2).

(** [fmt.Errorf("%w: period %s residual=%g", ..)]; the number's text is the driver's. *)
Context (format_g : float64 → string).

(** [computePeriod]. *)
Definition computePeriod (timeline : list timelineDay) (w : periodWindow) (topN : Z) :
    option (result HoldingsImpactPeriod) :=
  match span_of timeline w, timeline !! endIdx w with
  | t0 :: rest, Some t1 =>
    let v0 := td_v t0 in
    let v1 := td_v t1 in
    Some (
    if feqb v0 fzero then Err (wrap_post ErrZeroV0 (": period " +:+ w_id w))
    else
      let '(items, totalPNL) := computePeriodItems t0 t1 rest v0 in
      let residual := fsub (fsub v1 v0) totalPNL in
      if fltb residualTolerance (fabs residual)
      then Err (wrap_post ErrResidualCheck (": period " +:+ w_id w +:+ " residual=" +:+ format_g residual))
      else
        let items := sort_by item_less items in
        let cumulativeReturn := fsub (fdiv v1 v0) (f_of_Z 1) in
        let restCount := if topN <? Z.of_nat (length items) then Z.of_nat (length items) - topN else 0 in
        let items := if topN <? Z.of_nat (length items) then take (Z.to_nat topN) items else items in
        let items := (λ i, i <| hi_Contribution := round6 (hi_Contribution i) |>) <$> items in
        let namedSum := fsum (hi_Contribution <$> items) in
        let years := years_between (td_date t0) (td_date t1) in
        let annualizedReturn :=
          if fpos_p years
          then fsub (pow (fadd (f_of_Z 1) cumulativeReturn) (fdiv (f_of_Z 1) years)) (f_of_Z 1) else fzero in
        Ok {| pe_AnnualizedReturn := round6 annualizedReturn; pe_CumulativeReturn := round6 cumulativeReturn;
              pe_EndDate := td_date t1; pe_Items := items; pe_Label := w_label w; pe_Period := w_id w;
              pe_RestContribution := round6 (fsub (round6 cumulativeReturn) namedSum);
              pe_RestCount := restCount; pe_StartDate := td_date t0; pe_Years := round6 years |})
  | _, _ => None
  end.

(** [Reader.HoldingsImpact]; [None] is an index out of range. *)
Definition periods_of (timeline : list timelineDay) (topN : Z) : option (result (list HoldingsImpactPeriod)) :=
  foldr (λ w acc,
    p ← computePeriod timeline w topN; acc ← acc;
    Some (x ← p; xs ← acc; Ok (x :: xs))) (Some (Ok [])) (buildPeriodWindows timeline).
Definition HoldingsImpact (db : snapdb) (slug : string) (topN : Z) : rd (option HoldingsImpactResponse) :=
  let topN := clampTopN topN in
  timeline ← loadHoldingsImpactTimeline db;
  match last timeline with
  | None => fail snapshot_ErrNotFound'
  | Some tl =>
    match periods_of timeline topN with
    | None => mret None
    | Some r =>
      periods ← lift r;
      mret (Some {| ir_PortfolioSlug := slug; ir_AsOf := td_date tl; ir_Currency := "USD"; ir_Periods := periods |})
    end
  end.
End period.
