(* ===== verification/SnapLaws.v ===== *)
(** Snapshot readers against reference definitions: drawdowns are the deep cycles
    of the equity curve, holdings as of a day are each ticker's own
    transactions replayed, the holdings-impact report stays within its bounds. *)
From S2P Require Import Prelude GoStrings GoTime Types GoFloat.
From S2P Require Import SnapDb Holdings Impact.

(** [<] on doubles is asymmetric, NaN included. *)
Lemma fltb_asym a b : fltb a b = true → fltb b a = false.
Proof.
  unfold fltb, SFltb, SFcompare.
  destruct a as [[]|[]| |[] m1 e1], b as [[]|[]| |[] m2 e2]; try done.
  all: rewrite (Z.compare_antisym e1 e2); destruct (e1 ?= e2); cbn; try done.
  all: change (Pos.compare_cont Eq) with Pos.compare; rewrite (Pos.compare_antisym m1 m2);
    by destruct (Pos.compare m1 m2).
Qed.

(** ** Drawdowns *)

#[local] Existing Instance Holdings.eta_detect.

(** A cycle: a peak, the points below it, and the point that regains it. *)
Record cycle := { cy_peak : perfPoint; cy_below : list perfPoint; cy_recovery : option perfPoint }.

(** The points below [pk] that follow it, and the rest. *)
Fixpoint below (pk : perfPoint) (l : list perfPoint) : list perfPoint * list perfPoint :=
  match l with
  | p :: r => if fleb (v pk) (v p) then ([], l) else let '(b, rest) := below pk r in (p :: b, rest)
  | [] => ([], [])
  end.

(** The equity curve after a peak, cut at each point that regains the peak. *)
Fixpoint cycles (fuel : nat) (pk : perfPoint) (l : list perfPoint) : list cycle :=
  match fuel with
  | O => []
  | S fuel =>
    let '(b, rest) := below pk l in
    {| cy_peak := pk; cy_below := b; cy_recovery := head rest |} ::
    match rest with [] => [] | p :: r => cycles fuel p r end
  end.

(** The first of the lowest points. *)
Fixpoint lowest (best : perfPoint) (l : list perfPoint) : perfPoint :=
  match l with [] => best | p :: r => lowest (if fltb (v p) (v best) then p else best) r end.

Definition depth_of (pk tr : perfPoint) : float64 := fdiv (fsub (v tr) (v pk)) (v pk).

(** The report of a cycle that is deep enough. *)
Definition report (c : cycle) : option Drawdown :=
  match cy_below c with
  | [] => None
  | p :: r =>
    let tr := lowest p r in
    let dp := depth_of (cy_peak c) tr in
    if deep dp
    then Some {| dd_Start := d (cy_peak c); dd_Trough := d tr; dd_Recovery := d <$> cy_recovery c;
                 dd_Depth := dp; dd_Days := Some (Z.of_nat (length (cy_below c)) + 1) |}
    else None
  end.

Lemma below_app pk l : let '(b, rest) := below pk l in l = b ++ rest.
Proof. induction l as [|p l IH]; cbn; [done|].
  destruct (fleb _ _); [done|]. destruct (below pk l). cbn. by f_equal. Qed.
Lemma below_rest pk l p r : (below pk l).2 = p :: r → fleb (v pk) (v p) = true.
Proof.
  induction l as [|q l IH]; cbn; [done|]. destruct (fleb _ (v q)) eqn:E; [by intros [= <- <-]|].
  destruct (below pk l); cbn in *. apply IH.
Qed.
Lemma below_all pk l : Forall (λ p, fleb (v pk) (v p) = false) (below pk l).1.
Proof.
  induction l as [|q l IH]; cbn; [constructor|]. destruct (fleb _ (v q)) eqn:E; [constructor|].
  destruct (below pk l); cbn in *. by constructor.
Qed.

Lemma index_from_nth series i k p :
  NoDup (d <$> series) → series !! k = Some p → index_from i series (d p) = Some (i + Z.of_nat k).
Proof.
  revert i k. induction series as [|q series IH]; intros i k Hnd Hk; [done|]. cbn [fmap list_fmap] in Hnd.
  apply NoDup_cons in Hnd as [Hq Hnd]. destruct k as [|k]; cbn in Hk |- *.
  - injection Hk as ->. rewrite Z.eqb_refl. f_equal. lia.
  - destruct (Z.eqb_spec (d q) (d p)) as [E|_].
    + exfalso. apply Hq. rewrite E. apply list_elem_of_fmap. eauto using list_elem_of_lookup_2.
    + rewrite (IH _ k) by done. f_equal. lia.
Qed.

Section detecting.
Context (series : list perfPoint).

(** Running through the points below the peak keeps the first lowest. *)
Lemma detect_below pk b s i :
  peak s = pk → inDrawdown s = true → depth s = depth_of pk (trough s) →
  Forall (λ p, fleb (v pk) (v p) = false) b →
  ∀ l, detect_from series s i (b ++ l) =
    detect_from series (s <| trough := lowest (trough s) b |> <| depth := depth_of pk (lowest (trough s) b) |>)
      (i + Z.of_nat (length b)) l.
Proof.
  intros Hpk Hin Hd Hb. revert s i Hpk Hin Hd. induction Hb as [|p b Hp _ IH]; intros s i Hpk Hin Hd l.
  - cbn. rewrite Z.add_0_r. f_equal. destruct s; cbn in *. by subst.
  - cbn [app detect_from]. unfold detect_step at 1. rewrite Hpk, Hp, Hin. cbn [negb orb].
    destruct (fltb (v p) (v (trough s))) eqn:E; rewrite IH by (cbn; by rewrite ?Hpk); cbn; rewrite ?E;
      (f_equal; [|lia]); destruct s; cbn in *; by subst.
Qed.

(** The report after the loop. *)
Definition finish (s : detect) : list Drawdown :=
  if inDrawdown s && deep (depth s) then
    dds s ++ [{| dd_Start := d (peak s); dd_Trough := d (trough s); dd_Recovery := None; dd_Depth := depth s;
                 dd_Days := Some (Z.of_nat (length series) - indexOfDate series (d (peak s))) |}]
  else dds s.

Lemma index_of_date pre pk l :
  NoDup (d <$> series) → series = pre ++ pk :: l → indexOfDate series (d pk) = Z.of_nat (length pre).
Proof.
  intros Hnd E. unfold indexOfDate. rewrite (index_from_nth _ _ (length pre) pk); [cbn; lia|done|].
  rewrite E. by apply list_lookup_middle.
Qed.

(** In a drawdown from [pk] with its lowest point at [tr]. *)
Definition in_run (s : detect) (pk tr : perfPoint) : detect :=
  s <| trough := tr |> <| depth := depth_of pk tr |> <| inDrawdown := true |>.

(** A run below the peak, up to the point that ends it. *)
Lemma detect_run pre pk s q b rest :
  NoDup (d <$> series) → series = pre ++ pk :: (q :: b) ++ rest →
  peak s = pk → inDrawdown s = false →
  Forall (λ p, fleb (v pk) (v p) = false) (q :: b) →
  detect_from series s (Z.of_nat (length pre) + 1) ((q :: b) ++ rest) =
  detect_from series
    (in_run s pk (lowest q b))
    (Z.of_nat (length pre) + 1 + Z.of_nat (length (q :: b))) rest.
Proof.
  intros Hnd E Hpk Hin [Hq Hb]%Forall_cons. cbn [app detect_from]. unfold detect_step at 1.
  rewrite Hpk, Hq, Hin. cbn [negb orb]. rewrite (detect_below pk) by (cbn; by rewrite ?Hpk).
  f_equal. cbn [length]. lia.
Qed.

Lemma finish_run s pk q b :
  peak s = pk → Z.of_nat (length series) - indexOfDate series (d pk) = Z.of_nat (length (q :: b)) + 1 →
  finish (in_run s pk (lowest q b)) =
  dds s ++ omap report [{| cy_peak := pk; cy_below := q :: b; cy_recovery := None |}].
Proof.
  intros Hpk Hn. unfold finish, in_run, report. cbn -[deep lowest length].
  destruct (deep _); cbn -[length]; [by rewrite Hpk, Hn|by rewrite app_nil_r].
Qed.

Lemma step_run s pk q b p i :
  peak s = pk → fleb (v pk) (v p) = true → i - indexOfDate series (d pk) = Z.of_nat (length (q :: b)) + 1 →
  ∃ s', detect_step series (in_run s pk (lowest q b)) i p = s' ∧ peak s' = p ∧ inDrawdown s' = false ∧
    dds s' = dds s ++ omap report [{| cy_peak := pk; cy_below := q :: b; cy_recovery := Some p |}].
Proof.
  intros Hpk Hp Hn. eexists. split; [done|]. unfold detect_step, in_run, report.
  cbn -[deep lowest length]. rewrite Hpk, Hp.
  destruct (deep _); cbn -[length]; rewrite ?Hn; split_and!; rewrite ?app_nil_r; done.
Qed.

Lemma detect_cycles fuel pre pk s l :
  NoDup (d <$> series) → series = pre ++ pk :: l → (length l < fuel)%nat →
  peak s = pk → inDrawdown s = false →
  finish (detect_from series s (Z.of_nat (length pre) + 1) l) = dds s ++ omap report (cycles fuel pk l).
Proof.
  intros Hnd. revert pre pk s l. induction fuel as [|fuel IH]; intros pre pk s l E Hf Hpk Hin; [lia|].
  pose proof (index_of_date _ _ _ Hnd E) as Hix.
  cbn [cycles]. pose proof (below_app pk l) as Hl. pose proof (below_all pk l) as Hall.
  pose proof (below_rest pk l) as Hrest.
  destruct (below pk l) as [b rest]; cbn [fst snd] in *; subst l.
  assert (length series = length pre + 1 + length b + length rest)%nat as Hlen
    by (rewrite E, !length_app; cbn; rewrite length_app; lia).
  rewrite length_app in Hf. destruct b as [|q b].
  - destruct rest as [|p r]; cbn [app detect_from].
    + unfold finish. rewrite Hin. cbn. by rewrite app_nil_r.
    + unfold detect_step at 1. rewrite Hpk, (Hrest p r eq_refl), Hin.
      replace (Z.of_nat (length pre) + 1 + 1) with (Z.of_nat (length (pre ++ [pk])) + 1)
        by (rewrite length_app; cbn; lia).
      rewrite (IH (pre ++ [pk]) p); [done|by rewrite <-app_assoc|cbn in Hf; lia|done|done].
  - rewrite (detect_run pre pk) by done. destruct rest as [|p r]; cbn [detect_from].
    + rewrite finish_run; [done|done|]. rewrite Hix. cbn in Hlen |- *. lia.
    + destruct (step_run s pk q b p (Z.of_nat (length pre) + 1 + Z.of_nat (length (q :: b))) Hpk (Hrest p r eq_refl))
        as (s' & Hs & Hpk' & Hin' & Hdds); [rewrite Hix; lia|].
      rewrite Hs.
      replace (_ + 1 + Z.of_nat (length (q :: b)) + 1) with (Z.of_nat (length (pre ++ pk :: q :: b)) + 1)
        by (rewrite length_app; cbn; lia).
      rewrite (IH _ p); [|by rewrite E, <-!app_assoc|cbn in Hf; lia|done|done].
      rewrite Hdds, <-app_assoc, <-omap_app. done.
Qed.
End detecting.

(** C18: drawdown detection is the segmentation of the equity curve.  On a
    series with one point per day, the single pass with its running peak, trough
    and depth reports exactly the cycles of the curve - a peak, the points below
    it, the point that regains it if there is one - that are five per cent deep
    at their first lowest point, in order; sorting reorders them, deepest first. *)
Theorem drawdowns_are_deep_cycles (p0 : perfPoint) (rest : list perfPoint) :
  NoDup (d <$> p0 :: rest) →
  let found := detectDrawdowns (p0 :: rest) in
  found = omap report (cycles (S (length rest)) p0 rest) ∧
  sortDrawdowns found ≡ₚ found ∧
  Sorted (λ a b, fltb (dd_Depth b) (dd_Depth a) = false) (sortDrawdowns found).
Proof.
  intros Hnd found. split_and!.
  - unfold found, detectDrawdowns.
    exact (detect_cycles (p0 :: rest) (S (length rest)) [] p0
             {| peak := p0; inDrawdown := false; trough := {| d := zero_time; v := fzero |};
                depth := fzero; dds := [] |} rest Hnd eq_refl (Nat.lt_succ_diag_r _) eq_refl eq_refl).
  - apply sort_by_perm.
  - apply (sort_by_sorted (λ a b, fltb (dd_Depth a) (dd_Depth b))).
    intros a b. apply fltb_asym.
Qed.

(** The equity curve of the test fixture. *)
Definition point (n v : Z) : perfPoint := {| d := date_utc 2024 1 n; v := f_of_Z v |}.
Definition fixture_curve : list perfPoint :=
  [point 3 101000; point 4 94940; point 5 102000; point 8 103000].

Lemma drawdowns_are_deep_cycles_witness :
  detectDrawdowns (point 2 100000 :: fixture_curve) =
  omap report (cycles 5 (point 2 100000) fixture_curve) ∧
  omap report (cycles 5 (point 2 100000) fixture_curve) =
  [{| dd_Start := date_utc 2024 1 3; dd_Trough := date_utc 2024 1 4; dd_Recovery := Some (date_utc 2024 1 5);
      dd_Depth := fdiv (f_of_Z (-6060)) (f_of_Z 101000); dd_Days := Some 2 |}].
Proof.
  split; [|vm_compute; done].
  apply (drawdowns_are_deep_cycles (point 2 100000) fixture_curve).
  apply (bool_decide_unpack _). vm_compute. done.
Defined.

(** ** Holdings as of a day *)
Section as_of.
Context `{Driver, MapRange}.

(** One ticker's own transactions, replayed in order. *)
Definition own_step (pos : option ledgerRow) (t : tx_row) : option ledgerRow :=
  match tx_type t, tx_quantity t, tx_price t with
  | Some ty, Some q, Some p => Some (post (default (new_position (tx_figi t)) pos) ty q p)
  | _, _, _ => pos
  end.
Definition own_position (rows : list tx_row) (ticker : string) : option ledgerRow :=
  foldl own_step None (filter (λ t, tx_ticker t = Some ticker) rows).

Lemma scan_ok {A} w kind (c : option A) a : scan w kind c = Ok a ↔ c = Some a.
Proof. destruct c; cbn; naive_solver. Qed.

(** One pass over all the transactions keeps every ticker's own replay. *)
Lemma replay_own rows l l' :
  foldR replayTxIntoLedger l rows = Ok l' →
  l' !! "" = l !! "" ∧
  ∀ k, k ≠ "" → l' !! k = foldl own_step (l !! k) (filter (λ t, tx_ticker t = Some k) rows).
Proof.
  revert l. induction rows as [|t rows IH]; intros l; cbn [foldR]; [by intros [= <-]|].
  intros (l1 & Hstep & Hrest)%result_bind_ok. apply IH in Hrest as [Hnil Hrest].
  unfold replayTxIntoLedger in Hstep.
  apply result_bind_ok in Hstep as (ticker & Ht%scan_ok & Hstep).
  apply result_bind_ok in Hstep as (ty & Hty%scan_ok & Hstep).
  apply result_bind_ok in Hstep as (q & Hq%scan_ok & Hstep).
  apply result_bind_ok in Hstep as (p & Hp%scan_ok & Hstep).
  case_bool_decide; injection Hstep as <-.
  - split; [done|]. intros k Hk. rewrite Hrest by done. rewrite filter_cons_False by congruence. done.
  - split; [by rewrite lookup_insert_ne in Hnil|]. intros k Hk. rewrite Hrest by done.
    rewrite filter_cons. case_decide as Hd.
    + rewrite Ht in Hd. injection Hd as ->. rewrite lookup_insert_eq. cbn [foldl]. f_equal.
      unfold own_step. by rewrite Hty, Hq, Hp.
    + rewrite lookup_insert_ne by congruence. done.
Qed.

Lemma historical_ticker l m k h : historical l m k = Some h → hh_Ticker h = k.
Proof. unfold historical. intros (pos & _ & Hh)%bind_Some. case_match; naive_solver. Qed.

Lemma historical_tickers l m (ks : list string) :
  hh_Ticker <$> omap (historical l m) ks = filter (λ k, is_Some (historical l m k)) ks.
Proof.
  induction ks as [|k ks IH]; [done|]. cbn [omap list_omap]. rewrite filter_cons.
  destruct (historical l m k) as [h|] eqn:E; case_decide as Hd.
  - cbn. by rewrite IH, (historical_ticker _ _ _ _ E).
  - by destruct Hd.
  - by destruct Hd.
  - done.
Qed.

Lemma sorted_filter {A} (R : relation A) `{!Transitive R} (P : A → Prop) `{∀ x, Decision (P x)} l :
  Sorted R l → Sorted R (filter P l).
Proof.
  intros Hs%Sorted_StronglySorted; [|done]. apply StronglySorted_Sorted.
  induction Hs as [|x l Hl IH Hx]; [constructor|]. rewrite filter_cons. case_decide; [|done].
  constructor; [done|]. apply Forall_forall. intros y [_ Hy]%list_elem_of_filter.
  by eapply Forall_forall in Hx.
Qed.

Lemma tickers_sorted (l : gmap string ledgerRow) m :
  let ks := hh_Ticker <$> omap (historical l m) (sorted_tickers l) in Sorted string_le ks ∧ NoDup ks.
Proof.
  cbv zeta. rewrite historical_tickers. unfold sorted_tickers. split.
  - apply sorted_filter, sort_strings_sorted. apply _.
  - apply NoDup_filter. rewrite sort_strings_perm. apply NoDup_range_keys.
Qed.

Lemma elem_of_open_positions (l : gmap string ledgerRow) m h :
  h ∈ omap (historical l m) (sorted_tickers l) ↔ historical l m (hh_Ticker h) = Some h.
Proof.
  rewrite list_elem_of_omap. split.
  - intros (k & _ & Hk). by rewrite (historical_ticker _ _ _ _ Hk).
  - intros Hh. exists (hh_Ticker h). split; [|done]. unfold sorted_tickers. rewrite sort_strings_perm.
    apply elem_of_range_keys. unfold historical in Hh. apply bind_Some in Hh as (pos & -> & _). eauto.
Qed.

Lemma bind_inv {A B} (m : rd A) (f : A → rd B) s s' b :
  (m ≫= f) s = (s', Ok b) → ∃ s1 a, m s = (s1, Ok a) ∧ f a s1 = (s', Ok b).
Proof. unfold mbind, rd_bind. destruct (m s) as [s1 [a|e]]; [eauto|done]. Qed.

Lemma bind_ok {A B} (m : rd A) (f : A → rd B) s s1 a : m s = (s1, Ok a) → (m ≫= f) s = f a s1.
Proof. unfold mbind, rd_bind. by intros ->. Qed.

(** A query read to its end without an error delivered every row. *)
Lemma each_query {S A} w w' (q : list A) (step : S → A → result S) s0 s s' x :
  (query w q ≫= λ rows, each w' rows step s0) s = (s', Ok x) → foldR step s0 q = Ok x.
Proof.
  intros (s1 & rows & Hq & He)%bind_inv. unfold each, lift in He. injection He as _ He.
  apply result_bind_ok in He as (y & Hy & He).
  destruct s as [|[|e|n e] s]; cbn in Hq; simplify_eq/=; congruence.
Qed.

(** What an open position looks like in the report. *)
Definition valued (ticker : string) (pos : ledgerRow) : HistoricalHolding :=
  {| hh_Ticker := ticker; hh_Figi := nonempty (lr_figi pos); hh_Quantity := lr_quantity pos;
     hh_AvgCost := fdiv (lr_totalCost pos) (lr_quantity pos);
     hh_LastTradeValue := fmul (lr_quantity pos) (lr_lastPrice pos) |}.

(** C17: holdings as of a day are each ticker's own history.  Outside the
    backtest's window the reader answers not found.  Inside it, an answer lists
    every ticker once, in order; a ticker is listed exactly when replaying its own
    transactions up to that day, by date and then rowid, leaves a position that
    is not zero or short, and its entry and the total are computed from that
    position - whatever order the tickers' transactions are interleaved in. *)
Theorem holdings_as_of_replays (db : snapdb) (date a b : instant) (s s1 : list fault) :
  readDateWindow db s = (s1, Ok (a, b)) →
  let rows := transactions_until db (format_date date) in
  ((date < a ∨ b < date) → HoldingsAsOf db date s = (s1, Err snapshot_ErrNotFound')) ∧
  ∀ s' r, HoldingsAsOf db date s = (s', Ok r) →
    a ≤ date ≤ b ∧ ha_Date r = date ∧
    Sorted string_le (hh_Ticker <$> ha_Items r) ∧ NoDup (hh_Ticker <$> ha_Items r) ∧
    (∀ h, h ∈ ha_Items r ↔ hh_Ticker h ≠ "" ∧
       ∃ pos, own_position rows (hh_Ticker h) = Some pos ∧ fleb (lr_quantity pos) fzero = false ∧
              h = valued (hh_Ticker h) pos) ∧
    ha_TotalLastTradeValue r = fsum (hh_LastTradeValue <$> ha_Items r).
Proof.
  intros Hw rows. unfold HoldingsAsOf. rewrite (bind_ok _ _ _ _ _ Hw). split.
  - intros Hout. by rewrite (proj2 (orb_true_iff _ _)) by (destruct Hout; [left|right]; lia).
  - intros s' r Hr. destruct (_ || _) eqn:Hin; [done|].
    apply (bind_inv (ledgerAsOf db date)) in Hr as (s2 & l & Hl & [= <- <-]).
    apply each_query, replay_own in Hl as [Hnil Hown]. cbn [ha_Date ha_Items ha_TotalLastTradeValue ledgerToAsOfResponse].
    pose proof (tickers_sorted l ∅) as [Hsorted Hnodup].
    split_and!; [lia|lia|done|done|done| |done].
    intros h. rewrite elem_of_open_positions. unfold historical.
    destruct (decide (hh_Ticker h = "")) as [->|Hne].
    { rewrite Hnil. cbn. naive_solver. }
    rewrite Hown by done. change (foldl own_step (∅ !! hh_Ticker h) _) with (own_position rows (hh_Ticker h)).
    destruct (own_position _ _) as [pos|]; cbn; [|naive_solver].
    rewrite lookup_empty. cbn [from_option]. fold (valued (hh_Ticker h) pos). destruct (fleb _ _) eqn:Hq.
    + split; [done|]. intros (_ & ? & [= <-] & ? & _). congruence.
    + split; [intros [= Hh]; split_and!; [done|]; exists pos; split_and!; done|].
      intros (_ & ? & [= <-] & _ & Hh). by f_equal.
Qed.
End as_of.

(** ** Bounds of the holdings-impact report *)

Lemma clampTopN_bounds n : 1 ≤ clampTopN n ≤ 50.
Proof. unfold clampTopN, minTopN, maxTopN. repeat case_match; lia. Qed.

Lemma snapForward_spec timeline want i :
  snapForward timeline want = Some i → (i < length timeline)%nat.
Proof.
  revert i. induction timeline as [|t r IH]; intros i; cbn; [done|].
  case_match; [|intros [= <-]; lia]. intros (j & Hj & ->)%fmap_Some. apply IH in Hj. lia.
Qed.

Lemma skip_zero_le fuel timeline i e : (i ≤ skip_zero fuel timeline i e)%nat.
Proof. revert i. induction fuel as [|fuel IH]; intros i; cbn; [lia|]. case_match; [|lia]. specialize (IH (S i)). lia. Qed.

(** Skipping ends at the window's end or on a day with equity. *)
Lemma skip_zero_ends fuel timeline i e :
  (e ≤ i + fuel)%nat →
  let j := skip_zero fuel timeline i e in
  (e ≤ j)%nat ∨ from_option (λ t, feqb (td_v t) fzero) false (timeline !! j) = false.
Proof.
  revert i. induction fuel as [|fuel IH]; intros i Hf; cbn [skip_zero]; [left; lia|].
  destruct (_ && _) eqn:E.
  - apply IH. lia.
  - apply andb_false_iff in E as [E|E]; [left; apply Nat.ltb_ge in E; lia|by right].
Qed.

(** What holds of every window: it starts before it ends, inside the timeline,
    on a day with equity. *)
Definition window_within (timeline : list timelineDay) (w : periodWindow) : Prop :=
  (startIdx w < endIdx w)%nat ∧ S (endIdx w) = length timeline ∧
  ∃ t0, timeline !! startIdx w = Some t0 ∧ feqb (td_v t0) fzero = false.

Lemma build_window_within timeline first spec w :
  build_window timeline first spec = Some w → window_within timeline w ∧ w_id w = spec.1.1.
Proof.
  destruct spec as [[id label] start]. unfold build_window. case_match; [done|].
  intros (i & Hi%snapForward_spec & Hw)%bind_Some. case_match; [done|]. case_match eqn:E; [done|].
  injection Hw as <-. cbn. apply Nat.leb_gt in E.
  set (e := pred (length timeline)) in *. set (j := skip_zero e timeline i e) in *.
  assert (S e = length timeline) as He by lia.
  destruct (lookup_lt_is_Some_2 timeline j ltac:(lia)) as [t0 Ht0].
  split; [|done]. split; [done|]. split; [done|]. exists t0. split; [done|].
  pose proof (skip_zero_ends e timeline i e ltac:(lia)) as Hj. cbv zeta in Hj. fold j in Hj.
  destruct Hj as [|Hj]; [lia|]. by rewrite Ht0 in Hj.
Qed.

Lemma windows_within timeline :
  Forall (window_within timeline) (buildPeriodWindows timeline) ∧
  w_id <$> buildPeriodWindows timeline `sublist_of` ["inception"; "5y"; "3y"; "1y"; "ytd"].
Proof.
  unfold buildPeriodWindows. destruct timeline as [|t0 r]; [by split; [constructor|apply sublist_nil_l]|].
  destruct (last (t0 :: r)) as [tl|]; [|by split; [constructor|apply sublist_nil_l]].
  change ["inception"; "5y"; "3y"; "1y"; "ytd"] with ((λ s, s.1.1) <$> period_specs (td_date t0) (td_date tl)).
  generalize (period_specs (td_date t0) (td_date tl)) as specs. induction specs as [|spec specs [IH1 IH2]]; [by split|].
  cbn. destruct (build_window _ _ spec) as [w|] eqn:Hw; cbn.
  - apply build_window_within in Hw as [Hw ->]. split; [by constructor|]. by apply sublist_skip.
  - split; [done|]. by apply sublist_cons.
Qed.

Lemma span_of_spec timeline w t0 :
  (startIdx w < endIdx w)%nat → S (endIdx w) = length timeline → timeline !! startIdx w = Some t0 →
  ∃ rest, span_of timeline w = t0 :: rest ∧ length rest = (endIdx w - startIdx w)%nat.
Proof.
  intros Hlt He Ht. unfold span_of. rewrite (drop_S _ _ _ Ht).
  replace (S (endIdx w) - startIdx w)%nat with (S (endIdx w - startIdx w)) by lia. cbn [take].
  eexists. split; [done|]. rewrite length_take, length_drop. lia.
Qed.

Section bounds.
Context `{Driver, MapRange} (format_g : float64 → string).

Lemma weigh_days k s ds :
  let '(_, _, held) := foldl (weigh k) s ds in s.2 ≤ held ≤ s.2 + Z.of_nat (length ds).
Proof.
  revert s. induction ds as [|t ds IH]; intros [[sum count] held]; cbn [foldl]; [cbn; lia|].
  specialize (IH (weigh k (sum, count, held) t)).
  destruct (foldl (weigh k) _ ds) as [[? ?] held']. cbn [length].
  unfold weigh in IH. repeat case_match; simplify_eq/=; lia.
Qed.

Lemma item_days t0 t1 rest v0 k :
  0 ≤ hi_HoldingDays (computePeriodItem t0 t1 rest v0 k).1 ≤ Z.of_nat (length rest) + 1.
Proof.
  unfold computePeriodItem. pose proof (weigh_days k (fzero, 0, 0) (t0 :: rest)) as Hd.
  destruct (foldl _ _ _) as [[? ?] held]. cbn in *. lia.
Qed.

(** The holdings of a window: the positions on its days. *)
Definition holdings_seen (timeline : list timelineDay) (w : periodWindow) : nat :=
  size (period_keys (span_of timeline w)).

(** A period reports at most [topN] items, counts the others as the rest, and no
    item is held longer than the window. *)
Definition period_within (timeline : list timelineDay) (topN : Z) (w : periodWindow)
    (p : HoldingsImpactPeriod) : Prop :=
  pe_Period p = w_id w ∧
  (td_date <$> timeline !! startIdx w) = Some (pe_StartDate p) ∧
  (td_date <$> timeline !! endIdx w) = Some (pe_EndDate p) ∧
  length (pe_Items p) = (holdings_seen timeline w `min` Z.to_nat topN)%nat ∧
  Z.of_nat (length (pe_Items p)) + pe_RestCount p = Z.of_nat (holdings_seen timeline w) ∧
  Forall (λ i, 0 ≤ hi_HoldingDays i ≤ Z.of_nat (endIdx w - startIdx w) + 1) (pe_Items p).

Lemma items_length t0 t1 rest v0 :
  length (computePeriodItems t0 t1 rest v0).1 = size (period_keys (t0 :: rest)).
Proof.
  unfold computePeriodItems. cbn [fst]. rewrite !length_fmap, (Permutation_length (range_map_perm _)).
  apply length_map_to_list.
Qed.

Lemma items_days t0 t1 rest v0 i :
  i ∈ (computePeriodItems t0 t1 rest v0).1 → 0 ≤ hi_HoldingDays i ≤ Z.of_nat (length rest) + 1.
Proof.
  unfold computePeriodItems. cbn [fst]. intros (? & -> & (k & -> & _)%list_elem_of_fmap)%list_elem_of_fmap.
  apply item_days.
Qed.

Lemma computePeriod_within timeline topN w :
  0 ≤ topN → window_within timeline w →
  ∃ r, computePeriod format_g timeline w topN = Some r ∧
  match r with
  | Err e => errors_is e snapshot_ErrResidualCheck = true
  | Ok p => period_within timeline topN w p
  end.
Proof.
  intros Htop (Hlt & He & t0 & Ht0 & Hv). destruct (span_of_spec _ _ _ Hlt He Ht0) as (rest & Hspan & Hlen).
  destruct (lookup_lt_is_Some_2 timeline (endIdx w) ltac:(lia)) as [t1 Ht1].
  unfold computePeriod. rewrite Hspan, Ht1, Hv. eexists. split; [done|].
  destruct (computePeriodItems t0 t1 rest (td_v t0)) as [items pnl] eqn:Hitems.
  destruct (fltb residualTolerance _); [done|].
  assert (length items = holdings_seen timeline w) as Hn.
  { unfold holdings_seen. rewrite Hspan, <-(items_length t0 t1 rest (td_v t0)). by rewrite Hitems. }
  assert (∀ i, i ∈ items → 0 ≤ hi_HoldingDays i ≤ Z.of_nat (endIdx w - startIdx w) + 1) as Hdays.
  { intros i Hi. rewrite <-Hlen. apply (items_days t0 t1 rest (td_v t0)). by rewrite Hitems. }
  unfold period_within. cbn [pe_Period pe_StartDate pe_EndDate pe_Items pe_RestCount].
  pose proof (sort_by_perm item_less items) as Hp.
  assert (∀ i, i ∈ sort_by item_less items → 0 ≤ hi_HoldingDays i ≤ Z.of_nat (endIdx w - startIdx w) + 1) as Hdays'
    by (intros i; rewrite Hp; apply Hdays).
  revert Hdays'. rewrite <-(Permutation_length Hp) in Hn. revert Hn.
  generalize (sort_by item_less items) as sorted. clear Hp Hdays. intros sorted Hn Hdays.
  rewrite Ht0, Ht1, !length_fmap. split_and!; [done..| | |].
  - case_match; rewrite ?length_take; lia.
  - case_match; rewrite ?length_take; lia.
  - apply Forall_fmap, Forall_forall. intros i Hi. apply (Hdays i).
    destruct (topN <? _); [|done]. by eapply elem_of_take_in.
Qed.

Lemma periods_within timeline topN ws :
  0 ≤ topN → Forall (window_within timeline) ws →
  ∃ r, foldr (λ w acc, p ← computePeriod format_g timeline w topN; acc ← acc;
                Some (x ← p; xs ← acc; Ok (x :: xs))) (Some (Ok [])) ws = Some r ∧
  match r with
  | Err e => errors_is e snapshot_ErrResidualCheck = true
  | Ok ps => Forall2 (period_within timeline topN) ws ps
  end.
Proof.
  intros Htop. induction 1 as [|w ws Hw _ (r & Hr & IH)]; cbn.
  { eexists. split; [done|constructor]. }
  destruct (computePeriod_within timeline topN w Htop Hw) as (r1 & -> & H1). cbn. rewrite Hr. cbn.
  eexists. split; [done|]. destruct r1; cbn; [|done]. destruct r; cbn; [by constructor|done].
Qed.

(** C19: the bounds of the holdings-impact report.  Whatever number of items a
    caller asks for, every period has at most fifty (and at least one if there is
    a holding), the items and the rest count together are exactly the holdings
    of the window, and no holding is held longer than the window has days.  The
    periods are among the five canonical ones, in their order; each starts before
    it ends, on a day with equity, and no index leaves the timeline, so the only
    error left is a failed residual check. *)
Theorem impact_within_bounds (timeline : list timelineDay) (n : Z) :
  let ws := buildPeriodWindows timeline in
  1 ≤ clampTopN n ≤ 50 ∧
  w_id <$> ws `sublist_of` ["inception"; "5y"; "3y"; "1y"; "ytd"] ∧
  Forall (window_within timeline) ws ∧
  ∃ r, periods_of format_g timeline (clampTopN n) = Some r ∧
  match r with
  | Err e => errors_is e snapshot_ErrResidualCheck = true
  | Ok ps => Forall2 (period_within timeline (clampTopN n)) ws ps
  end.
Proof.
  pose proof (clampTopN_bounds n). pose proof (windows_within timeline) as [Hw Hids].
  split_and!; [lia..|done|done|]. apply periods_within; [lia|done].
Qed.
End bounds.
