(* ===== verification/SnapDemo.v ===== *)
(** The test snapshot of src/snapshot/fixture.go, read by the readers of the
    model; the values are those the repository's tests expect. *)
From S2P Require Import Prelude GoStrings GoTime Types GoFloat.
From S2P Require Import SnapDb SnapReturns Holdings Impact SnapLaws.

#[local] Existing Instance plain_driver.
#[local] Existing Instance canonical_range.

Definition num (n p : Z) : option float64 := Some (fconst n p).
Definition perf (day metric : string) (n : Z) : perf_row :=
  {| pf_date := day; pf_metric := metric; pf_value := f_of_Z n |}.
Definition pos_at (day ticker figi : string) (value quantity : Z) : position_row :=
  {| ps_date := day; ps_ticker := ticker; ps_figi := figi; ps_market_value := f_of_Z value; ps_quantity := f_of_Z quantity |}.
Definition tx (batch : Z) (day typ ticker figi : string) (q p : Z) (amount : float64) (qual : Z) (why : string) : tx_row :=
  {| tx_batch := Some batch; tx_date := Some day; tx_type := Some typ; tx_ticker := Some ticker; tx_figi := Some figi;
     tx_quantity := num q 0; tx_price := num p 0; tx_amount := Some amount; tx_qualified := Some qual;
     tx_justification := Some why |}.
Definition hold (ticker figi : string) (q cost value : Z) : holding_row :=
  {| hd_ticker := Some ticker; hd_figi := Some figi; hd_quantity := num q 0; hd_avg_cost := num cost 0;
     hd_market_value := num value 0 |}.
Definition metric (name window : string) (x : option float64) : metric_row :=
  {| mt_date := Some "2024-01-08"; mt_name := Some name; mt_window := Some window; mt_value := x |}.
Definition note (b : Z) (k x : string) : annotation_row := {| an_batch := Some b; an_key := Some k; an_value := Some x |}.
Definition ptx (typ ticker figi : string) (q p a : Z) (why : option string) : ptx_row :=
  {| px_type := typ; px_ticker := Some ticker; px_figi := Some figi; px_quantity := num q 0; px_price := num p 0;
     px_amount := num a 0; px_justification := why |}.
Definition phold (ticker figi : string) (q value : Z) : phold_row :=
  {| ph_ticker := ticker; ph_figi := figi; ph_quantity := f_of_Z q; ph_market_value := f_of_Z value |}.

(** [BuildTestSnapshot]. *)
Definition BuildTestSnapshot : snapdb := {|
  metadata := list_to_map [("schema_version", Some "7"); ("run.start", Some "2024-01-02T00:00:00-05:00");
    ("run.end", Some "2024-01-08T23:59:59-05:00"); ("benchmark", Some "SPY"); ("perf_data_frequency", Some "daily")];
  perf_data := [
    perf "2024-01-02" "portfolio_value" 100000; perf "2024-01-03" "portfolio_value" 101000;
    perf "2024-01-04" "portfolio_value" 94940; perf "2024-01-05" "portfolio_value" 102000;
    perf "2024-01-08" "portfolio_value" 103000; perf "2024-01-02" "benchmark_value" 100000;
    perf "2024-01-03" "benchmark_value" 100500; perf "2024-01-04" "benchmark_value" 100800;
    perf "2024-01-05" "benchmark_value" 101500; perf "2024-01-08" "benchmark_value" 102000];
  batches := [(1, 1704205800000000000); (2, 1704465000000000000); (3, 1704724200000000000); (4, 1704983400000000000)];
  transactions := [
    tx 1 "2024-01-02" "buy" "VTI" "BBG000BDTBL9" 100 100 (f_of_Z 10000) 0 "initial buy";
    tx 2 "2024-01-05" "dividend" "VTI" "BBG000BDTBL9" 0 0 (fconst 2550 2) 1 "qualified div";
    tx 4 "2024-01-11" "sell" "VTI" "BBG000BDTBL9" 100 110 (f_of_Z 11000) 0 "annual rebalance";
    tx 4 "2024-01-11" "buy" "QQQ" "" 90 110 (f_of_Z 9900) 0 "annual rebalance"];
  holdings := [hold "VTI" "BBG000BDTBL9" 100 100 10300; hold "$CASH" "" 1 93000 93000];
  metrics := [
    metric "sharpe_ratio" "full" (num 123 2); metric "sortino_ratio" "full" (num 180 2); metric "beta" "full" (num 95 2);
    metric "alpha" "full" (num 2 2); metric "std_dev" "full" (num 11 2); metric "ulcer_index" "full" (num 50 2);
    metric "tax_cost_ratio" "full" (num 1 2); metric "max_drawdown" "full" (num (-495) 5);
    metric "Sharpe" "since_inception" (num 155 2); metric "Sharpe" "1yr" (num 120 2);
    metric "Sortino" "since_inception" (num 182 2); metric "UpsideCaptureRatio" "since_inception" (num 105 2);
    metric "DownsideCaptureRatio" "since_inception" (num 82 2); metric "Beta" "since_inception" (num 90 2);
    metric "Beta" "1yr" (num 88 2); metric "WinRate" "since_inception" (num 62 2);
    metric "TaxCostRatio" "since_inception" (num 15 3);
    metric "TWRR" "since_inception" (num 3 2); metric "TWRR" "ytd" (num 3 2); metric "CAGR" "since_inception" (num 67 1);
    metric "BenchmarkTWRR" "since_inception" (num 2 2); metric "BenchmarkTWRR" "ytd" (num 2 2);
    metric "BenchmarkCAGR" "since_inception" (num 45 1); metric "AfterTaxTWRR" "since_inception" (num 27 3);
    metric "AfterTaxTWRR" "ytd" (num 27 3); metric "AfterTaxCAGR" "since_inception" (num 59 1);
    metric "BenchmarkAfterTaxTWRR" "since_inception" (num 17 3); metric "BenchmarkAfterTaxTWRR" "ytd" (num 17 3);
    metric "BenchmarkAfterTaxCAGR" "since_inception" (num 38 1)];
  annotations := [note 1 "reason" "initial allocation"; note 2 "reason" "dividend payment"; note 3 "reason" "final state"];
  positions_daily := Some [
    pos_at "2024-01-02" "VTI" "BBG000BDTBL9" 10000 100; pos_at "2024-01-02" "$CASH" "" 90000 90000;
    pos_at "2024-01-03" "VTI" "BBG000BDTBL9" 10100 100; pos_at "2024-01-03" "$CASH" "" 90900 90900;
    pos_at "2024-01-04" "VTI" "BBG000BDTBL9" 4040 100; pos_at "2024-01-04" "$CASH" "" 90900 90900;
    pos_at "2024-01-05" "VTI" "BBG000BDTBL9" 10200 100; pos_at "2024-01-05" "$CASH" "" 91800 91800;
    pos_at "2024-01-08" "VTI" "BBG000BDTBL9" 10300 100; pos_at "2024-01-08" "$CASH" "" 92700 92700];
  prediction := Some ["2024-01-11"];
  predicted_transactions := Some [
    ptx "sell" "VTI" "BBG000BDTBL9" 100 103 10300 (Some "annual rebalance"); ptx "buy" "QQQ" "BBG000BDTF76" 30 400 12000 None];
  predicted_holdings := Some [phold "QQQ" "BBG000BDTF76" 30 12000; phold "SHV" "BBG000QSTS64" 40 4000];
  predicted_annotations := Some [("reason", "annual rebalance"); ("confidence", "high")];
|}.

Notation fixture := BuildTestSnapshot.

(** The result of a read without faults, seen through [f]. *)
Definition read {A B} (m : rd A) (f : A → B) : option B := match (m []).2 with Ok a => Some (f a) | Err _ => None end.

Example test_window : read (readDateWindow fixture) id = Some (date_utc 2024 1 2, date_utc 2024 1 8).
Proof. vm_compute. done. Qed.
Example test_kpis :
  read (Kpis fixture) (λ k, (k_CurrentValue k, k_Sharpe k, k_YtdReturn k, k_Cagr k, k_OneYearReturn k)) =
  Some (f_of_Z 103000, num 123 2, num 3 2, num 67 1, None).
Proof. vm_compute. done. Qed.
Example test_trailing :
  read (TrailingReturns fixture) (fmap (λ r, (tr_Title r, tr_Ytd r, tr_OneYear r, tr_SinceInception r))) =
  Some [("Portfolio", num 3 2, None, num 67 1); ("Benchmark", num 2 2, None, num 45 1);
        ("Portfolio (after tax)", num 27 3, None, num 59 1); ("Benchmark (after tax)", num 17 3, None, num 38 1)].
Proof. vm_compute. done. Qed.
Example test_short_term :
  read (ShortTermReturns fixture) id =
  Some {| st_Day := fdiv (f_of_Z 1000) (f_of_Z 102000); st_WTD := fdiv (f_of_Z 1000) (f_of_Z 102000); st_MTD := fconst 3 2 |}.
Proof. vm_compute. done. Qed.
Example test_history :
  read (HoldingsHistory fixture None None) (fmap (λ e, (he_BatchId e, hh_Ticker <$> he_Items e, he_PortfolioValue e))) =
  Some [(1, ["VTI"; "$CASH"], num 100000 0); (2, ["VTI"; "$CASH"], num 102000 0);
        (3, ["VTI"; "$CASH"], num 103000 0); (4, ["QQQ"], None)].
Proof. vm_compute. done. Qed.
Example test_prediction :
  read (Prediction fixture) (λ p, (pd_Weight <$> pr_Holdings p, pr_TotalMarketValue p, pr_Annotations p)) =
  Some ([fconst 75 2; fconst 25 2], f_of_Z 16000, [("reason", "annual rebalance"); ("confidence", "high")]).
Proof. vm_compute. done. Qed.
Example test_metrics :
  read (Metrics fixture ["since_inception"; "1yr"; "bogus"; "1yr"] ["Sharpe"; "Nope"; "Beta"])
    (λ m, (pm_Windows m, (λ g, map_to_list g) <$> pm_Summary m, (λ g, map_to_list g) <$> pm_Risk m, bool_decide (pm_Tax m = None))) =
  Some (["since_inception"; "1yr"], Some [("Sharpe", [num 155 2; num 120 2])], Some [("Beta", [num 90 2; num 88 2])], true).
Proof. vm_compute. done. Qed.
Example test_impact :
  read (HoldingsImpact (λ _, "") fixture "acme" 1) (fmap (λ r, (λ p, (pe_Period p, hi_Ticker <$> pe_Items p, pe_RestCount p, pe_CumulativeReturn p)) <$> ir_Periods r)) =
  Some (Some [("inception", ["$CASH"], 1, fconst 3 2); ("ytd", ["$CASH"], 1, fconst 3 2)]).
Proof. vm_compute. done. Qed.
Example test_impact_no_table :
  (HoldingsImpact (λ _, "") {| metadata := metadata fixture; perf_data := perf_data fixture; batches := []; transactions := [];
     holdings := []; metrics := []; annotations := []; positions_daily := None; prediction := None;
     predicted_transactions := None; predicted_holdings := None; predicted_annotations := None |} "acme" 10 []).2 =
  Err (opaque_err "holdings-impact positions query: no such table: positions_daily").
Proof. vm_compute. done. Qed.

(** Selling everything on the 11th leaves only the purchase of that day, once the
    window reaches it. *)
Definition open_window : snapdb := {|
  metadata := <["run.end" := Some "2024-01-31"]> (metadata fixture); perf_data := perf_data fixture;
  batches := batches fixture; transactions := transactions fixture; holdings := holdings fixture;
  metrics := metrics fixture; annotations := annotations fixture; positions_daily := positions_daily fixture;
  prediction := prediction fixture; predicted_transactions := predicted_transactions fixture;
  predicted_holdings := predicted_holdings fixture; predicted_annotations := predicted_annotations fixture |}.

Lemma holdings_as_of_replays_witness :
  HoldingsAsOf fixture (date_utc 2024 2 1) [] = ([], Err snapshot_ErrNotFound') ∧
  (∀ s' r, HoldingsAsOf open_window (date_utc 2024 1 11) [] = (s', Ok r) →
     NoDup (hh_Ticker <$> ha_Items r)) ∧
  read (HoldingsAsOf open_window (date_utc 2024 1 11)) (λ r, (hh_Ticker <$> ha_Items r, ha_TotalLastTradeValue r)) =
  Some (["QQQ"], f_of_Z 9900).
Proof.
  split_and!; [| |vm_compute; done].
  - apply (holdings_as_of_replays fixture (date_utc 2024 2 1) (date_utc 2024 1 2) (date_utc 2024 1 8) [] []).
    + vm_compute. done.
    + right. vm_compute. done.
  - intros s' r Hr.
    assert (readDateWindow open_window [] = ([], Ok (date_utc 2024 1 2, date_utc 2024 1 31))) as Hw by (vm_compute; done).
    destruct (holdings_as_of_replays open_window (date_utc 2024 1 11) _ _ _ _ Hw) as [_ Hin].
    by apply Hin in Hr as (_ & _ & _ & Hnd & _).
Defined.

(** ** What the readers do not do *)

(** A split row carries its ratio in the price column, which the replay also
    takes for the last trade price: ten shares at 100 split two for one are
    twenty shares of value 40. *)
Lemma split_ratio_becomes_price :
  let rows := [tx 1 "2024-01-02" "buy" "VTI" "" 10 100 (f_of_Z 1000) 0 ""; tx 2 "2024-01-03" "split" "VTI" "" 0 2 fzero 0 ""] in
  match foldR replayTxIntoLedger ∅ rows with
  | Ok l => (λ h, (hh_Quantity h, hh_LastTradeValue h)) <$> ha_Items (ledgerToAsOfResponse 0 l) = [(f_of_Z 20, f_of_Z 40)]
  | Err _ => False
  end.
Proof. vm_compute. done. Qed.

(** Named items and the rest need not add up to the cumulative return: 0.2 + 0.1
    is not 0.3. *)
Definition day_of_two (day : Z) (equity a b : Z) : timelineDay :=
  {| td_date := date_utc 2024 1 day; td_v := f_of_Z equity; td_flows := ∅;
     td_positions := {[ ("VTI", "") := {| mv := f_of_Z a; qty := f_of_Z 1 |}; ("SHV", "") := {| mv := f_of_Z b; qty := f_of_Z 1 |} ]} |}.
Lemma rest_is_inexact :
  match periods_of (λ _, "") [day_of_two 2 100 50 50; day_of_two 3 130 70 60] 1 with
  | Some (Ok (p :: _)) =>
    pe_CumulativeReturn p = fconst 3 1 ∧ hi_Contribution <$> pe_Items p = [fconst 2 1] ∧
    pe_RestContribution p = fconst 1 1 ∧
    feqb (fadd (fsum (hi_Contribution <$> pe_Items p)) (pe_RestContribution p)) (pe_CumulativeReturn p) = false
  | _ => False
  end.
Proof. vm_compute. done. Qed.

(** A drawdown that is still open on the second day counts as many days as one
    recovered on the third. *)
Lemma open_drawdown_counts_one_more :
  dd_Days <$> detectDrawdowns [point 2 100; point 3 90] = [Some 2] ∧
  dd_Days <$> detectDrawdowns [point 2 100; point 3 90; point 4 100] = [Some 2].
Proof. vm_compute. done. Qed.
