(* ===== verification/Alert.v ===== *)
(** Alerts (src/alert/alert.go, db.go, evaluate.go, unsubscribe_token.go): the
    table [portfolio_alerts] beside the portfolios, its statements, the cadence
    rules and the signed unsubscribe tokens. *)
From S2P Require Import Prelude GoStrings GoTime Types Crypto.
From S2P Require Import PgText Store SnapDb.
From Stdlib Require Import Ascii.

Definition FrequencyScheduledRun : string := "scheduled_run".
Definition FrequencyDaily : string := "daily".
Definition FrequencyWeekly : string := "weekly".
Definition FrequencyMonthly : string := "monthly".

Record Alert := {
  a_ID : uuid; a_PortfolioID : uuid; a_Frequency : string; a_Recipients : list string;
  a_LastSentAt : option instant; a_LastSentValue : option float64; a_CreatedAt : instant; a_UpdatedAt : instant;
}.
#[export] Instance eta_Alert : Eta Alert := λ a,
  {| a_ID := a_ID a; a_PortfolioID := a_PortfolioID a; a_Frequency := a_Frequency a;
     a_Recipients := a_Recipients a; a_LastSentAt := a_LastSentAt a; a_LastSentValue := a_LastSentValue a;
     a_CreatedAt := a_CreatedAt a; a_UpdatedAt := a_UpdatedAt a |}.

Definition alert_ErrNotFound' : goerror := sentinel_err alert_ErrNotFound "alert not found".
Definition ErrInvalidUnsubscribeToken' : goerror :=
  sentinel_err alert_ErrInvalidUnsubscribeToken "invalid unsubscribe token".

(** [validFrequency], and the CHECK constraint on the column. *)
Definition validFrequency (f : string) : bool :=
  bool_decide (f ∈ [FrequencyScheduledRun; FrequencyDaily; FrequencyWeekly; FrequencyMonthly]).

(** ** The store *)

(** The table with the database of the portfolios its rows refer to, and the
    next value of [gen_random_uuid()]. *)
Record alertdb := { adb : db; alerts : gmap uuid Alert; next_alert : uuid }.
#[export] Instance eta_alertdb : Eta alertdb := λ d,
  {| adb := adb d; alerts := alerts d; next_alert := next_alert d |}.
#[local] Existing Instance Store.eta_db.

(** One statement; it consumes a fault of the database. *)
Definition stmt {A} (q : alertdb → result (alertdb * A)) (d : alertdb) : alertdb * result A :=
  let '(b, f) := next_fault (adb d) in
  let d := d <| adb := b |> in
  match f with
  | Some e => (d, Err e)
  | None => match q d with Ok (d', a) => (d', Ok a) | Err e => (d, Err e) end
  end.
Definition wrapping {A} (pre : string) (m : alertdb → alertdb * result A) (d : alertdb) : alertdb * result A :=
  let '(d, r) := m d in (d, match r with Ok a => Ok a | Err e => Err (wrap pre e) end).

(** A timestamptz column keeps microseconds. *)
Definition micros (t : instant) : instant := t / 1000 * 1000.

Section store.
Context `{MapRange}.

(** [PoolStore.Create]. *)
Definition insert_alert (portfolioID : uuid) (frequency : string) (recipients : list string) (d : alertdb) :
    result (alertdb * Alert) :=
  if negb (validFrequency frequency) then Err check_violation
  else match portfolios (adb d) !! portfolioID with
  | None => Err foreign_key_violation
  | Some _ =>
    let a := {| a_ID := next_alert d; a_PortfolioID := portfolioID; a_Frequency := frequency;
                a_Recipients := recipients; a_LastSentAt := None; a_LastSentValue := None;
                a_CreatedAt := now (adb d); a_UpdatedAt := now (adb d) |} in
    Ok (d <| alerts := <[next_alert d := a]> (alerts d) |> <| next_alert := (next_alert d + 1)%N |>, a)
  end.
Definition Create (portfolioID : uuid) (frequency : string) (recipients : list string) :
    alertdb → alertdb * result Alert :=
  wrapping "create alert: "
    (stmt (with_text (frequency :: recipients) (insert_alert portfolioID frequency recipients))).

(** [PoolStore.List]; rows created at the same time come in any order. *)
Definition alerts_of (portfolioID : uuid) (d : alertdb) : list Alert :=
  sort_by (on a_CreatedAt Z.ltb) (filter (λ a, a_PortfolioID a = portfolioID) (range_map (alerts d)).*2).
Definition List (portfolioID : uuid) : alertdb → alertdb * result (list Alert) :=
  wrapping "list alerts: " (stmt (λ d, Ok (d, alerts_of portfolioID d))).

(** [PoolStore.Get]. *)
Definition Get (id : uuid) : alertdb → alertdb * result Alert :=
  wrapping "get alert: " (stmt (λ d,
    match alerts d !! id with Some a => Ok (d, a) | None => Err alert_ErrNotFound' end)).

(** [UPDATE portfolio_alerts SET f WHERE id = id]: the row, if there is one. *)
Definition update_alert (id : uuid) (f : instant → Alert → Alert) (d : alertdb) : alertdb * option Alert :=
  match alerts d !! id with
  | Some a => let a' := f (now (adb d)) a in (d <| alerts := <[id := a']> (alerts d) |>, Some a')
  | None => (d, None)
  end.

(** [PoolStore.Update]. *)
Definition Update (id : uuid) (frequency : string) (recipients : list string) :
    alertdb → alertdb * result Alert :=
  wrapping "update alert: " (stmt (with_text (frequency :: recipients) (λ d,
    match update_alert id (λ t a, a <| a_Frequency := frequency |> <| a_Recipients := recipients |>
                                    <| a_UpdatedAt := t |>) d with
    | (_, None) => Err alert_ErrNotFound'
    | (d', Some a) => if validFrequency frequency then Ok (d', a) else Err check_violation
    end))).

(** [PoolStore.Delete]. *)
Definition Delete (id : uuid) (d : alertdb) : alertdb * result unit :=
  let '(d, r) := wrapping "delete alert: " (stmt (λ d,
    Ok (d <| alerts := delete id (alerts d) |>, bool_decide (is_Some (alerts d !! id))))) d in
  (d, match r with Err e => Err e | Ok true => Ok () | Ok false => Err alert_ErrNotFound' end).

(** [PoolStore.MarkSent]. *)
Definition MarkSent (id : uuid) (sentAt : instant) (value : float64) : alertdb → alertdb * result unit :=
  stmt (λ d, Ok ((update_alert id (λ t a, a <| a_LastSentAt := Some (micros sentAt) |>
                    <| a_LastSentValue := Some value |> <| a_UpdatedAt := t |>) d).1, ())).

(** The SET list of [RemoveRecipient]: [array_remove] takes every occurrence. *)
Definition set_without (recipient : string) (t : instant) (a : Alert) : Alert :=
  a <| a_Recipients := filter (λ r, r ≠ recipient) (a_Recipients a) |> <| a_UpdatedAt := t |>.

(** [PoolStore.RemoveRecipient]: two statements; an alert without recipients goes. *)
Definition drop_if_empty (id : uuid) (d : alertdb) : alertdb :=
  match alerts d !! id with
  | Some a => if bool_decide (a_Recipients a = []) then d <| alerts := delete id (alerts d) |> else d
  | None => d
  end.
Definition RemoveRecipient (id : uuid) (recipient : string) (d : alertdb) : alertdb * result unit :=
  let '(d, r) := wrapping "remove recipient: " (stmt (with_text [recipient] (λ d,
    Ok (update_alert id (set_without recipient) d)))) d in
  match r with
  | Err e => (d, Err e)
  | Ok None => (d, Err alert_ErrNotFound')
  | Ok (Some _) => stmt (λ d, Ok (drop_if_empty id d, ())) d
  end.
End store.

(** ** Cadence *)

(** The trading calendar: whether its holidays are loaded, the Eastern calendar
    day of an instant, market days, and schedules ([None] does not parse). *)
Class Calendar := {
  calReady : bool;
  et_day : instant → Z;
  IsMarketDay : instant → bool;
  schedule : string → option (instant → bool);
  et_day_micros t : et_day (micros t) = et_day t;
}.

Section cadence.
Context `{Calendar}.

Definition isTradingDay (t : instant) : bool := calReady && IsMarketDay t.
(** The schedules [weekEnd] and [monthEnd]; while one does not build the
    calendar is not ready. *)
Definition on_schedule (spec : string) (t : instant) : bool :=
  calReady && match schedule spec with Some f => f t | None => false end.
Definition isLastTradingDayOfWeek : instant → bool := on_schedule "@weekend".
Definition isLastTradingDayOfMonth : instant → bool := on_schedule "@monthend".

(** [strategyFiresOn]. *)
Definition strategyFiresOn (spec : string) (t : instant) : bool :=
  if negb calReady then false
  else if bool_decide (spec = "") then IsMarketDay t
  else match schedule spec with Some f => f t | None => IsMarketDay t end.

(** The [switch] of [isDue]. *)
Definition fires (frequency strategySchedule : string) (now : instant) : bool :=
  if bool_decide (frequency = FrequencyScheduledRun) then strategyFiresOn strategySchedule now
  else if bool_decide (frequency = FrequencyDaily) then isTradingDay now
  else if bool_decide (frequency = FrequencyWeekly) then isLastTradingDayOfWeek now
  else if bool_decide (frequency = FrequencyMonthly) then isLastTradingDayOfMonth now
  else false.

(** [isDue]. *)
Definition isDue (a : Alert) (strategySchedule : string) (now : instant) : bool :=
  fires (a_Frequency a) strategySchedule now &&
  match a_LastSentAt a with None => true | Some last => et_day last <? et_day now end.
End cadence.

(** ** Unsubscribe tokens *)
Section tokens.
Context (uuid_String : uuid → string) (uuid_Parse : string → result uuid).

(** [GenerateUnsubscribeToken]. *)
Definition GenerateUnsubscribeToken (secret : string) (alertID : uuid) (recipient : string) : string :=
  let payload := uuid_String alertID +:+ ":" +:+ recipient in
  base64_encode payload +:+ "." +:+ base64_encode (hmac secret payload).

(** [VerifyUnsubscribeToken]; [strings.SplitN(token, ".", 2)] cuts at the first point. *)
Definition VerifyUnsubscribeToken (secret token : string) : result (uuid * string) :=
  let invalid := Err ErrInvalidUnsubscribeToken' in
  match index_byte token "."%char with
  | None => invalid
  | Some n =>
    match base64_decode (slice_to token n), base64_decode (slice_from token (S n)) with
    | Some payload, Some sig =>
      if negb (bool_decide (sig = hmac secret payload)) then invalid
      else
        match index_byte payload ":"%char with
        | None => invalid
        | Some idx =>
          match uuid_Parse (slice_to payload idx) with
          | Ok id => Ok (id, slice_from payload (S idx))
          | Err _ => invalid
          end
        end
    | _, _ => invalid
    end
  end.

(** What the library promises of the text of a UUID. *)
Hypothesis parse_String : ∀ u, uuid_Parse (uuid_String u) = Ok u.
Hypothesis no_colon : ∀ u, index_byte (uuid_String u) ":"%char = None.

Lemma index_byte_app_none s t c n :
  index_byte s c = None → index_byte t c = Some n → index_byte (s +:+ t) c = Some (String.length s + n)%nat.
Proof.
  revert n. induction s as [|a s IH]; intros n; [done|]. rewrite append_cons. cbn [index_byte String.length].
  case_match; [done|]. intros Hs Ht. destruct (index_byte s c) eqn:E; [done|]. by rewrite (IH n).
Qed.
End tokens.
