(* ===== verification/AlertLaws.v ===== *)
(** Alerts: signed tokens are exactly the ones the server issued, and the store's
    statements change only the rows they name. *)
From S2P Require Import Prelude GoStrings GoTime Types Crypto.
From S2P Require Import Store SnapDb Alert.
From Stdlib Require Import Ascii.

(** ** Tokens *)

Lemma index_byte_None s c : index_byte s c = None ↔ c ∉ bytes_of s.
Proof.
  induction s as [|a s IH]; cbn; [split; [by intros _ ?%elem_of_nil|done]|].
  rewrite not_elem_of_cons. case_decide; [naive_solver|].
  destruct (index_byte s c); naive_solver.
Qed.

Lemma enc6_not_point n : 0 ≤ n < 64 → enc6 n ≠ "."%char.
Proof.
  intros Hn. pose proof (check_range_spec 64 0 (λ n, negb (bool_decide (enc6 n = "."%char))) ltac:(by vm_compute) n ltac:(lia)) as Hc.
  cbn beta in Hc. by apply negb_true_iff, bool_decide_eq_false in Hc.
Qed.

Lemma base64_no_point s : index_byte (base64_encode s) "."%char = None.
Proof.
  apply index_byte_None. unfold base64_encode. rewrite bytes_of_of, encode_sextets.
  intros (n & Hn & Hin)%list_elem_of_fmap.
  assert (Forall (λ n, 0 ≤ n < 64) (sextets (map octet (bytes_of s)))) as Hr.
  { apply sextets_range, Forall_fmap, Forall_forall. intros c _. apply octet_range. }
  rewrite Forall_forall in Hr. by eapply enc6_not_point; [apply Hr|].
Qed.

Lemma slice_to_length s t : slice_to (s +:+ t) (String.length s) = s.
Proof.
  unfold slice_to. rewrite bytes_of_app, <-length_bytes_of, take_app_length. apply of_bytes_of.
Qed.
Lemma slice_from_length s c t : slice_from (s +:+ String c t) (S (String.length s)) = t.
Proof.
  unfold slice_from. rewrite bytes_of_app, <-length_bytes_of. cbn [bytes_of].
  replace (S (length (bytes_of s))) with (length (bytes_of s) + 1)%nat by lia.
  rewrite <-drop_drop, drop_app_length. cbn. apply of_bytes_of.
Qed.

Section tokens.
Context (uuid_String : uuid → string) (uuid_Parse : string → result uuid).
Hypothesis parse_String : ∀ u, uuid_Parse (uuid_String u) = Ok u.
Hypothesis no_colon : ∀ u, index_byte (uuid_String u) ":"%char = None.

(** C23: unsubscribe tokens.  The token generated for an alert and a recipient
    verifies under the same secret to exactly that alert and recipient, whatever
    bytes the recipient holds; and a token that verifies is two base64 texts
    around the first point, the second decoding to the HMAC of what the first
    decodes to, which is a UUID, a colon and the recipient returned. *)
Theorem tokens_verify (secret : string) :
  (∀ id recipient, VerifyUnsubscribeToken uuid_Parse secret
     (GenerateUnsubscribeToken uuid_String secret id recipient) = Ok (id, recipient)) ∧
  (∀ token id recipient, VerifyUnsubscribeToken uuid_Parse secret token = Ok (id, recipient) →
     ∃ body sig text, token = body +:+ "." +:+ sig ∧
       base64_decode body = Some (text +:+ ":" +:+ recipient) ∧
       base64_decode sig = Some (hmac secret (text +:+ ":" +:+ recipient)) ∧
       uuid_Parse text = Ok id).
Proof.
  split.
  - intros id recipient. unfold GenerateUnsubscribeToken, VerifyUnsubscribeToken.
    set (payload := uuid_String id +:+ ":" +:+ recipient).
    rewrite (index_byte_app_none _ _ _ 0 (base64_no_point payload)) by done.
    rewrite Nat.add_0_r, slice_to_length.
    change ("." +:+ base64_encode (hmac secret payload)) with (String "." (base64_encode (hmac secret payload))).
    rewrite slice_from_length, !base64_roundtrip, bool_decide_eq_true_2 by done. cbn [negb].
    unfold payload. rewrite (index_byte_app_none _ _ _ 0 (no_colon id)) by done.
    rewrite Nat.add_0_r, slice_to_length, parse_String.
    change (":" +:+ recipient) with (String ":" recipient). by rewrite slice_from_length.
  - intros token id recipient. unfold VerifyUnsubscribeToken.
    destruct (index_byte token "."%char) as [n|] eqn:Hn; [|done].
    apply index_byte_split in Hn as [Htok _].
    destruct (base64_decode (slice_to token n)) as [payload|] eqn:Hb; [|done].
    destruct (base64_decode (slice_from token (S n))) as [sig|] eqn:Hs; [|done].
    case_bool_decide as Hmac; [|done]. cbn [negb].
    destruct (index_byte payload ":"%char) as [m|] eqn:Hm; [|done].
    apply index_byte_split in Hm as [Hpay _].
    destruct (uuid_Parse (slice_to payload m)) as [i|] eqn:Hu; [|done]. intros [= -> <-].
    exists (slice_to token n), (slice_from token (S n)), (slice_to payload m).
    change (":" +:+ slice_from payload (S m)) with (String ":" (slice_from payload (S m))).
    rewrite <-Hpay. subst sig. done.
Qed.
End tokens.

Section token_witness.
(** A textual form of UUIDs to evaluate with: a letter per unit. *)
Definition unary (u : uuid) : string := of_bytes (repeat "a"%char (N.to_nat u)).
Definition of_unary (s : string) : result uuid := Ok (N.of_nat (String.length s)).

Lemma tokens_verify_witness :
  VerifyUnsubscribeToken of_unary "secret" (GenerateUnsubscribeToken unary "secret" 3%N "a.b:c@example.com") =
    Ok (3%N, "a.b:c@example.com").
Proof.
  apply (tokens_verify unary of_unary).
  - intros u. unfold of_unary, unary. f_equal. rewrite <-length_bytes_of, bytes_of_of, repeat_length. lia.
  - intros u. apply index_byte_None. unfold unary. rewrite bytes_of_of. intros ?%list_elem_of_In%repeat_spec. done.
Defined.
End token_witness.
