(* ===== verification/Checker.v ===== *)
(** The alert checker (src/alert/checker.go) and the mail it sends
    (src/alert/email/email.go): what a finished run makes of a portfolio's
    alerts, as programs over the store, the snapshot files and Mailgun. *)
From S2P Require Import Prelude GoStrings GoTime Types GoFloat Prog.
From S2P Require Import SnapDb SnapReturns Holdings.
From S2P Require Import Email Alert.
From Stdlib Require Import Ascii.

Definition ErrEmailNotConfigured' : goerror :=
  sentinel_err alert_ErrEmailNotConfigured "email not configured: no Mailgun API key".

(** [email.Config]. *)
Record email_Config := { Domain : string; APIKey : string; FromAddress : string }.

Record portfolioData := {
  pd_Name : string; pd_Slug : string; pd_StrategyCode : string; pd_StrategySchedule : string;
  pd_Benchmark : string; pd_CurrentValue : option float64; pd_Status : string;
  pd_LastError : option string; pd_SnapshotPath : option string;
}.

(** [Checker], less its connections. *)
Record Checker := { emailConfig : email_Config; appBaseURL : string; unsubscribeSecret : string }.

(** ** Reading snapshots

    Code that opens snapshot files: [open] gives the file at a path, the faults
    are those of the queries to come. *)
Definition sio (A : Type) : Type := (string → result snapdb) → list fault → list fault * A.
#[export] Instance sio_ret : MRet sio := λ A a _ s, (s, a).
#[export] Instance sio_bind : MBind sio := λ A B f m open s, let '(s', a) := m open s in f a open s'.

(** [snapshot.Open(path)], the code that follows, [Close]. *)
Definition with_reader {A} (path : string) (failed : goerror → A) (k : snapdb → sio A) : sio A := λ open s,
  match open path with Err e => (s, failed e) | Ok db => k db open s end.
(** A reader's method. *)
Definition reading {A} (m : rd A) : sio (result A) := λ _ s, m s.

Section payload.
Context `{Driver, MapRange} (logo : string).

Definition dash : string := "—".

(** [returnCell], of a pointer and its presence. *)
Definition returnCell (x : option float64) : ReturnCell :=
  match x with
  | None => {| rc_Pct := dash; rc_Color := "#94a3b8" |}
  | Some x => let '(pct, color) := FormatReturnPct x in {| rc_Pct := pct; rc_Color := color |}
  end.

Definition returns_row (label : string) (short : ShortTermReturns_) (ytd oneYear : option float64) : ReturnsRow :=
  {| rr_Label := label; rr_Day := returnCell (Some (st_Day short)); rr_Wtd := returnCell (Some (st_WTD short));
     rr_Mtd := returnCell (Some (st_MTD short)); rr_Ytd := returnCell ytd; rr_OneYear := returnCell oneYear |}.

(** [snapshotDayChange]. *)
Definition snapshotDayChange (path : string) : sio (result DayChangeSummary) :=
  with_reader path Err (λ db, reading (DayChange db)).

(** [benchmarkReturnsRow]. *)
Definition benchmarkReturnsRow (db : snapdb) (benchmark : string) (kpis : Kpis_) : sio (option ReturnsRow) :=
  if bool_decide (benchmark = "") then mret None
  else
    cur ← reading (BenchmarkCurrentValue db);
    match cur with
    | Err _ => mret None
    | Ok curBench =>
      if fleb curBench fzero then mret None
      else
        short ← reading (BenchmarkShortTermReturns db);
        match short with
        | Err _ => mret None
        | Ok short => mret (Some (returns_row ("Benchmark (" +:+ benchmark +:+ ")") short
                                    (k_BenchmarkYtdReturn kpis) (k_BenchmarkOneYearReturn kpis)))
        end
    end.

(** [fillPhoneReturns]. *)
Definition fillPhoneReturns (p : Payload) : Payload :=
  let window (label : string) (pick : ReturnsRow → ReturnCell) :=
    {| rw_Label := label; rw_Cells := pick <$> Returns p |} in
  p <| SeriesLabels := SeriesLabels p ++ (rr_Label <$> Returns p) |>
    <| ReturnWindows := ReturnWindows p ++
         [window "Day" rr_Day; window "WTD" rr_Wtd; window "MTD" rr_Mtd; window "YTD" rr_Ytd; window "1Y" rr_OneYear] |>.

(** [fillReturns]. *)
Definition fillReturns (p : Payload) (snapshotPath benchmark : string) : sio Payload :=
  with_reader snapshotPath (λ _, p) (λ db,
    short ← reading (ShortTermReturns db);
    match short with
    | Err _ => mret p
    | Ok short =>
      kpis ← reading (Kpis db);
      match kpis with
      | Err _ => mret p
      | Ok kpis =>
        row ← benchmarkReturnsRow db benchmark kpis;
        mret (fillPhoneReturns (p <| Returns := Returns p ++
          returns_row "Portfolio" short (k_YtdReturn kpis) (k_OneYearReturn kpis) ::
          match row with Some r => [r] | None => [] end |>))
      end
    end).

(** [strings.ToUpper] of the first byte of a transaction type; [LatestBatchTrades]
    returns only "buy" and "sell". *)
Definition upper_first (s : string) : string :=
  match s with
  | String a r => let c := code a in String (if (97 <=? c)%nat && (c <=? 122)%nat then byte (c - 32) else a) r
  | EmptyString => s
  end.

(** [fillTrades]. *)
Definition add_trade (p : Payload) (t : LatestBatchTrade) : Payload :=
  let p := if bool_decide (TradesDate p = "") && negb (bool_decide (lt_Date t = "")) then
             match parse_date (lt_Date t) with Some d => p <| TradesDate := format_long d |> | None => p end
           else p in
  let sell := bool_decide (lt_Type t = "sell") in
  p <| Trades := Trades p ++ [{|
    tr_Ticker := lt_Ticker t; tr_Action := upper_first (lt_Type t);
    tr_ActionColor := if sell then "#ef4444" else "#16a34a";
    tr_ActionBgColor := if sell then "#fee2e2" else "#dcfce7";
    tr_Shares := FormatMoneyVal (fabs (lt_Quantity t));
    tr_Value := "$" +:+ FormatMoneyVal (fabs (lt_Amount t)) |}] |>.
Definition fillTrades (p : Payload) (trades : list LatestBatchTrade) : Payload := foldl add_trade p trades.

(** One row of the loop over the holdings. *)
Definition holding_view (total : float64) (h : Holding) : HoldingRow :=
  let weight := if fpos_p total then fmul (fdiv (ho_MarketValue h) total) (f_of_Z 100) else fzero in
  let cash := bool_decide (ho_Ticker h = "$CASH") in
  {| hr_Ticker := ho_Ticker h; hr_TickerColor := if cash then "#94a3b8" else "#0f172a";
     hr_Shares := if cash then dash else FormatMoneyVal (ho_Quantity h);
     hr_WeightPct := fmt_fixed 1 weight; hr_Value := "$" +:+ FormatMoneyVal (ho_MarketValue h) |}.

(** [fillHoldingsAndTrades]. *)
Definition fillHoldingsAndTrades (p : Payload) (path : string) : sio Payload :=
  with_reader path (λ _, p) (λ db,
    cur ← reading (CurrentHoldings db);
    match cur with
    | Err _ => mret p
    | Ok cur =>
      let total := fsum (ho_MarketValue <$> hs_Items cur) in
      let p := p <| Holdings := Holdings p ++ (holding_view total <$> hs_Items cur) |> in
      trades ← reading (LatestBatchTrades db);
      mret (match trades with Err _ => p | Ok ts => fillTrades p ts end)
    end).

Definition empty_payload : Payload :=
  {| PortfolioName := ""; p_StrategyCode := ""; RunDate := ""; Success := false; LogoDataURL := "";
     p_CurrentValue := ""; HasDelta := false; DeltaPct := ""; DeltaAbs := ""; SinceLabel := "";
     DeltaColor := ""; TradesDate := ""; Returns := []; SeriesLabels := []; ReturnWindows := [];
     Trades := []; Holdings := []; PortfolioURL := ""; UnsubscribeURL := ""; ErrorMessage := "";
     LastKnownValue := "" |}.

Definition money (x : float64) : string := "$" +:+ FormatMoneyVal x.

(** The headline of a successful run. *)
Definition with_day_change (p : Payload) (port : portfolioData) (dc : DayChangeSummary) : Payload :=
  let p := p <| RunDate := "as of " +:+ format_long (dc_LatestDate dc) |> in
  let p := match pd_CurrentValue port with Some x => p <| p_CurrentValue := money x |> | None => p end in
  if dc_HasPrior dc then
    match FormatDelta (dc_LatestValue dc) (dc_PriorValue dc) (dc_PriorDate dc) (dc_LatestDate dc) with
    | Some (pct, abs, color, since) =>
      p <| HasDelta := true |> <| DeltaPct := pct |> <| DeltaAbs := abs |> <| DeltaColor := color |>
        <| SinceLabel := since |>
    | None => p
    end
  else p.

(** [buildPayload]. *)
Definition buildPayload (port : portfolioData) (success : bool) : sio Payload :=
  let p := empty_payload <| PortfolioName := pd_Name port |> <| p_StrategyCode := pd_StrategyCode port |>
             <| Success := success |> <| LogoDataURL := logo |> in
  if negb success then
    let p := match pd_LastError port with Some e => p <| ErrorMessage := e |> | None => p end in
    mret (match pd_CurrentValue port with Some x => p <| LastKnownValue := money x |> | None => p end)
  else
    match pd_SnapshotPath port with
    | Some path =>
      dc ← snapshotDayChange path;
      let p := match dc with Ok dc => with_day_change p port dc | Err _ => p end in
      p ← fillReturns p path (pd_Benchmark port);
      fillHoldingsAndTrades p path
    | None => mret (match pd_CurrentValue port with Some x => p <| p_CurrentValue := money x |> | None => p end)
    end.
End payload.

(** ** What the checker calls *)
Inductive alert_call : Type → Type :=
  | AlertList (portfolioID : uuid) : alert_call (result (list Alert))
  | AlertNow : alert_call instant
  | LoadPortfolio (portfolioID : uuid) : alert_call (result portfolioData)
  | ReadSnapshots (m : sio Payload) : alert_call Payload
  | MailgunPost (to : list string) (subject html text : string) : alert_call (result Z)
  | AlertMarkSent (id : uuid) (sentAt : instant) (value : float64) : alert_call (result unit).

Notation M := (prog alert_call).

Section checker.
Context `{Driver, MapRange, Calendar}.
(** The text of UUIDs, the HTML template the success flag selects, the embedded logo. *)
Context (uuid_String : uuid → string) (execute : bool → Payload → result string) (logo : string).
Context (c : Checker).

(** [email.Send]; nothing is sent without an API key. *)
Definition Send (recipients : list string) (subject html text : string) : M (option goerror) :=
  if bool_decide (APIKey (emailConfig c) = "") then Ret None
  else
    r ← do (MailgunPost recipients subject html text);
    Ret (match r with
         | Err e => Some (wrap "mailgun: send: " e)
         | Ok st => if (st <? 200) || (300 <=? st)
                    then Some (opaque_err ("mailgun: unexpected status: " +:+ itoa st)) else None
         end).

Definition subject_of (success : bool) (name : string) : string :=
  (if success then "Portfolio Update: " else "Portfolio Error: ") +:+ name.

(** One recipient of [sendOne]. *)
Definition personal (a : Alert) (base : Payload) (recipient : string) : Payload :=
  if negb (bool_decide (unsubscribeSecret c = "")) && negb (bool_decide (appBaseURL c = "")) then
    base <| UnsubscribeURL := appBaseURL c +:+ "/api/alerts/unsubscribe?token=" +:+
              GenerateUnsubscribeToken uuid_String (unsubscribeSecret c) (a_ID a) recipient |>
  else base.
Fixpoint send_each (a : Alert) (base : Payload) (subject : string) (recipients : list string) : M unit :=
  match recipients with
  | [] => Ret ()
  | r :: rs =>
    match Render execute (personal a base r) with
    | Err _ => send_each a base subject rs
    | Ok (html, text) => _ ← Send [r] subject html text; send_each a base subject rs
    end
  end.

(** [sendOne]: the alert is marked sent whatever became of the mails. *)
Definition sendOne (a : Alert) (port : portfolioData) (now : instant) (success : bool) : M unit :=
  base ← do (ReadSnapshots (buildPayload logo port success));
  let base := if negb (bool_decide (appBaseURL c = "")) && negb (bool_decide (pd_Slug port = ""))
              then base <| PortfolioURL := appBaseURL c +:+ "/portfolios/" +:+ pd_Slug port |> else base in
  _ ← send_each a base (subject_of success (pd_Name port)) (a_Recipients a);
  _ ← do (AlertMarkSent (a_ID a) now (default fzero (pd_CurrentValue port)));
  Ret ().

Fixpoint send_due (alerts : list Alert) (port : portfolioData) (now : instant) (success : bool) : M unit :=
  match alerts with
  | [] => Ret ()
  | a :: rest =>
    if isDue a (pd_StrategySchedule port) now
    then _ ← sendOne a port now success; send_due rest port now success
    else send_due rest port now success
  end.

(** [Checker.NotifyRunComplete]. *)
Definition NotifyRunComplete (portfolioID : uuid) (success : bool) : M (option goerror) :=
  r ← do (AlertList portfolioID);
  match r with
  | Err e => Ret (Some (wrap "alert checker: list: " e))
  | Ok [] => Ret None
  | Ok alerts =>
    now ← do AlertNow;
    port ← do (LoadPortfolio portfolioID);
    match port with
    | Err e => Ret (Some (wrap "alert checker: load portfolio: " e))
    | Ok port => _ ← send_due alerts port now success; Ret None
    end
  end.

(** [Checker.SendSummary]. *)
Definition SendSummary (portfolioID : uuid) (recipient : string) : M (option goerror) :=
  if bool_decide (APIKey (emailConfig c) = "") then Ret (Some ErrEmailNotConfigured')
  else
    port ← do (LoadPortfolio portfolioID);
    match port with
    | Err e => Ret (Some (wrap "send summary: load portfolio: " e))
    | Ok port =>
      _ ← do AlertNow;
      let ready := bool_decide (pd_Status port = "ready") in
      p ← do (ReadSnapshots (buildPayload logo port ready));
      match Render execute (p <| Trades := [] |>) with
      | Err e => Ret (Some (wrap "send summary: render: " e))
      | Ok (html, text) =>
        r ← Send [recipient] (subject_of ready (pd_Name port)) html text;
        Ret (match r with Some e => Some (wrap "send summary: send: " e) | None => None end)
      end
    end.
End checker.

(** ** The checker at work

    The database, the clock, the snapshot files and the faults of their queries,
    and the mails handed to Mailgun. *)
Record mail := { m_to : list string; m_subject : string; m_html : string; m_text : string }.
Record world := {
  w_db : alertdb; w_clock : instant; w_files : string → result snapdb; w_script : list fault; w_outbox : list mail;
}.
#[export] Instance eta_world : Eta world := λ w,
  {| w_db := w_db w; w_clock := w_clock w; w_files := w_files w; w_script := w_script w; w_outbox := w_outbox w |}.

Section at_work.
Context `{MapRange}.
(** The schedule in a describe document, or why it does not parse; what Mailgun
    answers. *)
Context (unmarshal_schedule : string → result string) (mailgun : mail → result Z).

(** [loadPortfolio]. *)
Definition portfolio_data (p : Portfolio) : portfolioData :=
  {| pd_Name := Name p; pd_Slug := Types.Slug p; pd_StrategyCode := StrategyCode p;
     pd_StrategySchedule := if bool_decide (StrategyDescribeJSON p = "") then ""
                            else match unmarshal_schedule (StrategyDescribeJSON p) with Ok s => s | Err _ => "" end;
     pd_Benchmark := Benchmark p; pd_CurrentValue := CurrentValue p; pd_Status := Status p;
     pd_LastError := LastError p; pd_SnapshotPath := SnapshotPath p |}.
Definition loadPortfolio (id : uuid) : alertdb → alertdb * result portfolioData :=
  stmt (λ d, match Store.portfolios (adb d) !! id with
             | Some p => Ok (d, portfolio_data p)
             | None => Err (sentinel_err sql_ErrNoRows "no rows in result set")
             end).

Definition on_db {A} (f : alertdb → alertdb * A) (w : world) : world * A :=
  let '(d, a) := f (w_db w) in (w <| w_db := d |>, a).

(** What the calls do. *)
Definition answer {A} (call : alert_call A) : world → world * A :=
  match call with
  | AlertList pid => on_db (Alert.List pid)
  | AlertNow => λ w, (w, w_clock w)
  | LoadPortfolio pid => on_db (loadPortfolio pid)
  | ReadSnapshots m => λ w, let '(s, p) := m (w_files w) (w_script w) in (w <| w_script := s |>, p)
  | MailgunPost to subject html text => λ w,
      let m := {| m_to := to; m_subject := subject; m_html := html; m_text := text |} in
      (w <| w_outbox := w_outbox w ++ [m] |>, mailgun m)
  | AlertMarkSent id t v => on_db (MarkSent id t v)
  end.
End at_work.
