(* ===== verification/AlertApi.v ===== *)
(** The alert endpoints (src/alert/handler.go).  Their [writeProblem] returns what
    [JSON] returns, which is nil, so a failed [resolvePortfolio] does not end the
    handler: it goes on with the zero portfolio. *)
From S2P Require Import Prelude GoStrings GoTime Types Prog.
From S2P Require Import Store SnapDb Email Alert Checker.

(** The parts of the request the handlers read. *)
Record alert_request := {
  q_sub : option string; q_slug : string; q_alertId : string; q_token : string; q_body : string;
}.
Record alertView := {
  av_ID : uuid; av_PortfolioID : uuid; av_Frequency : string; av_Recipients : list string; av_LastSentAt : option string;
}.
Inductive alert_body :=
  | AEmpty
  | AProblem (title detail : string)
  | AView (v : alertView)
  | AViews (l : list alertView)
  | AText (s : string)
  | AUnsubscribed (alertID : option uuid).
Record alert_response := { as_status : Z; as_body : alert_body }.

Definition handled : Type := world * alert_response.

Section api.
Context `{MapRange, Driver}.
(** Decoding of bodies, the text of UUIDs, the wall clock of stored times. *)
Context (decode_alert : string → result (string * list string)) (decode_recipient : string → result string).
Context (uuid_Parse : string → result uuid) (wall : instant → instant).
(** [EmailSummarizer], if there is one. *)
Context (summarizer : option (uuid → string → world → world * option goerror)) (secret : string).

(** [toView]. *)
Definition toView (a : Alert) : alertView :=
  {| av_ID := a_ID a; av_PortfolioID := a_PortfolioID a; av_Frequency := a_Frequency a;
     av_Recipients := a_Recipients a; av_LastSentAt := (λ t, format_timestamp (wall t)) <$> a_LastSentAt a |}.

(** [c.Status(st).JSON(v)], and [c.JSON(v)] on the status so far. *)
Definition respond (st : Z) (b : alert_body) (w : world) : handled := (w, {| as_status := st; as_body := b |}).
Definition writeProblem (st : Z) (title detail : string) : world → handled := respond st (AProblem title detail).
Definition internal (e : goerror) : world → handled := writeProblem 500 "Internal Server Error" (err_text e).

#[local] Existing Instance Alert.eta_alertdb.

(** [portfolio.Store.Get] on the database beside the alerts. *)
Definition portfolio_Get (sub slug : string) (w : world) : world * result Portfolio :=
  on_db (λ d, let '(b, r) := Store.Get sub slug (adb d) in (d <| adb := b |>, r)) w.

(** [resolvePortfolio]: the id of the portfolio and the status the response has
    now; on a problem it is the zero portfolio's. *)
Definition resolvePortfolio (rq : alert_request) (w : world) : world * (uuid * Z) :=
  match q_sub rq with
  | None | Some EmptyString => (w, (uuid_Nil, 401))
  | Some sub =>
    let '(w, r) := portfolio_Get sub (q_slug rq) w in
    (w, match r with
        | Ok p => (ID p, 200)
        | Err e => (uuid_Nil, if errors_is e portfolio_ErrNotFound then 404 else 500)
        end)
  end.

(** [Create]. *)
Definition Create (rq : alert_request) (w : world) : handled :=
  let '(w, (pid, _)) := resolvePortfolio rq w in
  match decode_alert (q_body rq) with
  | Err e => writeProblem 422 "invalid body" (err_text e) w
  | Ok (frequency, recipients) =>
    if negb (validFrequency frequency) then
      writeProblem 422 "invalid frequency" "frequency must be one of: scheduled_run, daily, weekly, monthly" w
    else if bool_decide (recipients = []) then
      writeProblem 422 "recipients required" "at least one recipient is required" w
    else
      let '(w, r) := on_db (Alert.Create pid frequency recipients) w in
      match r with Err e => internal e w | Ok a => respond 201 (AView (toView a)) w end
  end.

(** [List]. *)
Definition List (rq : alert_request) (w : world) : handled :=
  let '(w, (pid, st)) := resolvePortfolio rq w in
  let '(w, r) := on_db (Alert.List pid) w in
  match r with Err e => internal e w | Ok l => respond st (AViews (toView <$> l)) w end.

(** The alert of the path, if it is the portfolio's; the handlers [Update] and
    [Delete] begin with it. *)
Definition own_alert (rq : alert_request) (k : uuid → Z → Alert → world → handled) (w : world) : handled :=
  let '(w, (pid, st)) := resolvePortfolio rq w in
  match uuid_Parse (q_alertId rq) with
  | Err _ => writeProblem 400 "Bad Request" "invalid alertId" w
  | Ok alertID =>
    let '(w, r) := on_db (Alert.Get alertID) w in
    match r with
    | Err e => if errors_is e alert_ErrNotFound then writeProblem 404 "Not Found" "alert not found" w else internal e w
    | Ok existing =>
      if bool_decide (a_PortfolioID existing ≠ pid) then writeProblem 404 "Not Found" "alert not found" w
      else k alertID st existing w
    end
  end.

(** [Update]. *)
Definition Update (rq : alert_request) : world → handled := own_alert rq (λ alertID st existing w,
  match decode_alert (q_body rq) with
  | Err e => writeProblem 422 "invalid body" (err_text e) w
  | Ok (frequency, recipients) =>
    if negb (bool_decide (frequency = "")) && negb (validFrequency frequency) then
      writeProblem 422 "invalid frequency" "frequency must be one of: scheduled_run, daily, weekly, monthly" w
    else
      let freq := if bool_decide (frequency = "") then a_Frequency existing else frequency in
      let recips := if bool_decide (recipients = []) then a_Recipients existing else recipients in
      let '(w, r) := on_db (Alert.Update alertID freq recips) w in
      match r with Err e => internal e w | Ok a => respond st (AView (toView a)) w end
  end).

(** [Delete]. *)
Definition Delete (rq : alert_request) : world → handled := own_alert rq (λ alertID _ _ w,
  let '(w, r) := on_db (Alert.Delete alertID) w in
  match r with Err e => internal e w | Ok _ => respond 204 AEmpty w end).

(** [SendSummary]. *)
Definition SendSummary (rq : alert_request) (w : world) : handled :=
  match summarizer with
  | None => writeProblem 503 "email not configured" "email sending is not configured on this server" w
  | Some send =>
    let '(w, (pid, _)) := resolvePortfolio rq w in
    match decode_recipient (q_body rq) with
    | Err e => writeProblem 422 "invalid body" (err_text e) w
    | Ok recipient =>
      if bool_decide (recipient = "") then writeProblem 422 "recipient required" "recipient is required" w
      else
        let '(w, r) := send pid recipient w in
        match r with
        | None => respond 201 AEmpty w
        | Some e => if errors_is e alert_ErrEmailNotConfigured
                    then writeProblem 503 "email not configured" "Mailgun API key is not set" w
                    else internal e w
        end
    end
  end.

(** [Unsubscribe]. *)
Definition Unsubscribe (rq : alert_request) (w : world) : handled :=
  if bool_decide (secret = "") then respond 404 (AText "Unsubscribe is not configured.") w
  else
    match VerifyUnsubscribeToken uuid_Parse secret (q_token rq) with
    | Err _ => respond 400 (AText "Invalid or expired unsubscribe link.") w
    | Ok (alertID, recipient) =>
      let '(w, r) := on_db (Alert.Get alertID) w in
      match r with
      | Err e => if errors_is e alert_ErrNotFound then respond 200 (AUnsubscribed None) w
                 else respond 500 (AText "Something went wrong.") w
      | Ok _ =>
        let '(w, r) := on_db (Alert.RemoveRecipient alertID recipient) w in
        match r with
        | Err e => if errors_is e alert_ErrNotFound then respond 200 (AUnsubscribed (Some alertID)) w
                   else respond 500 (AText "Something went wrong.") w
        | Ok _ => respond 200 (AUnsubscribed (Some alertID)) w
        end
      end
    end.

(** The routes src/api/server.go registers behind authentication. *)
Inductive alert_route := RAlertCreate | RAlertList | RAlertUpdate | RAlertDelete | RAlertSummary.
Definition dispatch (r : alert_route) : alert_request → world → handled :=
  match r with
  | RAlertCreate => Create
  | RAlertList => List
  | RAlertUpdate => Update
  | RAlertDelete => Delete
  | RAlertSummary => SendSummary
  end.
End api.
