(* ===== verification/AlertApiLaws.v ===== *)
(** Alerts at work: a due alert goes out once a day, and requests touch only the
    alerts of the caller's own portfolios. *)
From S2P Require Import Prelude GoStrings GoTime Types Prog.
From S2P Require Import PgText Store SnapDb Email Alert Checker AlertApi.

#[local] Existing Instance Alert.eta_alertdb.
#[local] Existing Instance Store.eta_db.
#[local] Existing Instance Checker.eta_world.

(** ** Statements *)

(** What a statement may do besides its own effect: consume a fault. *)
Definition rest_of (b : Store.db) := (Store.now b, Store.runs b, Store.next_uuid b).
Definition tables_of (d : alertdb) := (Store.portfolios (adb d), rest_of (adb d), alerts d, next_alert d).

Lemma alert_fault_tables (d : alertdb) b f :
  next_fault (adb d) = (b, f) → tables_of (d <| adb := b |>) = tables_of d.
Proof. unfold next_fault. destruct (faults (adb d)); intros [= <- <-]; by destruct d. Qed.

(** A statement changes the tables only as its query does, and only when it succeeds. *)
Lemma stmt_spec {A} (q : alertdb → result (alertdb * A)) d d' r :
  stmt q d = (d', r) →
  ∃ d0, tables_of d0 = tables_of d ∧
    match r with
    | Ok a => q d0 = Ok (d', a)
    | Err _ => d' = d0
    end.
Proof.
  unfold stmt. destruct (next_fault (adb d)) as [b f] eqn:Hf. apply alert_fault_tables in Hf.
  destruct f as [e|]; [intros [= <- <-]; eauto|].
  destruct (q _) as [[d1 a]|e] eqn:Hq; intros [= <- <-]; eauto.
Qed.

Lemma stmt_fault_free {A} (q : alertdb → result (alertdb * A)) d :
  faults (adb d) = [] → stmt q d = match q d with Ok (d', a) => (d', Ok a) | Err e => (d, Err e) end.
Proof. intros Hf. unfold stmt, next_fault. rewrite Hf. by destruct d. Qed.

(** ** The checker *)
Section notify.
Context `{HD : Driver, HM : MapRange, HC : Calendar}.
Context (uuid_String : uuid → string) (execute : bool → Payload → result string) (logo : string).
Context (c : Checker) (unmarshal_schedule : string → result string) (mailgun : mail → result Z).

Notation handler e := (answer unmarshal_schedule mailgun e).
Notation exec p w := (exec_prog (λ A (e : alert_call A), handler e) p w).

Lemma alert_exec_bind {A B} (p : prog alert_call A) (f : A → prog alert_call B) w w1 a :
  exec p w = (w1, a) → exec (p ≫= f) w = exec (f a) w1.
Proof.
  revert w. induction p as [r|X e k IH]; intros w; cbn; [by intros [= <- <-]|].
  destruct (handler e w) as [w2 x]. apply IH.
Qed.

Lemma exec_do {A B} (e : alert_call A) (f : A → prog alert_call B) w :
  exec (do e ≫= f) w = exec (f (handler e w).2) (handler e w).1.
Proof. cbn. by destruct (handler e w). Qed.

(** The row of an alert that was sent. *)
Definition marked (now : instant) (v : float64) (t : instant) (a : Alert) : Alert :=
  a <| a_LastSentAt := Some (micros now) |> <| a_LastSentValue := Some v |> <| a_UpdatedAt := t |>.

(** From [w] to [w']: the rows of [ids] were marked, mails to the addresses [to]
    may have been posted, nothing else of the database or the clock moved. *)
Record sent (now : instant) (v : float64) (ids : list uuid) (to : list string) (w w' : world) : Prop := {
  sent_adb : adb (w_db w') = adb (w_db w);
  sent_clock : w_clock w' = w_clock w;
  sent_rows : ∀ i, alerts (w_db w') !! i =
    (if bool_decide (i ∈ ids) then marked now v (Store.now (adb (w_db w))) else id) <$> alerts (w_db w) !! i;
  sent_mail : ∃ ms, w_outbox w' = w_outbox w ++ ms ∧ (∀ m, m ∈ ms → ∃ r, r ∈ to ∧ m_to m = [r]);
}.

Lemma sent_nil now v w w' : w_db w' = w_db w → w_clock w' = w_clock w → w_outbox w' = w_outbox w → sent now v [] [] w w'.
Proof.
  intros Hd Hc Ho. split; [by rewrite Hd|done| |].
  - intros i. rewrite Hd. by destruct (alerts (w_db w) !! i).
  - exists []. rewrite app_nil_r. split; [done|]. by intros ? ?%elem_of_nil.
Qed.

Lemma sent_trans now v ids1 ids2 to1 to2 w w1 w2 :
  sent now v ids1 to1 w w1 → sent now v ids2 to2 w1 w2 → sent now v (ids1 ++ ids2) (to1 ++ to2) w w2.
Proof.
  intros [Hd1 Hc1 Hr1 (ms1 & Ho1 & Hm1)] [Hd2 Hc2 Hr2 (ms2 & Ho2 & Hm2)]. split; [congruence|congruence| |].
  - intros i. rewrite Hr2, Hr1, Hd1. destruct (alerts (w_db w) !! i) as [a|]; cbn; [|done]. f_equal.
    repeat case_bool_decide; set_solver.
  - exists (ms1 ++ ms2). split; [by rewrite Ho2, Ho1, app_assoc|]. intros m [Hm|Hm]%elem_of_app.
    + apply Hm1 in Hm as (r & ? & ?). exists r. set_solver.
    + apply Hm2 in Hm as (r & ? & ?). exists r. set_solver.
Qed.

Lemma sent_to_mono now v ids to to' w w' : to ⊆ to' → sent now v ids to w w' → sent now v ids to' w w'.
Proof.
  intros Hto [Hd Hc Hr (ms & Ho & Hm)]. split; [done..|]. exists ms. split; [done|].
  intros m Hin. apply Hm in Hin as (r & ? & ?). exists r. set_solver.
Qed.

Lemma exec_Send now v r subject html text w :
  ∃ w' x, exec (Send c [r] subject html text) w = (w', x) ∧ sent now v [] [r] w w'.
Proof.
  unfold Send. case_bool_decide.
  - eexists _, _. split; [done|]. apply (sent_to_mono _ _ _ []); [set_solver|]. by apply sent_nil.
  - rewrite exec_do. cbn [exec_prog answer fst snd].
    eexists _, _. split; [done|]. split; [done|done| |].
    + intros i. cbn. by destruct (alerts (w_db w) !! i).
    + eexists [_]. split; [done|]. intros m ->%list_elem_of_singleton. exists r. split; [set_solver|done].
Qed.

Lemma exec_send_each now v a base subject rs w :
  ∃ w', exec (send_each uuid_String execute c a base subject rs) w = (w', ()) ∧ sent now v [] rs w w'.
Proof.
  revert w. induction rs as [|r rs IH]; intros w; cbn [send_each].
  - eexists. split; [done|]. by apply sent_nil.
  - destruct (Render _ _) as [[html text]|e].
    + destruct (exec_Send now v r subject html text w) as (w1 & x & Hx & H1).
      rewrite (alert_exec_bind _ _ _ _ _ Hx). destruct (IH w1) as (w2 & -> & H2).
      exists w2. split; [done|]. apply (sent_trans _ _ [] [] [r] rs _ _ _ H1 H2).
    + destruct (IH w) as (w2 & -> & H2). exists w2. split; [done|].
      eapply sent_to_mono; [|exact H2]. set_solver.
Qed.

Lemma exec_sendOne a port now success w :
  faults (adb (w_db w)) = [] →
  ∃ w', exec (sendOne uuid_String execute logo c a port now success) w = (w', ()) ∧
    sent now (default fzero (pd_CurrentValue port)) [a_ID a] (a_Recipients a) w w'.
Proof.
  intros Hf. unfold sendOne. set (v := default fzero _).
  rewrite exec_do. cbn [answer]. destruct (buildPayload _ _ _ _ _) as [s p]. cbn [fst snd].
  set (w0 := w <| w_script := s |>). set (base := if _ && _ then _ else _).
  destruct (exec_send_each now v a base (subject_of success (pd_Name port)) (a_Recipients a) w0) as (w1 & Hx & H1).
  rewrite (alert_exec_bind _ _ _ _ _ Hx).
  apply (sent_trans _ _ [] [] [] _ w) in H1; [|by apply sent_nil]. cbn [app] in H1.
  assert (faults (adb (w_db w1)) = []) as Hf1 by (rewrite (sent_adb _ _ _ _ _ _ H1); done).
  rewrite exec_do. cbn [answer]. unfold on_db, MarkSent. rewrite (stmt_fault_free _ _ Hf1). cbn [exec_prog fst snd].
  eexists. split; [done|].
  change (sent now v ([] ++ [a_ID a]) (a_Recipients a) w
    (w1 <| w_db := (update_alert (a_ID a) (λ t a, marked now v t a) (w_db w1)).1 |>)).
  rewrite <-(app_nil_r (a_Recipients a)). eapply sent_trans; [exact H1|].
  clear. unfold update_alert. destruct (alerts (w_db w1) !! a_ID a) as [b|] eqn:Hb; split; cbn; try done.
  - intros i. case_bool_decide as Hi.
    + apply list_elem_of_singleton in Hi as ->. by rewrite lookup_insert_eq, Hb.
    + rewrite lookup_insert_ne by set_solver. by destruct (alerts (w_db w1) !! i).
  - exists []. rewrite app_nil_r. split; [done|]. by intros ? ?%elem_of_nil.
  - intros i. case_bool_decide as Hi; [|by destruct (alerts (w_db w1) !! i)].
    apply list_elem_of_singleton in Hi as ->. by rewrite Hb.
  - exists []. rewrite app_nil_r. split; [done|]. by intros ? ?%elem_of_nil.
Qed.

Lemma exec_send_due l port now success w :
  faults (adb (w_db w)) = [] →
  let due := filter (λ a, isDue a (pd_StrategySchedule port) now = true) l in
  ∃ w', exec (send_due uuid_String execute logo c l port now success) w = (w', ()) ∧
    sent now (default fzero (pd_CurrentValue port)) (a_ID <$> due) (due ≫= a_Recipients) w w'.
Proof.
  revert w. induction l as [|a l IH]; intros w Hf; cbn [send_due].
  - eexists. split; [done|]. by apply sent_nil.
  - rewrite filter_cons. destruct (isDue a _ now) eqn:Hd; [rewrite decide_True by done|rewrite decide_False by done].
    + destruct (exec_sendOne a port now success w Hf) as (w1 & Hx & H1). rewrite (alert_exec_bind _ _ _ _ _ Hx).
      destruct (IH w1) as (w2 & -> & H2); [by rewrite (sent_adb _ _ _ _ _ _ H1)|].
      exists w2. split; [done|]. exact (sent_trans _ _ [a_ID a] _ _ _ _ _ _ H1 H2).
    + apply IH, Hf.
Qed.

Lemma elem_of_alerts_of pid d a :
  a ∈ alerts_of pid d ↔ a_PortfolioID a = pid ∧ ∃ i, alerts d !! i = Some a.
Proof.
  unfold alerts_of. rewrite elem_of_sort_by, list_elem_of_filter, list_elem_of_fmap. split.
  - intros (? & [i b] & -> & ?%elem_of_range_map). eauto.
  - intros (? & i & Hi). split; [done|]. exists (i, a). by rewrite elem_of_range_map.
Qed.

Lemma world_eta w : w <| w_db := w_db w |> = w.
Proof. by destruct w. Qed.

(** A notification over a database without faults marks and mails the due alerts. *)
Lemma exec_notify w pid p success :
  faults (adb (w_db w)) = [] → Store.portfolios (adb (w_db w)) !! pid = Some p →
  let port := portfolio_data unmarshal_schedule p in
  let due := filter (λ a, isDue a (pd_StrategySchedule port) (w_clock w) = true) (alerts_of pid (w_db w)) in
  ∃ w', exec (NotifyRunComplete uuid_String execute logo c pid success) w = (w', None) ∧
    sent (w_clock w) (default fzero (pd_CurrentValue port)) (a_ID <$> due) (due ≫= a_Recipients) w w'.
Proof.
  intros Hf Hp port due. unfold NotifyRunComplete. rewrite exec_do. cbn [answer].
  unfold on_db, Alert.List, wrapping. rewrite (stmt_fault_free _ _ Hf), world_eta. cbn [fst snd].
  destruct (alerts_of pid (w_db w)) as [|a l] eqn:Hl.
  { eexists. split; [done|]. by apply sent_nil. }
  rewrite exec_do. cbn [answer fst snd]. rewrite exec_do. cbn [answer]. unfold on_db, loadPortfolio.
  rewrite (stmt_fault_free _ _ Hf), Hp, world_eta. cbn [fst snd].
  destruct (exec_send_due (a :: l) port (w_clock w) success w Hf) as (w' & Hx & Hs).
  rewrite (alert_exec_bind _ _ _ _ _ Hx). exists w'. split; [done|exact Hs].
Qed.

(** C10: a due alert goes out, and goes out once a day.  When a run of a portfolio
    completes and the database answers, exactly the alerts of that portfolio that
    are due at that moment are marked sent - every other row stays as it was -
    and mail is posted only to recipients of those alerts, one at a time.  An
    alert that was marked is then not due again, under any schedule, at any
    instant of the same Eastern day (or earlier), so no second notification that
    day repeats it. *)
Theorem due_alerts_go_out_once (w : world) (pid : uuid) (p : Portfolio) (success : bool) :
  faults (adb (w_db w)) = [] → Store.portfolios (adb (w_db w)) !! pid = Some p →
  (∀ i a, alerts (w_db w) !! i = Some a → a_ID a = i) →
  let port := portfolio_data unmarshal_schedule p in
  let due a := bool_decide (a_PortfolioID a = pid) && isDue a (pd_StrategySchedule port) (w_clock w) in
  let w' := (exec (NotifyRunComplete uuid_String execute logo c pid success) w).1 in
  (∀ i, alerts (w_db w') !! i =
     (λ a, if due a then marked (w_clock w) (default fzero (CurrentValue p)) (Store.now (adb (w_db w))) a else a)
       <$> alerts (w_db w) !! i) ∧
  (∃ ms, w_outbox w' = w_outbox w ++ ms ∧ ∀ m, m ∈ ms →
     ∃ i a r, alerts (w_db w) !! i = Some a ∧ due a = true ∧ r ∈ a_Recipients a ∧ m_to m = [r]) ∧
  (∀ i a a', alerts (w_db w) !! i = Some a → due a = true → alerts (w_db w') !! i = Some a' →
     ∀ spec later, et_day later ≤ et_day (w_clock w) → isDue a' spec later = false).
Proof.
  intros Hf Hp Hid port due w'. destruct (exec_notify w pid p success Hf Hp) as (w1 & Hx & [_ _ Hrows Hmail]).
  subst w'. rewrite Hx. cbn [fst]. set (dues := filter _ _) in *.
  assert (∀ a, a ∈ dues ↔ due a = true ∧ ∃ i, alerts (w_db w) !! i = Some a) as Hdue.
  { intros a. unfold dues, due. rewrite list_elem_of_filter, elem_of_alerts_of, andb_true_iff, bool_decide_eq_true.
    naive_solver. }
  assert (∀ i a, alerts (w_db w) !! i = Some a → bool_decide (i ∈ a_ID <$> dues) = due a) as Hin.
  { intros i a Hi. apply eq_true_iff_eq. rewrite bool_decide_eq_true, list_elem_of_fmap. split.
    - intros (b & -> & [Hb [j Hj]]%Hdue). pose proof (Hid _ _ Hj) as <-. congruence.
    - intros Ha. exists a. split; [by rewrite (Hid _ _ Hi)|]. apply Hdue. eauto. }
  assert (∀ i, alerts (w_db w1) !! i =
    (λ a, if due a then marked (w_clock w) (default fzero (CurrentValue p)) (Store.now (adb (w_db w))) a else a)
       <$> alerts (w_db w) !! i) as Hall.
  { intros i. rewrite Hrows. destruct (alerts (w_db w) !! i) as [a|] eqn:Hi; cbn; [|done].
    rewrite (Hin _ _ Hi). by destruct (due a). }
  split_and!; [done| |].
  - destruct Hmail as (ms & Ho & Hms). exists ms. split; [done|]. intros m Hm.
    destruct (Hms m Hm) as (r & (a & Hr & [Ha [i Hi]]%Hdue)%list_elem_of_bind & Hto). eauto 10.
  - intros i a a' Hi Ha Hi' spec later Hlater. rewrite Hall, Hi in Hi'. cbn in Hi'. rewrite Ha in Hi'.
    injection Hi' as <-. unfold isDue. cbn. rewrite et_day_micros. apply andb_false_iff. right. lia.
Qed.
End notify.

(** ** Rows *)
Section rows.
Context `{HM : MapRange}.

(** What the schema and the generators of ids ensure. *)
Record alerts_inv (d : alertdb) : Prop := {
  inv_id : ∀ i a, alerts d !! i = Some a → a_ID a = i;
  inv_portfolio : ∀ i a, alerts d !! i = Some a → is_Some (Store.portfolios (adb d) !! a_PortfolioID a);
  inv_next : ∀ i, is_Some (alerts d !! i) → (i < next_alert d)%N;
  inv_ports : ∀ i p, Store.portfolios (adb d) !! i = Some p → ID p = i ∧ i ≠ uuid_Nil;
  inv_frequency : ∀ i a, alerts d !! i = Some a → validFrequency (a_Frequency a) = true;
}.

(** A step that leaves the portfolios and the rest of their database, and keeps
    the schema. *)
Definition steady (d d' : alertdb) : Prop :=
  Store.portfolios (adb d') = Store.portfolios (adb d) ∧ rest_of (adb d') = rest_of (adb d) ∧
  (alerts_inv d → alerts_inv d').

(** The owner of an alert's portfolio. *)
Definition owned_by (sub : string) (d : alertdb) (a : Alert) : Prop :=
  ∃ p, Store.portfolios (adb d) !! a_PortfolioID a = Some p ∧ OwnerSub p = sub.

(** Only rows that are, and stay, the subject's differ. *)
Definition own_rows_only (sub : option string) (d d' : alertdb) : Prop :=
  steady d d' ∧
  ∀ i, alerts d' !! i = alerts d !! i ∨
    ∃ s, sub = Some s ∧ s ≠ "" ∧ (∀ a, alerts d !! i = Some a → owned_by s d a) ∧
                                  (∀ a, alerts d' !! i = Some a → owned_by s d a).

Lemma alerts_inv_tables d d' : tables_of d' = tables_of d → alerts_inv d → alerts_inv d'.
Proof. intros [= Hp _ _ _ Ha Hn] [H1 H2 H3 H4 H5]. split; rewrite ?Ha, ?Hp, ?Hn; done. Qed.
Lemma steady_refl d d' : tables_of d' = tables_of d → steady d d'.
Proof.
  intros Ht. pose proof Ht as [= Hp Hnow Hr Hu _ _]. split_and!; [done| |by apply alerts_inv_tables].
  unfold rest_of. congruence.
Qed.
Lemma steady_trans d1 d2 d3 : steady d1 d2 → steady d2 d3 → steady d1 d3.
Proof. intros [Hp [Hr Hi]] [Hp' [Hr' Hi']]. split_and!; [congruence..|auto]. Qed.

Lemma own_rows_refl sub d d' : tables_of d' = tables_of d → own_rows_only sub d d'.
Proof. intros Ht. split; [by apply steady_refl|]. injection Ht as Hp _ _ _ Ha _. intros i. left. by rewrite Ha. Qed.

Lemma own_rows_tables sub d d1 d' :
  tables_of d1 = tables_of d → own_rows_only sub d1 d' → own_rows_only sub d d'.
Proof.
  intros Ht [Hs Hrows]. split; [by eapply steady_trans; [apply steady_refl|]|]. injection Ht as Hp _ _ _ Ha _.
  intros i. rewrite <-Ha. destruct (Hrows i) as [|(s & ? & ? & H1 & H2)]; [by left|]. right. exists s.
  unfold owned_by in *. rewrite <-Hp. done.
Qed.

Lemma on_db_inv {A} (f : alertdb → alertdb * A) w w' r :
  on_db f w = (w', r) → f (w_db w) = (w_db w', r).
Proof. unfold on_db. destruct (f (w_db w)) as [d a]. by intros [= <- <-]. Qed.

Lemma wrapping_inv {A} pre (m : alertdb → alertdb * result A) d d' r :
  wrapping pre m d = (d', r) → ∃ r0, m d = (d', r0) ∧ (∀ a, r = Ok a ↔ r0 = Ok a).
Proof.
  unfold wrapping. destruct (m d) as [d1 r1]. intros [= <- <-]. exists r1. split; [done|].
  destruct r1; naive_solver.
Qed.

(** Reading statements. *)
Lemma Alert_Get_spec id d d' r :
  Alert.Get id d = (d', r) → tables_of d' = tables_of d ∧ ∀ a, r = Ok a → alerts d !! id = Some a.
Proof.
  intros (r0 & Hs & Hr)%wrapping_inv. apply stmt_spec in Hs as (d0 & Ht & Hq).
  destruct r0 as [a|e]; [|subst; split; [done|]; intros a Ha%Hr; done].
  destruct (alerts d0 !! id) as [b|] eqn:Hb; [|done]. injection Hq as <- <-. split; [done|].
  intros a' Ha'%Hr. injection Ha' as <-. by injection Ht as _ _ _ _ <- _.
Qed.

Lemma portfolio_Get_spec sub slug w w' r :
  portfolio_Get sub slug w = (w', r) →
  tables_of (w_db w') = tables_of (w_db w) ∧
  ∀ p, r = Ok p → OwnerSub p = sub ∧ ∃ i, Store.portfolios (adb (w_db w)) !! i = Some p.
Proof.
  unfold portfolio_Get. intros Hg%on_db_inv. unfold Store.Get, sql in Hg.
  destruct (next_fault (adb (w_db w))) as [b f] eqn:Hf. pose proof (alert_fault_tables _ _ _ Hf) as Ht.
  destruct f as [e|]; [injection Hg as Hd <-; rewrite <-Hd; split; [done|]; by intros ? [=]|].
  destruct (filter _ (Store.rows b)) as [|p l] eqn:Hl; injection Hg as Hd <-; rewrite <-Hd; (split; [done|]).
  { by intros ? [=]. }
  intros ? [= <-]. assert (p ∈ p :: l) as Hin by set_solver. rewrite <-Hl in Hin.
  apply list_elem_of_filter in Hin as [[Ho _] (i & Hi)%elem_of_rows]. split; [done|]. exists i.
  by injection Ht as <- _.
Qed.

Lemma resolve_spec rq w w' pid st :
  resolvePortfolio rq w = (w', (pid, st)) → alerts_inv (w_db w) →
  tables_of (w_db w') = tables_of (w_db w) ∧
  (pid = uuid_Nil ∨ ∃ sub p, q_sub rq = Some sub ∧ sub ≠ "" ∧
     Store.portfolios (adb (w_db w)) !! pid = Some p ∧ OwnerSub p = sub).
Proof.
  unfold resolvePortfolio. intros Hr Hinv. destruct (q_sub rq) as [sub|]; [|injection Hr as <- <- _; auto].
  destruct sub as [|ch sub]; [injection Hr as <- <- _; auto|].
  destruct (portfolio_Get _ _ w) as [w1 r] eqn:Hg. apply portfolio_Get_spec in Hg as [Ht Hp].
  destruct r as [p|e]; [|by injection Hr as <- <- _; auto]. injection Hr as <- <- _. split; [done|].
  destruct (Hp p eq_refl) as (Ho & i & Hi). right. exists (String ch sub), p. split_and!; [done|done| |done].
  by rewrite (proj1 (inv_ports _ Hinv _ _ Hi)).
Qed.

(** The statements that write. *)
Lemma Create_spec pid f rs d d' r :
  Alert.Create pid f rs d = (d', r) → alerts_inv d →
  steady d d' ∧ ∀ i,
  (alerts d' !! i = alerts d !! i ∨
   (alerts d !! i = None ∧ is_Some (Store.portfolios (adb d) !! pid) ∧
    ∀ a, alerts d' !! i = Some a → a_PortfolioID a = pid)).
Proof.
  intros (r0 & Hs & _)%wrapping_inv Hinv. apply stmt_spec in Hs as (d0 & Ht & Hq).
  pose proof Ht as [= Hp _ _ _ Ha Hn]. destruct r0 as [a|e].
  2:{ subst. split; [by apply steady_refl|]. intros i. rewrite Ha. auto. }
  apply with_text_Ok in Hq. unfold insert_alert in Hq. destruct (validFrequency f) eqn:Hvf; [cbn [negb] in Hq|done].
  destruct (Store.portfolios (adb d0) !! pid) eqn:Hpid; [|done]. injection Hq as <- <-. split.
  - eapply steady_trans; [by apply steady_refl|]. split_and!; [done..|]. intros [H1 H2 H3 H4 H5]. split; cbn.
    + intros i b [[<- <-]|[_ Hb]]%lookup_insert_Some; eauto.
    + intros i b [[<- <-]|[_ Hb]]%lookup_insert_Some; cbn; eauto.
    + intros i [<-|Hi]%lookup_insert_is_Some'; [lia|]. apply H3 in Hi. lia.
    + done.
    + intros i b [[<- <-]|[_ Hb]]%lookup_insert_Some; eauto.
  - intros i. cbn. rewrite Hn, Ha. destruct (decide (i = next_alert d)) as [->|Hne].
    + right. split_and!; [|by rewrite <-Hp, Hpid|].
      * destruct (alerts d !! next_alert d) eqn:E; [|done]. pose proof (inv_next _ Hinv _ (mk_is_Some _ _ E)). lia.
      * intros a. rewrite lookup_insert_eq. by intros [= <-].
    + left. by rewrite lookup_insert_ne.
Qed.

(** A change confined to the row of one alert that keeps its portfolio. *)
Definition one_row (id : uuid) (d d' : alertdb) : Prop :=
  steady d d' ∧
  ∀ i, alerts d' !! i = alerts d !! i ∨
    (i = id ∧ ∀ a', alerts d' !! i = Some a' → ∃ a, alerts d !! i = Some a ∧ a_PortfolioID a' = a_PortfolioID a).

Lemma one_row_refl id d d' : tables_of d' = tables_of d → one_row id d d'.
Proof. intros Ht. split; [by apply steady_refl|]. injection Ht as Hp _ _ _ Ha _. intros i. left. by rewrite Ha. Qed.

Lemma one_row_tables id d d1 d' : tables_of d1 = tables_of d → one_row id d1 d' → one_row id d d'.
Proof.
  intros Ht [Hs Hrows]. split; [by eapply steady_trans; [apply steady_refl|]|]. injection Ht as _ _ _ _ Ha _.
  by rewrite <-Ha.
Qed.
Lemma one_row_trans id d1 d2 d3 :
  one_row id d1 d2 → one_row id d2 d3 → one_row id d1 d3.
Proof.
  intros [Hs1 H1] [Hs2 H2]. split; [by eapply steady_trans|]. intros i.
  destruct (H1 i) as [E1|[-> K1]].
  - rewrite <-E1. apply H2.
  - right. split; [done|]. intros a' Ha'. destruct (H2 id) as [E2|[_ K2]].
    + rewrite E2 in Ha'. eauto.
    + destruct (K2 _ Ha') as (b & Hb & ->). eauto.
Qed.

Lemma update_alert_spec id f d d' o :
  update_alert id f d = (d', o) →
  (∀ t a, a_PortfolioID (f t a) = a_PortfolioID a ∧ a_ID (f t a) = a_ID a ∧
     (validFrequency (a_Frequency a) = true → validFrequency (a_Frequency (f t a)) = true)) →
  one_row id d d'.
Proof.
  unfold update_alert. intros Hu Hf. destruct (alerts d !! id) as [a|] eqn:Ha; injection Hu as <- _.
  2: by apply one_row_refl.
  split.
  - split_and!; [done..|]. intros [H1 H2 H3 H4 H5]. split; cbn.
    + intros i b [[<- <-]|[_ Hb]]%lookup_insert_Some; [|eauto]. rewrite (proj1 (proj2 (Hf _ _))). eauto.
    + intros i b [[<- <-]|[_ Hb]]%lookup_insert_Some; [|eauto]. rewrite (proj1 (Hf _ _)). eauto.
    + intros i [<-|Hi]%lookup_insert_is_Some'; eauto.
    + done.
    + intros i b [[<- <-]|[_ Hb]]%lookup_insert_Some; [|eauto]. apply Hf. eauto.
  - intros i. cbn. destruct (decide (i = id)) as [->|]; [|left; by rewrite lookup_insert_ne].
    right. rewrite lookup_insert_eq, Ha. split; [done|]. intros b' [= <-]. exists a. split; [done|]. apply Hf.
Qed.
Lemma drop_row id d : one_row id d (d <| alerts := delete id (alerts d) |>).
Proof.
  split.
  - split_and!; [done..|]. intros [H1 H2 H3 H4 H5]. split; cbn; [.. |done|].
    + intros i b [_ Hb]%lookup_delete_Some. eauto.
    + intros i b [_ Hb]%lookup_delete_Some. eauto.
    + intros i [b [_ Hb]%lookup_delete_Some]. eauto.
    + intros i b [_ Hb]%lookup_delete_Some. eauto.
  - intros i. cbn. destruct (decide (i = id)) as [->|]; [|left; by rewrite lookup_delete_ne].
    right. split; [done|]. intros a'. by rewrite lookup_delete_eq.
Qed.

Lemma Update_spec id f rs d d' r : Alert.Update id f rs d = (d', r) → one_row id d d'.
Proof.
  intros (r0 & Hs & _)%wrapping_inv. apply stmt_spec in Hs as (d0 & Ht & Hq).
  destruct r0 as [a|e]; [|subst; by apply one_row_refl]. apply (one_row_tables _ _ _ _ Ht).
  apply with_text_Ok in Hq. destruct (update_alert _ _ d0) as [d1 [b|]] eqn:Hu; [|done]. destruct (validFrequency f) eqn:Hvf; [|done].
  injection Hq as -> _. by apply update_alert_spec in Hu.
Qed.

Lemma Delete_spec id d d' r : Alert.Delete id d = (d', r) → one_row id d d'.
Proof.
  unfold Alert.Delete. destruct (wrapping _ _ d) as [d1 r1] eqn:Hw. intros [= <- _].
  apply wrapping_inv in Hw as (r0 & Hs & _). apply stmt_spec in Hs as (d0 & Ht & Hq).
  destruct r0 as [a|e]; [|subst; by apply one_row_refl]. apply (one_row_tables _ _ _ _ Ht).
  injection Hq as <- _. apply drop_row.
Qed.

Lemma RemoveRecipient_spec id rcpt d d' r : Alert.RemoveRecipient id rcpt d = (d', r) → one_row id d d'.
Proof.
  unfold RemoveRecipient. destruct (wrapping _ _ d) as [d1 r1] eqn:Hw. apply wrapping_inv in Hw as (r0 & Hs & Hr).
  apply stmt_spec in Hs as (d0 & Ht & Hq). destruct r0 as [o|e].
  2:{ subst. destruct r1 as [o|e1]; [by pose proof (proj1 (Hr o) eq_refl)|]. intros [= <- _]. by apply one_row_refl. }
  rewrite (proj2 (Hr o) eq_refl). apply with_text_Ok in Hq. injection Hq as Hu.
  apply update_alert_spec in Hu; [|done]. intros Hd. apply (one_row_tables _ _ _ _ Ht). revert Hd.
  destruct o as [a|]; [|by intros [= <- _]].
  intros Hs. apply stmt_spec in Hs as (d2 & Ht2 & Hq2). eapply one_row_trans; [exact Hu|].
  apply (one_row_tables _ _ _ _ Ht2). destruct r as [u|e]; [|subst; by apply one_row_refl].
  injection Hq2 as <-. unfold drop_if_empty. destruct (alerts d2 !! id); [|by apply one_row_refl].
  case_bool_decide; [apply drop_row|by apply one_row_refl].
Qed.

Lemma one_row_own sub id d d' a p :
  alerts_inv d → alerts d !! id = Some a → sub ≠ "" →
  Store.portfolios (adb d) !! a_PortfolioID a = Some p → OwnerSub p = sub →
  one_row id d d' → own_rows_only (Some sub) d d'.
Proof.
  intros Hinv Ha Hne Hp Ho [Hsteady Hrows]. split; [done|]. intros i.
  destruct (Hrows i) as [|[-> Hsame]]; [by left|]. right. exists sub. split_and!; [done|done| |].
  - intros b. rewrite Ha. intros [= <-]. by exists p.
  - intros b Hb. exists p. destruct (Hsame _ Hb) as (a' & Ha' & ->). rewrite Ha in Ha'. by injection Ha' as <-.
Qed.

End rows.

(** ** The endpoints *)
Section isolation.
Context `{HM : MapRange, HD : Driver}.
Context (decode_alert : string → result (string * list string)) (decode_recipient : string → result string).
Context (uuid_Parse : string → result uuid) (wall : instant → instant).
Context (uuid_String : uuid → string) (execute : bool → Payload → result string) (logo : string).
Context (c : Checker) (unmarshal_schedule : string → result string) (mailgun : mail → result Z).

(** The checker as the summarizer of the handler. *)
Definition checker_summary (pid : uuid) (recipient : string) : world → world * option goerror :=
  exec_prog (λ A (e : alert_call A), answer unmarshal_schedule mailgun e) (Checker.SendSummary execute logo c pid recipient).

Lemma own_alert_spec rq (k : uuid → Z → Alert → world → handled) w :
  alerts_inv (w_db w) →
  (∀ id st a w1, tables_of (w_db w1) = tables_of (w_db w) → alerts (w_db w) !! id = Some a →
     one_row id (w_db w1) (w_db (k id st a w1).1)) →
  own_rows_only (q_sub rq) (w_db w) (w_db (own_alert uuid_Parse rq k w).1).
Proof.
  intros Hinv Hk. unfold own_alert. destruct (resolvePortfolio rq w) as [w1 [pid st]] eqn:Hr.
  apply resolve_spec in Hr as [Ht1 Hpid]; [|done].
  destruct (uuid_Parse (q_alertId rq)) as [id|e]; [|by apply own_rows_refl].
  destruct (on_db (Alert.Get id) w1) as [w2 r] eqn:Hg. apply on_db_inv, Alert_Get_spec in Hg as [Ht2 Hget].
  rewrite Ht1 in Ht2. destruct r as [a|e]; [|by case_match; apply own_rows_refl].
  specialize (Hget a eq_refl). pose proof Ht1 as [= _ _ _ _ Ha1 _]. rewrite Ha1 in Hget.
  case_bool_decide as Hp; [by apply own_rows_refl|]. subst pid.
  destruct (inv_portfolio _ Hinv _ _ Hget) as [q Hq].
  destruct Hpid as [Hnil|(sub & p & -> & Hne & Hp & Ho)].
  { destruct (inv_ports _ Hinv _ _ Hq). congruence. }
  eapply own_rows_tables; [exact Ht2|]. pose proof Ht2 as [= Hp2 _ _ _ Ha2 _].
  eapply (one_row_own _ id _ _ a p); [by eapply alerts_inv_tables|by rewrite Ha2|done|by rewrite Hp2|done|].
  by apply Hk.
Qed.

Lemma summary_tables pid recipient w :
  tables_of (w_db (checker_summary pid recipient w).1) = tables_of (w_db w).
Proof.
  unfold checker_summary, Checker.SendSummary. case_bool_decide; [done|]. rewrite exec_do. cbn [answer].
  destruct (on_db _ w) as [w1 r] eqn:Hl. apply on_db_inv in Hl. unfold loadPortfolio in Hl.
  apply stmt_spec in Hl as (d0 & Ht & Hq). destruct r as [port|e]; [|cbn; by rewrite Hq].
  destruct (Store.portfolios (adb d0) !! pid); [|done]. injection Hq as Hd _. cbn [fst snd].
  rewrite exec_do. cbn [answer fst snd]. rewrite exec_do. cbn [answer].
  destruct (buildPayload _ _ _ _ _) as [s base]. cbn [fst snd].
  destruct (Render _ _) as [[html text]|e]; cbn; [|by rewrite <-Hd].
  unfold Send. case_bool_decide; cbn; by rewrite <-Hd.
Qed.

Definition summarizer_of (configured : bool) : option (uuid → string → world → world * option goerror) :=
  if configured then Some checker_summary else None.

(** Alerts are private to the portfolio's owner.  Whatever a request to the
    alert endpoints holds and whatever statements fail, the rows that differ
    afterwards are rows of portfolios the authenticated subject owns - before and
    after - and no portfolio changes; without a subject nothing changes at all.
    This holds although a handler goes on with the zero portfolio after its
    lookup failed, because no row refers to it. *)
Lemma alert_requests_touch_own_rows (configured : bool) (r : alert_route) (rq : alert_request) (w : world) :
  alerts_inv (w_db w) →
  own_rows_only (q_sub rq) (w_db w)
    (w_db (dispatch decode_alert decode_recipient uuid_Parse wall (summarizer_of configured) r rq w).1).
Proof.
  intros Hinv. destruct r; cbn [dispatch].
  - unfold AlertApi.Create. destruct (resolvePortfolio rq w) as [w1 [pid st]] eqn:Hr.
    apply resolve_spec in Hr as [Ht1 Hpid]; [|done].
    destruct (decode_alert _) as [[f rs]|e]; [|by apply own_rows_refl].
    destruct (validFrequency f); cbn [negb]; [|by apply own_rows_refl].
    case_bool_decide; [by apply own_rows_refl|]. destruct (on_db _ w1) as [w2 res] eqn:Hc.
    apply on_db_inv in Hc. pose proof (Create_spec _ _ _ _ _ _ Hc (alerts_inv_tables _ _ Ht1 Hinv)) as Hs.
    assert (own_rows_only (q_sub rq) (w_db w1) (w_db w2)) as Hown.
    { split; [apply Hs|]. intros i. destruct (proj2 Hs i) as [|(Hnone & [q Hq] & Hnew)]; [by left|].
      right. pose proof Ht1 as [= Hp1 _ _ _ _ _]. rewrite Hp1 in Hq.
      destruct Hpid as [->|(sub & p & -> & Hne & Hp & Ho)]; [by destruct (inv_ports _ Hinv _ _ Hq)|].
      exists sub. rewrite Hnone. split_and!; [done|done|done|]. intros a Ha. exists p.
      by rewrite (Hnew _ Ha), Hp1. }
    apply (own_rows_tables _ _ _ _ Ht1). destruct res; done.
  - unfold AlertApi.List. destruct (resolvePortfolio rq w) as [w1 [pid st]] eqn:Hr.
    apply resolve_spec in Hr as [Ht1 _]; [|done]. destruct (on_db _ w1) as [w2 res] eqn:Hl.
    apply on_db_inv, wrapping_inv in Hl as (r0 & Hs & _). apply stmt_spec in Hs as (d0 & Ht0 & Hq).
    apply own_rows_refl. assert (w_db w2 = d0) as Hd by (destruct r0; by simplify_eq/=).
    transitivity (tables_of (w_db w1)); [|done]. rewrite <-Ht0, <-Hd. by destruct res.
  - apply own_alert_spec; [done|]. intros id st a w1 Ht Ha.
    destruct (decode_alert _) as [[f rs]|e]; [|by apply one_row_refl]. destruct (_ && _); [by apply one_row_refl|]. cbv zeta.
    destruct (on_db (Alert.Update _ _ _) w1) as [w2 res] eqn:Hu. apply on_db_inv, Update_spec in Hu. by destruct res.
  - apply own_alert_spec; [done|]. intros id st a w1 Ht Ha.
    destruct (on_db _ w1) as [w2 res] eqn:Hu. apply on_db_inv, Delete_spec in Hu. by destruct res.
  - unfold AlertApi.SendSummary, summarizer_of. destruct configured; [|by apply own_rows_refl].
    destruct (resolvePortfolio rq w) as [w1 [pid st]] eqn:Hr. apply resolve_spec in Hr as [Ht1 _]; [|done].
    destruct (decode_recipient _) as [rcpt|e]; [|by apply own_rows_refl].
    case_bool_decide; [by apply own_rows_refl|]. pose proof (summary_tables pid rcpt w1) as Hs.
    destruct (checker_summary pid rcpt w1) as [w2 res]. cbn [fst] in Hs. apply own_rows_refl. rewrite <-Ht1, <-Hs.
    destruct res; [by case_match|done].
Qed.

(** An alert a reply shows is of a portfolio the subject owns. *)
Definition view_own (sub : option string) (d : alertdb) (v : alertView) : Prop :=
  ∃ s p, sub = Some s ∧ s ≠ "" ∧ Store.portfolios (adb d) !! av_PortfolioID v = Some p ∧ OwnerSub p = s.
Definition body_own (sub : option string) (d : alertdb) (b : alert_body) : Prop :=
  match b with AView v => view_own sub d v | AViews l => Forall (view_own sub d) l | _ => True end.

Lemma resolved_own rq w w' pid st a :
  resolvePortfolio rq w = (w', (pid, st)) → alerts_inv (w_db w) → a_PortfolioID a = pid →
  is_Some (Store.portfolios (adb (w_db w)) !! pid) → view_own (q_sub rq) (w_db w) (toView wall a).
Proof.
  intros Hr Hinv Hpid [q Hq]. apply resolve_spec in Hr as [_ Hown]; [|done].
  destruct Hown as [->|(sub & p & ? & ? & ? & ?)]; [by destruct (inv_ports _ Hinv _ _ Hq)|].
  exists sub, p. cbn. by rewrite Hpid.
Qed.

Lemma alert_replies_show_own_rows (configured : bool) (r : alert_route) (rq : alert_request) (w : world) :
  alerts_inv (w_db w) →
  body_own (q_sub rq) (w_db w)
    (as_body (dispatch decode_alert decode_recipient uuid_Parse wall (summarizer_of configured) r rq w).2).
Proof.
  intros Hinv. destruct r; cbn [dispatch].
  - unfold AlertApi.Create. destruct (resolvePortfolio rq w) as [w1 [pid st]] eqn:Hr.
    destruct (decode_alert _) as [[f rs]|e]; [|done]. destruct (validFrequency f) eqn:Hvf; [cbn [negb]|done].
    case_bool_decide; [done|]. destruct (on_db _ w1) as [w2 res] eqn:Hc. destruct res as [a|e]; [|done].
    apply on_db_inv in Hc. apply wrapping_inv in Hc as (r0 & Hs & Hok). rewrite (proj1 (Hok a) eq_refl) in Hs.
    apply stmt_spec in Hs as (d0 & Ht & Hq). apply (resolved_own rq w w1 pid st); [done|done|..].
    all: apply with_text_Ok in Hq; unfold insert_alert in Hq; rewrite Hvf in Hq; cbn [negb] in Hq;
      destruct (Store.portfolios (adb d0) !! pid) eqn:Hp; [|done].
    + by injection Hq as _ <-.
    + apply resolve_spec in Hr as [Ht1 _]; [|done]. injection Ht as Ht _. injection Ht1 as Ht1 _.
      rewrite <-Ht1, <-Ht, Hp. eauto.
  - unfold AlertApi.List. destruct (resolvePortfolio rq w) as [w1 [pid st]] eqn:Hr.
    destruct (on_db _ w1) as [w2 res] eqn:Hl. destruct res as [l|e]; [|done].
    apply on_db_inv, wrapping_inv in Hl as (r0 & Hs & Hok). rewrite (proj1 (Hok l) eq_refl) in Hs.
    apply stmt_spec in Hs as (d0 & Ht & [= _ <-]). cbn. apply Forall_fmap, Forall_forall. intros a Ha.
    apply elem_of_alerts_of in Ha as [Hpid [i Hi]]. apply resolve_spec in Hr as Hr'; [|done]. destruct Hr' as [Ht1 _].
    injection Ht as _ _ _ _ Ht _. injection Ht1 as _ _ _ _ Ht1 _. rewrite Ht, Ht1 in Hi.
    apply (resolved_own rq w w1 pid st); [done|done|done|]. rewrite <-Hpid. by eapply inv_portfolio.
  - unfold AlertApi.Update, own_alert. destruct (resolvePortfolio rq w) as [w1 [pid st]] eqn:Hr.
    destruct (uuid_Parse (q_alertId rq)) as [id|e]; [|done]. destruct (on_db (Alert.Get id) w1) as [w2 r] eqn:Hg.
    apply on_db_inv, Alert_Get_spec in Hg as [Ht2 Hget]. destruct r as [a|e]; [|by case_match].
    specialize (Hget a eq_refl). case_bool_decide as Hp; [done|].
    destruct (decode_alert _) as [[f rs]|e]; [|done]. destruct (_ && _); [done|]. cbv zeta.
    destruct (on_db (Alert.Update _ _ _) w2) as [w3 res] eqn:Hu. destruct res as [b|e]; [|done].
    apply on_db_inv in Hu. apply wrapping_inv in Hu as (r0 & Hs & Hok). rewrite (proj1 (Hok b) eq_refl) in Hs.
    apply stmt_spec in Hs as (d0 & Ht & Hq%with_text_Ok). unfold update_alert in Hq.
    apply resolve_spec in Hr as Hr'; [|done]. destruct Hr' as [Ht1 _].
    injection Ht as _ _ _ _ Ht _. injection Ht1 as _ _ _ _ Ht1 _. injection Ht2 as _ _ _ _ Ht2 _.
    rewrite Ht, Ht2, Hget in Hq. destruct (validFrequency _); [|done]. injection Hq as _ <-.
    rewrite Ht1 in Hget. apply (resolved_own rq w w1 pid st); [done|done|done|]. rewrite <-Hp. by eapply inv_portfolio.
  - unfold AlertApi.Delete, own_alert. by repeat case_match.
  - unfold AlertApi.SendSummary, summarizer_of. destruct configured; [|done]. by repeat case_match.
Qed.

(** The public endpoint changes at most the alert its token names. *)
Lemma unsubscribe_touches_named_alert secret (rq : alert_request) (w : world) :
  match VerifyUnsubscribeToken uuid_Parse secret (q_token rq) with
  | Ok (id, _) => secret ≠ "" ∧ one_row id (w_db w) (w_db (Unsubscribe uuid_Parse secret rq w).1)
  | Err _ => False
  end ∨ w_db (Unsubscribe uuid_Parse secret rq w).1 = w_db w.
Proof.
  unfold Unsubscribe. case_bool_decide as Hsec; [by right|].
  destruct (VerifyUnsubscribeToken _ _ _) as [[id rcpt]|e]; [|by right]. left. split; [done|].
  destruct (on_db (Alert.Get id) w) as [w1 r] eqn:Hg. apply on_db_inv, Alert_Get_spec in Hg as [Ht Hget].
  destruct r as [a|e]; [|by case_match; apply one_row_refl].
  destruct (on_db _ w1) as [w2 r2] eqn:Hr. apply on_db_inv, RemoveRecipient_spec in Hr.
  apply (one_row_tables _ _ _ _ Ht). destruct r2; [done|by case_match].
Qed.
End isolation.
