(* ===== verification/AlertDemo.v ===== *)
(** A portfolio of alice's with a daily alert: a notification, the same evening's
    second run, and requests of another user. *)
From S2P Require Import Prelude GoStrings GoTime Types Prog.
From S2P Require Import Store SnapDb Email Alert Checker AlertApi AlertApiLaws.

#[local] Existing Instance plain_driver.
#[local] Existing Instance canonical_range.

(** Every day is a market day; days change at midnight UTC. *)
#[local] Instance demo_calendar : Calendar.
Proof.
  refine {| calReady := true; et_day := day_of; IsMarketDay _ := true; schedule _ := None |}.
  intros t. unfold day_of, micros, nsPerDay. rewrite (Z.mul_comm 86400), <-!Z.div_div by lia.
  rewrite Z.mul_comm. change 1000000000 with (1000 * 1000000). rewrite <-!Z.div_div by lia.
  by rewrite (Z.mul_comm 1000 (t / 1000)), Z.div_mul by lia.
Defined.

Definition alices : Portfolio := zero_Portfolio <| ID := 1%N |> <| OwnerSub := "alice" |> <| Types.Slug := "adm" |>.
Definition daily : Alert :=
  {| a_ID := 7%N; a_PortfolioID := 1%N; a_Frequency := FrequencyDaily; a_Recipients := ["alice@example.com"];
     a_LastSentAt := None; a_LastSentValue := None; a_CreatedAt := 0; a_UpdatedAt := 0 |}.
Definition evening : instant := date_utc 2026 3 2 + 72000 * nsPerSecond.
Definition demo : world :=
  {| w_db := {| adb := {| portfolios := {[1%N := alices]}; runs := ∅; next_uuid := 2%N; now := evening; faults := [] |};
                alerts := {[7%N := daily]}; next_alert := 8%N |};
     w_clock := evening; w_files := λ _, Err (opaque_err "no such file"); w_script := []; w_outbox := [] |}.
Definition demo_checker : Checker.Checker :=
  {| emailConfig := {| Domain := "mg"; APIKey := "key"; FromAddress := "pv" |}; appBaseURL := ""; unsubscribeSecret := "" |}.

Notation run_demo := (exec_prog (λ A (e : alert_call A), answer (λ _, Ok "") (λ _, Ok 200) e)
  (NotifyRunComplete (λ _, "") (λ _ _, Ok "<html>") "" demo_checker 1%N true) demo).1.

Lemma demo_sent : alerts (w_db run_demo) !! 7%N =
  Some (marked evening fzero evening daily) ∧ (m_to <$> w_outbox run_demo) = [["alice@example.com"]].
Proof. vm_compute. done. Qed.

Lemma due_alerts_go_out_once_witness :
  isDue daily "" evening = true ∧
  (∀ a', alerts (w_db run_demo) !! 7%N = Some a' →
     isDue a' "" (evening + 3600 * nsPerSecond) = false) ∧
  isDue (marked evening fzero evening daily) "" (evening + 20 * 3600 * nsPerSecond) = true.
Proof.
  split_and!; [vm_compute; done| |vm_compute; done]. intros a' Ha'.
  apply (due_alerts_go_out_once (λ _, "") (λ _ _, Ok "<html>") "" demo_checker (λ _, Ok "") (λ _, Ok 200)
           demo 1%N alices true) with (i := 7%N) (a := daily).
  - done.
  - apply lookup_singleton_eq.
  - intros i a Ha. cbn in Ha. by apply lookup_singleton_Some in Ha as [<- <-].
  - apply lookup_singleton_eq.
  - vm_compute. done.
  - exact Ha'.
  - vm_compute. done.
Defined.

(** Bob asks for alice's alert to be deleted. *)
Definition bobs_request : alert_request :=
  {| q_sub := Some "bob"; q_slug := "adm"; q_alertId := "7"; q_token := ""; q_body := "" |}.

Lemma demo_inv : alerts_inv (w_db demo).
Proof.
  split; cbn.
  - intros i a Ha. by apply lookup_singleton_Some in Ha as [<- <-].
  - intros i a Ha. apply lookup_singleton_Some in Ha as [<- <-]. exists alices. apply lookup_singleton_eq.
  - intros i [a Ha]. apply lookup_singleton_Some in Ha as [<- _]. done.
  - intros i p Hp. by apply lookup_singleton_Some in Hp as [<- <-].
  - intros i a Ha. by apply lookup_singleton_Some in Ha as [<- <-].
Qed.

Lemma bobs_delete :
  own_rows_only (Some "bob") (w_db demo)
    (w_db (Delete (λ _, Ok 7%N) bobs_request demo).1) ∧
  as_status (Delete (λ _, Ok 7%N) bobs_request demo).2 = 404.
Proof.
  split; [|vm_compute; done].
  apply (alert_requests_touch_own_rows (λ _, Ok ("", [])) (λ _, Ok "") (λ _, Ok 7%N) (λ t, t)
           (λ _ _, Ok "") "" demo_checker (λ _, Ok "") (λ _, Ok 200) true RAlertDelete bobs_request demo).
  exact demo_inv.
Defined.

(** A request whose portfolio was not found is answered by what comes after: a
    listing keeps the 404 with an empty list, a creation fails on the foreign key. *)
Lemma not_found_goes_on :
  let rq := bobs_request in
  let l := List (λ t, t) rq demo in
  let cr := Create (λ _, Ok ("daily", ["bob@example.com"])) (λ t, t) rq demo in
  as_status l.2 = 404 ∧ as_body l.2 = AViews [] ∧
  as_status cr.2 = 500 ∧ alerts (w_db cr.1) = alerts (w_db demo).
Proof. vm_compute. done. Qed.

(** The alert is marked sent although Mailgun refused its only mail. *)
Lemma failed_mail_is_marked :
  a_LastSentAt <$> alerts (w_db (exec_prog (λ A (e : alert_call A), answer (λ _, Ok "") (λ _, Ok 500) e)
    (NotifyRunComplete (λ _, "") (λ _ _, Ok "<html>") "" demo_checker 1%N true) demo).1) !! 7%N = Some (Some evening).
Proof. vm_compute. done. Qed.
