(* ===== verification/Mailgun.v ===== *)
(** The request to Mailgun that carries a mail (src/alert/email/email.go), the parts
    of Go's [net/url] it is made with, and every recipient's own mail. *)
From S2P Require Import Prelude GoStrings GoTime Types GoFloat Prog Crypto.
From S2P Require Import SnapDb SnapReturns Email Template Mail Alert Checker.
From Stdlib Require Import Ascii.

(** ** Escaping: [url.QueryEscape], [url.PathEscape] and their inverses *)

Definition slash : ascii := byte 47.
Definition percent : ascii := byte 37.
Definition plus : ascii := byte 43.
Definition ampersand : ascii := byte 38.
Definition equals : ascii := byte 61.

Definition upperhex (n : nat) : ascii := byte (if n <? 10 then 48 + n else 55 + n)%nat.
Definition unhex (c : ascii) : option nat :=
  let n := code c in
  if ((48 <=? n) && (n <=? 57))%nat then Some (n - 48)%nat
  else if ((97 <=? n) && (n <=? 102))%nat then Some (n - 87)%nat
  else if ((65 <=? n) && (n <=? 70))%nat then Some (n - 55)%nat
  else None.

(** What is not escaped: letters, digits and [-_.~] anywhere, [$&+=:@] in a path segment. *)
Definition unreserved (c : ascii) : bool :=
  let n := code c in
  ((48 <=? n) && (n <=? 57) || (65 <=? n) && (n <=? 90) || (97 <=? n) && (n <=? 122)
   || (n =? 45) || (n =? 95) || (n =? 46) || (n =? 126))%nat.
Inductive encoding := encodeQueryComponent | encodePathSegment.
Definition kept (mode : encoding) (c : ascii) : bool :=
  unreserved c ||
  match mode with
  | encodeQueryComponent => false
  | encodePathSegment => bool_decide (c ∈ bytes_of "$&+=:@")
  end.
Definition escape_octet (mode : encoding) (c : ascii) : list ascii :=
  match mode with
  | encodeQueryComponent => if decide (c = byte 32) then [plus] else
      if kept mode c then [c] else [percent; upperhex (code c / 16); upperhex (code c mod 16)]
  | encodePathSegment => if kept mode c then [c] else [percent; upperhex (code c / 16); upperhex (code c mod 16)]
  end.
Definition escape (mode : encoding) (s : string) : string := of_bytes (concat (map (escape_octet mode) (bytes_of s))).
Definition QueryEscape : string → string := escape encodeQueryComponent.
Definition PathEscape : string → string := escape encodePathSegment.

(** [unescape]: a percent sign without two hex digits is an error. *)
Fixpoint unescape_bytes (mode : encoding) (l : list ascii) : option (list ascii) :=
  match l with
  | [] => Some []
  | c :: l =>
    if decide (c = percent) then
      match l with
      | a :: b :: l => hi ← unhex a; lo ← unhex b; r ← unescape_bytes mode l; Some (byte (hi * 16 + lo) :: r)
      | _ => None
      end
    else r ← unescape_bytes mode l;
         Some ((match mode with encodeQueryComponent => if decide (c = plus) then byte 32 else c
                              | encodePathSegment => c end) :: r)
  end.
Definition unescape (mode : encoding) (s : string) : option string := of_bytes <$> unescape_bytes mode (bytes_of s).

(** Holds for each of the 256 bytes. *)
Ltac each_byte c := destruct c as [[] [] [] [] [] [] [] []]; vm_compute.

Definition read_back (mode : encoding) (c : ascii) : bool :=
  match escape_octet mode c with
  | [a] => bool_decide (a ≠ percent) &&
      bool_decide ((match mode with encodeQueryComponent => if decide (a = plus) then byte 32 else a
                                  | encodePathSegment => a end) = c)
  | [p; a; b] => bool_decide (p = percent) &&
      bool_decide ((hi ← unhex a; lo ← unhex b; Some (byte (hi * 16 + lo))) = Some c)
  | _ => false
  end.
Lemma octet_read_back mode c : read_back mode c = true.
Proof. destruct mode; each_byte c; reflexivity. Qed.
Lemma unescape_octet mode c l : unescape_bytes mode (escape_octet mode c ++ l) = cons c <$> unescape_bytes mode l.
Proof.
  pose proof (octet_read_back mode c) as Hc. unfold read_back in Hc.
  destruct (escape_octet mode c) as [|p [|a [|b [|]]]]; try done; rewrite andb_true_iff, !bool_decide_eq_true in Hc;
    destruct Hc as [Hp Hc]; cbn [app unescape_bytes].
  - rewrite decide_False by done. rewrite Hc. by destruct (unescape_bytes mode l).
  - rewrite decide_True by done. destruct (unhex a) as [hi|]; [|done]. destruct (unhex b) as [lo|]; [|done].
    cbn in Hc |- *. injection Hc as ->. by destruct (unescape_bytes mode l).
Qed.
Lemma unescape_escape mode s : unescape mode (escape mode s) = Some s.
Proof.
  unfold unescape, escape. rewrite bytes_of_of.
  assert (unescape_bytes mode (concat (map (escape_octet mode) (bytes_of s))) = Some (bytes_of s)) as ->.
  { induction (bytes_of s) as [|c l IH]; [done|]. cbn [map concat]. by rewrite unescape_octet, IH. }
  cbn. by rewrite of_bytes_of.
Qed.

(** A byte that does not occur in a string. *)
Definition absent (c : ascii) (s : string) : Prop := c ∉ bytes_of s.
Lemma absent_escape mode c s :
  (∀ b, bool_decide (c ∈ escape_octet mode b) = false) → absent c (escape mode s).
Proof.
  intros Hc. unfold absent, escape. rewrite bytes_of_of, <-flat_map_concat_map, list_elem_of_In, in_flat_map.
  intros (b & _ & Hb). specialize (Hc b). by rewrite bool_decide_eq_false, list_elem_of_In in Hc.
Qed.
Lemma slash_escaped s : absent slash (PathEscape s).
Proof. apply absent_escape. intros b. each_byte b; reflexivity. Qed.
Lemma ampersand_escaped s : absent ampersand (QueryEscape s).
Proof. apply absent_escape. intros b. each_byte b; reflexivity. Qed.
Lemma equals_escaped s : absent equals (QueryEscape s).
Proof. apply absent_escape. intros b. each_byte b; reflexivity. Qed.

Lemma absent_app c s t : absent c (s +:+ t) ↔ absent c s ∧ absent c t.
Proof. unfold absent. rewrite bytes_of_app, elem_of_app. tauto. Qed.

(** [strings.Cut] at a byte. *)
Fixpoint cut_byte (c : ascii) (s : string) : string * string :=
  match s with
  | EmptyString => (EmptyString, EmptyString)
  | String a s => if decide (a = c) then (EmptyString, s) else let '(p, q) := cut_byte c s in (String a p, q)
  end.
Lemma cut_byte_app c s t : absent c s → cut_byte c (s +:+ String c t) = (s, t).
Proof.
  induction s as [|a s IH]; intros Hs; str_simpl; [by rewrite decide_True|].
  apply not_elem_of_cons in Hs as [Ha Hs]. rewrite decide_False by done. by rewrite IH.
Qed.
Lemma split_absent_app c s t : absent c s → split_byte (s +:+ String c t) c = s :: split_byte t c.
Proof.
  induction s as [|a s IH]; intros Hs; str_simpl; [by rewrite decide_True|].
  apply not_elem_of_cons in Hs as [Ha Hs]. rewrite decide_False by done. by rewrite IH.
Qed.
Lemma split_absent c s : absent c s → split_byte s c = [s].
Proof.
  induction s as [|a s IH]; intros Hs; cbn; [done|].
  apply not_elem_of_cons in Hs as [Ha Hs]. rewrite decide_False by done. by rewrite IH.
Qed.
Lemma split_join_absent c l :
  l ≠ [] → Forall (absent c) l → split_byte (join l (String c "")) c = l.
Proof.
  intros Hne Hl. induction Hl as [|s l Hs Hl IH]; [done|]. destruct l as [|t l]; [by apply split_absent|].
  change (join (s :: t :: l) (String c "")) with (s +:+ String c (join (t :: l) (String c ""))).
  rewrite split_absent_app by done. by rewrite IH.
Qed.

(** ** [url.Values] *)
Notation Values := (gmap string (list string)).
Definition Set_ (v : Values) (key value : string) : Values := <[key := [value]]> v.
Definition Add (v : Values) (key value : string) : Values := <[key := default [] (v !! key) ++ [value]]> v.

Definition pairs_of (v : Values) (key : string) : list (string * string) := pair key <$> default [] (v !! key).
Definition sorted_pairs (v : Values) : list (string * string) :=
  concat (map (pairs_of v) (sort_strings (elements (dom v)))).
Definition encode_pair (p : string * string) : string := QueryEscape p.1 +:+ String equals (QueryEscape p.2).
(** [Encode]: sorted by key. *)
Definition Encode (v : Values) : string := join (map encode_pair (sorted_pairs v)) (String ampersand "").

(** [url.ParseQuery] of a form without semicolons, the server's side. *)
Definition add_pair (v : Values) (s : string) : option Values :=
  if decide (s = "") then Some v
  else let '(k, x) := cut_byte equals s in
       k ← unescape encodeQueryComponent k; x ← unescape encodeQueryComponent x; Some (Add v k x).
Fixpoint add_pairs (v : Values) (l : list string) : option Values :=
  match l with [] => Some v | s :: l => v ← add_pair v s; add_pairs v l end.
Definition ParseQuery (s : string) : option Values :=
  if bool_decide (byte 59 ∈ bytes_of s) then None else add_pairs ∅ (split_byte s ampersand).

Example encode_form :
  Encode (Add (Add (Set_ ∅ "to" "a+b@x.org") "to" "c@x.org") "subject" "R&D: 50% = ½") =
  "subject=R%26D%3A+50%25+%3D+%C2%BD&to=a%2Bb%40x.org&to=c%40x.org".
Proof. vm_compute. done. Qed.
Example path_segment : PathEscape "mg/eu&a b" = "mg%2Feu&a%20b". Proof. vm_compute. done. Qed.

(** *** What is encoded is parsed *)
Lemma encode_pair_absent c p : absent c (QueryEscape p.1) → c ≠ equals → absent c (QueryEscape p.2) → absent c (encode_pair p).
Proof. intros H1 Hc H2. apply absent_app. split; [done|]. by apply not_elem_of_cons. Qed.
Lemma add_encoded v p : add_pair v (encode_pair p) = Some (Add v p.1 p.2).
Proof.
  unfold add_pair. rewrite decide_False.
  - unfold encode_pair. rewrite cut_byte_app by apply equals_escaped. unfold QueryEscape. by rewrite !unescape_escape.
  - unfold encode_pair. by destruct (QueryEscape p.1).
Qed.
Lemma add_encoded_pairs v l : add_pairs v (map encode_pair l) = Some (foldl (λ v p, Add v p.1 p.2) v l).
Proof. revert v. induction l as [|p l IH]; intros v; [done|]. cbn [map add_pairs]. rewrite add_encoded. apply IH. Qed.

Lemma absent_join c l sep : Forall (absent c) l → absent c sep → absent c (join l sep).
Proof.
  intros Hl Hs. induction Hl as [|s l H Hl IH]; [by intros ?%not_elem_of_nil|]. cbn [join].
  destruct l; [done|]. by rewrite !absent_app.
Qed.
Lemma semicolon_escaped s : absent (byte 59) (QueryEscape s).
Proof. apply absent_escape. intros b. each_byte b; reflexivity. Qed.

Lemma ParseQuery_pairs l :
  ParseQuery (join (map encode_pair l) (String ampersand "")) = Some (foldl (λ v p, Add v p.1 p.2) ∅ l).
Proof.
  unfold ParseQuery. rewrite bool_decide_eq_false_2.
  - destruct l as [|p l]; [done|]. rewrite split_join_absent; [apply add_encoded_pairs|done|].
    apply Forall_fmap, Forall_forall. intros q _. apply encode_pair_absent; [apply ampersand_escaped|done|apply ampersand_escaped].
  - apply absent_join; [|by intros [?|?%not_elem_of_nil]%elem_of_cons].
    apply Forall_fmap, Forall_forall. intros q _. apply encode_pair_absent; [apply semicolon_escaped|done|apply semicolon_escaped].
Qed.

(** The values of a key among pairs. *)
Definition values_at (k : string) (l : list (string * string)) : list string := (filter (λ p, p.1 = k) l).*2.
Lemma values_at_cons k p l : values_at k (p :: l) = (if decide (p.1 = k) then [p.2] else []) ++ values_at k l.
Proof. unfold values_at. rewrite filter_cons. by case_decide. Qed.
Lemma foldl_Add l v k :
  foldl (λ v p, Add v p.1 p.2) v l !! k =
  if decide (values_at k l = []) then v !! k else Some (default [] (v !! k) ++ values_at k l).
Proof.
  revert v. induction l as [|[k' x] l IH]; intros v; [done|]. cbn [foldl]. rewrite IH, values_at_cons.
  unfold Add. cbn [fst snd]. destruct (decide (k' = k)) as [->|Hk].
  - rewrite lookup_insert_eq. cbn. case_decide as H1; [rewrite H1|]; f_equal. by rewrite <-app_assoc.
  - by rewrite lookup_insert_ne.
Qed.
Lemma values_at_app k l l' : values_at k (l ++ l') = values_at k l ++ values_at k l'.
Proof. unfold values_at. by rewrite filter_app, fmap_app. Qed.
Lemma values_at_pairs k k' (l : list string) : values_at k (pair k' <$> l) = if decide (k' = k) then l else [].
Proof.
  induction l as [|x l IH]; [by case_decide|]. rewrite fmap_cons, values_at_cons, IH. cbn [fst snd]. by case_decide.
Qed.
Lemma values_at_concat v k keys :
  NoDup keys → values_at k (concat (map (pairs_of v) keys)) = if decide (k ∈ keys) then default [] (v !! k) else [].
Proof.
  induction 1 as [|k' keys Hk Hn IH]; [done|]. cbn [map concat]. rewrite values_at_app, IH. unfold pairs_of.
  rewrite values_at_pairs. destruct (decide (k' = k)) as [->|Hne].
  - rewrite (decide_False (P := k ∈ keys)) by done. rewrite app_nil_r. by rewrite decide_True by (by left).
  - apply decide_ext. rewrite elem_of_cons. naive_solver.
Qed.

(** A form parses back: every key with its values in order. *)
Lemma ParseQuery_Encode (v : Values) : (∀ k, v !! k ≠ Some []) → ParseQuery (Encode v) = Some v.
Proof.
  intros Hv. unfold Encode. rewrite ParseQuery_pairs. f_equal. apply map_eq. intros k.
  rewrite foldl_Add, lookup_empty. unfold sorted_pairs. rewrite values_at_concat.
  - specialize (Hv k). case_decide as Hd; destruct (decide (k ∈ _)) as [Hk|Hk] in Hd |- *;
      rewrite sort_strings_perm, elem_of_elements, elem_of_dom in Hk; destruct (v !! k) as [[]|] eqn:E; cbn in *; try done;
      by destruct Hk.
  - rewrite sort_strings_perm. apply NoDup_elements.
Qed.

(** ** [base64.StdEncoding]: the other two letters, and padding *)
Definition std_letter (c : ascii) : ascii :=
  if decide (c = byte 45) then plus else if decide (c = byte 95) then slash else c.
Definition url_letter (c : ascii) : ascii :=
  if decide (c = plus) then byte 45 else if decide (c = slash) then byte 95 else c.
Definition padding (n : nat) : string := of_bytes (repeat equals ((4 - n mod 4) mod 4)).
Definition EncodeToString (s : string) : string :=
  let raw := base64_encode s in
  of_bytes (map std_letter (bytes_of raw)) +:+ padding (String.length raw).
(** The server's decoder: line ends are skipped, the URL alphabet's two letters
    are errors, and the padding is what the letters call for. *)
Definition DecodeString (s : string) : option string :=
  let s := of_bytes (filter (λ c, c ≠ byte 10 ∧ c ≠ byte 13) (bytes_of s)) in
  let raw := (cut_byte equals s).1 in
  if bool_decide (Forall (λ c, c ≠ byte 45 ∧ c ≠ byte 95) (bytes_of raw)) &&
     bool_decide (s = raw +:+ padding (String.length raw))
  then base64_decode (of_bytes (map url_letter (bytes_of raw)))
  else None.

Example std_rfc4648 : map EncodeToString ["f"; "fo"; "foo"; "fooba"; "i?>"] = ["Zg=="; "Zm8="; "Zm9v"; "Zm9vYmE="; "aT8+"].
Proof. vm_compute. done. Qed.
Example std_strict : map DecodeString ["Zg=="; "Zg"; "Zg="; "Zg==Zg=="; "aT8-"; "Z"] = [Some "f"; None; None; None; None; None].
Proof. vm_compute. done. Qed.

(** The logo of every payload, from the bytes of the embedded file. *)
Definition logoDataURL (logoBytes : string) : string := "data:image/jpeg;base64," +:+ EncodeToString logoBytes.

Definition good_letter (c : ascii) : bool :=
  bool_decide (url_letter (std_letter c) = c) &&
  forallb (λ d, bool_decide (std_letter c ≠ d)) [equals; byte 45; byte 95; byte 10; byte 13].
Lemma letters n :
  url_letter (std_letter (enc6 n)) = enc6 n ∧ std_letter (enc6 n) ∉ [equals; byte 45; byte 95; byte 10; byte 13].
Proof.
  assert (forallb good_letter (byte 0 :: url_alphabet) = true) as Hall by (vm_compute; reflexivity).
  rewrite forallb_forall in Hall. specialize (Hall (enc6 n)). unfold good_letter in Hall.
  rewrite andb_true_iff, forallb_forall, bool_decide_eq_true in Hall.
  destruct Hall as [Hl Hd]; [|split; [done|]].
  - unfold enc6. destruct (nth_in_or_default (Z.to_nat n) url_alphabet (byte 0)) as [Hn|Hn]; [by right|by left].
  - intros Hin. apply list_elem_of_In, Hd, bool_decide_eq_true in Hin. done.
Qed.
Lemma cut_byte_padding c s n : absent c s → (cut_byte c (s +:+ of_bytes (repeat c n))).1 = s.
Proof.
  destruct n as [|n]; cbn; intros Hs; [|by rewrite cut_byte_app].
  rewrite string_app_nil_r. induction s as [|a s IH]; [done|]. apply not_elem_of_cons in Hs as [Ha Hs]. cbn.
  rewrite decide_False by done. apply IH in Hs. destruct (cut_byte c s). cbn in *. by rewrite Hs.
Qed.
(** The letters of an encoding: none is padding, of the other alphabet or a
    line end. *)
Lemma raw_letters s c :
  c ∈ map std_letter (bytes_of (base64_encode s)) → c ∉ [equals; byte 45; byte 95; byte 10; byte 13].
Proof.
  unfold base64_encode. rewrite bytes_of_of, encode_sextets, map_map, list_elem_of_In, in_map_iff.
  intros (n & <- & _). apply letters.
Qed.
Lemma filter_line_ends l :
  Forall (λ c, c ∉ [byte 10; byte 13]) l → filter (λ c, c ≠ byte 10 ∧ c ≠ byte 13) l = l.
Proof.
  induction 1 as [|c l Hc Hl IH]; [done|]. rewrite filter_cons_True; [by rewrite IH|].
  split; intros ->; apply Hc; set_solver.
Qed.
Lemma encoded_no_line_end s : Forall (λ c, c ∉ [byte 10; byte 13]) (bytes_of (EncodeToString s)).
Proof.
  unfold EncodeToString, padding. cbv zeta. rewrite bytes_of_app, !bytes_of_of. apply Forall_app. split.
  - apply Forall_forall. intros c Hc%raw_letters. set_solver.
  - apply Forall_forall. intros c Hc. apply list_elem_of_In, repeat_spec in Hc as ->.
    by apply (bool_decide_eq_true (equals ∉ [byte 10; byte 13])).
Qed.
Lemma EncodeToString_length s :
  EncodeToString s = of_bytes (map std_letter (bytes_of (base64_encode s))) +:+
    padding (String.length (of_bytes (map std_letter (bytes_of (base64_encode s))))).
Proof. unfold EncodeToString. cbv zeta. by rewrite <-(length_bytes_of (of_bytes _)), bytes_of_of, length_map, length_bytes_of. Qed.
Lemma DecodeString_EncodeToString s : DecodeString (EncodeToString s) = Some s.
Proof.
  unfold DecodeString. rewrite filter_line_ends, of_bytes_of by apply encoded_no_line_end.
  set (raw := of_bytes (map std_letter (bytes_of (base64_encode s)))).
  assert ((cut_byte equals (EncodeToString s)).1 = raw) as ->.
  { rewrite EncodeToString_length. apply cut_byte_padding. unfold absent, raw. rewrite bytes_of_of.
    intros Hin%raw_letters. set_solver. }
  cbv zeta. rewrite !bool_decide_true.
  - cbn [andb]. unfold raw. rewrite bytes_of_of, map_map, <-(base64_roundtrip s). f_equal.
    unfold base64_encode. rewrite bytes_of_of. f_equal. rewrite encode_sextets, map_map. apply map_ext. intros n. apply letters.
  - apply EncodeToString_length.
  - unfold raw. rewrite bytes_of_of. apply Forall_forall. intros c Hc%raw_letters. set_solver.
Qed.

(** ** The request *)
Record http_request := { rq_Method : string; rq_URL : string; rq_Header : list (string * string); rq_Body : string }.

Definition endpoint (cfg : email_Config) : string :=
  "https://api.mailgun.net/v3/" +:+ PathEscape (Domain cfg) +:+ "/messages".
Definition form (cfg : email_Config) (recipients : list string) (subject html text : string) : Values :=
  let f : Values := ∅ in
  let f := Set_ f "from" (FromAddress cfg) in
  let f := Set_ f "subject" subject in
  let f := Set_ f "html" html in
  let f := Set_ f "text" text in
  foldl (λ f r, Add f "to" r) f recipients.
(** What [Send] hands to the HTTP client. *)
Definition send_request (cfg : email_Config) (recipients : list string) (subject html text : string) : http_request :=
  {| rq_Method := "POST"; rq_URL := endpoint cfg;
     rq_Header := [("Content-Type", "application/x-www-form-urlencoded");
                   ("Authorization", "Basic " +:+ EncodeToString ("api:" +:+ APIKey cfg))];
     rq_Body := Encode (form cfg recipients subject html text) |}.

(** ** What the server on the other end reads: Mailgun's documented interface *)
Fixpoint header (name : string) (l : list (string * string)) : option string :=
  match l with [] => None | (n, v) :: l => if decide (n = name) then Some v else header name l end.
Definition one (f : Values) (key : string) : option string := match f !! key with Some [v] => Some v | _ => None end.
Definition receive (r : http_request) : option (email_Config * mail) :=
  if bool_decide (rq_Method r = "POST") && bool_decide (header "Content-Type" (rq_Header r) = Some "application/x-www-form-urlencoded")
  then
    path ← strip_prefix "https://api.mailgun.net/v3/" (rq_URL r);
    let '(segment, rest) := cut_byte slash path in
    if bool_decide (rest = "messages") then
      domain ← unescape encodePathSegment segment;
      authorization ← header "Authorization" (rq_Header r);
      encoded ← strip_prefix "Basic " authorization;
      credentials ← DecodeString encoded;
      let '(user, key) := cut_byte (byte 58) credentials in
      if bool_decide (user = "api") then
        f ← ParseQuery (rq_Body r);
        from ← one f "from"; subject ← one f "subject"; html ← one f "html"; text ← one f "text";
        Some ({| Domain := domain; APIKey := key; FromAddress := from |},
              {| m_to := default [] (f !! "to"); m_subject := subject; m_html := html; m_text := text |})
      else None
    else None
  else None.

Lemma add_all_lookup l (f : Values) k :
  foldl (λ f r, Add f "to" r) f l !! k =
  if decide (k = "to" ∧ l ≠ []) then Some (default [] (f !! "to") ++ l) else f !! k.
Proof.
  revert f. induction l as [|r l IH]; intros f; [by rewrite decide_False by naive_solver|]. cbn [foldl]. rewrite IH.
  unfold Add. destruct (decide (k = "to")) as [->|Hk].
  - rewrite lookup_insert_eq. cbn. rewrite (decide_True (P := _ ∧ r :: l ≠ [])) by done. case_decide as Hd.
    + by rewrite <-app_assoc.
    + destruct l; [done|]. by destruct Hd.
  - rewrite !decide_False by naive_solver. by rewrite lookup_insert_ne by congruence.
Qed.
Lemma form_lookup cfg recipients subject html text k :
  form cfg recipients subject html text !! k =
  if decide (k = "to") then match recipients with [] => None | l => Some l end
  else if decide (k = "from") then Some [FromAddress cfg] else if decide (k = "subject") then Some [subject]
  else if decide (k = "html") then Some [html] else if decide (k = "text") then Some [text] else None.
Proof.
  unfold form. rewrite add_all_lookup. unfold Set_. destruct (decide (k = "to")) as [->|Hk].
  - destruct recipients; [by rewrite decide_False by naive_solver|]. by rewrite decide_True by done.
  - rewrite decide_False by naive_solver. rewrite !lookup_insert, lookup_empty.
    repeat (case_decide; subst; simplify_eq; try congruence).
Qed.
Lemma form_parses cfg recipients subject html text :
  ParseQuery (Encode (form cfg recipients subject html text)) = Some (form cfg recipients subject html text).
Proof. apply ParseQuery_Encode. intros k. rewrite form_lookup. destruct recipients; by repeat destruct (decide _). Qed.

(** C13: the request carries the mail.  Whatever bytes the recipients, subject, body
    and configuration hold - a slash in the domain, an ampersand or an equals
    sign in a portfolio's name, a plus in an address, markup, any non-ASCII - the
    server that unescapes the path, decodes the credentials and parses the form
    reads exactly the domain, key and sender of the configuration and the mail
    [Send] was called with, its recipients in order. *)
Theorem request_carries_mail (cfg : email_Config) (recipients : list string) (subject html text : string) :
  receive (send_request cfg recipients subject html text) =
  Some (cfg, {| m_to := recipients; m_subject := subject; m_html := html; m_text := text |}).
Proof.
  unfold receive, send_request, endpoint. cbn [rq_Method rq_URL rq_Header rq_Body header].
  rewrite !bool_decide_eq_true_2 by done. cbn [andb]. rewrite strip_prefix_app. cbn [mbind option_bind].
  change (PathEscape (Domain cfg) +:+ "/messages") with (PathEscape (Domain cfg) +:+ String slash "messages").
  rewrite cut_byte_app by apply slash_escaped. rewrite bool_decide_eq_true_2 by done. unfold PathEscape.
  rewrite unescape_escape. cbn [mbind option_bind]. rewrite decide_False by done. rewrite decide_True by done.
  cbn [mbind option_bind]. rewrite strip_prefix_app. cbn [mbind option_bind]. rewrite DecodeString_EncodeToString.
  cbn [mbind option_bind]. change ("api:" +:+ APIKey cfg) with ("api" +:+ String (byte 58) (APIKey cfg)).
  rewrite cut_byte_app by (by intros ?%list_elem_of_In; vm_compute in H; intuition). rewrite bool_decide_eq_true_2 by done.
  rewrite form_parses. cbn [mbind option_bind]. unfold one. rewrite !form_lookup. cbn.
  destruct cfg, recipients; done.
Qed.

(** ** Every recipient's own mail

    The traces of a notification, with the mails rendered from the two templates
    and an API key configured. *)
Section recipients.
Context `{HD : Driver, HM : MapRange, HC : Calendar}.
Context (uuid_String : uuid → string) (logo : string) (c : Checker.Checker).
Context (configured : APIKey (emailConfig c) ≠ "").

(** The payload [sendOne] completes for each recipient. *)
Definition with_portfolio_link (base : Payload) (port : portfolioData) : Payload :=
  if negb (bool_decide (appBaseURL c = "")) && negb (bool_decide (pd_Slug port = ""))
  then base <| PortfolioURL := appBaseURL c +:+ "/portfolios/" +:+ pd_Slug port |> else base.

(** The event posts this recipient's mail: to it alone, its HTML the template
    executed on its own payload, every string of which it shows. *)
Definition mailed (a : Alert) (base : Payload) (subject recipient : string) (e : event alert_call) : Prop :=
  let p := personal uuid_String c a base recipient in
  ∃ html answer, Mail.execute (Success p) p = Ok html ∧ (∀ s, s ∈ shown p → occurs s html) ∧
    e = Event _ (MailgunPost [recipient] subject html (buildPlaintext p)) answer.

Lemma traces_do {A B} (e : alert_call A) (k : A → M B) tr b :
  traces (pbind k (do e)) tr b ↔ ∃ a tr', tr = Event A e a :: tr' ∧ traces (k a) tr' b.
Proof. apply traces_Call. Qed.

Lemma send_each_posts a base subject rs tr :
  traces (send_each uuid_String Mail.execute c a base subject rs) tr () →
  Forall2 (mailed a base subject) rs tr.
Proof.
  revert tr. induction rs as [|r rs IH]; intros tr; cbn [send_each]; [by intros [-> _]%traces_Ret|].
  destruct (Render_total (personal uuid_String c a base r)) as (html & Hr & Hs). rewrite Hr. unfold Render in Hr.
  destruct (Mail.execute _ _) as [h|] eqn:Hx; [|done]. injection Hr as ->.
  unfold Send. rewrite bool_decide_eq_false_2 by done.
  intros (x & tr1 & tr2 & -> & Hp & Hrest)%traces_pbind. apply traces_do in Hp as (ans & tr' & -> & [-> _]%traces_Ret).
  constructor; [|by apply IH]. exists html, ans. done.
Qed.

(** The calls for one due alert: the snapshot is read, every recipient is mailed in
    the order of the list, the alert is marked. *)
Definition served (port : portfolioData) (now : instant) (success : bool) (a : Alert) (tr : list (event alert_call)) : Prop :=
  ∃ base posts answer,
    tr = Event _ (ReadSnapshots (buildPayload logo port success)) base :: posts ++
         [Event _ (AlertMarkSent (a_ID a) now (default fzero (pd_CurrentValue port))) answer] ∧
    Forall2 (mailed a (with_portfolio_link base port) (subject_of success (pd_Name port))) (a_Recipients a) posts.

Lemma sendOne_serves a port now success tr :
  traces (sendOne uuid_String Mail.execute logo c a port now success) tr () → served port now success a tr.
Proof.
  unfold sendOne. intros (base & tr1 & -> & Ht)%traces_do.
  apply traces_pbind in Ht as ([] & posts & tr2 & -> & Hp & Hm).
  apply traces_do in Hm as (ans & tr3 & -> & [-> _]%traces_Ret). exists base, posts, ans. split; [done|].
  by apply send_each_posts.
Qed.

Lemma send_due_serves alerts port now success tr :
  traces (send_due uuid_String Mail.execute logo c alerts port now success) tr () →
  ∃ parts, tr = concat parts ∧
    Forall2 (served port now success) (filter (λ a, isDue a (pd_StrategySchedule port) now = true) alerts) parts.
Proof.
  revert tr. induction alerts as [|a alerts IH]; intros tr; cbn [send_due].
  - intros [-> _]%traces_Ret. by exists [].
  - rewrite filter_cons. destruct (isDue a _ now).
    + rewrite decide_True by done. intros ([] & tr1 & tr2 & -> & H1 & H2)%traces_pbind.
      apply IH in H2 as (parts & -> & Hp). exists (tr1 :: parts). split; [done|]. constructor; [|done].
      by apply sendOne_serves.
    + rewrite decide_False by done. apply IH.
Qed.

(** C11: every due alert is served, every recipient by its own mail.  Whatever the
    store, the snapshots and Mailgun answer - refusals and errors included - a
    notification that finds alerts and the portfolio goes, in order, through
    exactly the alerts that are due: it reads the snapshot, posts one mail per
    recipient in the order of the list, addressed to that recipient alone and
    rendered from its own payload with its own unsubscribe link, and then marks
    the alert; no recipient is skipped for an earlier one's failure and nothing
    else is called. *)
Theorem due_recipients_all_mailed (id : uuid) (success : bool) (tr : list (event alert_call)) (r : option goerror) :
  traces (NotifyRunComplete uuid_String Mail.execute logo c id success) tr r →
  (∃ answer, tr = [Event _ (AlertList id) answer] ∧ ∀ a l, answer ≠ Ok (a :: l)) ∨
  (∃ alerts now e, tr = [Event _ (AlertList id) (Ok alerts); Event _ AlertNow now; Event _ (LoadPortfolio id) (Err e)]
     ∧ r ≠ None) ∨
  ∃ alerts now port parts,
    tr = [Event _ (AlertList id) (Ok alerts); Event _ AlertNow now; Event _ (LoadPortfolio id) (Ok port)] ++ concat parts
    ∧ r = None
    ∧ Forall2 (served port now success) (filter (λ a, isDue a (pd_StrategySchedule port) now = true) alerts) parts.
Proof.
  unfold NotifyRunComplete. intros (res & tr1 & -> & Ht)%traces_do.
  destruct res as [[|a l]|e]; [left; apply traces_Ret in Ht as [-> _]; by exists (Ok [])| |
                               left; apply traces_Ret in Ht as [-> _]; by exists (Err e)].
  right. apply traces_do in Ht as (now & tr2 & -> & Ht). apply traces_do in Ht as (port & tr3 & -> & Ht).
  destruct port as [port|e].
  - right. apply traces_pbind in Ht as ([] & tr4 & tr5 & -> & Hd & [-> ->]%traces_Ret). rewrite app_nil_r.
    apply send_due_serves in Hd as (parts & -> & Hp). by exists (a :: l), now, port, parts.
  - left. apply traces_Ret in Ht as [-> ->]. by exists (a :: l), now, e.
Qed.
End recipients.
