(* ===== verification/MailDemo.v ===== *)
(** Mails of the demo portfolio: a notification to two recipients whose first mail
    Mailgun refuses, and what the templates do with markup, with a summary's trades
    and with a portfolio that is being recalculated. *)
From S2P Require Import Prelude GoStrings GoTime Types Prog.
From S2P Require Import Store SnapDb Holdings Email Template Mail Alert Checker Mailgun AlertDemo.

#[local] Existing Instance plain_driver.
#[local] Existing Instance canonical_range.
#[local] Existing Instance demo_calendar.

Definition two : Alert := daily <| a_Recipients := ["alice@example.com"; "bob@example.com"] |>.
Definition demo_two : world := demo <| w_db := w_db demo <| alerts := {[7%N := two]} |> |>.
(** Mailgun refuses alice's mails. *)
Definition refuses_alice (m : mail) : result Z :=
  Ok (if bool_decide (m_to m = ["alice@example.com"]) then 500 else 200).
Definition notify_two : M (option goerror) := NotifyRunComplete (λ _, "") Mail.execute "" demo_checker 1%N true.
Definition answers : ∀ A, alert_call A → world → world * A := λ A e, answer (λ _, Ok "") refuses_alice e.

Lemma both_mailed :
  (m_to <$> w_outbox (exec_prog answers notify_two demo_two).1) = [["alice@example.com"]; ["bob@example.com"]] ∧
  (a_LastSentAt <$> alerts (w_db (exec_prog answers notify_two demo_two).1) !! 7%N) = Some (Some evening).
Proof. vm_compute. done. Qed.

Lemma due_recipients_all_mailed_witness :
  ∃ tr, traces notify_two tr None ∧
  ((∃ answer, tr = [Event _ (AlertList 1%N) answer] ∧ ∀ a l, answer ≠ Ok (a :: l)) ∨
   (∃ alerts now e, tr = [Event _ (AlertList 1%N) (Ok alerts); Event _ AlertNow now; Event _ (LoadPortfolio 1%N) (Err e)]
      ∧ @None goerror ≠ None) ∨
   ∃ alerts now port parts,
     tr = [Event _ (AlertList 1%N) (Ok alerts); Event _ AlertNow now; Event _ (LoadPortfolio 1%N) (Ok port)] ++ concat parts
     ∧ @None goerror = None
     ∧ Forall2 (served (λ _, "") "" demo_checker port now true)
         (filter (λ a, isDue a (pd_StrategySchedule port) now = true) alerts) parts).
Proof.
  destruct (exec_prog_trace answers notify_two demo_two) as [tr Htr].
  assert ((exec_prog answers notify_two demo_two).2 = None) as Hr by (vm_compute; reflexivity). rewrite Hr in Htr.
  exists tr. split; [exact Htr|]. apply (due_recipients_all_mailed (λ _, "") "" demo_checker); [done|exact Htr].
Defined.

(** ** Markup *)
Definition markup : string := "<img src=x onerror=alert(1)>".
(** The error of a run - the end of what the strategy printed - is markup in the mail. *)
Lemma error_text_is_markup (p : Payload) :
  Success p = false → ErrorMessage p = markup → ∃ html, Render Mail.execute p = Ok (html, buildPlaintext p) ∧ occurs markup html.
Proof.
  intros Hs He. destruct (Render_total p) as (html & Hr & Hshown). exists html. split; [done|]. apply Hshown.
  unfold shown. rewrite Hs, He. unfold unless_empty. repeat case_bool_decide; cbn; set_solver.
Qed.

(** ** The summary *)
Definition traded : Payload := add_trade (empty_payload <| Success := true |>)
  {| lt_Date := "2026-03-03"; lt_Ticker := "SPY"; lt_Type := "buy"; lt_Quantity := fzero; lt_Price := fzero;
     lt_Amount := fzero |}.
(** [SendSummary] drops the trades but not their date. *)
Lemma summary_keeps_trades_date :
  TradesDate (traded <| Trades := [] |>) = "March 3, 2026" ∧
  match Mail.execute true (traded <| Trades := [] |>) with
  | Ok html => contains html "Execute on March 3, 2026" = true ∧ contains html "No trades required" = true
  | Err _ => False
  end.
Proof. vm_compute. done. Qed.

(** The summary of a portfolio being recalculated is an error mail without an error. *)
Lemma running_is_mailed_as_error :
  let w := demo <| w_db := w_db demo <| adb := adb (w_db demo) <| portfolios := {[1%N := alices <| Status := "running" |>]} |> |> |> in
  m_subject <$> w_outbox (exec_prog answers (SendSummary Mail.execute "" demo_checker 1%N "bob@example.com") w).1
    = ["Portfolio Error: "].
Proof. vm_compute. done. Qed.
