(* ===== verification/Rows.v ===== *)
(** The text of the SQL statements and the rows they read and write: column lists,
    the parameters of INSERT and UPDATE, the WHERE clauses, and [Scan]'s
    destinations, for the tables of portfolios, runs, strategies and alerts
    (src/portfolio/db.go, runs.go, src/strategy/db.go, src/alert/db.go).  The typed
    statements of [Store], [Registry] and [Alert] are what these texts do.

    JSONB text is what the column reads back (the server may re-space and reorder
    what was written; the code only ever parses it), and a DATE is the midnight the
    code writes.  The texts without a row reading of their own are the correlated
    query of [ClaimDue] and the window of [PruneRuns]. *)
From S2P Require Import Prelude GoStrings GoTime Types Alert.
From S2P Require Store StoreLaws Registry.
From Stdlib Require Import Ascii.

(** ** Values and rows *)
Inductive sqlvalue :=
  | SqlNull
  | SqlText (s : string) | SqlTexts (l : list string) | SqlUuid (u : uuid) | SqlInt (z : Z)
  | SqlFloat (f : float64) | SqlTime (t : instant) | SqlBool (b : bool) | SqlJson (s : string).

(** A row: its columns by name, in the order of the table. *)
Notation row := (list (string * sqlvalue)).
Fixpoint column (r : row) (name : string) : option sqlvalue :=
  match r with
  | [] => None
  | (n, v) :: r => if decide (n = name) then Some v else column r name
  end.
Fixpoint assign (r : row) (name : string) (v : sqlvalue) : option row :=
  match r with
  | [] => None
  | (n, w) :: r => if decide (n = name) then Some ((n, v) :: r) else cons (n, w) <$> assign r name v
  end.

(** ** The text of a statement *)

Definition comma : ascii := byte 44.
Definition open_paren : ascii := byte 40.
Definition close_paren : ascii := byte 41.
(** The items of a comma-separated list; a comma between parentheses separates nothing. *)
Fixpoint items_from (depth : nat) (s : string) : list string :=
  match s with
  | EmptyString => [EmptyString]
  | String a s =>
    if decide (a = comma ∧ depth = 0%nat) then EmptyString :: items_from depth s
    else
      let depth := if decide (a = open_paren) then S depth else if decide (a = close_paren) then pred depth else depth in
      match items_from depth s with p :: ps => String a p :: ps | [] => [String a EmptyString] end
  end.
Definition items (s : string) : list string := map trim_space (items_from 0 s).

(** What an expression may refer to: the parameters of the call, the clock, the next
    [uuidv7()], the row an INSERT proposed, the row an UPDATE changes. *)
Record env := { e_args : list sqlvalue; e_now : instant; e_uuid : uuid; e_excluded : row; e_old : row }.

Definition between (pre post s : string) : option string := r ← strip_prefix pre s; strip_suffix post r.
Definition atom (e : env) (s : string) : option sqlvalue :=
  match strip_prefix "$" s with
  | Some n => n ← atoi n; if n <? 1 then None else e_args e !! Z.to_nat (n - 1)
  | None =>
    if decide (s = "NULL") then Some SqlNull
    else if decide (s = "NOW()" ∨ s = "now()") then Some (SqlTime (e_now e))
    else if decide (s = "uuidv7()") then Some (SqlUuid (e_uuid e))
    else match between "'" "'" s with
         | Some t => Some (SqlText t)
         | None => match strip_prefix "EXCLUDED." s with
                   | Some c => column (e_excluded e) c
                   | None => column (e_old e) s
                   end
         end
  end.
(** The functions the statements call, and those of arrays; [array_length] of an
    empty array is NULL. *)
Definition coalesce (a b : sqlvalue) : option sqlvalue := Some (match a with SqlNull => b | _ => a end).
Definition array_remove (a b : sqlvalue) : option sqlvalue :=
  match a, b with
  | SqlTexts l, SqlText x => Some (SqlTexts (filter (λ y, y ≠ x) l))
  | SqlNull, _ => Some SqlNull
  | _, _ => None
  end.
Definition array_length (a n : sqlvalue) : option sqlvalue :=
  match a, n with
  | SqlTexts [], SqlInt 1 => Some SqlNull
  | SqlTexts l, SqlInt 1 => Some (SqlInt (Z.of_nat (length l)))
  | _, _ => None
  end.
Definition functions : list (string * (sqlvalue → sqlvalue → option sqlvalue)) :=
  [("COALESCE(", coalesce); ("array_remove(", array_remove); ("array_length(", array_length)].
Definition literal (e : env) (s : string) : option sqlvalue :=
  match atom e s with Some v => Some v | None => SqlInt <$> atoi s end.
Fixpoint call (e : env) (fs : list (string * (sqlvalue → sqlvalue → option sqlvalue))) (s : string) : option sqlvalue :=
  match fs with
  | [] => literal e s
  | (name, f) :: fs =>
    match between name ")" s with
    | Some args =>
      match items args with
      | [a; b] => a ← literal e a; b ← literal e b; f a b
      | _ => None
      end
    | None => call e fs s
    end
  end.
Definition expression (e : env) : string → option sqlvalue := call e functions.

(** [SELECT columns FROM ...] on a row. *)
Definition select (columns : string) (r : row) : option (list sqlvalue) := mapM (column r) (items columns).
(** [INSERT INTO ... (columns) VALUES (values)]; other columns take their defaults. *)
Fixpoint assign_all (r : row) (l : list (string * sqlvalue)) : option row :=
  match l with [] => Some r | (n, v) :: l => r ← assign r n v; assign_all r l end.
Definition insert_into (defaults : row) (columns values : string) (e : env) : option row :=
  vs ← mapM (expression e) (items values);
  let cs := items columns in
  if decide (length cs = length vs) then assign_all defaults (zip cs vs) else None.
(** [UPDATE ... SET assignments] on a row: every expression sees the old row. *)
Definition assignment (e : env) (s : string) : option (string * sqlvalue) :=
  match split_byte s (byte 61) with
  | [c; x] => v ← expression e (trim_space x); Some (trim_space c, v)
  | _ => None
  end.
Definition update_set (assignments : string) (args : list sqlvalue) (t : instant) (excluded r : row) : option row :=
  let e := {| e_args := args; e_now := t; e_uuid := uuid_Nil; e_excluded := excluded; e_old := r |} in
  l ← mapM (assignment e) (items assignments); assign_all r l.

(** ** WHERE clauses *)

(** [strings.Split]; [skip] counts the bytes of a separator still to pass over. *)
Fixpoint split_on (sep : string) (skip : nat) (s : string) : list string :=
  match s with
  | EmptyString => [EmptyString]
  | String a r =>
    match skip with
    | S skip => split_on sep skip r
    | O =>
      match strip_prefix sep s with
      | Some _ => EmptyString :: split_on sep (pred (String.length sep)) r
      | None => match split_on sep 0 r with p :: ps => String a p :: ps | [] => [String a EmptyString] end
      end
    end
  end.

(** [a = b] is true; with a NULL it is not. *)
Definition sql_equal (a b : sqlvalue) : bool :=
  match a, b with
  | SqlText x, SqlText y => bool_decide (x = y)
  | SqlUuid x, SqlUuid y => bool_decide (x = y)
  | SqlInt x, SqlInt y => bool_decide (x = y)
  | _, _ => false
  end.
Definition is_null (v : sqlvalue) : bool := match v with SqlNull => true | _ => false end.

Definition condition (e : env) (s : string) : option bool :=
  match strip_suffix " IS NOT NULL" s, strip_suffix " IS NULL" s with
  | Some x, _ => v ← expression e x; Some (negb (is_null v))
  | None, Some x => v ← expression e x; Some (is_null v)
  | None, None =>
    match split_on " IN " 0 s with
    | [x; l] =>
      v ← expression e x; l ← between "(" ")" l; vs ← mapM (expression e) (items l);
      Some (existsb (sql_equal v) vs)
    | _ =>
      match split_byte s (byte 61) with
      | [x; y] => v ← expression e (trim_space x); w ← expression e (trim_space y); Some (sql_equal v w)
      | _ => None
      end
    end
  end.
(** Whether a row is among those a clause selects. *)
Definition where_clause (text : string) (args : list sqlvalue) (r : row) : option bool :=
  let e := {| e_args := args; e_now := 0; e_uuid := uuid_Nil; e_excluded := []; e_old := r |} in
  bs ← mapM (condition e) (split_on " AND " 0 text); Some (forallb id bs).

(** A clause selects the rows of the records with [P]. *)
Definition selects {A} (to_row : A → row) (text : string) (args : list sqlvalue) (P : A → bool) : Prop :=
  ∀ a, where_clause text args (to_row a) = Some (P a).

Example where_1 : where_clause "id = $1 AND status IN ('a', 'b') AND x IS NULL" [SqlInt 3]
  [("id", SqlInt 3); ("status", SqlText "b"); ("x", SqlNull)] = Some true. Proof. vm_compute. done. Qed.

Example items_1 : items "a=$2,  b=COALESCE(b, $3)" = ["a=$2"; "b=COALESCE(b, $3)"]. Proof. vm_compute. done. Qed.

(** ** Destinations of [Scan] *)

(** A Go type that holds the values of a column type without NULL. *)
Record dest_type (A : Type) := {
  inj : A → sqlvalue; prj : sqlvalue → option A;
  prj_inj : ∀ a, prj (inj a) = Some a; prj_null : prj SqlNull = None;
}.
Arguments inj {A}. Arguments prj {A}. Arguments prj_inj {A}. Arguments prj_null {A}.
Ltac dest_type_of i p := refine {| inj := i; prj := p |}; intros; reflexivity.
Definition d_text : dest_type string.
Proof. dest_type_of SqlText (λ v, match v with SqlText s => Some s | _ => None end). Defined.
Definition d_texts : dest_type (list string).
Proof. dest_type_of SqlTexts (λ v, match v with SqlTexts s => Some s | _ => None end). Defined.
Definition d_uuid : dest_type uuid.
Proof. dest_type_of SqlUuid (λ v, match v with SqlUuid s => Some s | _ => None end). Defined.
Definition d_int : dest_type Z.
Proof. dest_type_of SqlInt (λ v, match v with SqlInt s => Some s | _ => None end). Defined.
Definition d_float : dest_type float64.
Proof. dest_type_of SqlFloat (λ v, match v with SqlFloat s => Some s | _ => None end). Defined.
Definition d_time : dest_type instant.
Proof. dest_type_of SqlTime (λ v, match v with SqlTime s => Some s | _ => None end). Defined.
Definition d_bool : dest_type bool.
Proof. dest_type_of SqlBool (λ v, match v with SqlBool s => Some s | _ => None end). Defined.

Definition cannot_scan : goerror := opaque_err "can't scan into dest".
(** A reader of the values of a row, left to right. *)
Definition scanning (A : Type) : Type := list sqlvalue → result (A * list sqlvalue).
#[export] Instance scanning_ret : MRet scanning := λ A a l, Ok (a, l).
#[export] Instance scanning_bind : MBind scanning := λ A B f m l, match m l with Ok (a, l) => f a l | Err e => Err e end.

Definition into {A} (f : sqlvalue → option A) : scanning A := λ l,
  match l with
  | v :: l => match f v with Some a => Ok (a, l) | None => Err cannot_scan end
  | [] => Err cannot_scan
  end.
(** [*T], [**T] and [*[]byte]. *)
Definition plain {A} (d : dest_type A) : scanning A := into (prj d).
Definition nullable {A} (d : dest_type A) : scanning (option A) :=
  into (λ v, match v with SqlNull => Some None | _ => Some <$> prj d v end).
Definition to_bytes (v : sqlvalue) : option string :=
  match v with SqlNull => Some "" | SqlJson s => Some s | _ => None end.
(** A nil slice of a nullable array column. *)
Definition to_texts (v : sqlvalue) : option (list string) :=
  match v with SqlNull => Some [] | SqlTexts l => Some l | _ => None end.

(** As many destinations as columns. *)
Definition Scan {A} (m : scanning A) (vs : option (list sqlvalue)) : result A :=
  match vs with
  | None => Err (opaque_err "ERROR: column does not exist (SQLSTATE 42703)")
  | Some vs => match m vs with Ok (a, []) => Ok a | Ok _ => Err cannot_scan | Err e => Err e end
  end.

Definition or_null {A} (d : dest_type A) (o : option A) : sqlvalue := match o with Some a => inj d a | None => SqlNull end.
Definition json_or_null (s : string) : sqlvalue := if decide (s = "") then SqlNull else SqlJson s.

Lemma scan_plain {A B} (d : dest_type A) a l (k : A → scanning B) : (x ← plain d; k x) (inj d a :: l) = k a l.
Proof. unfold mbind, scanning_bind, plain, into. by rewrite prj_inj. Qed.
Lemma scan_nullable {A B} (d : dest_type A) o l (k : option A → scanning B) :
  (x ← nullable d; k x) (or_null d o :: l) = k o l.
Proof.
  unfold mbind, scanning_bind, nullable, into. destruct o as [a|]; [|done]. cbn [or_null].
  pose proof (prj_inj d a) as Ha. destruct (inj d a) eqn:E; rewrite ?Ha; [by rewrite prj_null in Ha|done..].
Qed.
Lemma scan_bytes {B} s l (k : string → scanning B) : (x ← into to_bytes; k x) (json_or_null s :: l) = k s l.
Proof. unfold json_or_null, mbind, scanning_bind, into. case_decide as Hs; [by rewrite Hs|done]. Qed.
Lemma scan_texts {B} s l (k : list string → scanning B) : (x ← into to_texts; k x) (SqlTexts s :: l) = k s l.
Proof. done. Qed.

Ltac scan_steps := repeat (rewrite scan_plain || rewrite scan_nullable || rewrite scan_bytes || rewrite scan_texts).

(** ** Portfolios (src/portfolio/db.go) *)
Section portfolios.
(** [json.Marshal] and [json.Unmarshal] of parameters; [Insert] is reached with
    parameters that marshal. *)
Context (Marshal : gmap string json → string) (Unmarshal : string → result (gmap string json)).

Definition portfolioColumns : string := "
	id, owner_sub, slug, name, strategy_code, strategy_ver, strategy_clone_url,
	strategy_describe_json, parameters,
	preset_name, benchmark, start_date, end_date, status, last_run_at,
	last_error, snapshot_path,
	current_value, ytd_return, max_drawdown, sharpe, cagr_since_inception, inception_date,
	created_at, updated_at, run_retention
".

(** The table after the migrations: 1_init less what 5_drop_dead_portfolio_cols and
    9_date_period drop, with the columns of 6_unofficial_strategies, 9_date_period
    and 12_portfolio_run_retention. *)
Definition portfolio_row (p : Portfolio) : row :=
  [("id", inj d_uuid (ID p)); ("owner_sub", inj d_text (OwnerSub p)); ("slug", inj d_text (Types.Slug p));
   ("name", inj d_text (Name p)); ("strategy_code", inj d_text (StrategyCode p));
   ("strategy_ver", or_null d_text (StrategyVer p)); ("parameters", json_or_null (Marshal (Parameters p)));
   ("preset_name", or_null d_text (PresetName p)); ("benchmark", inj d_text (Benchmark p));
   ("status", inj d_text (Status p)); ("inception_date", or_null d_time (InceptionDate p));
   ("snapshot_path", or_null d_text (SnapshotPath p)); ("last_run_at", or_null d_time (LastRunAt p));
   ("last_error", or_null d_text (LastError p)); ("current_value", or_null d_float (CurrentValue p));
   ("ytd_return", or_null d_float (YtdReturn p)); ("max_drawdown", or_null d_float (MaxDrawdown p));
   ("sharpe", or_null d_float (Sharpe p)); ("cagr_since_inception", or_null d_float (CagrSinceInception p));
   ("created_at", inj d_time (CreatedAt p)); ("updated_at", inj d_time (UpdatedAt p));
   ("strategy_clone_url", inj d_text (StrategyCloneURL p));
   ("strategy_describe_json", json_or_null (StrategyDescribeJSON p)); ("start_date", or_null d_time (StartDate p));
   ("end_date", or_null d_time (EndDate p)); ("run_retention", inj d_int (RunRetention p))].

(** The destinations of [scan]: the portfolio without its parameters, and their text. *)
Definition scan_dest : scanning (Portfolio * string) :=
  id ← plain d_uuid; owner ← plain d_text; slug ← plain d_text; name ← plain d_text; code ← plain d_text;
  ver ← nullable d_text; url ← plain d_text; describe ← into to_bytes; paramsJSON ← into to_bytes;
  preset ← nullable d_text; benchmark ← plain d_text; startDate ← nullable d_time; endDate ← nullable d_time;
  statusStr ← plain d_text; lastRunAt ← nullable d_time; lastError ← nullable d_text; snapshotPath ← nullable d_text;
  currentValue ← nullable d_float; ytd ← nullable d_float; maxDrawdown ← nullable d_float; sharpe ← nullable d_float;
  cagr ← nullable d_float; inceptionDate ← nullable d_time;
  createdAt ← plain d_time; updatedAt ← plain d_time; runRetention ← plain d_int;
  mret ({| ID := id; OwnerSub := owner; Types.Slug := slug; Name := name; StrategyCode := code; StrategyVer := ver;
           StrategyCloneURL := url; StrategyDescribeJSON := describe; Parameters := ∅; PresetName := preset;
           Benchmark := benchmark; StartDate := startDate; EndDate := endDate; Status := statusStr;
           LastRunAt := lastRunAt; LastError := lastError; SnapshotPath := snapshotPath; CurrentValue := currentValue;
           YtdReturn := ytd; MaxDrawdown := maxDrawdown; Sharpe := sharpe; CagrSinceInception := cagr;
           InceptionDate := inceptionDate; CreatedAt := createdAt; UpdatedAt := updatedAt;
           RunRetention := runRetention |}, paramsJSON).
Definition scan (vs : option (list sqlvalue)) : result Portfolio :=
  r ← Scan scan_dest vs;
  let '(p, paramsJSON) := r in
  if 0 <? len paramsJSON then
    match Unmarshal paramsJSON with
    | Err e => Err (wrap "unmarshaling parameters: " e)
    | Ok params => Ok (p <| Parameters := params |>)
    end
  else Ok p.


Lemma select_portfolio p : select portfolioColumns (portfolio_row p) = Some
  [inj d_uuid (ID p); inj d_text (OwnerSub p); inj d_text (Types.Slug p); inj d_text (Name p);
   inj d_text (StrategyCode p); or_null d_text (StrategyVer p); inj d_text (StrategyCloneURL p);
   json_or_null (StrategyDescribeJSON p); json_or_null (Marshal (Parameters p)); or_null d_text (PresetName p);
   inj d_text (Benchmark p); or_null d_time (StartDate p); or_null d_time (EndDate p); inj d_text (Status p);
   or_null d_time (LastRunAt p); or_null d_text (LastError p); or_null d_text (SnapshotPath p);
   or_null d_float (CurrentValue p); or_null d_float (YtdReturn p); or_null d_float (MaxDrawdown p);
   or_null d_float (Sharpe p); or_null d_float (CagrSinceInception p); or_null d_time (InceptionDate p);
   inj d_time (CreatedAt p); inj d_time (UpdatedAt p); inj d_int (RunRetention p)].
Proof. reflexivity. Qed.

Lemma scan_portfolio p :
  Marshal (Parameters p) ≠ "" → Unmarshal (Marshal (Parameters p)) = Ok (Parameters p) →
  scan (select portfolioColumns (portfolio_row p)) = Ok p.
Proof.
  intros Hne Hu. rewrite select_portfolio. unfold scan, Scan, scan_dest. scan_steps. cbn [mret scanning_ret mbind result_bind].
  replace (0 <? len (Marshal (Parameters p))) with true.
  - rewrite Hu. by destruct p.
  - symmetry. apply Z.ltb_lt. unfold len. destruct (Marshal (Parameters p)); [done|cbn; lia].
Qed.

(** [INSERT INTO portfolios]. *)
Definition insert_columns : string := "
			owner_sub, slug, name, strategy_code, strategy_ver,
			strategy_clone_url, strategy_describe_json, parameters,
			preset_name, benchmark, start_date, end_date, status, run_retention
		".
Definition insert_values : string := "$1, $2, $3, $4, $5, $6, $7, $8, $9, $10, $11, $12, $13, $14".
Definition insert_args (p : Portfolio) : list sqlvalue :=
  [inj d_text (OwnerSub p); inj d_text (Types.Slug p); inj d_text (Name p); inj d_text (StrategyCode p);
   or_null d_text (StrategyVer p); inj d_text (StrategyCloneURL p); json_or_null (StrategyDescribeJSON p);
   json_or_null (Marshal (Parameters p)); or_null d_text (PresetName p); inj d_text (Benchmark p);
   or_null d_time (StartDate p); or_null d_time (EndDate p); inj d_text (Status p); inj d_int (RunRetention p)].
(** The DEFAULTs of the migrations. *)
Definition portfolio_defaults (id : uuid) (t : instant) : row :=
  [("id", SqlUuid id); ("owner_sub", SqlNull); ("slug", SqlNull); ("name", SqlNull); ("strategy_code", SqlNull);
   ("strategy_ver", SqlNull); ("parameters", SqlNull); ("preset_name", SqlNull); ("benchmark", SqlText "SPY");
   ("status", SqlText "pending"); ("inception_date", SqlNull); ("snapshot_path", SqlNull); ("last_run_at", SqlNull);
   ("last_error", SqlNull); ("current_value", SqlNull); ("ytd_return", SqlNull); ("max_drawdown", SqlNull);
   ("sharpe", SqlNull); ("cagr_since_inception", SqlNull); ("created_at", SqlTime t); ("updated_at", SqlTime t);
   ("strategy_clone_url", SqlNull); ("strategy_describe_json", SqlNull); ("start_date", SqlNull);
   ("end_date", SqlNull); ("run_retention", SqlInt 2)].
Definition inserted_row (p : Portfolio) (id : uuid) (t : instant) : option row :=
  insert_into (portfolio_defaults id t) insert_columns insert_values
    {| e_args := insert_args p; e_now := t; e_uuid := id; e_excluded := []; e_old := [] |}.

(** The assignments of the UPDATE statements, with their parameters. *)
Definition running_set : string := "status='running', updated_at=NOW()".
Definition ready_set : string := "
			status='ready',
			last_run_at=NOW(),
			last_error=NULL,
			snapshot_path=$2,
			current_value=$3,
			ytd_return=$4,
			max_drawdown=$5,
			sharpe=$6,
			cagr_since_inception=$7,
			inception_date=COALESCE(inception_date, $8),
			updated_at=NOW()".
Definition ready_params (id : uuid) (a : Store.ready_args) : list sqlvalue :=
  [SqlUuid id; inj d_text (Store.ra_snapshotPath a); inj d_float (Store.ra_currentValue a); or_null d_float (Store.ra_ytd a);
   or_null d_float (Store.ra_maxDrawdown a); or_null d_float (Store.ra_sharpe a); or_null d_float (Store.ra_cagr a);
   inj d_time (Store.ra_inceptionDate a)].
Definition failed_set : string := "status='failed', last_error=$2, updated_at=NOW()".
Definition failed_all_set : string := "status='failed', last_error=$1, updated_at=NOW()".
Definition name_set : string := "name = $3, updated_at = NOW()".
Definition retention_set : string := "run_retention = $3, updated_at = NOW()".
Definition dates_set : string := "start_date = COALESCE($3, start_date),
		       end_date   = COALESCE($4, end_date),
		       updated_at = NOW()".
Definition upgrade_set : string := "
			strategy_ver = $2,
			strategy_describe_json = $3,
			parameters = $4,
			preset_name = $5,
			status = 'pending',
			last_error = NULL,
			updated_at = NOW()
		".

(** An UPDATE's text does to the row what a function does to the portfolio. *)
Definition updates (assignments : string) (args : list sqlvalue) (f : instant → Portfolio → Portfolio) : Prop :=
  ∀ t p, update_set assignments args t [] (portfolio_row p) = Some (portfolio_row (f t p)).

Lemma insert_portfolio `{MapRange} p (d d' : Store.db) u :
  Store.insert_row p d = Ok (d', u) →
  ∃ q, Store.portfolios d' !! Store.next_uuid d = Some q ∧ inserted_row p (Store.next_uuid d) (Store.now d) = Some (portfolio_row q).
Proof.
  intros Hi. unfold Store.insert_row in Hi. repeat case_match; try done. injection Hi as <-.
  eexists. split; [apply lookup_insert_eq|]. reflexivity.
Qed.

Lemma portfolio_updates owner slug name id a msg v sd ed ver desc params preset :
  updates running_set [SqlUuid id] Store.set_running ∧
  updates ready_set (ready_params id a) (Store.set_ready a) ∧
  updates failed_set [SqlUuid id; SqlText msg] (Store.set_failed msg) ∧
  updates failed_all_set [SqlText msg] (Store.set_failed msg) ∧
  updates name_set [SqlText owner; SqlText slug; SqlText name] (λ t p, p <| Name := name |> <| UpdatedAt := t |>) ∧
  updates retention_set [SqlText owner; SqlText slug; SqlInt v] (λ t p, p <| RunRetention := v |> <| UpdatedAt := t |>) ∧
  updates dates_set [SqlText owner; SqlText slug; or_null d_time sd; or_null d_time ed]
    (λ t p, p <| StartDate := Store.coalesce sd (StartDate p) |> <| EndDate := Store.coalesce ed (EndDate p) |> <| UpdatedAt := t |>) ∧
  updates upgrade_set [SqlUuid id; SqlText ver; json_or_null desc; json_or_null (Marshal params); or_null d_text preset]
    (Store.set_upgrade ver desc params preset).
Proof.
  split_and!; intros t p; try reflexivity.
  - destruct p as [? ? ? ? ? ? ? ? ? ? ? ? ? ? ? ? ? ? ? ? ? ? [?|] ? ? ?]; reflexivity.
  - destruct p, sd, ed; reflexivity.
Qed.
End portfolios.

(** ** Runs (src/portfolio/runs.go) *)
Definition runColumns : string := "id, portfolio_id, status, started_at, finished_at, duration_ms, error, snapshot_path".
(** 1_init, with the column of 16_backtest_run_trigger. *)
Definition run_row (r : Run) : row :=
  [("id", inj d_uuid (run_ID r)); ("portfolio_id", inj d_uuid (run_PortfolioID r)); ("status", inj d_text (run_Status r));
   ("started_at", or_null d_time (run_StartedAt r)); ("finished_at", or_null d_time (run_FinishedAt r));
   ("duration_ms", or_null d_int (run_DurationMs r)); ("error", or_null d_text (run_Error r));
   ("snapshot_path", or_null d_text (run_SnapshotPath r)); ("triggered_by", inj d_text (run_TriggeredBy r))].
(** [scanRun]: the struct has no field for [triggered_by]. *)
Definition scanRun (vs : option (list sqlvalue)) : result Run :=
  Scan (id ← plain d_uuid; pid ← plain d_uuid; status ← plain d_text; started ← nullable d_time;
        finished ← nullable d_time; ms ← nullable d_int; err ← nullable d_text; path ← nullable d_text;
        mret {| run_ID := id; run_PortfolioID := pid; run_Status := status; run_StartedAt := started;
                run_FinishedAt := finished; run_DurationMs := ms; run_Error := err; run_SnapshotPath := path;
                run_TriggeredBy := "" |}) vs.
Lemma scan_run r : scanRun (select runColumns (run_row r)) = Ok (r <| run_TriggeredBy := "" |>).
Proof.
  change (select runColumns (run_row r)) with (Some
    [inj d_uuid (run_ID r); inj d_uuid (run_PortfolioID r); inj d_text (run_Status r); or_null d_time (run_StartedAt r);
     or_null d_time (run_FinishedAt r); or_null d_int (run_DurationMs r); or_null d_text (run_Error r);
     or_null d_text (run_SnapshotPath r)]).
  unfold scanRun, Scan. by scan_steps.
Qed.

(** [CreateRun]'s INSERT. *)
Definition run_defaults (id : uuid) : row :=
  [("id", SqlUuid id); ("portfolio_id", SqlNull); ("status", SqlNull); ("started_at", SqlNull); ("finished_at", SqlNull);
   ("duration_ms", SqlNull); ("error", SqlNull); ("snapshot_path", SqlNull); ("triggered_by", SqlText "manual")].
Definition created_row (portfolioID : uuid) (status trigger : string) (id : uuid) (t : instant) : option row :=
  insert_into (run_defaults id) "id, portfolio_id, status, triggered_by" "uuidv7(), $1, $2, $3"
    {| e_args := [SqlUuid portfolioID; SqlText status; SqlText trigger]; e_now := t; e_uuid := id; e_excluded := [];
       e_old := [] |}.
Lemma create_run `{MapRange} pid status trigger (d d' : Store.db) r :
  Store.insert_run pid status trigger d = Ok (d', r) →
  created_row pid status trigger (Store.next_uuid d) (Store.now d) = Some (run_row r).
Proof. intros Hi. unfold Store.insert_run in Hi. repeat case_match; try done. by injection Hi as _ <-. Qed.

Definition run_updates (assignments : string) (args : list sqlvalue) (f : instant → Run → Run) : Prop :=
  ∀ t r, update_set assignments args t [] (run_row r) = Some (run_row (f t r)).
Definition run_running_set : string := "status='running', started_at=NOW()".
Definition run_success_set : string := "status='success', finished_at=NOW(),
		                          snapshot_path=$2, duration_ms=$3".
Definition run_failed_set : string := "status='failed', finished_at=NOW(), error=$2, duration_ms=$3".
Definition run_interrupted_set : string := "status='failed', finished_at=NOW(), error=$1".
Lemma run_statements id path msg ms :
  run_updates run_running_set [SqlUuid id] Store.run_running ∧
  run_updates run_success_set [SqlUuid id; SqlText path; SqlInt ms] (Store.run_success path ms) ∧
  run_updates run_failed_set [SqlUuid id; SqlText msg; SqlInt ms] (Store.run_failed msg ms) ∧
  run_updates run_interrupted_set [SqlText msg]
    (λ t r, r <| run_Status := "failed" |> <| run_FinishedAt := Some t |> <| run_Error := Some msg |>).
Proof. split_and!; intros t r; reflexivity. Qed.

(** ** Alerts (src/alert/db.go) *)
Definition alertColumns : string :=
  "id, portfolio_id, frequency, recipients, last_sent_at, last_sent_value, created_at, updated_at".
Definition alert_row (a : Alert) : row :=
  [("id", inj d_uuid (a_ID a)); ("portfolio_id", inj d_uuid (a_PortfolioID a)); ("frequency", inj d_text (a_Frequency a));
   ("recipients", inj d_texts (a_Recipients a)); ("last_sent_at", or_null d_time (a_LastSentAt a));
   ("last_sent_value", or_null d_float (a_LastSentValue a)); ("created_at", inj d_time (a_CreatedAt a));
   ("updated_at", inj d_time (a_UpdatedAt a))].
Definition scanAlert (vs : option (list sqlvalue)) : result Alert :=
  Scan (id ← plain d_uuid; pid ← plain d_uuid; frequency ← plain d_text; recipients ← plain d_texts;
        sentAt ← nullable d_time; sentValue ← nullable d_float; createdAt ← plain d_time; updatedAt ← plain d_time;
        mret {| a_ID := id; a_PortfolioID := pid; a_Frequency := frequency; a_Recipients := recipients;
                a_LastSentAt := sentAt; a_LastSentValue := sentValue; a_CreatedAt := createdAt;
                a_UpdatedAt := updatedAt |}) vs.
Lemma scan_alert a : scanAlert (select alertColumns (alert_row a)) = Ok a.
Proof.
  change (select alertColumns (alert_row a)) with (Some
    [inj d_uuid (a_ID a); inj d_uuid (a_PortfolioID a); inj d_text (a_Frequency a); inj d_texts (a_Recipients a);
     or_null d_time (a_LastSentAt a); or_null d_float (a_LastSentValue a); inj d_time (a_CreatedAt a);
     inj d_time (a_UpdatedAt a)]).
  unfold scanAlert, Scan. scan_steps. by destruct a.
Qed.

Definition alert_defaults (id : uuid) (t : instant) : row :=
  [("id", SqlUuid id); ("portfolio_id", SqlNull); ("frequency", SqlNull); ("recipients", SqlNull);
   ("last_sent_at", SqlNull); ("last_sent_value", SqlNull); ("created_at", SqlTime t); ("updated_at", SqlTime t)].
Definition alert_created_row (portfolioID : uuid) (frequency : string) (recipients : list string) (id : uuid) (t : instant) : option row :=
  insert_into (alert_defaults id t) "portfolio_id, frequency, recipients" "$1, $2, $3"
    {| e_args := [SqlUuid portfolioID; SqlText frequency; SqlTexts recipients]; e_now := t; e_uuid := id;
       e_excluded := []; e_old := [] |}.
Lemma create_alert pid frequency recipients d d' a :
  insert_alert pid frequency recipients d = Ok (d', a) →
  alert_created_row pid frequency recipients (next_alert d) (Store.now (adb d)) = Some (alert_row a).
Proof. intros Hi. unfold insert_alert in Hi. repeat case_match; try done. by injection Hi as _ <-. Qed.

Definition alert_updates (assignments : string) (args : list sqlvalue) (f : instant → Alert → Alert) : Prop :=
  ∀ t a, update_set assignments args t [] (alert_row a) = Some (alert_row (f t a)).
Definition alert_set : string := "frequency=$2, recipients=$3, updated_at=now()".
Definition alert_sent_set : string := "last_sent_at=$2, last_sent_value=$3, updated_at=now()".
Definition alert_without_set : string := "recipients = array_remove(recipients, $2), updated_at = now()".
(** The server keeps microseconds. *)
Lemma alert_statements id frequency recipients sentAt value recipient :
  alert_updates alert_set [SqlUuid id; SqlText frequency; SqlTexts recipients]
    (λ t a, a <| a_Frequency := frequency |> <| a_Recipients := recipients |> <| a_UpdatedAt := t |>) ∧
  alert_updates alert_sent_set [SqlUuid id; SqlTime (micros sentAt); SqlFloat value]
    (λ t a, a <| a_LastSentAt := Some (micros sentAt) |> <| a_LastSentValue := Some value |> <| a_UpdatedAt := t |>) ∧
  alert_updates alert_without_set [SqlUuid id; SqlText recipient] (set_without recipient).
Proof. split_and!; intros t a; reflexivity. Qed.

(** ** Strategies (src/strategy/db.go) *)
Definition strategyColumns : string := "
	short_code, repo_owner, repo_name, clone_url, is_official, owner_sub,
	description, categories, stars,
	installed_ver, installed_at, last_attempted_ver, install_error,
	artifact_kind, artifact_ref, describe_json,
	cagr, max_drawdown, sharpe, sortino,
	ulcer_index, beta, alpha, std_dev, tax_cost_ratio,
	one_year_return, ytd_return, benchmark_ytd_return,
	stats_as_of,
	discovered_at, updated_at
".
(** 1_init, with the columns of 3_install_tracking, 11_stats_error, 13_strategy_sortino
    and 14_strategy_metrics. *)
Definition strategy_row (s : Strategy) : row :=
  [("short_code", inj d_text (s_ShortCode s)); ("repo_owner", inj d_text (s_RepoOwner s));
   ("repo_name", inj d_text (s_RepoName s)); ("clone_url", inj d_text (s_CloneURL s));
   ("is_official", inj d_bool (s_IsOfficial s)); ("owner_sub", or_null d_text (s_OwnerSub s));
   ("description", or_null d_text (s_Description s)); ("categories", SqlTexts (s_Categories s));
   ("stars", or_null d_int (s_Stars s)); ("installed_ver", or_null d_text (s_InstalledVer s));
   ("installed_at", or_null d_time (s_InstalledAt s)); ("artifact_kind", or_null d_text (s_ArtifactKind s));
   ("artifact_ref", or_null d_text (s_ArtifactRef s)); ("describe_json", json_or_null (s_DescribeJSON s));
   ("cagr", or_null d_float (s_CAGR s)); ("max_drawdown", or_null d_float (s_MaxDrawdown s));
   ("sharpe", or_null d_float (s_Sharpe s)); ("stats_as_of", or_null d_time (s_StatsAsOf s));
   ("discovered_at", inj d_time (s_DiscoveredAt s)); ("updated_at", inj d_time (s_UpdatedAt s));
   ("last_attempted_ver", or_null d_text (s_LastAttemptedVer s)); ("install_error", or_null d_text (s_InstallError s));
   ("stats_error", or_null d_text (s_StatsError s)); ("sortino", or_null d_float (s_Sortino s));
   ("ulcer_index", or_null d_float (s_UlcerIndex s)); ("beta", or_null d_float (s_Beta s));
   ("alpha", or_null d_float (s_Alpha s)); ("std_dev", or_null d_float (s_StdDev s));
   ("tax_cost_ratio", or_null d_float (s_TaxCostRatio s)); ("one_year_return", or_null d_float (s_OneYearReturn s));
   ("ytd_return", or_null d_float (s_YtdReturn s)); ("benchmark_ytd_return", or_null d_float (s_BenchmarkYtdReturn s))].

(** [scan]: [stats_error] is not among the columns. *)
Definition scan_strategy_dest : scanning Strategy :=
  code ← plain d_text; owner ← plain d_text; name ← plain d_text; url ← plain d_text; official ← plain d_bool;
  sub ← nullable d_text; description ← nullable d_text; categories ← into to_texts; stars ← nullable d_int;
  ver ← nullable d_text; installedAt ← nullable d_time; attempted ← nullable d_text; installError ← nullable d_text;
  kind ← nullable d_text; ref ← nullable d_text; describe ← into to_bytes;
  cagr ← nullable d_float; maxDrawdown ← nullable d_float; sharpe ← nullable d_float; sortino ← nullable d_float;
  ulcer ← nullable d_float; beta ← nullable d_float; alpha ← nullable d_float; stdDev ← nullable d_float;
  taxCost ← nullable d_float; oneYear ← nullable d_float; ytd ← nullable d_float; benchmarkYtd ← nullable d_float;
  asOf ← nullable d_time; discoveredAt ← plain d_time; updatedAt ← plain d_time;
  mret {| s_ShortCode := code; s_RepoOwner := owner; s_RepoName := name; s_CloneURL := url; s_IsOfficial := official;
          s_OwnerSub := sub; s_Description := description; s_Categories := categories; s_Stars := stars;
          s_InstalledVer := ver; s_InstalledAt := installedAt; s_LastAttemptedVer := attempted;
          s_InstallError := installError; s_ArtifactKind := kind; s_ArtifactRef := ref; s_DescribeJSON := describe;
          s_CAGR := cagr; s_MaxDrawdown := maxDrawdown; s_Sharpe := sharpe; s_Sortino := sortino; s_UlcerIndex := ulcer;
          s_Beta := beta; s_Alpha := alpha; s_StdDev := stdDev; s_TaxCostRatio := taxCost; s_OneYearReturn := oneYear;
          s_YtdReturn := ytd; s_BenchmarkYtdReturn := benchmarkYtd; s_StatsAsOf := asOf; s_StatsError := None;
          s_DiscoveredAt := discoveredAt; s_UpdatedAt := updatedAt |}.
Definition scanStrategy (vs : option (list sqlvalue)) : result Strategy :=
  match Scan scan_strategy_dest vs with Ok s => Ok s | Err e => Err (wrap "scanning strategy row: " e) end.

Lemma select_strategy s : select strategyColumns (strategy_row s) = Some
  [inj d_text (s_ShortCode s); inj d_text (s_RepoOwner s); inj d_text (s_RepoName s); inj d_text (s_CloneURL s);
   inj d_bool (s_IsOfficial s); or_null d_text (s_OwnerSub s); or_null d_text (s_Description s); SqlTexts (s_Categories s);
   or_null d_int (s_Stars s); or_null d_text (s_InstalledVer s); or_null d_time (s_InstalledAt s);
   or_null d_text (s_LastAttemptedVer s); or_null d_text (s_InstallError s); or_null d_text (s_ArtifactKind s);
   or_null d_text (s_ArtifactRef s); json_or_null (s_DescribeJSON s); or_null d_float (s_CAGR s);
   or_null d_float (s_MaxDrawdown s); or_null d_float (s_Sharpe s); or_null d_float (s_Sortino s);
   or_null d_float (s_UlcerIndex s); or_null d_float (s_Beta s); or_null d_float (s_Alpha s); or_null d_float (s_StdDev s);
   or_null d_float (s_TaxCostRatio s); or_null d_float (s_OneYearReturn s); or_null d_float (s_YtdReturn s);
   or_null d_float (s_BenchmarkYtdReturn s); or_null d_time (s_StatsAsOf s); inj d_time (s_DiscoveredAt s);
   inj d_time (s_UpdatedAt s)].
Proof. reflexivity. Qed.
Lemma scan_strategy s : scanStrategy (select strategyColumns (strategy_row s)) = Ok (s <| s_StatsError := None |>).
Proof. rewrite select_strategy. unfold scanStrategy, Scan, scan_strategy_dest. by scan_steps. Qed.

(** [Upsert]. *)
Definition upsert_columns : string := "
			short_code, repo_owner, repo_name, clone_url, is_official, owner_sub,
			description, categories, stars
		".
Definition upsert_values : string := "$1, $2, $3, $4, $5, $6, $7, $8, $9".
Definition upsert_set : string := "
			repo_owner = EXCLUDED.repo_owner,
			repo_name  = EXCLUDED.repo_name,
			clone_url  = EXCLUDED.clone_url,
			description = EXCLUDED.description,
			categories = EXCLUDED.categories,
			stars      = EXCLUDED.stars,
			updated_at = NOW()
	".
Definition upsert_args (s : Strategy) : list sqlvalue :=
  [inj d_text (s_ShortCode s); inj d_text (s_RepoOwner s); inj d_text (s_RepoName s); inj d_text (s_CloneURL s);
   inj d_bool (s_IsOfficial s); or_null d_text (s_OwnerSub s); or_null d_text (s_Description s);
   SqlTexts (s_Categories s); or_null d_int (s_Stars s)].
Definition strategy_defaults (t : instant) : row :=
  map (λ c, (c, if decide (c = "discovered_at" ∨ c = "updated_at") then SqlTime t
                else if decide (c = "is_official") then SqlBool false else SqlNull))
    ["short_code"; "repo_owner"; "repo_name"; "clone_url"; "is_official"; "owner_sub"; "description"; "categories";
     "stars"; "installed_ver"; "installed_at"; "artifact_kind"; "artifact_ref"; "describe_json"; "cagr"; "max_drawdown";
     "sharpe"; "stats_as_of"; "discovered_at"; "updated_at"; "last_attempted_ver"; "install_error"; "stats_error";
     "sortino"; "ulcer_index"; "beta"; "alpha"; "std_dev"; "tax_cost_ratio"; "one_year_return"; "ytd_return";
     "benchmark_ytd_return"].
(** [INSERT ... ON CONFLICT (short_code) DO UPDATE SET ...]. *)
Definition upserted_row (s : Strategy) (t : instant) (old : option row) : option row :=
  proposed ← insert_into (strategy_defaults t) upsert_columns upsert_values
    {| e_args := upsert_args s; e_now := t; e_uuid := uuid_Nil; e_excluded := []; e_old := [] |};
  match old with
  | None => Some proposed
  | Some r => update_set upsert_set (upsert_args s) t proposed r
  end.
Lemma upsert_statement s t old :
  upserted_row s t (strategy_row <$> old) = Some (strategy_row (Registry.upsert_row s t old)).
Proof. destruct old; reflexivity. Qed.

Definition strategy_updates (assignments : string) (args : list sqlvalue) (f : instant → Strategy → Strategy) : Prop :=
  ∀ t s, update_set assignments args t [] (strategy_row s) = Some (strategy_row (f t s)).
Definition attempt_set : string := "last_attempted_ver = $2,
		       install_error      = NULL,
		       updated_at         = NOW()".
Definition success_set : string := "installed_ver      = $2,
		       installed_at       = NOW(),
		       last_attempted_ver = $2,
		       artifact_kind      = $3,
		       artifact_ref       = $4,
		       describe_json      = $5,
		       install_error      = NULL,
		       updated_at         = NOW()".
Definition failure_set : string := "last_attempted_ver = $2,
		       install_error      = $3,
		       updated_at         = NOW()".
Definition stats_set : string := "cagr=$2, max_drawdown=$3, sharpe=$4, sortino=$5,
		        ulcer_index=$6, beta=$7, alpha=$8, std_dev=$9, tax_cost_ratio=$10,
		        one_year_return=$11, ytd_return=$12, benchmark_ytd_return=$13,
		        stats_as_of=$14, stats_error=NULL, updated_at=NOW()".
Definition stats_params (code : string) (x : StatsResult) : list sqlvalue :=
  [SqlText code; or_null d_float (r_CAGR x); or_null d_float (r_MaxDrawdown x); or_null d_float (r_Sharpe x);
   or_null d_float (r_Sortino x); or_null d_float (r_UlcerIndex x); or_null d_float (r_Beta x); or_null d_float (r_Alpha x);
   or_null d_float (r_StdDev x); or_null d_float (r_TaxCostRatio x); or_null d_float (r_OneYearReturn x);
   or_null d_float (r_YtdReturn x); or_null d_float (r_BenchmarkYtdReturn x); inj d_time (r_AsOf x)].
Definition stats_error_set : string := "stats_error=$2, updated_at=NOW()".
Lemma strategy_statements code ver kind ref j msg x :
  strategy_updates attempt_set [SqlText code; SqlText ver]
    (λ t s, s <| s_LastAttemptedVer := Some ver |> <| s_InstallError := None |> <| s_UpdatedAt := t |>) ∧
  strategy_updates success_set [SqlText code; SqlText ver; SqlText kind; SqlText ref; json_or_null j]
    (Registry.success ver kind ref j) ∧
  strategy_updates failure_set [SqlText code; SqlText ver; SqlText msg] (Registry.failure ver msg) ∧
  strategy_updates stats_set (stats_params code x) (Registry.set_stats x) ∧
  strategy_updates stats_error_set [SqlText code; SqlText msg]
    (λ t s, s <| s_StatsError := Some msg |> <| s_UpdatedAt := t |>).
Proof. split_and!; intros t s; reflexivity. Qed.

(** ** The rows the statements are about *)

(** The WHERE clauses; [id=$1] and [id = $1] are both written. *)
Definition id_clause : string := "id=$1".
Definition id_spaced_clause : string := "id = $1".
Definition owner_clause : string := "owner_sub = $1".
Definition slug_clause : string := "owner_sub = $1 AND slug = $2".
Definition strategy_code_clause : string := "strategy_code = $1".
Definition running_clause : string := "status='running'".
Definition inflight_clause : string := "status IN ('queued', 'running')".
Definition portfolio_id_clause : string := "portfolio_id=$1".
Definition run_of_clause : string := "id=$1 AND portfolio_id=$2".
Definition recipients_empty_clause : string := "id = $1 AND array_length(recipients, 1) IS NULL".
Definition short_code_clause : string := "short_code = $1".
Definition short_code_tight_clause : string := "short_code=$1".
Definition clone_url_clause : string := "clone_url = $1".
Definition artifact_clause : string := "clone_url = $1 AND installed_ver = $2 AND install_error IS NULL".
Definition installed_clause : string := "artifact_ref IS NOT NULL".

(** What the typed stores ask of a record. *)
Definition has_id (id : uuid) (p : Portfolio) : bool := bool_decide (ID p = id).
Definition has_slug (owner slug : string) (p : Portfolio) : bool :=
  bool_decide (OwnerSub p = owner) && bool_decide (Types.Slug p = slug).
Definition is_running (p : Portfolio) : bool := bool_decide (Status p = StatusRunning).
Definition run_has_id (id : uuid) (r : Run) : bool := bool_decide (run_ID r = id).
Definition alert_has_id (id : uuid) (a : Alert) : bool := bool_decide (a_ID a = id).
Definition has_code (code : string) (s : Strategy) : bool := bool_decide (s_ShortCode s = code).

Lemma portfolio_clauses Marshal id owner slug code args :
  selects (portfolio_row Marshal) id_clause (SqlUuid id :: args) (has_id id) ∧
  selects (portfolio_row Marshal) id_spaced_clause (SqlUuid id :: args) (has_id id) ∧
  selects (portfolio_row Marshal) owner_clause [SqlText owner] (λ p, bool_decide (OwnerSub p = owner)) ∧
  selects (portfolio_row Marshal) slug_clause (SqlText owner :: SqlText slug :: args) (has_slug owner slug) ∧
  selects (portfolio_row Marshal) strategy_code_clause [SqlText code] (λ p, bool_decide (StrategyCode p = code)) ∧
  selects (portfolio_row Marshal) running_clause args is_running.
Proof.
  split_and!; intros p;
    match goal with |- where_clause _ _ _ = Some ?b =>
      first [change (Some (b && true) = Some b); by rewrite andb_true_r
            |change (Some (bool_decide (OwnerSub p = owner) && (bool_decide (Types.Slug p = slug) && true)) = Some b);
             by rewrite andb_true_r] end.
Qed.
Lemma run_clauses id pid args :
  selects run_row id_clause (SqlUuid id :: args) (run_has_id id) ∧
  selects run_row inflight_clause args Store.inflight ∧
  selects run_row portfolio_id_clause [SqlUuid pid] (λ r, bool_decide (run_PortfolioID r = pid)) ∧
  selects run_row run_of_clause [SqlUuid id; SqlUuid pid] (λ r, run_has_id id r && bool_decide (run_PortfolioID r = pid)).
Proof.
  split_and!; intros r;
    match goal with |- where_clause _ _ _ = Some ?b =>
      first [change (Some (b && true) = Some b); by rewrite andb_true_r
            |change (Some ((bool_decide (run_Status r = "queued") || (bool_decide (run_Status r = "running") || false)) && true) = Some b);
             by rewrite andb_true_r, orb_false_r
            |change (Some (run_has_id id r && (bool_decide (run_PortfolioID r = pid) && true)) = Some b); by rewrite andb_true_r] end.
Qed.
Lemma alert_clauses id pid args :
  selects alert_row id_clause (SqlUuid id :: args) (alert_has_id id) ∧
  selects alert_row id_spaced_clause (SqlUuid id :: args) (alert_has_id id) ∧
  selects alert_row portfolio_id_clause [SqlUuid pid] (λ a, bool_decide (a_PortfolioID a = pid)) ∧
  selects alert_row recipients_empty_clause [SqlUuid id] (λ a, alert_has_id id a && bool_decide (a_Recipients a = [])).
Proof.
  split_and!; intros a;
    match goal with |- where_clause _ _ _ = Some ?b =>
      first [change (Some (b && true) = Some b); by rewrite andb_true_r|idtac] end.
  destruct a as [? ? ? [|x l] ? ? ? ?]; reflexivity.
Qed.
Lemma strategy_clauses code url ver args :
  selects strategy_row short_code_clause (SqlText code :: args) (has_code code) ∧
  selects strategy_row short_code_tight_clause (SqlText code :: args) (has_code code) ∧
  selects strategy_row clone_url_clause [SqlText url] (λ s, bool_decide (s_CloneURL s = url)) ∧
  selects strategy_row artifact_clause [SqlText url; SqlText ver]
    (λ s, bool_decide (s_CloneURL s = url ∧ s_InstalledVer s = Some ver ∧ s_InstallError s = None)) ∧
  selects strategy_row installed_clause [] (λ s, bool_decide (is_Some (s_ArtifactRef s))).
Proof.
  split_and!; intros s;
    match goal with |- where_clause _ _ _ = Some ?b =>
      first [change (Some (b && true) = Some b); by rewrite andb_true_r|idtac] end.
  - change (Some (bool_decide (s_CloneURL s = url) && (sql_equal (or_null d_text (s_InstalledVer s)) (SqlText ver) &&
      (is_null (or_null d_text (s_InstallError s)) && true))) =
      Some (bool_decide (s_CloneURL s = url ∧ s_InstalledVer s = Some ver ∧ s_InstallError s = None))).
    f_equal. destruct (s_InstalledVer s) as [v|], (s_InstallError s) as [e|]; cbn;
      repeat case_bool_decide; try done; naive_solver.
  - change (Some (negb (is_null (or_null d_text (s_ArtifactRef s))) && true) = Some (bool_decide (is_Some (s_ArtifactRef s)))).
    rewrite andb_true_r. by destruct (s_ArtifactRef s).
Qed.

(** A typed UPDATE changes the rows with [P] by [f] and no other, and counts none
    exactly when there is none; a typed DELETE drops them. *)
Section touched.
Context `{Countable K} {A : Type}.
Definition touched (P : A → bool) (f : A → A) (m m' : gmap K A) : Prop := m' = (λ a, if P a then f a else a) <$> m.
Definition dropped (P : A → bool) (m m' : gmap K A) : Prop := m' = filter (λ ka, P ka.2 = false) m.
Definition counted (P : A → bool) (m : gmap K A) (n : Z) : Prop := n = 0 ↔ map_Forall (λ _ a, P a = false) m.

Implicit Types (P : A → bool) (m : gmap K A).
Lemma touched_key P f m i :
  (∀ j a, m !! j = Some a → P a = bool_decide (j = i)) → touched P f m (alter f i m).
Proof.
  intros HP. apply map_eq. intros j. rewrite lookup_fmap. destruct (decide (j = i)) as [->|Hne].
  - rewrite lookup_alter_eq. destruct (m !! i) as [a|] eqn:Ha; [|done]. cbn.
    by rewrite (HP _ _ Ha), bool_decide_eq_true_2.
  - rewrite lookup_alter_ne by done. destruct (m !! j) as [a|] eqn:Ha; [|done]. cbn.
    by rewrite (HP _ _ Ha), bool_decide_eq_false_2.
Qed.
Lemma dropped_key P m i :
  (∀ j a, m !! j = Some a → P a = bool_decide (j = i)) → dropped P m (delete i m).
Proof.
  intros HP. apply map_eq. intros j. rewrite map_lookup_filter. destruct (decide (i = j)) as [<-|Hne].
  - rewrite lookup_delete_eq. destruct (m !! i) as [a|] eqn:Ha; [|done]. cbn.
    rewrite option_guard_False; [done|]. by rewrite (HP _ _ Ha), bool_decide_eq_true_2.
  - rewrite lookup_delete_ne by done. destruct (m !! j) as [a|] eqn:Ha; [|done]. cbn.
    rewrite option_guard_True; [done|]. by rewrite (HP _ _ Ha), bool_decide_eq_false_2.
Qed.
Lemma touched_none P f m : map_Forall (λ _ a, P a = false) m → touched P f m m.
Proof.
  intros HP. apply map_eq. intros j. rewrite lookup_fmap. destruct (m !! j) as [a|] eqn:Ha; [|done]. cbn.
  by rewrite (HP _ _ Ha).
Qed.
Lemma dropped_none P m : map_Forall (λ _ a, P a = false) m → dropped P m m.
Proof. intros HP. symmetry. apply map_filter_id. intros j a Ha. by apply (HP j). Qed.
Lemma counted_key P m i n :
  (∀ j a, m !! j = Some a → P a = bool_decide (j = i)) → n = (if m !! i then 1 else 0) → counted P m n.
Proof.
  intros HP ->. unfold counted. destruct (m !! i) as [a|] eqn:Ha; split; try done.
  - intros Hf. specialize (Hf i a Ha). cbn in Hf. by rewrite (HP _ _ Ha), bool_decide_eq_true_2 in Hf.
  - intros _ j b Hb. rewrite (HP _ _ Hb). apply bool_decide_eq_false_2. congruence.
Qed.
End touched.

Section typed.
Context `{MapRange}.

Lemma id_keyed (d : Store.db) i : Store.db_inv d → ∀ j p, Store.portfolios d !! j = Some p → has_id i p = bool_decide (j = i).
Proof. intros Hd j p Hp. unfold has_id. by rewrite (Store.inv_pid _ Hd _ _ Hp). Qed.
Lemma run_keyed (d : Store.db) i : Store.db_inv d → ∀ j r, Store.runs d !! j = Some r → run_has_id i r = bool_decide (j = i).
Proof. intros Hd j r Hr. unfold run_has_id. by rewrite (Store.inv_rid _ Hd _ _ Hr). Qed.
Lemma slug_keyed (d : Store.db) o sl i :
  Store.db_inv d → Store.find_slug o sl d = Some i →
  ∀ j p, Store.portfolios d !! j = Some p → has_slug o sl p = bool_decide (j = i).
Proof.
  intros Hd (q & Hq & Ho & Hs)%Store.find_slug_Some j p Hp; [|done]. unfold has_slug.
  destruct (bool_decide_reflect (j = i)) as [->|Hne].
  - assert (p = q) as -> by congruence. by rewrite !bool_decide_eq_true_2.
  - apply andb_false_iff. rewrite !bool_decide_eq_false. destruct (decide (OwnerSub p = o)) as [Hpo|]; [right|by left].
    intros Hps. apply Hne. eapply (Store.inv_slug _ Hd); [exact Hp|exact Hq|congruence..].
Qed.
Lemma slug_none (d : Store.db) o sl :
  Store.db_inv d → Store.find_slug o sl d = None → map_Forall (λ _ p, has_slug o sl p = false) (Store.portfolios d).
Proof.
  intros Hd Hs j p Hp. apply not_true_iff_false. unfold has_slug. rewrite andb_true_iff, !bool_decide_eq_true. intros [Ho Hsl].
  assert (Store.find_slug o sl d = Some j) as Hj; [|by rewrite Hs in Hj].
  apply Store.find_slug_Some; [done|]. by exists p.
Qed.

Lemma typed_update_portfolio (d d' : Store.db) i f n :
  Store.db_inv d → Store.update_portfolio i f d = Ok (d', n) →
  touched (has_id i) f (Store.portfolios d) (Store.portfolios d') ∧ counted (has_id i) (Store.portfolios d) n.
Proof.
  intros Hd Hu. pose proof (StoreLaws.update_portfolio_alter _ _ _ _ _ Hu) as (-> & _). split.
  - by apply touched_key, id_keyed.
  - apply (counted_key _ _ i); [by apply id_keyed|]. unfold Store.update_portfolio in Hu.
    by destruct (Store.portfolios d !! i); injection Hu as _ <-.
Qed.
Lemma typed_update_slug (d d' : Store.db) o sl f n :
  Store.db_inv d → Store.update_slug o sl f d = Ok (d', n) →
  touched (has_slug o sl) (f (Store.now d)) (Store.portfolios d) (Store.portfolios d') ∧
  counted (has_slug o sl) (Store.portfolios d) n.
Proof.
  intros Hd Hu. unfold Store.update_slug in Hu. destruct (Store.find_slug o sl d) as [i|] eqn:Hs.
  - pose proof (StoreLaws.update_portfolio_alter _ _ _ _ _ Hu) as (-> & _). split.
    + by apply touched_key, slug_keyed.
    + apply (counted_key _ _ i); [by apply slug_keyed|]. unfold Store.update_portfolio in Hu.
      by destruct (Store.portfolios d !! i); injection Hu as _ <-.
  - injection Hu as <- <-. split; [apply touched_none|split; [|done]]; by intros; apply slug_none.
Qed.
Lemma typed_update_run (d d' : Store.db) i f n :
  Store.db_inv d → Store.update_run i f d = Ok (d', n) →
  touched (run_has_id i) f (Store.runs d) (Store.runs d').
Proof.
  intros Hd Hu. pose proof (StoreLaws.update_run_alter _ _ _ _ _ Hu) as (-> & _). by apply touched_key, run_keyed.
Qed.
Lemma typed_recovery (d d' : Store.db) reason n :
  (Store.fail_running_portfolios reason d = Ok (d', n) →
   touched is_running (Store.set_failed reason (Store.now d)) (Store.portfolios d) (Store.portfolios d')) ∧
  (Store.fail_inflight_runs reason d = Ok (d', n) →
   touched Store.inflight (λ r, r <| run_Status := "failed" |> <| run_FinishedAt := Some (Store.now d) |>
                                  <| run_Error := Some reason |>) (Store.runs d) (Store.runs d')).
Proof.
  split; intros [= <- _]; [|done]. apply map_fmap_ext. intros j p _. unfold is_running. cbn.
  by case_decide; case_bool_decide.
Qed.
Lemma typed_delete (d d' : Store.db) o sl n :
  Store.db_inv d → Store.delete_row o sl d = Ok (d', n) →
  dropped (has_slug o sl) (Store.portfolios d) (Store.portfolios d') ∧ counted (has_slug o sl) (Store.portfolios d) n.
Proof.
  intros Hd Hu. unfold Store.delete_row in Hu. destruct (Store.find_slug o sl d) as [i|] eqn:Hs; injection Hu as <- <-.
  - split; [by apply dropped_key, slug_keyed|]. apply (counted_key _ _ i); [by apply slug_keyed|].
    apply Store.find_slug_Some in Hs as (q & Hq & _); [|done]. by rewrite Hq.
  - split; [apply dropped_none|split; [|done]]; by intros; apply slug_none.
Qed.

(** The rows of a table are under their ids. *)
Definition alerts_keyed (d : alertdb) : Prop := map_Forall (λ i a, a_ID a = i) (alerts d).
Lemma typed_update_alert (d : alertdb) i f :
  alerts_keyed d → touched (alert_has_id i) (f (Store.now (adb d))) (alerts d) (alerts (update_alert i f d).1).
Proof.
  intros Hd. assert (∀ j a, alerts d !! j = Some a → alert_has_id i a = bool_decide (j = i)) as Hk.
  { intros j a Ha. unfold alert_has_id. by rewrite (Hd _ _ Ha). }
  unfold update_alert. destruct (alerts d !! i) as [a|] eqn:Ha; cbn.
  - replace (<[i:=f (Store.now (adb d)) a]> (alerts d)) with (alter (f (Store.now (adb d))) i (alerts d));
      [by apply touched_key|]. apply map_eq. intros j. destruct (decide (j = i)) as [->|Hne].
    + by rewrite lookup_alter_eq, lookup_insert_eq, Ha.
    + by rewrite lookup_alter_ne, lookup_insert_ne.
  - apply touched_none. intros j b Hb. rewrite (Hk _ _ Hb). apply bool_decide_eq_false_2. congruence.
Qed.
Lemma typed_drop_alert (d : alertdb) i :
  alerts_keyed d →
  dropped (alert_has_id i) (alerts d) (delete i (alerts d)) ∧
  dropped (λ a, alert_has_id i a && bool_decide (a_Recipients a = [])) (alerts d) (alerts (drop_if_empty i d)).
Proof.
  intros Hd. assert (∀ j a, alerts d !! j = Some a → alert_has_id i a = bool_decide (j = i)) as Hk.
  { intros j a Ha. unfold alert_has_id. by rewrite (Hd _ _ Ha). }
  split; [by apply dropped_key|]. unfold drop_if_empty.
  destruct (alerts d !! i) as [a|] eqn:Ha; [destruct (bool_decide_reflect (a_Recipients a = [])) as [He|He]|].
  - apply (dropped_key _ _ i). intros j b Hb. rewrite (Hk _ _ Hb). destruct (bool_decide_reflect (j = i)) as [->|]; [|done].
    assert (b = a) as -> by congruence. by rewrite bool_decide_eq_true_2.
  - apply dropped_none. intros j b Hb. rewrite (Hk _ _ Hb). destruct (bool_decide_reflect (j = i)) as [->|]; [|done].
    assert (b = a) as -> by congruence. by rewrite bool_decide_eq_false_2.
  - apply dropped_none. intros j b Hb. rewrite (Hk _ _ Hb), bool_decide_eq_false_2; [done|congruence].
Qed.

Definition strategies_keyed (r : Registry.registry) : Prop :=
  map_Forall (λ c s, s_ShortCode s = c) (Registry.rg_rows r).
Lemma typed_update_strategy r r' c f u :
  strategies_keyed r → Registry.update c f r = Ok (r', u) →
  touched (has_code c) f (Registry.rg_rows r) (Registry.rg_rows r').
Proof.
  intros Hr [= <- _]. apply touched_key. intros j s Hs. unfold has_code. by rewrite (Hr _ _ Hs).
Qed.
End typed.

(** ** The columns and the statements *)

(** C12: what is stored is what is read.  For each of the four tables, selecting the
    package's column list from the row of a record and scanning the values into
    the destinations of its scan function gives the record back: no two columns
    are swapped, no nullable column meets a destination that refuses NULL, and
    there are as many destinations as columns.  Left out are what the structs or
    lists leave out, a run's trigger and a strategy's statistics error.  The
    parameters' JSON must parse back to them. *)
Theorem rows_read_back (Marshal : gmap string json → string) (Unmarshal : string → result (gmap string json))
    (p : Portfolio) (r : Run) (s : Strategy) (a : Alert) :
  Marshal (Parameters p) ≠ "" → Unmarshal (Marshal (Parameters p)) = Ok (Parameters p) →
  scan Unmarshal (select portfolioColumns (portfolio_row Marshal p)) = Ok p ∧
  scanRun (select runColumns (run_row r)) = Ok (r <| run_TriggeredBy := "" |>) ∧
  scanStrategy (select strategyColumns (strategy_row s)) = Ok (s <| s_StatsError := None |>) ∧
  scanAlert (select alertColumns (alert_row a)) = Ok a.
Proof. intros Hne Hu. split_and!; [by apply scan_portfolio|apply scan_run|apply scan_strategy|apply scan_alert]. Qed.

(** The texts that insert write the rows the stores insert. *)
Definition inserts_agree `{MapRange} (Marshal : gmap string json → string) (d : Store.db) (ad : alertdb) : Prop :=
  (∀ p, match Store.insert_row p d with
        | Ok (d', _) => ∃ q, Store.portfolios d' !! Store.next_uuid d = Some q ∧
            inserted_row Marshal p (Store.next_uuid d) (Store.now d) = Some (portfolio_row Marshal q)
        | Err _ => True
        end) ∧
  (∀ pid status trigger, match Store.insert_run pid status trigger d with
     | Ok (_, r) => created_row pid status trigger (Store.next_uuid d) (Store.now d) = Some (run_row r)
     | Err _ => True
     end) ∧
  (∀ pid frequency recipients, match insert_alert pid frequency recipients ad with
     | Ok (_, a) => alert_created_row pid frequency recipients (next_alert ad) (Store.now (adb ad)) = Some (alert_row a)
     | Err _ => True
     end) ∧
  ∀ s t old, upserted_row s t (strategy_row <$> old) = Some (strategy_row (Registry.upsert_row s t old)).
(** The texts that update change the rows as the stores do. *)
Definition updates_agree (Marshal : gmap string json → string) : Prop :=
  (∀ owner slug name id a msg v sd ed ver desc params preset,
    updates Marshal running_set [SqlUuid id] Store.set_running ∧
    updates Marshal ready_set (ready_params id a) (Store.set_ready a) ∧
    updates Marshal failed_set [SqlUuid id; SqlText msg] (Store.set_failed msg) ∧
    updates Marshal failed_all_set [SqlText msg] (Store.set_failed msg) ∧
    updates Marshal name_set [SqlText owner; SqlText slug; SqlText name] (λ t p, p <| Name := name |> <| UpdatedAt := t |>) ∧
    updates Marshal retention_set [SqlText owner; SqlText slug; SqlInt v] (λ t p, p <| RunRetention := v |> <| UpdatedAt := t |>) ∧
    updates Marshal dates_set [SqlText owner; SqlText slug; or_null d_time sd; or_null d_time ed]
      (λ t p, p <| StartDate := Store.coalesce sd (StartDate p) |> <| EndDate := Store.coalesce ed (EndDate p) |> <| UpdatedAt := t |>) ∧
    updates Marshal upgrade_set [SqlUuid id; SqlText ver; json_or_null desc; json_or_null (Marshal params); or_null d_text preset]
      (Store.set_upgrade ver desc params preset)) ∧
  (∀ id path msg ms,
    run_updates run_running_set [SqlUuid id] Store.run_running ∧
    run_updates run_success_set [SqlUuid id; SqlText path; SqlInt ms] (Store.run_success path ms) ∧
    run_updates run_failed_set [SqlUuid id; SqlText msg; SqlInt ms] (Store.run_failed msg ms) ∧
    run_updates run_interrupted_set [SqlText msg]
      (λ t r, r <| run_Status := "failed" |> <| run_FinishedAt := Some t |> <| run_Error := Some msg |>)) ∧
  (∀ id frequency recipients sentAt value recipient,
    alert_updates alert_set [SqlUuid id; SqlText frequency; SqlTexts recipients]
      (λ t a, a <| a_Frequency := frequency |> <| a_Recipients := recipients |> <| a_UpdatedAt := t |>) ∧
    alert_updates alert_sent_set [SqlUuid id; SqlTime (micros sentAt); SqlFloat value]
      (λ t a, a <| a_LastSentAt := Some (micros sentAt) |> <| a_LastSentValue := Some value |> <| a_UpdatedAt := t |>) ∧
    alert_updates alert_without_set [SqlUuid id; SqlText recipient] (set_without recipient)) ∧
  ∀ code ver kind ref j msg x,
    strategy_updates attempt_set [SqlText code; SqlText ver]
      (λ t s, s <| s_LastAttemptedVer := Some ver |> <| s_InstallError := None |> <| s_UpdatedAt := t |>) ∧
    strategy_updates success_set [SqlText code; SqlText ver; SqlText kind; SqlText ref; json_or_null j]
      (Registry.success ver kind ref j) ∧
    strategy_updates failure_set [SqlText code; SqlText ver; SqlText msg] (Registry.failure ver msg) ∧
    strategy_updates stats_set (stats_params code x) (Registry.set_stats x) ∧
    strategy_updates stats_error_set [SqlText code; SqlText msg]
      (λ t s, s <| s_StatsError := Some msg |> <| s_UpdatedAt := t |>).

(** The WHERE clauses select the records the stores ask for ... *)
Definition clauses_agree (Marshal : gmap string json → string) : Prop :=
  (∀ id owner slug code args,
    selects (portfolio_row Marshal) id_clause (SqlUuid id :: args) (has_id id) ∧
    selects (portfolio_row Marshal) id_spaced_clause (SqlUuid id :: args) (has_id id) ∧
    selects (portfolio_row Marshal) owner_clause [SqlText owner] (λ p, bool_decide (OwnerSub p = owner)) ∧
    selects (portfolio_row Marshal) slug_clause (SqlText owner :: SqlText slug :: args) (has_slug owner slug) ∧
    selects (portfolio_row Marshal) strategy_code_clause [SqlText code] (λ p, bool_decide (StrategyCode p = code)) ∧
    selects (portfolio_row Marshal) running_clause args is_running) ∧
  (∀ id pid args,
    selects run_row id_clause (SqlUuid id :: args) (run_has_id id) ∧
    selects run_row inflight_clause args Store.inflight ∧
    selects run_row portfolio_id_clause [SqlUuid pid] (λ r, bool_decide (run_PortfolioID r = pid)) ∧
    selects run_row run_of_clause [SqlUuid id; SqlUuid pid] (λ r, run_has_id id r && bool_decide (run_PortfolioID r = pid))) ∧
  (∀ id pid args,
    selects alert_row id_clause (SqlUuid id :: args) (alert_has_id id) ∧
    selects alert_row id_spaced_clause (SqlUuid id :: args) (alert_has_id id) ∧
    selects alert_row portfolio_id_clause [SqlUuid pid] (λ a, bool_decide (a_PortfolioID a = pid)) ∧
    selects alert_row recipients_empty_clause [SqlUuid id] (λ a, alert_has_id id a && bool_decide (a_Recipients a = []))) ∧
  ∀ code url ver args,
    selects strategy_row short_code_clause (SqlText code :: args) (has_code code) ∧
    selects strategy_row short_code_tight_clause (SqlText code :: args) (has_code code) ∧
    selects strategy_row clone_url_clause [SqlText url] (λ s, bool_decide (s_CloneURL s = url)) ∧
    selects strategy_row artifact_clause [SqlText url; SqlText ver]
      (λ s, bool_decide (s_CloneURL s = url ∧ s_InstalledVer s = Some ver ∧ s_InstallError s = None)) ∧
    selects strategy_row installed_clause [] (λ s, bool_decide (is_Some (s_ArtifactRef s))).
(** ... and the stores' statements change or drop those and no others, on tables
    whose rows are under their keys. *)
Definition stores_touch `{MapRange} (d : Store.db) (ad : alertdb) (rg : Registry.registry) : Prop :=
  (Store.db_inv d →
    (∀ d' i f n, Store.update_portfolio i f d = Ok (d', n) →
       touched (has_id i) f (Store.portfolios d) (Store.portfolios d') ∧ counted (has_id i) (Store.portfolios d) n) ∧
    (∀ d' o sl f n, Store.update_slug o sl f d = Ok (d', n) →
       touched (has_slug o sl) (f (Store.now d)) (Store.portfolios d) (Store.portfolios d') ∧
       counted (has_slug o sl) (Store.portfolios d) n) ∧
    (∀ d' o sl n, Store.delete_row o sl d = Ok (d', n) →
       dropped (has_slug o sl) (Store.portfolios d) (Store.portfolios d') ∧ counted (has_slug o sl) (Store.portfolios d) n) ∧
    (∀ d' i f n, Store.update_run i f d = Ok (d', n) → touched (run_has_id i) f (Store.runs d) (Store.runs d'))) ∧
  (∀ d' reason n,
    (Store.fail_running_portfolios reason d = Ok (d', n) →
     touched is_running (Store.set_failed reason (Store.now d)) (Store.portfolios d) (Store.portfolios d')) ∧
    (Store.fail_inflight_runs reason d = Ok (d', n) →
     touched Store.inflight (λ r, r <| run_Status := "failed" |> <| run_FinishedAt := Some (Store.now d) |>
                                    <| run_Error := Some reason |>) (Store.runs d) (Store.runs d'))) ∧
  (alerts_keyed ad → ∀ i,
    (∀ f, touched (alert_has_id i) (f (Store.now (adb ad))) (alerts ad) (alerts (update_alert i f ad).1)) ∧
    dropped (alert_has_id i) (alerts ad) (delete i (alerts ad)) ∧
    dropped (λ a, alert_has_id i a && bool_decide (a_Recipients a = [])) (alerts ad) (alerts (drop_if_empty i ad))) ∧
  (strategies_keyed rg → ∀ c f rg' u, Registry.update c f rg = Ok (rg', u) →
     touched (has_code c) f (Registry.rg_rows rg) (Registry.rg_rows rg')).

(** C9: the SQL does what the stores promise.  Read from its text - the column
    list matched with the parameters by position, each assignment evaluated on the
    old row, [NOW()], [NULL], [COALESCE], [array_remove] and [EXCLUDED] included -
    every INSERT and every UPDATE's SET list of the four tables turns the row of a
    record into the row of the record the typed stores hold afterwards.  Read the
    same way, every WHERE clause of the four tables, but for the queries of
    [ClaimDue] and [PruneRuns], holds of exactly the records the typed stores ask
    for, and where the rows are under their keys those are the rows the typed
    UPDATEs change and the typed DELETEs drop.  So the theorems about [Store],
    [Registry] and [Alert] are about the statements the program sends.  JSONB and
    DATE columns are taken to give back what was written. *)
Theorem statements_refine `{MapRange} (Marshal : gmap string json → string) (d : Store.db) (ad : alertdb)
    (rg : Registry.registry) :
  inserts_agree Marshal d ad ∧ updates_agree Marshal ∧ clauses_agree Marshal ∧ stores_touch d ad rg.
Proof.
  split; [|split; [|split]].
  - split_and!; intros.
    + destruct (Store.insert_row p d) as [[d' u]|e] eqn:Hi; [|done]. by eapply insert_portfolio.
    + destruct (Store.insert_run pid status trigger d) as [[d' r]|e] eqn:Hi; [|done]. by eapply create_run.
    + destruct (insert_alert pid frequency recipients ad) as [[d' a]|e] eqn:Hi; [|done]. by eapply create_alert.
    + apply upsert_statement.
  - split; [|split; [|split]]; intros; [apply portfolio_updates|apply run_statements|apply alert_statements|apply strategy_statements].
  - split; [|split; [|split]]; intros; [apply portfolio_clauses|apply run_clauses|apply alert_clauses|apply strategy_clauses].
  - split; [|split; [|split]].
    + intros Hd. split_and!; intros; [by eapply typed_update_portfolio|by eapply typed_update_slug|by eapply typed_delete|by eapply typed_update_run].
    + intros d' reason n. apply typed_recovery.
    + intros Hk i. split; [intros f; by apply typed_update_alert|by apply typed_drop_alert].
    + intros Hk c f rg' u. by apply typed_update_strategy.
Qed.

(** A portfolio with a benchmark and a start date. *)
Lemma rows_read_back_witness :
  let p := zero_Portfolio <| ID := 3%N |> <| Name := "A" |> <| Benchmark := "SPY" |> <| StartDate := Some 5 |> in
  scan (λ _, Ok ∅) (select portfolioColumns (portfolio_row (λ _, "{}") p)) = Ok p.
Proof.
  intros p. apply (rows_read_back (λ _, "{}") (λ _, Ok ∅) p
    {| run_ID := 1%N; run_PortfolioID := 3%N; run_Status := "queued"; run_StartedAt := None; run_FinishedAt := None;
       run_DurationMs := None; run_Error := None; run_SnapshotPath := None; run_TriggeredBy := "manual" |}
    (listed_Strategy "s" "o" "n" "u" true None None [] None 0)
    {| a_ID := 1%N; a_PortfolioID := 3%N; a_Frequency := "daily"; a_Recipients := []; a_LastSentAt := None;
       a_LastSentValue := None; a_CreatedAt := 0; a_UpdatedAt := 0 |}); [done|reflexivity].
Defined.
