(* ===== verification/Sweep.v ===== *)
(** The two sweeps of the snapshot directory (src/backtest/sweep.go,
    src/backtest/orphan_sweep.go) as programs over the calls they make of the
    file system and of the store, and what they may remove. *)
From S2P Require Import Prelude GoStrings GoTime Path Prog Backtest BacktestLaws.
From Stdlib Require Import Ascii.

(** An [os.DirEntry]. *)
Record dirent := { de_Name : string; de_IsDir : bool }.

(** What the sweeps call: package [os], [PortfolioSweeper] and [OrphanGCStore]. *)
Inductive os_call : Type → Type :=
  | OsNow : os_call instant
  | ReadDir (dir : string) : os_call (result (list dirent))
  | Stat (path : string) : os_call (result instant)
  | OsRemove (path : string) : os_call (option goerror)
  | OsRemoveAll (path : string) : os_call (option goerror)
  | MarkAllRunningAsFailed (reason : string) : os_call (result (Z * Z))
  | AllPortfolioIDs : os_call (result (gset uuid))
  | AllRunIDs : os_call (result (gset uuid)).

Notation S := (prog os_call).
Definition hour : Z := 3600 * 1000000000.

(** ** Stale temporaries *)
Definition removeIfStaleTmp (path name : string) (cutoff : instant) : S bool :=
  if negb (has_suffix name ".sqlite.tmp") then Ret false
  else
    info ← do (Stat path);
    match info with
    | Err _ => Ret false
    | Ok mtime =>
      if negb (mtime <? cutoff) then Ret false
      else e ← do (OsRemove path); Ret (bool_decide (e = None))
    end.

(** The loop of [sweepStaleTmps]. *)
Fixpoint sweep_files (dir : string) (cutoff : instant) (entries : list dirent) (removed : Z) : S Z :=
  match entries with
  | [] => Ret removed
  | entry :: es =>
    if de_IsDir entry then sweep_files dir cutoff es removed
    else
      b ← removeIfStaleTmp (Join [dir; de_Name entry]) (de_Name entry) cutoff;
      sweep_files dir cutoff es (if b : bool then removed + 1 else removed)
  end.

Definition sweepStaleTmps (dir : string) (cutoff : instant) : S Z :=
  entries ← do (ReadDir dir);
  match entries with
  | Err _ => Ret 0
  | Ok es => sweep_files dir cutoff es 0
  end.

(** The loop of [StartupSweep]. *)
Fixpoint sweep_top (snapshotsDir : string) (cutoff : instant) (top : list dirent) (removed : Z) : S Z :=
  match top with
  | [] => Ret removed
  | entry :: es =>
    let full := Join [snapshotsDir; de_Name entry] in
    if de_IsDir entry then
      n ← sweepStaleTmps full cutoff; sweep_top snapshotsDir cutoff es (removed + n)
    else
      b ← removeIfStaleTmp full (de_Name entry) cutoff;
      sweep_top snapshotsDir cutoff es (if b : bool then removed + 1 else removed)
  end.

Definition StartupSweep (snapshotsDir : string) (ps : bool) : S (option goerror) :=
  t ← do OsNow;
  let cutoff := t - 1 * hour in
  top ← do (ReadDir snapshotsDir);
  match top with
  | Err e => Ret (Some e)
  | Ok es =>
    _ ← sweep_top snapshotsDir cutoff es 0;
    if ps then
      r ← do (MarkAllRunningAsFailed "server restarted mid-run");
      match r with Err e => Ret (Some e) | Ok _ => Ret None end
    else Ret None
  end.

(** ** Orphans *)
Record orphanCandidate := {
  oc_path : string;
  oc_portfolioID : uuid;
  oc_runID : uuid;
  oc_wholeDir : bool;
}.

Section orphans.
Context (uuid_String : uuid → string) (uuid_Parse : string → result uuid).

(** The candidate a file of a portfolio's directory is, if any. *)
Definition file_candidate (portDir : string) (portfolioID : uuid) (f : dirent) : option orphanCandidate :=
  if de_IsDir f then None
  else if negb (has_suffix (de_Name f) ".sqlite") then None
  else match uuid_Parse (trim_suffix (de_Name f) ".sqlite") with
       | Err _ => None
       | Ok runID => Some {| oc_path := Join [portDir; de_Name f]; oc_portfolioID := portfolioID;
                             oc_runID := runID; oc_wholeDir := false |}
       end.

(** The walk of [collectOrphanCandidates]. *)
Fixpoint walk (snapshotsDir : string) (top : list dirent) (out : list orphanCandidate) :
    S (list orphanCandidate) :=
  match top with
  | [] => Ret out
  | entry :: es =>
    if negb (de_IsDir entry) then walk snapshotsDir es out
    else match uuid_Parse (de_Name entry) with
         | Err _ => walk snapshotsDir es out
         | Ok portfolioID =>
           let portDir := Join [snapshotsDir; de_Name entry] in
           let out := out ++ [{| oc_path := portDir; oc_portfolioID := portfolioID; oc_runID := uuid_Nil;
                                 oc_wholeDir := true |}] in
           files ← do (ReadDir portDir);
           match files with
           | Err _ => walk snapshotsDir es out
           | Ok fs => walk snapshotsDir es (out ++ omap (file_candidate portDir portfolioID) fs)
           end
         end
  end.

Definition collectOrphanCandidates (snapshotsDir : string) : S (result (list orphanCandidate)) :=
  top ← do (ReadDir snapshotsDir);
  match top with
  | Err e => Ret (Err e)
  | Ok es => out ← walk snapshotsDir es []; Ret (Ok out)
  end.

(** The removal loop of [SweepOrphans]. *)
Fixpoint reap (portfolios runs : gset uuid) (cs : list orphanCandidate) (removed : Z) : S Z :=
  match cs with
  | [] => Ret removed
  | c :: cs =>
    if oc_wholeDir c then
      if decide (oc_portfolioID c ∈ portfolios) then reap portfolios runs cs removed
      else
        rerr ← do (OsRemoveAll (oc_path c));
        match rerr with
        | Some _ => reap portfolios runs cs removed
        | None => reap portfolios runs cs (removed + 1)
        end
    else if decide (oc_runID c ∈ runs) then reap portfolios runs cs removed
    else
      rerr ← do (OsRemove (oc_path c));
      match rerr with
      | Some e => if negb (errors_is e fs_ErrNotExist) then reap portfolios runs cs removed
                  else reap portfolios runs cs (removed + 1)
      | None => reap portfolios runs cs (removed + 1)
      end
  end.

Definition SweepOrphans (snapshotsDir : string) : S (result Z) :=
  candidates ← collectOrphanCandidates snapshotsDir;
  match candidates with
  | Err e => Ret (Err e)
  | Ok cs =>
    portfolios ← do AllPortfolioIDs;
    match portfolios with
    | Err e => Ret (Err e)
    | Ok ps =>
      runs ← do AllRunIDs;
      match runs with
      | Err e => Ret (Err e)
      | Ok rs => n ← reap ps rs cs 0; Ret (Ok n)
      end
    end
  end.

(** [StartOrphanGC], with the number of ticks before its context is cancelled. *)
Fixpoint gc_ticks (snapshotsDir : string) (ticks : nat) : S () :=
  match ticks with
  | O => Ret ()
  | Datatypes.S n => _ ← SweepOrphans snapshotsDir; gc_ticks snapshotsDir n
  end.
Definition StartOrphanGC (snapshotsDir : string) (interval : Z) (ticks : nat) : S () :=
  _ ← SweepOrphans snapshotsDir;
  if interval <=? 0 then Ret () else gc_ticks snapshotsDir ticks.
End orphans.
