(* ===== verification/SweepLaws.v ===== *)
(** What the sweeps may remove and what they must: the snapshot of a portfolio
    and run that both have a row is never touched, and every other recognised
    entry is reaped. *)
From S2P Require Import Prelude GoStrings GoTime Path Prog Backtest BacktestLaws Sweep.
From Stdlib Require Import Ascii.

Notation ev := (event os_call).

(** ** Observations of a sweep *)
Definition listing (e : ev) : list dirent :=
  match e with
  | Event _ c a =>
    match c in os_call A return A → list dirent with
    | ReadDir _ => λ a, match a with Ok es => es | Err _ => [] end
    | _ => λ _, []
    end a
  end.
Definition read_dir (d : string) (es : list dirent) : ev := Event _ (ReadDir d) (Ok es).
Definition reading (e : ev) : option (string * result (list dirent)) :=
  match e with
  | Event _ c a =>
    match c in os_call A return A → option (string * result (list dirent)) with
    | ReadDir d => λ a, Some (d, a)
    | _ => λ _, None
    end a
  end.
Lemma read_dir_inv d fs d' x : read_dir d fs = Event _ (ReadDir d') x → d = d' ∧ x = Ok fs.
Proof. intros Heq. apply (f_equal reading) in Heq. cbn in Heq. by simplify_eq. Qed.
Definition portfolio_answer (e : ev) : option (result (gset uuid)) :=
  match e with
  | Event _ c a =>
    match c in os_call A return A → option (result (gset uuid)) with AllPortfolioIDs => Some | _ => λ _, None end a
  end.
Definition run_answer (e : ev) : option (result (gset uuid)) :=
  match e with
  | Event _ c a =>
    match c in os_call A return A → option (result (gset uuid)) with AllRunIDs => Some | _ => λ _, None end a
  end.
Definition portfolio_rows (ps : gset uuid) : ev := Event _ AllPortfolioIDs (Ok ps).
Definition run_rows (rs : gset uuid) : ev := Event _ AllRunIDs (Ok rs).

(** A path is below another: itself, or an entry of a path below it. *)
Inductive below (p : string) : string → Prop :=
  | below_self : below p p
  | below_elem q f : below p q → proper f → f ≠ ".." → below p (Join [q; f]).

Definition removes (e : ev) (q : string) : Prop :=
  match ev_call e with OsRemove p => p = q | OsRemoveAll p => below p q | _ => False end.

(** [os.ReadDir] gives base names: no slash, neither [.] nor [..]. *)
Definition base_name (e : dirent) : Prop := proper (de_Name e) ∧ de_Name e ≠ "..".
Definition listing_ok (e : ev) : Prop := Forall base_name (listing e).

(** ** Paths *)
Lemma below_render r l q :
  clean_list r l → below (render r l) q → ∃ k, q = render r (l ++ k) ∧ clean_list r (l ++ k).
Proof.
  intros Hl Hb. induction Hb as [|q f Hb (k & -> & Hc) Hf Hne].
  - exists []. by rewrite app_nil_r.
  - exists (k ++ [f]). pose proof (clean_list_snoc _ _ f Hc Hf Hne) as Hc'.
    destruct (clean_render _ _ Hc) as [Hr Hs]. rewrite Join_elem by (try apply render_ne; done).
    rewrite Hr, Hs, app_assoc. done.
Qed.

(** Below another directory entry is another path. *)
Lemma below_sub d e e' f :
  d ≠ "" → proper e → e ≠ ".." → proper e' → e' ≠ ".." → proper f → f ≠ ".." →
  below (Join [d; e']) (Join [Join [d; e]; f]) → e' = e.
Proof.
  intros Hd He Hne He' Hne' Hf Hnf Hb. destruct (Join_two d e f Hd He Hne Hf Hnf) as [Hj Hc].
  rewrite Hj, (Join_elem d e') in Hb by done.
  apply below_render in Hb as (k & Heq & Hk); [|apply clean_list_snoc; [apply clean_dir|done..]].
  apply render_inj in Heq; [|done..]. rewrite <-app_assoc in Heq. apply app_inv_head in Heq. by injection Heq.
Qed.

Lemma file_sub d e e' f f' :
  d ≠ "" → proper e → e ≠ ".." → proper e' → e' ≠ ".." → proper f → f ≠ ".." → proper f' → f' ≠ ".." →
  Join [Join [d; e']; f'] = Join [Join [d; e]; f] → e' = e ∧ f' = f.
Proof.
  intros Hd He Hne He' Hne' Hf Hnf Hf' Hnf' Heq.
  destruct (Join_two d e f Hd He Hne Hf Hnf) as [Hj Hc], (Join_two d e' f' Hd He' Hne' Hf' Hnf') as [Hj' Hc'].
  rewrite Hj, Hj' in Heq. apply render_inj in Heq; [|done..]. apply app_inv_head in Heq. by injection Heq.
Qed.

Lemma elem_path_ne d e : d ≠ "" → proper e → e ≠ ".." → Join [d; e] ≠ "".
Proof.
  intros. rewrite Join_elem by done. apply render_ne, clean_list_snoc; [apply clean_dir|done..].
Qed.

(** ** Stale temporaries *)
Definition sqlite : string := ".sqlite".
Definition tmp : string := ".sqlite.tmp".

(** The events of the first sweep: each one removes at most a temporary. *)
Definition only_tmp (q : string) (e : ev) : Prop := listing_ok e → ¬ removes e q.

Lemma Forall_traces_pbind {A B} (P : ev → Prop) (p : prog os_call A) (f : A → prog os_call B) tr r :
  traces (pbind f p) tr r →
  (∀ t a, traces p t a → Forall P t) → (∀ a t, traces (f a) t r → Forall P t) → Forall P tr.
Proof. intros (a & t1 & t2 & -> & H1 & H2)%traces_pbind Hp Hf. apply Forall_app. eauto. Qed.

Lemma has_suffix_iff s suf : has_suffix s suf = true ↔ ∃ r, s = r +:+ suf.
Proof.
  unfold has_suffix. split.
  - destruct (strip_suffix suf s) as [r|] eqn:Hs; [|done]. intros _. exists r. by apply strip_suffix_Some.
  - intros [r ->]. by rewrite strip_suffix_app.
Qed.
Lemma trim_suffix_app s suf : trim_suffix (s +:+ suf) suf = s.
Proof. unfold trim_suffix. by rewrite strip_suffix_app. Qed.

Lemma suffixes_differ s t : s +:+ tmp ≠ t +:+ sqlite.
Proof.
  intros Heq. apply (f_equal bytes_of) in Heq. rewrite !bytes_of_app in Heq.
  apply (f_equal last) in Heq. by rewrite !last_app in Heq.
Qed.

Section tmps.
Context (q : string).

Lemma remove_if_stale path name cutoff tr b :
  traces (removeIfStaleTmp path name cutoff) tr b →
  (has_suffix name tmp = true → path ≠ q) → Forall (λ e, ¬ removes e q) tr.
Proof.
  unfold removeIfStaleTmp. intros Ht Hq. change ".sqlite.tmp" with tmp in Ht.
  destruct (has_suffix name tmp) eqn:Hs; cbn [negb] in Ht; [|by apply traces_Ret in Ht as [-> _]].
  unfold do, mbind, prog_bind in Ht. cbn [pbind] in Ht. apply traces_Call in Ht as (info & t & -> & Ht).
  constructor; [exact id|]. destruct info as [mtime|]; [|by apply traces_Ret in Ht as [-> _]].
  destruct (negb _); [by apply traces_Ret in Ht as [-> _]|].
  apply traces_Call in Ht as (e & t' & -> & Ht). apply traces_Ret in Ht as [-> _].
  constructor; [|done]. cbn. auto.
Qed.

Lemma sweep_files_spares dir cutoff entries n tr m :
  traces (sweep_files dir cutoff entries n) tr m → Forall base_name entries →
  (∀ e, base_name e → has_suffix (de_Name e) tmp = true → Join [dir; de_Name e] ≠ q) →
  Forall (λ e, ¬ removes e q) tr.
Proof.
  revert n tr. induction entries as [|e es IH]; intros n tr Ht Hb Hq; [by apply traces_Ret in Ht as [-> _]|].
  apply Forall_cons in Hb as [He Hb]. cbn [sweep_files] in Ht.
  destruct (de_IsDir e); [by eapply IH|]. eapply Forall_traces_pbind; [exact Ht|..].
  - intros t b Hr. eapply remove_if_stale; [done|]. intros Hs. by apply Hq.
  - intros b t Hr. exact (IH _ _ Hr Hb Hq).
Qed.
End tmps.

Section live.
Context (uuid_String : uuid → string) (uuid_Parse : string → result uuid) (o : orchestrator).
Hypothesis uuid_len : ∀ u, (36 ≤ String.length (uuid_String u))%nat.
Hypothesis uuid_no_slash : ∀ u, no_slash (uuid_String u).
(** [uuid.Parse] reads what [String] prints. *)
Hypothesis uuid_parse : ∀ u, (u < 2 ^ 128)%N → uuid_Parse (uuid_String u) = Ok u.

Notation dir := (SnapshotsDir (o_cfg o)).
Context (p r : uuid).
Hypothesis dir_ne : dir ≠ "".
Hypothesis p_range : (p < 2 ^ 128)%N.
Hypothesis r_range : (r < 2 ^ 128)%N.
Notation final := (final_of uuid_String o p r).

Lemma final_shape :
  final = Join [Join [dir; uuid_String p]; uuid_String r +:+ sqlite] ∧
  proper (uuid_String p) ∧ uuid_String p ≠ ".." ∧
  proper (uuid_String r +:+ sqlite) ∧ uuid_String r +:+ sqlite ≠ "..".
Proof using uuid_len uuid_no_slash.
  split; [done|]. destruct (proper_uuid uuid_String uuid_len uuid_no_slash p "") as [H1 H2].
  { by intros ?%not_elem_of_nil. }
  rewrite string_app_nil_r in *. split; [done|]. split; [done|].
  apply proper_uuid; [done|done|]. by apply no_slash_dec.
Qed.

(** A file of the top directory is not below a portfolio's. *)
Lemma top_file_differs e : base_name e → Join [dir; de_Name e] ≠ final.
Proof using uuid_len uuid_no_slash dir_ne.
  intros [He Hne] Heq. destruct final_shape as (Hf & Hp & Hpd & Hr & Hrd). rewrite Hf in Heq.
  destruct (Join_two dir _ _ dir_ne Hp Hpd Hr Hrd) as [Hj Hc]. rewrite Hj, (Join_elem dir) in Heq by done.
  apply render_inj in Heq; [|apply clean_list_snoc; [apply clean_dir|done..]|done].
  apply app_inv_head in Heq. discriminate.
Qed.

Lemma tmp_differs d e :
  base_name d → base_name e → has_suffix (de_Name e) tmp = true → Join [Join [dir; de_Name d]; de_Name e] ≠ final.
Proof using uuid_len uuid_no_slash dir_ne.
  intros [Hd Hdd] [He Hed] [s Hs]%has_suffix_iff Heq. destruct final_shape as (Hf & Hp & Hpd & Hr & Hrd).
  rewrite Hf in Heq. apply file_sub in Heq as [_ Hn]; [|done..]. rewrite Hs in Hn. by apply suffixes_differ in Hn.
Qed.

Lemma sweep_top_spares cutoff top n tr m :
  traces (sweep_top dir cutoff top n) tr m → Forall base_name top → Forall listing_ok tr →
  Forall (λ e, ¬ removes e final) tr.
Proof using uuid_len uuid_no_slash dir_ne.
  revert n tr. induction top as [|e es IH]; intros n tr Ht Hb Hok; [by apply traces_Ret in Ht as [-> _]|].
  apply Forall_cons in Hb as [He Hb]. cbn [sweep_top] in Ht.
  destruct (de_IsDir e); apply traces_pbind in Ht as (a & t1 & t2 & -> & H1 & H2);
    apply Forall_app in Hok as [Hok1 Hok2]; apply Forall_app; (split; [|by eapply IH]).
  - unfold sweepStaleTmps, do, mbind, prog_bind in H1. cbn [pbind] in H1.
    apply traces_Call in H1 as (x & t & -> & H1). apply Forall_cons in Hok1 as [Hx Hok1].
    constructor; [exact id|]. destruct x as [fs|]; [|by apply traces_Ret in H1 as [-> _]].
    eapply sweep_files_spares; [done|exact Hx|]. intros f Hf. by apply tmp_differs.
  - eapply remove_if_stale; [done|]. intros _. by apply top_file_differs.
Qed.

Lemma startup_sweep_spares ps tr res :
  traces (StartupSweep dir ps) tr res → Forall listing_ok tr → Forall (λ e, ¬ removes e final) tr.
Proof using uuid_len uuid_no_slash dir_ne.
  unfold StartupSweep, do, mbind, prog_bind. cbn [pbind]. intros Ht Hok.
  apply traces_Call in Ht as (t & tr1 & -> & Ht). apply traces_Call in Ht as (top & tr2 & -> & Ht).
  apply Forall_cons in Hok as [_ Hok]. apply Forall_cons in Hok as [Htop Hok].
  constructor; [exact id|]. constructor; [exact id|].
  destruct top as [es|]; [|by apply traces_Ret in Ht as [-> _]].
  apply traces_pbind in Ht as (a & t1 & t2 & -> & H1 & H2). apply Forall_app in Hok as [Hok1 Hok2].
  apply Forall_app. split; [by eapply sweep_top_spares|].
  destruct ps; [|by apply traces_Ret in H2 as [-> _]].
  apply traces_Call in H2 as (x & t3 & -> & H2). constructor; [exact id|].
  by destruct x; apply traces_Ret in H2 as [-> _].
Qed.

(** ** Orphans *)
Notation file_candidate := (file_candidate uuid_Parse).
Notation walk := (walk uuid_Parse).

(** A candidate comes from a recognised entry of the listings. *)
Definition cand_ok (c : orphanCandidate) : Prop :=
  ∃ d, base_name d ∧
    if oc_wholeDir c then oc_path c = Join [dir; de_Name d] ∧ uuid_Parse (de_Name d) = Ok (oc_portfolioID c)
    else ∃ f s, base_name f ∧ oc_path c = Join [Join [dir; de_Name d]; de_Name f] ∧
      de_Name f = s +:+ sqlite ∧ uuid_Parse s = Ok (oc_runID c).

Lemma file_candidate_Some portDir pid f c :
  file_candidate portDir pid f = Some c →
  ∃ s, de_Name f = s +:+ sqlite ∧ uuid_Parse s = Ok (oc_runID c) ∧ oc_path c = Join [portDir; de_Name f] ∧
    oc_wholeDir c = false.
Proof.
  unfold Sweep.file_candidate. destruct (de_IsDir f); [done|]. change ".sqlite" with sqlite.
  destruct (has_suffix (de_Name f) sqlite) eqn:Hs; [|done]. apply has_suffix_iff in Hs as [s Hs].
  rewrite Hs, trim_suffix_app. cbn [negb]. destruct (uuid_Parse s) eqn:Hp; [|done]. intros [= <-]. eauto.
Qed.

(** The walk only lists directories; what it returns are such candidates, those
    it was given first. *)
Lemma walk_cands top out tr out' :
  traces (walk dir top out) tr out' → Forall base_name top → Forall listing_ok tr → Forall cand_ok out →
  Forall cand_ok out' ∧ Forall (λ e, ¬ removes e final) tr.
Proof.
  revert out tr. induction top as [|e es IH]; intros out tr Ht Hb Hok Hout.
  - by apply traces_Ret in Ht as [-> ->].
  - apply Forall_cons in Hb as [He Hb]. cbn [Sweep.walk] in Ht.
    destruct (de_IsDir e); cbn [negb] in Ht; [|by apply (IH out)].
    destruct (uuid_Parse (de_Name e)) as [pid|] eqn:Hp; [|by apply (IH out)].
    unfold do, mbind, prog_bind in Ht. cbn [pbind] in Ht. apply traces_Call in Ht as (x & t & -> & Ht).
    apply Forall_cons in Hok as [Hx Hok].
    assert (cand_ok {| oc_path := Join [dir; de_Name e]; oc_portfolioID := pid; oc_runID := uuid_Nil;
                       oc_wholeDir := true |}) as Hc by (exists e; cbn; done).
    destruct x as [fs|]; apply IH in Ht as [H1 H2]; try done.
    + split; [done|]. constructor; [exact id|done].
    + apply Forall_app. split; [by apply Forall_app; auto|].
      apply Forall_forall. intros c (f & Hf & Hc')%list_elem_of_omap.
      apply file_candidate_Some in Hc' as (s & Hs & Hr & Hpath & Hw). exists e. split; [done|].
      rewrite Hw. exists f, s. split; [|done]. exact (proj1 (Forall_forall base_name fs) Hx f Hf).
    + split; [done|]. constructor; [exact id|done].
    + by apply Forall_app; auto.
Qed.

(** A candidate with a row is not removed, nor does removing another one touch
    the snapshot. *)
Lemma reap_spares ps rs cs n tr m :
  traces (reap ps rs cs n) tr m → Forall cand_ok cs → p ∈ ps → r ∈ rs → Forall (λ e, ¬ removes e final) tr.
Proof using uuid_len uuid_no_slash dir_ne uuid_parse p_range r_range.
  destruct final_shape as (Hfin & Hp & Hpd & Hr & Hrd). intros Ht Hcs Hps Hrs. revert n tr Ht.
  induction cs as [|c cs IH]; intros n tr Ht; [by apply traces_Ret in Ht as [-> _]|].
  apply Forall_cons in Hcs as [(d & [Hd Hdd] & Hc) Hcs]. specialize (IH Hcs). cbn [reap] in Ht.
  destruct (oc_wholeDir c).
  - destruct Hc as [Hpath Hid]. case_decide as Hin; [by eapply IH|].
    unfold do, mbind, prog_bind in Ht. cbn [pbind] in Ht. apply traces_Call in Ht as (x & t & -> & Ht).
    constructor; [|destruct x; by eapply IH]. change (¬ below (oc_path c) final). rewrite Hpath, Hfin.
    intros Hb. apply below_sub in Hb; [|done..]. rewrite Hb, uuid_parse in Hid by done. congruence.
  - destruct Hc as (f & s & [Hf Hfd] & Hpath & Hs & Hid). case_decide as Hin; [by eapply IH|].
    unfold do, mbind, prog_bind in Ht. cbn [pbind] in Ht. apply traces_Call in Ht as (x & t & -> & Ht).
    constructor; [|destruct x; [destruct (negb _)|]; by eapply IH]. change (oc_path c ≠ final). rewrite Hpath, Hfin.
    intros Hb. apply file_sub in Hb as [_ Hn]; [|done..]. rewrite Hs in Hn. apply string_app_inj_r in Hn as ->.
    rewrite uuid_parse in Hid by done. congruence.
Qed.

(** The parts of a sweep. *)
Lemma sweep_orphans_trace tr res :
  traces (SweepOrphans uuid_Parse dir) tr res →
  ∃ top tr1, tr = Event _ (ReadDir dir) top :: tr1 ∧
    match top with
    | Err e => tr1 = [] ∧ res = Err e
    | Ok es => ∃ cs t1 t2, tr1 = t1 ++ t2 ∧ traces (walk dir es []) t1 cs ∧
      ∃ ps t3, t2 = Event _ AllPortfolioIDs ps :: t3 ∧
      match ps with
      | Err e => t3 = [] ∧ res = Err e
      | Ok ps => ∃ rs t4, t3 = Event _ AllRunIDs rs :: t4 ∧
        match rs with
        | Err e => t4 = [] ∧ res = Err e
        | Ok rs => ∃ n, traces (reap ps rs cs 0) t4 n ∧ res = Ok n
        end
      end
    end.
Proof.
  unfold SweepOrphans, collectOrphanCandidates, do, mbind, prog_bind. cbn [pbind]. intros Ht.
  apply traces_Call in Ht as (top & tr1 & -> & Ht). exists top, tr1. split; [done|].
  destruct top as [es|e]; [|by apply traces_Ret in Ht as [-> ->]].
  apply traces_pbind in Ht as (cs' & t1 & t2 & -> & H1 & H2).
  apply traces_pbind in H1 as (cs & t1' & t1'' & -> & H1 & [-> ->]%traces_Ret).
  exists cs, t1', t2. rewrite app_nil_r. do 2 (split; [done|]).
  apply traces_Call in H2 as (ps & t3 & -> & H2). exists ps, t3. split; [done|].
  destruct ps as [ps|e]; [|by apply traces_Ret in H2 as [-> ->]].
  apply traces_Call in H2 as (rs & t4 & -> & H2). exists rs, t4. split; [done|].
  destruct rs as [rs|e]; [|by apply traces_Ret in H2 as [-> ->]].
  apply traces_pbind in H2 as (n & t5 & t6 & -> & H2 & [-> ->]%traces_Ret). exists n. by rewrite app_nil_r.
Qed.

(** The events of a walk are listings. *)
Lemma walk_reads top out tr out' :
  traces (walk dir top out) tr out' → Forall (λ e, ∃ d a, e = Event _ (ReadDir d) a) tr.
Proof.
  revert out tr. induction top as [|e es IH]; intros out tr Ht; [by apply traces_Ret in Ht as [-> ->]|].
  cbn [Sweep.walk] in Ht. destruct (de_IsDir e); cbn [negb] in Ht; [|by eapply IH].
  destruct (uuid_Parse (de_Name e)); [|by eapply IH].
  unfold do, mbind, prog_bind in Ht. cbn [pbind] in Ht. apply traces_Call in Ht as (x & t & -> & Ht).
  constructor; [eauto|]. destruct x; by eapply IH.
Qed.

Lemma sweep_orphans_spares tr res :
  traces (SweepOrphans uuid_Parse dir) tr res → Forall listing_ok tr →
  (∀ ps, portfolio_rows ps ∈ tr → p ∈ ps) → (∀ rs, run_rows rs ∈ tr → r ∈ rs) →
  Forall (λ e, ¬ removes e final) tr.
Proof using uuid_len uuid_no_slash dir_ne uuid_parse p_range r_range.
  intros Ht Hok Hps Hrs. apply sweep_orphans_trace in Ht as (top & tr1 & -> & Ht).
  apply Forall_cons in Hok as [Htop Hok]. constructor; [exact id|].
  destruct top as [es|]; [|by destruct Ht as [-> _]].
  destruct Ht as (cs & t1 & t2 & -> & Hw & ps & t3 & -> & Ht). apply Forall_app in Hok as [Hok1 Hok2].
  destruct (walk_cands _ _ _ _ Hw Htop Hok1 (Forall_nil_2 _)) as [Hcs H1].
  apply Forall_app. split; [done|]. constructor; [exact id|].
  destruct ps as [ps|]; [|by destruct Ht as [-> _]]. destruct Ht as (rs & t4 & -> & Ht).
  constructor; [exact id|]. destruct rs as [rs|]; [|by destruct Ht as [-> _]].
  destruct Ht as (n & Hn & _). eapply reap_spares; [done..| |].
  - apply Hps. apply list_elem_of_further, elem_of_app. right. by left.
  - apply Hrs. apply list_elem_of_further, elem_of_app. right. right. by left.
Qed.

(** What the walk must list. *)
Definition whole (c : orphanCandidate) (path : string) (id : uuid) : Prop :=
  oc_wholeDir c = true ∧ oc_path c = path ∧ oc_portfolioID c = id.
Definition single (c : orphanCandidate) (path : string) (id : uuid) : Prop :=
  oc_wholeDir c = false ∧ oc_path c = path ∧ oc_runID c = id.

Lemma file_candidate_single d pid f s id :
  de_IsDir f = false → de_Name f = s +:+ sqlite → uuid_Parse s = Ok id →
  ∃ c, file_candidate d pid f = Some c ∧ single c (Join [d; de_Name f]) id.
Proof.
  intros Hd Hs Hp. unfold Sweep.file_candidate. rewrite Hd. change ".sqlite" with sqlite.
  assert (has_suffix (de_Name f) sqlite = true) as -> by (apply has_suffix_iff; eauto).
  rewrite Hs, trim_suffix_app, Hp. cbn [negb]. eexists. split; [done|]. done.
Qed.

Lemma walk_complete top out tr out' :
  traces (walk dir top out) tr out' →
  (∀ c, c ∈ out → c ∈ out') ∧
  (∀ e id, e ∈ top → de_IsDir e = true → uuid_Parse (de_Name e) = Ok id →
    ∃ c, c ∈ out' ∧ whole c (Join [dir; de_Name e]) id) ∧
  (∀ d fs f s id, read_dir d fs ∈ tr → f ∈ fs → de_IsDir f = false → de_Name f = s +:+ sqlite →
    uuid_Parse s = Ok id → ∃ c, c ∈ out' ∧ single c (Join [d; de_Name f]) id).
Proof.
  revert out tr. induction top as [|e es IH]; intros out tr Ht.
  - apply traces_Ret in Ht as [-> ->]. split; [done|]. split; [by intros ? ? ?%not_elem_of_nil|].
    by intros ? ? ? ? ? ?%not_elem_of_nil.
  - cbn [Sweep.walk] in Ht. destruct (de_IsDir e) eqn:Hdir; cbn [negb] in Ht.
    2:{ destruct (IH _ _ Ht) as (H1 & H2 & H3). split; [done|]. split; [|done].
        intros e' id [->|He']%elem_of_cons; [congruence|]. by apply H2. }
    destruct (uuid_Parse (de_Name e)) as [pid|] eqn:Hp.
    2:{ destruct (IH _ _ Ht) as (H1 & H2 & H3). split; [done|]. split; [|done].
        intros e' id [->|He']%elem_of_cons; [congruence|]. by apply H2. }
    unfold do, mbind, prog_bind in Ht. cbn [pbind] in Ht. apply traces_Call in Ht as (x & t & -> & Ht).
    set (w := {| oc_path := Join [dir; de_Name e]; oc_portfolioID := pid; oc_runID := uuid_Nil;
                 oc_wholeDir := true |}) in *.
    assert (∃ more, traces (walk dir es ((out ++ [w]) ++ more)) t out' ∧
      ∀ fs, x = Ok fs → more = omap (file_candidate (Join [dir; de_Name e]) pid) fs) as (more & Ht' & Hmore).
    { destruct x as [fs|]; [by exists (omap (file_candidate (Join [dir; de_Name e]) pid) fs); split; [|intros ? [= ->]]|].
      exists []. by rewrite app_nil_r. }
    destruct (IH _ _ Ht') as (H1 & H2 & H3). split; [|split].
    + intros c Hc. apply H1. set_solver.
    + intros e' id [->|He']%elem_of_cons Hd' Hp'; [|by apply H2]. exists w. split; [apply H1; set_solver|].
      split; [done|]. split; [done|]. cbn. congruence.
    + intros d fs f s id [Heq|Hin]%elem_of_cons Hf Hfd Hs Hid; [|by eapply H3].
      apply read_dir_inv in Heq as [-> Hx]. destruct (file_candidate_single (Join [dir; de_Name e]) pid f s id Hfd Hs Hid) as (c & Hc & Hsg).
      exists c. split; [|done]. apply H1. rewrite (Hmore fs) by done. apply elem_of_app. right.
      apply list_elem_of_omap. eauto.
Qed.

Lemma reap_complete ps rs cs n tr m :
  traces (reap ps rs cs n) tr m →
  (∀ c path id, c ∈ cs → whole c path id → id ∉ ps → ∃ a, Event _ (OsRemoveAll path) a ∈ tr) ∧
  (∀ c path id, c ∈ cs → single c path id → id ∉ rs → ∃ a, Event _ (OsRemove path) a ∈ tr).
Proof.
  revert n tr. induction cs as [|x cs IH]; intros n tr Ht.
  { split; by intros ? ? ? ?%not_elem_of_nil. }
  assert (∀ a y t k, tr = Event a y k :: t → (∃ n', traces (reap ps rs cs n') t m) →
    (∀ c path id, c ∈ cs → whole c path id → id ∉ ps → ∃ a, Event _ (OsRemoveAll path) a ∈ tr) ∧
    (∀ c path id, c ∈ cs → single c path id → id ∉ rs → ∃ a, Event _ (OsRemove path) a ∈ tr)) as Hstep.
  { intros a y t k -> [n' Hn]. destruct (IH _ _ Hn) as [H1 H2]. split; intros c path id Hc Hx Hid.
    - destruct (H1 c path id Hc Hx Hid) as [b Hb]. exists b. by right.
    - destruct (H2 c path id Hc Hx Hid) as [b Hb]. exists b. by right. }
  cbn [reap] in Ht. destruct (oc_wholeDir x) eqn:Hw; case_decide as Hin.
  - destruct (IH _ _ Ht) as [H1 H2]. split; intros c path id [->|Hc]%elem_of_cons (Hx & Hpath & Hid) Hn;
      [congruence|by eapply H1|congruence|by eapply H2].
  - unfold do, mbind, prog_bind in Ht. cbn [pbind] in Ht. apply traces_Call in Ht as (a & t & Heq & Ht).
    destruct (Hstep _ _ _ _ Heq) as [H1 H2]; [by destruct a; eauto|].
    split; intros c path id [->|Hc]%elem_of_cons (Hx & Hpath & Hid) Hn; [|by eapply H1|congruence|by eapply H2].
    exists a. rewrite Heq, Hpath. by left.
  - destruct (IH _ _ Ht) as [H1 H2]. split; intros c path id [->|Hc]%elem_of_cons (Hx & Hpath & Hid) Hn;
      [congruence|by eapply H1|congruence|by eapply H2].
  - unfold do, mbind, prog_bind in Ht. cbn [pbind] in Ht. apply traces_Call in Ht as (a & t & Heq & Ht).
    destruct (Hstep _ _ _ _ Heq) as [H1 H2]; [by destruct a as [e|]; [destruct (negb _)|]; eauto|].
    split; intros c path id [->|Hc]%elem_of_cons (Hx & Hpath & Hid) Hn; [congruence|by eapply H1| |by eapply H2].
    exists a. rewrite Heq, Hpath. by left.
Qed.

Lemma reap_reads ps rs cs n tr m d fs : traces (reap ps rs cs n) tr m → read_dir d fs ∉ tr.
Proof.
  revert n tr. induction cs as [|c cs IH]; intros n tr Ht.
  { apply traces_Ret in Ht as [-> _]. apply not_elem_of_nil. }
  cbn [reap] in Ht. destruct (oc_wholeDir c); case_decide; [by eapply IH| |by eapply IH|];
    unfold do, mbind, prog_bind in Ht; cbn [pbind] in Ht; apply traces_Call in Ht as (a & t & -> & Ht);
    intros [?|Hin]%elem_of_cons; try discriminate; revert Hin.
  - destruct a; by eapply IH.
  - destruct a as [e|]; [destruct (negb _)|]; by eapply IH.
Qed.

(** C16: neither sweep touches the snapshot of a run when the portfolio and the
    run have rows in the answers the sweep got, whatever the file system
    answers; and an orphan sweep that succeeds removes every listed directory
    with no portfolio and every listed snapshot file with no run. *)
Theorem sweeps_reap_only_orphans (tr : list ev) :
  Forall listing_ok tr →
  (∀ ps res, traces (StartupSweep dir ps) tr res → Forall (λ e, ¬ removes e final) tr) ∧
  (∀ res, traces (SweepOrphans uuid_Parse dir) tr res →
    (∀ ps, portfolio_rows ps ∈ tr → p ∈ ps) → (∀ rs, run_rows rs ∈ tr → r ∈ rs) →
    Forall (λ e, ¬ removes e final) tr) ∧
  (∀ n, traces (SweepOrphans uuid_Parse dir) tr (Ok n) →
    ∃ top tr1 ps rs, tr = read_dir dir top :: tr1 ∧ portfolio_rows ps ∈ tr ∧ run_rows rs ∈ tr ∧
    (∀ e id, e ∈ top → de_IsDir e = true → uuid_Parse (de_Name e) = Ok id → id ∉ ps →
      ∃ a, Event _ (OsRemoveAll (Join [dir; de_Name e])) a ∈ tr) ∧
    (∀ d fs f s id, read_dir d fs ∈ tr1 → f ∈ fs → de_IsDir f = false → de_Name f = s +:+ sqlite →
      uuid_Parse s = Ok id → id ∉ rs → ∃ a, Event _ (OsRemove (Join [d; de_Name f])) a ∈ tr)).
Proof using uuid_len uuid_no_slash dir_ne uuid_parse p_range r_range.
  intros Hok. split; [|split].
  - intros. by eapply startup_sweep_spares.
  - intros. by eapply sweep_orphans_spares.
  - intros n Ht. apply sweep_orphans_trace in Ht as (top & tr1 & -> & Ht).
    destruct top as [es|]; [|by destruct Ht as [_ ?]].
    destruct Ht as (cs & t1 & t2 & -> & Hw & ps & t3 & -> & Ht). destruct ps as [ps|]; [|by destruct Ht as [_ ?]].
    destruct Ht as (rs & t4 & -> & Ht). destruct rs as [rs|]; [|by destruct Ht as [_ ?]].
    destruct Ht as (n' & Hr & _). destruct (walk_complete _ _ _ _ Hw) as (_ & Hdirs & Hfiles).
    destruct (reap_complete _ _ _ _ _ _ Hr) as [Hall Hone].
    exists es, (t1 ++ portfolio_rows ps :: run_rows rs :: t4), ps, rs. split; [done|].
    split; [apply list_elem_of_further, elem_of_app; right; by left|].
    split; [apply list_elem_of_further, elem_of_app; right; right; by left|].
    assert (∀ e, e ∈ t4 → e ∈ read_dir dir es :: t1 ++ portfolio_rows ps :: run_rows rs :: t4) as Hin.
    { intros e He. apply list_elem_of_further, elem_of_app. right. by do 2 right. }
    split.
    + intros e id He Hd Hp Hid. destruct (Hdirs e id He Hd Hp) as (c & Hc & Hwh).
      destruct (Hall c _ _ Hc Hwh Hid) as [a Ha]. exists a. by apply Hin.
    + intros d fs f s id Hrd Hf Hfd Hs Hp Hid. apply elem_of_app in Hrd as [Hrd|Hrd].
      * destruct (Hfiles d fs f s id Hrd Hf Hfd Hs Hp) as (c & Hc & Hsg).
        destruct (Hone c _ _ Hc Hsg Hid) as [a Ha]. exists a. by apply Hin.
      * exfalso. do 2 (apply elem_of_cons in Hrd as [Hrd|Hrd]; [discriminate|]).
        by apply (reap_reads _ _ _ _ _ _ _ _ Hr) in Hrd.
Qed.
End live.

(** ** A concrete sweep *)
Section demo.
(** [demo_uuid] is decimal, of 39 digits. *)
Definition demo_parse (s : string) : result uuid :=
  match digits_val 0 s with Some z => Ok (Z.to_N z) | None => Err (opaque_err "invalid UUID") end.

Lemma demo_parse_uuid u : (u < 2 ^ 128)%N → demo_parse (demo_uuid u) = Ok u.
Proof.
  intros Hu. unfold demo_parse, demo_uuid. assert (2 ^ 128 < 10 ^ Z.of_nat 39) by (vm_compute; reflexivity).
  assert ((2 ^ 128)%N = Z.to_N (2 ^ 128)) as Hp by (vm_compute; reflexivity). rewrite Hp in *.
  rewrite digits_val_pad by lia. f_equal. lia.
Qed.

(** A directory with the snapshots of run 2, which has a row, and run 3, which has none. *)
Definition demo_entry (n : string) (d : bool) : dirent := {| de_Name := n; de_IsDir := d |}.
Definition demo_dir : string := Join ["/snap"; demo_uuid 1%N].
Definition demo_sweep : list ev :=
  [read_dir "/snap" [demo_entry (demo_uuid 1%N) true; demo_entry "legacy.sqlite" false];
   read_dir demo_dir [demo_entry (demo_uuid 2%N +:+ sqlite) false; demo_entry (demo_uuid 3%N +:+ sqlite) false];
   portfolio_rows {[1%N]}; run_rows {[2%N]};
   Event _ (OsRemove (Join [demo_dir; demo_uuid 3%N +:+ sqlite])) None].

Lemma demo_sweep_trace : traces (SweepOrphans demo_parse "/snap") demo_sweep (Ok 1).
Proof.
  assert (omap (file_candidate demo_parse demo_dir 1%N)
      [demo_entry (demo_uuid 2%N +:+ sqlite) false; demo_entry (demo_uuid 3%N +:+ sqlite) false] =
    [{| oc_path := Join [demo_dir; demo_uuid 2%N +:+ sqlite]; oc_portfolioID := 1%N; oc_runID := 2%N; oc_wholeDir := false |};
     {| oc_path := Join [demo_dir; demo_uuid 3%N +:+ sqlite]; oc_portfolioID := 1%N; oc_runID := 3%N; oc_wholeDir := false |}])
    as Hc by (vm_compute; reflexivity).
  unfold SweepOrphans, collectOrphanCandidates, do, mbind, prog_bind. cbn [pbind].
  apply traces_call. cbn [walk demo_entry de_IsDir de_Name negb]. rewrite demo_parse_uuid by done.
  change (Join ["/snap"; demo_uuid 1%N]) with demo_dir.
  unfold do, mbind, prog_bind. cbn [pbind]. apply traces_call. rewrite Hc. cbn [walk de_IsDir demo_entry negb pbind app].
  do 2 apply traces_call. cbn [reap oc_wholeDir oc_portfolioID oc_runID oc_path].
  rewrite !decide_True by set_solver. rewrite decide_False by set_solver.
  unfold do, mbind, prog_bind. cbn [pbind]. apply traces_call, traces_ret.
Qed.

Lemma sweeps_reap_only_orphans_witness :
  Forall (λ e, ¬ removes e (final_of demo_uuid demo_o 1%N 2%N)) demo_sweep ∧
  ∃ a, Event _ (OsRemove (Join [demo_dir; demo_uuid 3%N +:+ sqlite])) a ∈ demo_sweep.
Proof.
  assert (∀ u, (36 ≤ String.length (demo_uuid u))%nat) as Hl
    by (intros u; unfold demo_uuid; rewrite length_pad; lia).
  assert (∀ u, no_slash (demo_uuid u)) as Hns by (intros; apply pad_no_slash).
  assert (Forall listing_ok demo_sweep) as Hok.
  { assert (∀ u, base_name (demo_entry (demo_uuid u) true)) as H1.
    { intros u. destruct (proper_uuid demo_uuid Hl Hns u "") as [? ?]; [by intros ?%not_elem_of_nil|].
      rewrite string_app_nil_r in *. done. }
    assert (∀ u, base_name (demo_entry (demo_uuid u +:+ sqlite) false)) as H2.
    { intros u. apply (proper_uuid demo_uuid Hl Hns u sqlite). by apply no_slash_dec. }
    assert (base_name (demo_entry "legacy.sqlite" false)) as H3.
    { split; [|done]. split; [done|]. split; [done|]. by apply no_slash_dec. }
    apply Forall_cons_2; [apply Forall_cons_2; [apply (H1 1%N)|apply Forall_cons_2; [exact H3|apply Forall_nil_2]]|].
    apply Forall_cons_2; [apply Forall_cons_2; [apply (H2 2%N)|apply Forall_cons_2; [apply (H2 3%N)|apply Forall_nil_2]]|].
    do 3 (apply Forall_cons_2; [apply Forall_nil_2|]). apply Forall_nil_2. }
  assert (∀ n, (n < 10 → n < 2 ^ 128)%N) as Hlt.
  { intros n Hn. eapply N.lt_trans; [exact Hn|]. by vm_compute. }
  destruct (sweeps_reap_only_orphans demo_uuid demo_parse demo_o Hl Hns demo_parse_uuid 1%N 2%N
    ltac:(done) ltac:(by apply Hlt) ltac:(by apply Hlt) demo_sweep Hok) as (_ & Hspare & Hreap).
  split.
  - apply (Hspare (Ok 1) demo_sweep_trace).
    + intros ps Hps. unfold demo_sweep in Hps.
      repeat (apply elem_of_cons in Hps as [Hps|Hps]; [try discriminate|]); [|by apply not_elem_of_nil in Hps].
      apply (f_equal portfolio_answer) in Hps. injection Hps as ->. set_solver.
    + intros rs Hrs. unfold demo_sweep in Hrs.
      repeat (apply elem_of_cons in Hrs as [Hrs|Hrs]; [try discriminate|]); [|by apply not_elem_of_nil in Hrs].
      apply (f_equal run_answer) in Hrs. injection Hrs as ->. set_solver.
  - destruct (Hreap 1 demo_sweep_trace) as (top & tr1 & ps & rs & Heq & _ & Hrs & _ & Hone).
    apply (f_equal tail) in Heq. cbn [tail demo_sweep] in Heq. subst tr1.
    assert (rs = {[2%N]}) as ->.
    { unfold demo_sweep in Hrs.
      repeat (apply elem_of_cons in Hrs as [Hrs|Hrs]; [try discriminate|]); [|by apply not_elem_of_nil in Hrs].
      apply (f_equal run_answer) in Hrs. by injection Hrs. }
    eapply (Hone demo_dir _ (demo_entry (demo_uuid 3%N +:+ sqlite) false) (demo_uuid 3%N) 3%N);
      [by left|by right; left|done|done|apply demo_parse_uuid; by apply Hlt|set_solver].
Defined.
End demo.
