(* ===== verification/Dispatcher.v ===== *)
(** The backtest dispatcher (src/backtest/dispatcher.go): a bounded task channel
    drained by a pool of workers, each running the orchestrator program against
    the store, wired as src/cmd/server.go wires them.  Workers, submissions and
    the other writers of the store interleave call by call. *)
From S2P Require Import Prelude GoStrings GoTime Utf8 Types Json Path Prog Store Backtest.

Record task := { t_portfolioID : uuid; t_runID : uuid; t_scheduled : bool }.

(** The dispatcher and the database it works on.  A worker is idle, or has a
    task and the rest of its run to execute. *)
Record sys := {
  y_db : db;
  y_cap : nat;
  y_tasks : list task;
  y_workers : list (option (task * prog Backtest.call (option goerror)));
  y_started : bool;
  y_closed : bool;
  y_panicked : bool;
}.

#[export] Instance eta_sys : Eta sys := λ s,
  {| y_db := y_db s; y_cap := y_cap s; y_tasks := y_tasks s; y_workers := y_workers s;
     y_started := y_started s; y_closed := y_closed s; y_panicked := y_panicked s |}.

Section dispatcher.
Context `{MapRange, UnicodeTables}.
Context (format_v : float64 → string) (uuid_String : uuid → string) (quote_string : string → string).
Context (cfg : Config) (o : orchestrator).

(** [NewDispatcher], the configuration's defaults being applied. *)
Definition NewDispatcher (numCPU : Z) (d : db) : sys :=
  {| y_db := d; y_cap := Z.to_nat (MaxConcurrency (ApplyDefaults numCPU cfg) * 4); y_tasks := [];
     y_workers := []; y_started := false; y_closed := false; y_panicked := false |}.

(** [Start]. *)
Definition Start (numCPU : Z) (s : sys) : sys :=
  if y_started s then s
  else s <| y_started := true |>
         <| y_workers := replicate (Z.to_nat (MaxConcurrency (ApplyDefaults numCPU cfg))) None |>.

(** [Submit]: a send on a closed channel panics; a full one refuses the task. *)
Definition Submit (portfolioID : uuid) (trigger : string) (s : sys) : sys * result uuid :=
  let '(d, r) := CreateRun portfolioID "queued" trigger (y_db s) in
  let s := s <| y_db := d |> in
  match r with
  | Err e => (s, Err e)
  | Ok run =>
    if y_closed s then (s <| y_panicked := true |>, Err (opaque_err "send on closed channel"))
    else if (length (y_tasks s) <? y_cap s)%nat then
      (s <| y_tasks := y_tasks s ++ [{| t_portfolioID := portfolioID; t_runID := run_ID run;
                                        t_scheduled := bool_decide (trigger = TriggerScheduled) |}] |>,
       Ok (run_ID run))
    else
      let '(d, _) := Store.UpdateRunFailed (run_ID run) "dispatcher queue full" 0 d in
      (s <| y_db := d |>, Err bt_ErrQueueFull)
  end.

(** [Shutdown], up to the wait for the workers; closing twice panics. *)
Definition Shutdown (s : sys) : sys :=
  if negb (y_started s) then s
  else if y_closed s then s <| y_panicked := true |>
  else s <| y_closed := true |>.

(** The receive of [worker]: the oldest task, started on the orchestrator. *)
Definition worker_take (i : nat) (s : sys) : option sys :=
  match y_workers s !! i, y_tasks s with
  | Some None, t :: ts =>
    Some (s <| y_tasks := ts |>
            <| y_workers := <[i := Some (t, Run format_v uuid_String quote_string o
                                            (t_portfolioID t) (t_runID t) (t_scheduled t))]> (y_workers s) |>)
  | _, _ => None
  end.

(** ** src/cmd/server.go: the adapters between the store and the orchestrator *)
Definition to_row (p : Portfolio) : PortfolioRow :=
  {| pr_ID := ID p; pr_StrategyCode := StrategyCode p; pr_StrategyVer := default "" (StrategyVer p);
     pr_StrategyCloneURL := StrategyCloneURL p; pr_Parameters := Parameters p;
     pr_Benchmark := Types.Benchmark p; pr_Status := Status p; pr_SnapshotPath := SnapshotPath p;
     pr_StartDate := StartDate p; pr_EndDate := EndDate p |}.

Definition to_ready (path : string) (k : SetKpis) : ready_args :=
  {| ra_snapshotPath := path; ra_currentValue := k_CurrentValue k; ra_ytd := k_YtdReturn k;
     ra_maxDrawdown := k_MaxDrawdown k; ra_sharpe := k_Sharpe k; ra_cagr := k_Cagr k;
     ra_inceptionDate := k_InceptionDate k |}.

Definition adapter_GetByID (id : uuid) (d : db) : db * result PortfolioRow :=
  let '(d, r) := Store.GetByID id d in (d, to_row <$> r).

(** [dispatcherAdapter.Submit] and [schedulerDispatcherAdapter.Submit]. *)
Definition handler_Submit (portfolioID : uuid) (s : sys) : sys * result uuid :=
  let '(s, r) := Submit portfolioID TriggerManual s in
  (s, match r with
      | Err e => if errors_is e backtest_ErrQueueFull then Err ErrQueueFull else Err e
      | Ok id => Ok id
      end).
Definition scheduler_Submit (portfolioID : uuid) (s : sys) : sys * result uuid :=
  Submit portfolioID TriggerScheduled s.

(** How a call of the orchestrator is answered: store calls by the store, every
    other one by an environment that does not touch the two tables. *)
Definition answers {A} (c : Backtest.call A) (d d' : db) : A → Prop :=
  match c in Backtest.call A return A → Prop with
  | Backtest.GetByID p => λ a, (d', a) = adapter_GetByID p d
  | Backtest.UpdateRunFailed r m ms => λ a, (d', a) = Store.UpdateRunFailed r m ms d
  | Backtest.MarkRunningTx p r => λ a, (d', a) = Store.MarkRunningTx p r d
  | Backtest.MarkReadyTx p r path k ms => λ a, (d', a) = Store.MarkReadyTx p r (to_ready path k) ms d
  | Backtest.MarkFailedTx p r m ms => λ a, (d', a) = Store.MarkFailedTx p r m ms d
  | Backtest.PruneRuns p => λ a, (d', a) = Store.PruneRuns p d
  | _ => λ _, d' = d
  end.

(** The writes other parts of the server make while the dispatcher runs. *)
Definition other_writer (op : store_op) : bool :=
  match op with
  | OpInsert _ | OpUpdateName _ _ _ | OpUpdateDates _ _ _ _ | OpUpdateRunRetention _ _ _
  | OpDelete _ _ | OpApplyUpgrade _ _ _ _ _ | OpClock _ => true
  | _ => false
  end.

Context (marshal_err : gmap string json → option goerror).

(** One step of the running server. *)
Inductive sys_step : sys → sys → Prop :=
  | step_submit s pid trigger :
      trigger ∈ [TriggerScheduled; TriggerManual] → sys_step s (Submit pid trigger s).1
  | step_take s i s' : worker_take i s = Some s' → sys_step s s'
  | step_call s i t A (c : Backtest.call A) k d a :
      y_workers s !! i = Some (Some (t, Call c k)) → answers c (y_db s) d a →
      sys_step s (s <| y_db := d |> <| y_workers := <[i := Some (t, k a)]> (y_workers s) |>)
  | step_finish s i t r :
      y_workers s !! i = Some (Some (t, Ret r)) →
      sys_step s (s <| y_workers := <[i := None]> (y_workers s) |>)
  | step_other s op :
      other_writer op = true → sys_step s (s <| y_db := exec marshal_err op (y_db s) |>)
  | step_faults s fs : sys_step s (s <| y_db := y_db s <| faults := fs |> |>)
  | step_shutdown s : sys_step s (Shutdown s).

End dispatcher.
