(* ===== verification/DispatcherLaws.v ===== *)
(** The dispatcher's guarantees: submissions are bounded and exclusive, and no
    interleaving of workers, submissions and other writers ever runs two
    backtests of one portfolio at the same time. *)
From S2P Require Import Prelude GoStrings GoTime Utf8 Types Json PgText Path Prog Store StoreLaws Backtest Dispatcher.

(** ** The shape of a run *)
Section conforms.

(** A call of the run [rid] of [pid]; [live] until a terminal status is written. *)
Definition own (pid rid : uuid) (live : bool) {A} (c : Backtest.call A) : Prop :=
  match c with
  | Backtest.UpdateRunFailed r _ _ => live = true ∧ r = rid
  | Backtest.MarkRunningTx p r => live = true ∧ p = pid ∧ r = rid
  | Backtest.MarkReadyTx p r _ _ _ => live = true ∧ p = pid ∧ r = rid
  | Backtest.MarkFailedTx p r _ _ => live = true ∧ p = pid ∧ r = rid
  | Backtest.PruneRuns p => p = pid
  | RunnerRun _ => live = true
  | _ => True
  end.

(** The call wrote a terminal status. *)
Definition terminal {A} (c : Backtest.call A) : A → bool :=
  match c in Backtest.call A return A → bool with
  | Backtest.UpdateRunFailed _ _ _ => λ a, is_ok a
  | Backtest.MarkReadyTx _ _ _ _ _ => λ a, is_ok a
  | Backtest.MarkFailedTx _ _ _ _ => λ a, is_ok a
  | _ => λ _, false
  end.

Inductive conforms {R} (pid rid : uuid) : bool → prog Backtest.call R → Prop :=
  | conf_ret live r : conforms pid rid live (Ret r)
  | conf_call live A (c : Backtest.call A) k :
      own pid rid live c → (∀ a, conforms pid rid (live && negb (terminal c a)) (k a)) →
      conforms pid rid live (Call c k).

Lemma conforms_Call {R A} pid rid live (c : Backtest.call A) (k : A → prog Backtest.call R) :
  conforms pid rid live (Call c k) →
  own pid rid live c ∧ ∀ a, conforms pid rid (live && negb (terminal c a)) (k a).
Proof.
  intros Hc. refine (match Hc in conforms _ _ live p return
    match p with Ret _ => True | @Call _ _ A c k =>
      own pid rid live c ∧ ∀ a, conforms pid rid (live && negb (terminal c a)) (k a) end with
    | conf_ret _ _ _ _ => I | conf_call _ _ _ _ _ _ Ho Hk => conj Ho Hk end).
Qed.

(** A program that writes no status; pruning its own portfolio is allowed. *)
Inductive quiet {R} (pid : uuid) : prog Backtest.call R → Prop :=
  | quiet_ret r : quiet pid (Ret r)
  | quiet_call A (c : Backtest.call A) k :
      (∀ rid live, own pid rid live c) → (∀ a, terminal c a = false) →
      (∀ a, quiet pid (k a)) → quiet pid (Call c k).

Lemma conforms_quiet {A B} pid rid live (p : prog Backtest.call A) (f : A → prog Backtest.call B) :
  quiet pid p → (∀ a, conforms pid rid live (f a)) → conforms pid rid live (pbind f p).
Proof.
  intros Hp Hf. induction Hp as [r|X c k Ho Ht Hk IH]; cbn; [apply Hf|].
  constructor; [apply Ho|]. intros a. rewrite Ht. cbn. by rewrite andb_true_r.
Qed.

Lemma quiet_pbind {A B} pid (p : prog Backtest.call A) (f : A → prog Backtest.call B) :
  quiet pid p → (∀ a, quiet pid (f a)) → quiet pid (pbind f p).
Proof. intros Hp Hf. induction Hp; cbn; [apply Hf|]. by constructor. Qed.

End conforms.

Ltac quiet_step :=
  unfold do, mbind, prog_bind; cbn [pbind];
  repeat first
    [ apply quiet_ret
    | apply quiet_call; [done|done|intros ?]; cbn [pbind]
    | match goal with |- quiet _ (if ?b then _ else _) => destruct b
                    | |- quiet _ (match ?x with _ => _ end) => destruct x end ].

Section run_conforms.
Context `{MapRange, UnicodeTables}.
Context (format_v : float64 → string) (uuid_String : uuid → string) (quote_string : string → string).
Context (o : orchestrator).

Lemma quiet_fsync pid tmp final : quiet pid (fsyncAndRename quote_string tmp final).
Proof. unfold fsyncAndRename. quiet_step. Qed.

Lemma quiet_kpis pid path : quiet pid (readKpisFromSnapshot path).
Proof. unfold readKpisFromSnapshot. quiet_step. Qed.

Lemma quiet_remove_all pid paths : quiet pid (remove_all paths).
Proof. induction paths as [|p paths IH]; cbn [remove_all]; quiet_step; done. Qed.

Lemma quiet_prune pid : quiet pid (prune pid).
Proof. unfold prune. quiet_step. apply quiet_remove_all. Qed.

Lemma quiet_hub pid rid s m : quiet pid (hub_complete o rid s m).
Proof. unfold hub_complete. quiet_step. Qed.

Lemma quiet_notify pid p rid sch b : quiet pid (notify o p rid sch b).
Proof. unfold notify. quiet_step. Qed.

Ltac conf_step :=
  unfold since, do, mbind, prog_bind; cbn [pbind];
  repeat first
    [ match goal with |- conforms _ _ _ (Ret _) => apply conf_ret end
    | match goal with |- conforms _ _ _ (Call _ _) => apply conf_call; [done|intros ?]; cbn [pbind terminal andb negb] end
    | apply conforms_quiet; [solve [auto using quiet_fsync, quiet_kpis, quiet_prune, quiet_hub, quiet_notify]|intros ?]
    | match goal with |- conforms _ _ _ (if ?b then _ else _) => destruct b
                    | |- conforms _ _ _ (match ?x with _ => _ end) => destruct x end; cbn [is_ok andb negb] ].

Lemma conforms_fail pid rid st sch err : conforms pid rid true (fail o pid rid st sch err).
Proof. unfold fail. conf_step. Qed.

Lemma conforms_run_resolved pid rid st sch row art :
  conforms pid rid true (run_resolved format_v uuid_String quote_string o pid rid st sch row art).
Proof. unfold run_resolved. conf_step; apply conforms_fail. Qed.

Lemma conforms_then {A B} pid rid live (p : prog Backtest.call A) (f : A → prog Backtest.call B) :
  conforms pid rid live p → (∀ live a, conforms pid rid live (f a)) → conforms pid rid live (pbind f p).
Proof.
  intros Hp Hf. induction Hp; cbn; [apply Hf|]. by constructor.
Qed.

Lemma conforms_Run pid rid sch :
  conforms pid rid true (Run format_v uuid_String quote_string o pid rid sch).
Proof.
  unfold Run. conf_step; try apply conforms_fail.
  apply conforms_then; [apply conforms_run_resolved|]. intros live r. conf_step.
Qed.

End run_conforms.

(** ** What the store operations do to runs in flight *)
Section frames.
Context `{MapRange}.

(** In-flight rows other than [except] stay, unless their portfolio is gone;
    deleted portfolios stay deleted; no row becomes in flight. *)
Record frame (except : uuid → Prop) (d d' : db) : Prop := {
  fr_next : (next_uuid d ≤ next_uuid d')%N;
  fr_gone : ∀ i, portfolios d !! i = None → (i < next_uuid d)%N → portfolios d' !! i = None;
  fr_stay : ∀ i r, runs d !! i = Some r → inflight r = true → ¬ except i →
    (∃ r', runs d' !! i = Some r' ∧ run_PortfolioID r' = run_PortfolioID r ∧ inflight r' = true) ∨
    portfolios d' !! run_PortfolioID r = None;
  fr_back : ∀ i r', runs d' !! i = Some r' → ∃ r, runs d !! i = Some r ∧
    run_PortfolioID r = run_PortfolioID r' ∧ (inflight r' = true → inflight r = true);
}.

Definition newest (d : db) : Prop := ∀ i j r s,
  runs d !! i = Some r → inflight r = true → runs d !! j = Some s →
  run_PortfolioID s = run_PortfolioID r → (j ≤ i)%N.

Definition live_task (d : db) (t : task) : Prop :=
  (∃ r, runs d !! t_runID t = Some r ∧ run_PortfolioID r = t_portfolioID t ∧ inflight r = true) ∨
  (runs d !! t_runID t = None ∧ portfolios d !! t_portfolioID t = None ∧
   (t_portfolioID t < next_uuid d)%N).

Lemma frame_newest except d d' : frame except d d' → newest d → newest d'.
Proof.
  intros [_ _ _ Hb] Hn i j r s Hr Hi Hs Hp.
  destruct (Hb _ _ Hr) as (r0 & Hr0 & Hp0 & Hi0), (Hb _ _ Hs) as (s0 & Hs0 & Hps0 & _).
  eapply (Hn i j r0 s0); auto; congruence.
Qed.

Lemma frame_live except d d' t :
  db_inv d → db_inv d' → frame except d d' → ¬ except (t_runID t) → live_task d t → live_task d' t.
Proof.
  intros Hinv Hinv' [Hnx Hg Hs Hb] He [(r & Hr & Hp & Hi)|(Hr & Hn & Hlt)].
  - destruct (Hs _ _ Hr Hi He) as [(r' & Hr' & Hp' & Hi')|Hgone].
    + left. exists r'. rewrite Hp', Hp. done.
    + right. split; [|split; [by rewrite <-Hp|]].
      * apply eq_None_not_Some. intros [r' Hr']. destruct (Hb _ _ Hr') as (r0 & Hr0 & Hp0 & _).
        assert (r0 = r) as -> by congruence. destruct (inv_fk d' Hinv' _ _ Hr') as [q Hq]. congruence.
      * pose proof (inv_fk d Hinv _ _ Hr) as Hf. apply (inv_fresh d Hinv) in Hf. rewrite <-Hp. lia.
  - right. split; [|split; [by apply Hg|lia]].
    apply eq_None_not_Some. intros [r' Hr']. destruct (Hb _ _ Hr') as (r0 & Hr0 & _). congruence.
Qed.

Lemma frame_refl except d d' : same_tables d d' → (next_uuid d ≤ next_uuid d')%N → frame except d d'.
Proof.
  intros [Hp Hr] Hn. split; [done|..].
  - intros i Hi _. by rewrite Hp.
  - intros i r Hir Hf _. left. exists r. by rewrite Hr.
  - intros i r'. rewrite Hr. eauto.
Qed.

(** Updating one run row, which stays in flight or is the exception, and one
    portfolio row. *)
Lemma frame_alter except i r (f : Portfolio → Portfolio) (g : Types.Run → Types.Run) d d' :
  portfolios d' = alter f i (portfolios d) → runs d' = alter g r (runs d) →
  (next_uuid d ≤ next_uuid d')%N →
  (∀ x, run_PortfolioID (g x) = run_PortfolioID x) →
  (∀ x, runs d !! r = Some x → inflight (g x) = true → inflight x = true) →
  ((∀ x, inflight (g x) = true) ∨ except r) →
  frame except d d'.
Proof.
  intros Hp Hr Hn Hgp Hgi Hex. split; [done|..].
  - intros j Hj _. rewrite Hp. destruct (decide (j = i)) as [->|Hne].
    + by rewrite lookup_alter_eq, Hj.
    + by rewrite lookup_alter_ne.
  - intros j x Hj Hi Hne. left. rewrite Hr. destruct (decide (j = r)) as [->|Hjr].
    + rewrite lookup_alter_eq, Hj. cbn. exists (g x). split; [done|]. split; [done|].
      by destruct Hex as [Hex|Hex].
    + rewrite lookup_alter_ne by done. eauto.
  - intros j x'. rewrite Hr. destruct (decide (j = r)) as [->|Hjr].
    + rewrite lookup_alter_eq. destruct (runs d !! r) as [x|] eqn:Hx; [|done]. cbn. intros [= <-].
      exists x. split; [done|]. split; [done|]. by apply Hgi.
    + rewrite lookup_alter_ne by done. eauto.
Qed.

(** ** Frames of whole operations *)
Definition none_but (l : list uuid) (i : uuid) : Prop := i ∈ l.

Definition fr {A} (m : db → db * result A) : Prop := ∀ d, db_inv d → frame (none_but []) d (m d).1.

Lemma frame_portfolios except d d' :
  runs d' = runs d → (next_uuid d ≤ next_uuid d')%N →
  (∀ i, portfolios d !! i = None → (i < next_uuid d)%N → portfolios d' !! i = None) →
  frame except d d'.
Proof.
  intros Hr Hn Hp. split; [done|done|..].
  - intros i r Hi Hf _. left. exists r. by rewrite Hr.
  - intros i r'. rewrite Hr. eauto.
Qed.

Lemma frame_proper except d d0 d' :
  same_tables d d0 → next_uuid d0 = next_uuid d → frame except d0 d' → frame except d d'.
Proof.
  intros [Hp Hr] Hn [H1 H2 H3 H4]. rewrite Hp, Hr, Hn in *. by split.
Qed.

Lemma frame_proper_r except d d1 d' :
  frame except d d1 → same_tables d1 d' → (next_uuid d1 ≤ next_uuid d')%N → frame except d d'.
Proof.
  intros [H1 H2 H3 H4] [Hp Hr] Hn. rewrite <-Hp, <-Hr in *. split; [lia|done..].
Qed.

Lemma sql_next_Err {A} (q : db → result (db * A)) d d' e :
  sql q d = (d', Err e) → next_uuid d' = next_uuid d.
Proof.
  unfold sql. destruct (next_fault_tables d) as (_ & _ & Hn & _).
  destruct (next_fault d) as [d0 [e0|]]; [intros [= <- _]; done|].
  destruct (q d0) as [[d1 b]|]; [done|]. intros [= <- _]. done.
Qed.

Lemma fr_sql {A} (q : db → result (db * A)) :
  (∀ d d' a, db_inv d → q d = Ok (d', a) → frame (none_but []) d d') → fr (sql q).
Proof.
  intros Hq d Hinv. destruct (sql q d) as [d' [a|e]] eqn:Hs; cbn.
  - apply sql_Ok in Hs as (d0 & Hs & _ & Hn & Hqd). eapply frame_proper; [done|done|].
    eapply Hq; [|done]. destruct Hs. eapply inv_tables; eauto. lia.
  - apply frame_refl; [by eapply sql_Err|]. rewrite (sql_next_Err _ _ _ _ Hs). lia.
Qed.

Lemma fr_with_text {A} ts (q : db → result (db * A)) : fr (sql q) → fr (sql (with_text ts q)).
Proof.
  intros Hq. destruct (with_text_cases ts q) as [-> | ->]; [done|]. apply fr_sql. by intros ????.
Qed.
Lemma fr_with_jsonb {A} j m (q : db → result (db * A)) : fr (sql q) → fr (sql (with_jsonb j m q)).
Proof.
  intros Hq. destruct (with_jsonb_cases j m q) as [-> | ->]; [done|]. apply fr_sql. by intros ????.
Qed.

Lemma fr_map_err {A} f (m : db → db * result A) : fr m → fr (map_err f m).
Proof. intros Hm d Hinv. specialize (Hm d Hinv). unfold map_err. by destruct (m d). Qed.

Lemma fr_then_pure {A B} (m : db → db * result A) (k : A → db → db * result B) :
  fr m → (∀ a d, (k a d).1 = d) → fr (then_ m k).
Proof.
  intros Hm Hk d Hinv. specialize (Hm d Hinv). unfold then_. destruct (m d) as [d1 [a|e]]; [|done].
  cbn in *. by rewrite Hk.
Qed.

Lemma fr_in_tx {A} f g (body : db → db * result A) : good body → fr body → fr (in_tx f g body).
Proof.
  intros Hg Hb d Hinv. pose proof (good_in_tx f g body Hg d Hinv) as [_ Hnx].
  destruct (in_tx f g body d) as [d' [a|e]] eqn:Ht.
  - unfold in_tx in Ht. destruct (next_fault_tables d) as (Hp & Hr & Hn & _).
    destruct (next_fault d) as [d0 [e0|]]; [done|]. cbn [fst] in *.
    assert (db_inv d0) as Hinv0 by (eapply inv_tables; eauto; lia).
    pose proof (Hb d0 Hinv0) as Hfr. destruct (body d0) as [d1 [b|e1]]; [|done]. cbn [fst] in Hfr.
    destruct (next_fault_tables d1) as (Hp1 & Hr1 & Hn1 & _).
    destruct (next_fault d1) as [d2 [e2|]]; [done|]. injection Ht as <- <-. cbn [fst] in *.
    eapply frame_proper_r; [eapply frame_proper; [done|done|exact Hfr]|done|lia].
  - apply frame_refl; [by eapply in_tx_Err|done].
Qed.

Lemma frame_update_portfolio except i f d d' n :
  update_portfolio i f d = Ok (d', n) → frame except d d'.
Proof.
  unfold update_portfolio. destruct (portfolios d !! i) as [p|] eqn:Hp; intros [= <- _].
  - apply frame_portfolios; [done|done|]. intros j Hj _. cbn. rewrite lookup_insert_ne by (intros ->; by pose proof (eq_trans (eq_sym Hp) Hj)). done.
  - by apply frame_refl.
Qed.

Lemma fr_update_slug o s f : fr (sql (update_slug o s f)).
Proof.
  apply fr_sql. unfold update_slug. intros d d' a _ Hu. destruct (find_slug o s d).
  - by eapply frame_update_portfolio.
  - injection Hu as <- _. by apply frame_refl.
Qed.

Lemma fr_insert marshal_err p : fr (Insert marshal_err p).
Proof.
  intros d Hinv. unfold Insert. destruct (marshal_err _); [by apply frame_refl|].
  revert d Hinv. apply fr_map_err, fr_with_text, fr_with_jsonb, fr_sql. intros d d' [] _ Hi. unfold insert_row in Hi.
  destruct (RunRetention p <? 1); [done|]. destruct (bool_decide _); [done|].
  destruct (bool_decide _); [|done]. injection Hi as <-. apply frame_portfolios; cbn; [done|lia|].
  intros i Hn Hlt. rewrite lookup_insert_ne by lia. done.
Qed.

Lemma fr_delete o s : fr (Delete o s).
Proof.
  apply fr_then_pure; [|done]. apply fr_map_err, fr_sql. intros d d' n Hinv Hd. unfold delete_row in Hd.
  destruct (find_slug o s d) as [i|]; injection Hd as <- _; [|by apply frame_refl].
  split; cbn; [done|..].
  - intros j Hj _. rewrite lookup_delete_None. by right.
  - intros j r Hr Hi _. destruct (decide (run_PortfolioID r = i)) as [->|Hne].
    + right. by rewrite lookup_delete_eq.
    + left. exists r. split; [|done]. by apply map_lookup_filter_Some.
  - intros j r [Hr _]%map_lookup_filter_Some. eauto.
Qed.

Lemma fr_update_run_retention o s v : fr (UpdateRunRetention o s v).
Proof.
  apply fr_then_pure; [|done]. apply fr_map_err, fr_sql. intros d d' n _ Hu.
  destruct ((v <? 1) && _); [done|]. unfold update_slug in Hu. destruct (find_slug o s d).
  - by eapply frame_update_portfolio.
  - injection Hu as <- _. by apply frame_refl.
Qed.

Lemma fr_apply_upgrade i v dsc ps pre : fr (ApplyUpgrade i v dsc ps pre).
Proof.
  apply fr_in_tx.
  - auto 10 with pvapi.
  - apply fr_then_pure; [|done]. apply fr_map_err, fr_with_text, fr_with_jsonb, fr_sql.
    intros d d' n _. apply frame_update_portfolio.
Qed.

(** Every write of the other parts of the server. *)
Lemma fr_other marshal_err op d :
  db_inv d → other_writer op = true → frame (none_but []) d (exec marshal_err op d).
Proof.
  intros Hinv Hop. destruct op; try done; cbn [exec].
  - by apply fr_insert.
  - apply (fr_then_pure _ _ (fr_map_err _ _ (fr_with_text _ _ (fr_update_slug _ _ _)))); done.
  - apply (fr_then_pure _ _ (fr_map_err _ _ (fr_update_slug _ _ _))); done.
  - by apply fr_update_run_retention.
  - by apply fr_delete.
  - by apply fr_apply_upgrade.
  - by apply frame_refl.
Qed.

(** ** Frames of the orchestrator's own calls *)
Lemma good_mark_running i r : good (Store.MarkRunningTx i r).
Proof. unfold Store.MarkRunningTx. auto 20 with pvapi. Qed.
Lemma good_mark_ready i r a ms : good (Store.MarkReadyTx i r a ms).
Proof. unfold Store.MarkReadyTx. auto 20 with pvapi. Qed.
Lemma good_mark_failed i r m ms : good (Store.MarkFailedTx i r m ms).
Proof. unfold Store.MarkFailedTx. auto 20 with pvapi. Qed.
Lemma good_run_failed r m ms : good (Store.UpdateRunFailed r m ms).
Proof. unfold Store.UpdateRunFailed. auto 20 with pvapi. Qed.

(** A status transition, whichever way it ends. *)
Lemma frame_mark ts except pid rid f (g : instant → Types.Run → Types.Run) d d' a :
  mark_tx ts pid rid f g d = (d', a) → (next_uuid d ≤ next_uuid d')%N →
  (∀ t x, run_PortfolioID (g t x) = run_PortfolioID x) →
  (∀ t x, runs d !! rid = Some x → inflight (g t x) = true → inflight x = true) →
  (is_ok a = true → (∀ t x, inflight (g t x) = true) ∨ except rid) →
  frame except d d'.
Proof.
  intros Hm Hn Hgp Hgi Hex. pose proof (mark_tx_atomic ts pid rid f g d) as Hat.
  unfold both_or_neither in Hat. rewrite Hm in Hat. destruct a as [[]|e].
  - destruct Hat as [Hp Hr]. eapply frame_alter; eauto. destruct (Hex eq_refl); auto.
  - by apply frame_refl.
Qed.

(** A row update outside a transaction. *)
Lemma update_run_failed_tables rid m ms d d' a :
  Store.UpdateRunFailed rid m ms d = (d', a) →
  portfolios d' = portfolios d ∧
  runs d' = match a with Ok _ => alter (run_failed m ms (now d)) rid (runs d) | Err _ => runs d end.
Proof.
  unfold Store.UpdateRunFailed, then_. destruct (sql _ d) as [d1 [n|e]] eqn:Hs.
  - intros [= <- <-]. apply sql_Ok in Hs as (d0 & [Hp Hr] & Hn & _ & Hu).
    apply with_text_Ok, update_run_alter in Hu as (Hr' & Hp' & _). by rewrite Hr', Hp', Hr, Hp, Hn.
  - intros [= <- <-]. by apply sql_Err in Hs as [-> ->].
Qed.

Lemma frame_update_run_failed except rid m ms d d' a :
  Store.UpdateRunFailed rid m ms d = (d', a) → (next_uuid d ≤ next_uuid d')%N →
  (is_ok a = true → except rid) → frame except d d'.
Proof.
  intros Hu Hn Hex. apply update_run_failed_tables in Hu as [Hp Hr]. destruct a as [[]|e].
  - eapply (frame_alter _ 0%N rid id _); eauto; try done.
    rewrite Hp. symmetry. by apply alter_id.
  - by apply frame_refl.
Qed.

(** A committed prune removes rows of its portfolio that have newer ones. *)
Lemma prune_tables pid d d' a :
  db_inv d → Store.PruneRuns pid d = (d', a) →
  portfolios d' = portfolios d ∧ runs d' ⊆ runs d ∧
  (∀ i r, runs d !! i = Some r →
     (run_PortfolioID r = pid → ∀ j s, runs d !! j = Some s → run_PortfolioID s = pid → (j ≤ i)%N) →
     runs d' !! i = Some r).
Proof.
  intros Hinv Hpr. destruct a as [paths|e].
  2:{ apply in_tx_Err in Hpr as [-> ->]. done. }
  apply in_tx_Ok in Hpr as (d0 & d1 & Hs0 & _ & Hb & [Hp1 Hr1] & _).
  apply then_Ok in Hb as (d2 & n & Hq%map_err_Ok & Hb%map_err_Ok).
  apply sql_Ok in Hq as (d3 & Hs3 & _ & _ & Hq).
  destruct (portfolios d3 !! pid) as [p|] eqn:Hp; [|done]. injection Hq as <- <-.
  apply sql_Ok in Hb as (d4 & Hs4 & _ & _ & Hb).
  assert (same_tables d d4) as Hs by (unfold same_tables in *; destruct Hs0, Hs3, Hs4; split; congruence).
  assert (portfolios d !! pid = Some p) as Hpd.
  { destruct Hs0 as [E0 _], Hs3 as [E3 _]. rewrite <-E0, <-E3. exact Hp. }
  pose proof (inv_retention d Hinv _ _ Hpd). injection Hb as <- _. cbn in Hp1, Hr1.
  destruct Hs as [Hps Hrs]. rewrite Hp1, Hr1. split; [done|]. rewrite Hrs. split; [apply map_filter_subseteq|].
  intros i r Hr Hmax. apply map_lookup_filter_Some. split; [done|]. cbn. unfold pruned.
  apply andb_false_iff. destruct (bool_decide_reflect (run_PortfolioID r = pid)) as [Hrp|]; [right|by left].
  specialize (Hmax Hrp). apply Z.ltb_ge. unfold row_number. rewrite Hrs.
  rewrite map_empty_filter_2; [rewrite map_size_empty; lia|]. intros j s Hj. cbn. intros [Hsp Hlt].
  pose proof (Hmax j s Hj Hsp). rewrite (inv_rid d Hinv _ _ Hr) in Hlt. lia.
Qed.

Lemma good_after {A} (m : db → db * result A) d d' a :
  good m → db_inv d → m d = (d', a) → db_inv d' ∧ (next_uuid d ≤ next_uuid d')%N.
Proof. intros Hg Hinv Hm. specialize (Hg d Hinv). by rewrite Hm in Hg. Qed.

Lemma live_row_inflight d t r :
  live_task d t → runs d !! t_runID t = Some r → inflight r = true.
Proof. intros [(s & Hs & _ & Hi)|(Hn & _)] Hr; [|congruence]. by assert (r = s) as -> by congruence. Qed.

(** A call of a run that is its own: the schema invariant holds after it, and
    only a successful terminal write ends the run's own row. *)
Lemma own_call_frame t live {A} (c : Backtest.call A) d d' (a : A) :
  db_inv d → newest d → own (t_portfolioID t) (t_runID t) live c →
  (live = true → live_task d t) → answers c d d' a →
  db_inv d' ∧ frame (none_but (if terminal c a then [t_runID t] else [])) d d'.
Proof.
  intros Hinv Hnew Hown Hlive Hans.
  destruct c; cbn [answers own terminal] in *; try (subst d'; split; [done|by apply frame_refl]).
  - unfold adapter_GetByID, Store.GetByID in Hans.
    destruct (sql _ d) as [d1 r] eqn:Hs. injection Hans as -> _.
    assert (same_tables d d1 ∧ next_uuid d1 = next_uuid d) as [Hsame Hn].
    { destruct r as [p|e]; [|by split; [eapply sql_Err|eapply sql_next_Err]].
      apply sql_Ok in Hs as (d0 & Hs0 & _ & Hn0 & Hq).
      destruct (portfolios d0 !! portfolioID); [|done]. by injection Hq as <- _. }
    split; [|apply frame_refl; [done|lia]]. destruct Hsame. eapply inv_tables; eauto. lia.
  - destruct Hown as [-> ->]. destruct (good_after _ _ _ _ (good_run_failed _ _ _) Hinv (eq_sym Hans)) as [Hinv' Hn].
    split; [done|]. eapply frame_update_run_failed; [by symmetry|done|].
    intros ->. by left.
  - destruct Hown as (-> & -> & ->). specialize (Hlive eq_refl).
    destruct (good_after _ _ _ _ (good_mark_running _ _) Hinv (eq_sym Hans)) as [Hinv' Hn].
    split; [done|]. eapply (frame_mark [] _ _ _ set_running run_running); [exact (eq_sym Hans)|done|done| |by left].
    intros _ x Hx _. by eapply live_row_inflight.
  - destruct Hown as (-> & -> & ->).
    destruct (good_after _ _ _ _ (good_mark_ready _ _ _ _) Hinv (eq_sym Hans)) as [Hinv' Hn].
    split; [done|]. eapply (frame_mark [_] _ _ _ (set_ready _) (run_success _ _)); [exact (eq_sym Hans)|done|done|done|].
    intros ->. right. by left.
  - destruct Hown as (-> & -> & ->).
    destruct (good_after _ _ _ _ (good_mark_failed _ _ _ _) Hinv (eq_sym Hans)) as [Hinv' Hn].
    split; [done|]. eapply (frame_mark [_] _ _ _ (set_failed _) (run_failed _ _)); [exact (eq_sym Hans)|done|done|done|].
    intros ->. right. by left.
  - subst portfolioID. destruct (good_after _ _ _ _ (good_prune _) Hinv (eq_sym Hans)) as [Hinv' Hn].
    split; [done|]. destruct (prune_tables _ _ _ _ Hinv (eq_sym Hans)) as (Hp & Hsub & Hkeep).
    split; [done|..].
    + intros i Hi _. by rewrite Hp.
    + intros i r Hr Hi _. left. exists r. split; [|done]. apply Hkeep; [done|].
      intros Hrp j s Hs Hsp. eapply Hnew; [exact Hr|done|exact Hs|congruence].
    + intros i r Hr. exists r. split; [|done]. by eapply lookup_weaken.
Qed.

End frames.

(** The fields of the dispatcher a new database leaves alone. *)
Ltac submit_fields s d :=
  change (y_closed (s <| y_db := d |>)) with (y_closed s);
  change (y_tasks (s <| y_db := d |>)) with (y_tasks s);
  change (y_cap (s <| y_db := d |>)) with (y_cap s).

(** ** The running system *)
Section system.
Context `{MapRange, UnicodeTables}.
Context (format_v : float64 → string) (uuid_String : uuid → string) (quote_string : string → string).
Context (cfg : Config) (o : orchestrator) (marshal_err : gmap string json → option goerror).

Notation entry := (task * prog Backtest.call (option goerror))%type.

(** The entry has no status to write and no runner to call any more. *)
Definition finished (e : entry) : Prop :=
  conforms (t_portfolioID e.1) (t_runID e.1) false e.2.

Record entries_inv (d : db) (l : list entry) : Prop := {
  ei_db : db_inv d;
  ei_newest : newest d;
  ei_nodup : NoDup (map (λ e : entry, t_runID e.1) l);
  ei_fresh : ∀ e, e ∈ l → (t_runID e.1 < next_uuid d)%N;
  ei_live : ∀ e, e ∈ l → finished e ∨
    (conforms (t_portfolioID e.1) (t_runID e.1) true e.2 ∧ live_task d e.1);
  ei_excl : ∀ e f, e ∈ l → f ∈ l → t_portfolioID e.1 = t_portfolioID f.1 →
    t_runID e.1 = t_runID f.1 ∨ finished e ∨ finished f;
}.

Lemma entries_perm d l l' : l ≡ₚ l' → entries_inv d l → entries_inv d l'.
Proof.
  intros Hp [H1 H2 H3 H4 H5 H6]. split; try done.
  - by rewrite <-Hp.
  - intros e. rewrite <-Hp. auto.
  - intros e. rewrite <-Hp. auto.
  - intros e f. rewrite <-Hp. auto.
Qed.

Lemma entries_frame ex d d' l :
  entries_inv d l → db_inv d' → frame (none_but ex) d d' →
  (∀ e, e ∈ l → t_runID e.1 ∉ ex) → entries_inv d' l.
Proof.
  intros [H1 H2 H3 H4 H5 H6] Hinv' Hfr Hex. split; try done.
  - by eapply frame_newest.
  - intros e He. eapply N.lt_le_trans; [by apply H4|apply (fr_next _ _ _ Hfr)].
  - intros e He. destruct (H5 e He) as [?|[Hc Hl]]; [by left|right]. split; [done|].
    eapply (frame_live (none_but ex) d d'); eauto.
Qed.

Lemma entries_cons_inv d e l : entries_inv d (e :: l) → entries_inv d l.
Proof.
  intros [H1 H2 H3 H4 H5 H6]. split; try done.
  - by apply NoDup_cons in H3 as [_ ?].
  - intros f Hf. apply H4. by right.
  - intros f Hf. apply H5. by right.
  - intros f g Hf Hg. apply H6; by right.
Qed.

Lemma entries_cons d (e : entry) l :
  entries_inv d l →
  (∀ f, f ∈ l → t_runID f.1 ≠ t_runID e.1) → (t_runID e.1 < next_uuid d)%N →
  finished e ∨ (conforms (t_portfolioID e.1) (t_runID e.1) true e.2 ∧ live_task d e.1) →
  (∀ f, f ∈ l → t_portfolioID f.1 = t_portfolioID e.1 → finished e ∨ finished f) →
  entries_inv d (e :: l).
Proof.
  intros [H1 H2 H3 H4 H5 H6] Hid Hlt Hlive Hex. split; try done.
  - apply NoDup_cons. split; [|done]. intros (f & Heq & Hf)%list_elem_of_fmap. by eapply Hid.
  - intros f [->|Hf]%elem_of_cons; auto.
  - intros f [->|Hf]%elem_of_cons; auto.
  - intros f g [->|Hf]%elem_of_cons [->|Hg]%elem_of_cons Hp; auto.
    destruct (Hex f Hf); auto.
Qed.

Lemma entries_head_ids d (e : entry) l f : entries_inv d (e :: l) → f ∈ l → t_runID f.1 ≠ t_runID e.1.
Proof.
  intros Hinv Hf Heq. pose proof (ei_nodup _ _ Hinv) as [Hn _]%NoDup_cons. apply Hn.
  apply list_elem_of_fmap. eauto.
Qed.

Lemma finished_call t {A} (c : Backtest.call A) k a : finished (t, Call c k) → finished (t, k a).
Proof. unfold finished. cbn. intros [_ Hk]%conforms_Call. apply (Hk a). Qed.

Lemma entries_call d d' t A (c : Backtest.call A) k a l :
  entries_inv d ((t, Call c k) :: l) → answers c d d' a → entries_inv d' ((t, k a) :: l).
Proof.
  intros Hinv Hans. pose proof (entries_cons_inv _ _ _ Hinv) as Hl.
  assert (∃ live, conforms (t_portfolioID t) (t_runID t) live (Call c k) ∧ (live = true → live_task d t))
    as (live & [Hown Hk]%conforms_Call & Hlive).
  { destruct (ei_live _ _ Hinv (t, Call c k)) as [Hf|[Hc Hlt]]; [by left| |]; [by exists false|by exists true]. }
  destruct (own_call_frame t live c d d' a) as [Hinv' Hfr];
    [apply Hl|apply Hl|done|done|done|].
  pose proof (fr_next _ _ _ Hfr) as Hnx.
  apply entries_cons.
  - eapply entries_frame; [done|done|exact Hfr|]. intros f Hf Hin.
    pose proof (entries_head_ids _ _ _ f Hinv Hf). destruct (terminal c a); [|by apply not_elem_of_nil in Hin].
    by apply list_elem_of_singleton in Hin.
  - intros f Hf. by apply (entries_head_ids _ _ _ f Hinv Hf).
  - eapply N.lt_le_trans; [|exact Hnx]. apply (ei_fresh _ _ Hinv (t, Call c k)). by left.
  - specialize (Hk a). destruct live; cbn [andb] in Hk; [|by left].
    destruct (terminal c a); cbn [negb] in Hk; [by left|right]. split; [done|].
    eapply (frame_live (none_but [])); [apply Hl|done|done|apply not_elem_of_nil|by apply Hlive].
  - intros f Hf Hp. destruct (ei_excl _ _ Hinv (t, Call c k) f) as [Heq|[Hfin|Hfin]];
      [by left|by right|done| | |].
    + by destruct (entries_head_ids _ _ _ f Hinv Hf).
    + left. by eapply finished_call.
    + by right.
Qed.

(** ** Submissions *)
Lemma create_run_effect pid tr d d' r :
  db_inv d → tr ∈ [TriggerScheduled; TriggerManual] → CreateRun pid "queued" tr d = (d', Ok r) →
  run_ID r = next_uuid d ∧ portfolios d' = portfolios d ∧ runs d' = <[run_ID r := r]> (runs d) ∧
  next_uuid d' = (next_uuid d + 1)%N ∧ run_PortfolioID r = pid ∧ inflight r = true ∧
  is_Some (portfolios d !! pid) ∧ ¬ in_flight d pid.
Proof.
  intros Hinv Htr Hc. apply map_err_Ok, sql_Ok in Hc as (d0 & [Hp Hr] & Hn & Hnx & Hi).
  assert (db_inv d0) as Hinv0 by (eapply inv_tables; eauto; lia).
  rewrite insert_run_queued in Hi by done. cbv zeta in Hi. set (row := Build_Run _ _ _ _ _ _ _ _ _) in Hi.
  pose proof (inflight_conflict_new d0 row Hinv0 eq_refl eq_refl) as Hcf. cbn [run_PortfolioID row] in Hcf.
  destruct (inflight_conflict d0 row); [done|].
  destruct (bool_decide_reflect (portfolios d0 !! pid = None)) as [|Hp']; [done|]. injection Hi as <- <-.
  cbn. rewrite Hp, Hr, Hnx in *. do 6 (split; [done|]). split; [by destruct (portfolios d !! pid)|].
  intros (i & s & Hs & Hps & His). destruct Hcf as [_ Hcf].
  assert (false = true); [|done]. apply Hcf. exists i, s. by rewrite Hr.
Qed.

Lemma create_run_err pid tr d d' e :
  db_inv d → CreateRun pid "queued" tr d = (d', Err e) → same_tables d d' ∧ next_uuid d' = next_uuid d.
Proof.
  intros Hinv. unfold CreateRun, map_err. destruct (sql _ d) as [d1 [r|e1]] eqn:Hs; [done|].
  intros [= <- _]. split; [by eapply sql_Err|by eapply sql_next_Err].
Qed.

(** A queued run leaves the others as they were. *)
Lemma entries_created d d' r l :
  entries_inv d l → db_inv d' →
  run_ID r = next_uuid d → portfolios d' = portfolios d → runs d' = <[run_ID r := r]> (runs d) →
  next_uuid d' = (next_uuid d + 1)%N → ¬ in_flight d (run_PortfolioID r) →
  entries_inv d' l.
Proof.
  intros [H1 H2 H3 H4 H5 H6] Hinv' Hid Hp Hr Hn Hno. rewrite Hid in Hr. split; try done.
  - intros i j x y. rewrite !Hr. intros [[<- <-]|[Hi Hx]]%lookup_insert_Some Hf
      [[<- <-]|[Hj Hy]]%lookup_insert_Some Hpp; try done.
    + apply N.lt_le_incl. apply (inv_fresh d H1). eauto.
    + exfalso. apply Hno. exists i, x. eauto.
    + by eapply (H2 i j x y).
  - intros e He. rewrite Hn. specialize (H4 e He). lia.
  - intros e He. destruct (H5 e He) as [?|[Hc Hl]]; [by left|right]. split; [done|].
    specialize (H4 e He). destruct Hl as [(x & Hx & Hpx & Hix)|(Hx & Hpx & Hlt)].
    + left. exists x. rewrite Hr, lookup_insert_ne by lia. done.
    + right. rewrite Hr, Hp, Hn, lookup_insert_ne by lia. split; [done|]. split; [done|]. lia.
Qed.
(** ** Reachable states *)
Notation run_of t := (Run format_v uuid_String quote_string o (t_portfolioID t) (t_runID t) (t_scheduled t)).

Definition busy (ws : list (option entry)) : list entry := omap id ws.
Definition entries (s : sys) : list entry :=
  map (λ t, (t, run_of t)) (y_tasks s) ++ busy (y_workers s).

Record sys_inv (s : sys) : Prop := {
  si_entries : entries_inv (y_db s) (entries s);
  si_bound : (length (y_tasks s) ≤ y_cap s)%nat;
}.

Lemma busy_app ws vs : busy (ws ++ vs) = busy ws ++ busy vs.
Proof. apply omap_app. Qed.

Lemma busy_insert ws i x y :
  ws !! i = Some x → busy (<[i := y]> ws) ≡ₚ option_list y ++ busy (<[i := None]> ws).
Proof.
  intros Hi. pose proof (lookup_lt_Some _ _ _ Hi).
  rewrite !insert_take_drop by done. rewrite !busy_app. cbn. destruct y as [e|]; cbn; [|done].
  by rewrite Permutation_middle.
Qed.

Lemma busy_lookup ws i x : ws !! i = Some x → busy ws ≡ₚ option_list x ++ busy (<[i := None]> ws).
Proof. intros Hi. rewrite <-(busy_insert ws i x x Hi). by rewrite list_insert_id. Qed.

Ltac csys := cbn [option_list option_rect app map y_tasks y_workers y_db y_cap set_field].

Lemma step_take_inv s i s' :
  worker_take format_v uuid_String quote_string o i s = Some s' → sys_inv s → sys_inv s'.
Proof.
  unfold worker_take. destruct (y_workers s !! i) as [[|]|] eqn:Hi; try done.
  destruct (y_tasks s) as [|t ts] eqn:Hts; [done|]. intros [= <-] [He Hb]. split; csys.
  - eapply entries_perm; [|exact He]. unfold entries. csys. rewrite Hts. csys.
    rewrite (busy_insert _ _ _ _ Hi), (busy_lookup _ _ _ Hi). csys.
    by rewrite <-Permutation_middle.
  - rewrite Hts in Hb. cbn in Hb. lia.
Qed.

Lemma step_call_inv s i t A (c : Backtest.call A) k d a :
  y_workers s !! i = Some (Some (t, Call c k)) → answers c (y_db s) d a → sys_inv s →
  sys_inv (s <| y_db := d |> <| y_workers := <[i := Some (t, k a)]> (y_workers s) |>).
Proof.
  intros Hi Hans [He Hb]. split; [|done]. csys.
  eapply entries_perm; [|eapply (entries_call _ _ t _ c k a); [|exact Hans]].
  2:{ eapply entries_perm; [|exact He]. unfold entries. rewrite (busy_lookup _ _ _ Hi). csys.
      by rewrite <-Permutation_middle. }
  unfold entries. csys. rewrite (busy_insert _ _ _ (Some (t, k a)) Hi). csys. by rewrite <-Permutation_middle.
Qed.

Lemma step_finish_inv s i t r :
  y_workers s !! i = Some (Some (t, Ret r)) → sys_inv s →
  sys_inv (s <| y_workers := <[i := None]> (y_workers s) |>).
Proof.
  intros Hi [He Hb]. split; [|done]. csys. eapply entries_cons_inv, entries_perm; [|exact He].
  unfold entries. csys. rewrite (busy_lookup _ _ _ Hi). csys. by rewrite <-Permutation_middle.
Qed.

Lemma step_submit_inv s pid tr :
  tr ∈ [TriggerScheduled; TriggerManual] → sys_inv s → sys_inv (Submit pid tr s).1.
Proof.
  intros Htr [He Hb]. pose proof (ei_db _ _ He) as Hinv. unfold Submit.
  destruct (CreateRun pid "queued" tr (y_db s)) as [d [r|e]] eqn:Hc.
  - destruct (good_after _ _ _ _ (good_create_run pid "queued" tr) Hinv Hc) as [Hinv' _].
    destruct (create_run_effect _ _ _ _ _ Hinv Htr Hc) as (Hid & Hp & Hr & Hn & Hpid & Hfl & Hex & Hno).
    assert (entries_inv d (entries s)) as Hd by (eapply entries_created; eauto; by rewrite Hpid).
    assert (∀ e, e ∈ entries s → t_runID e.1 ≠ run_ID r) as Hne.
    { intros e Hin Heq. pose proof (ei_fresh _ _ He e Hin). rewrite Heq, Hid in *. lia. }
    submit_fields s d.
    destruct (y_closed s); [split; [exact Hd|exact Hb]|].
    destruct (Nat.ltb_spec (length (y_tasks s)) (y_cap s)).
    + set (t := {| t_portfolioID := pid; t_runID := run_ID r; t_scheduled := _ |}).
      split; cbn; [|rewrite length_app; cbn; lia].
      eapply (entries_perm _ ((t, run_of t) :: entries s)).
      { unfold entries. csys. rewrite map_app, <-app_assoc. csys. apply Permutation_middle. }
      apply entries_cons; [done|done| | |].
      * cbn. rewrite Hid, Hn. lia.
      * right. split; [apply conforms_Run|]. left. exists r. cbn. by rewrite Hr, lookup_insert_eq.
      * intros f Hf Hpf. right. cbn in Hpf. destruct (ei_live _ _ He f Hf) as [?|[_ Hl]]; [done|].
        exfalso. destruct Hl as [(x & Hx & Hpx & Hix)|(_ & Hgone & _)].
        -- apply Hno. exists (t_runID f.1), x. by rewrite Hpx, Hpf.
        -- rewrite Hpf in Hgone. destruct Hex. congruence.
    + destruct (Store.UpdateRunFailed (run_ID r) "dispatcher queue full" 0 d) as [d2 x] eqn:Hu.
      destruct (good_after _ _ _ _ (good_run_failed _ _ _) Hinv' Hu) as [Hinv2 Hn2].
      split; [|done]. cbn. eapply (entries_frame [run_ID r] d d2); [done|done| |].
      * eapply frame_update_run_failed; [exact Hu|done|]. intros _. by left.
      * intros e Hin Hel. apply list_elem_of_singleton in Hel. by eapply Hne.
  - destruct (create_run_err _ _ _ _ _ Hinv Hc) as [Hs Hn]. split; [|done]. cbn.
    eapply (entries_frame [] (y_db s) d); [done| |by apply frame_refl; [|lia]|intros; apply not_elem_of_nil].
    destruct Hs. eapply inv_tables; eauto. lia.
Qed.

Lemma sys_step_inv s s' :
  sys_step format_v uuid_String quote_string o marshal_err s s' → sys_inv s → sys_inv s'.
Proof.
  intros Hstep Hinv. destruct Hstep.
  - by apply step_submit_inv.
  - by eapply step_take_inv.
  - by eapply step_call_inv.
  - by eapply step_finish_inv.
  - destruct Hinv as [He Hb]. split; [|done]. cbn. pose proof (ei_db _ _ He) as Hdb.
    eapply (entries_frame [] (y_db s)); [done|by apply exec_inv|by apply fr_other|].
    intros; apply not_elem_of_nil.
  - destruct Hinv as [He Hb]. split; [|done]. cbn.
    eapply (entries_frame [] (y_db s)); [done| |by apply frame_refl|intros; apply not_elem_of_nil].
    eapply inv_tables; [apply He|done|done|done].
  - unfold Shutdown. destruct Hinv as [He Hb]. by destruct (y_started s), (y_closed s).
Qed.

Lemma step_workers s s' :
  sys_step format_v uuid_String quote_string o marshal_err s s' →
  length (y_workers s') = length (y_workers s) ∧ y_cap s' = y_cap s.
Proof.
  intros Hstep. destruct Hstep; cbn; rewrite ?length_insert; try done.
  - unfold Submit. destruct (CreateRun _ _ _ _) as [d [r|e]]; [|done]. submit_fields s d.
    destruct (y_closed s); [done|]. destruct (_ <? _)%nat; [done|]. by destruct (Store.UpdateRunFailed _ _ _ _).
  - unfold worker_take in *. destruct (y_workers s !! i) as [[|]|]; try done.
    destruct (y_tasks s); [done|]. simplify_eq. cbn. by rewrite length_insert.
  - unfold Shutdown. by destruct (y_started s), (y_closed s).
Qed.

(** Of two workers with runs of one portfolio at least one is done. *)
Lemma exclusive_workers s : sys_inv s → ∀ i j ti pi tj pj,
  y_workers s !! i = Some (Some (ti, pi)) → y_workers s !! j = Some (Some (tj, pj)) →
  i ≠ j → t_portfolioID ti = t_portfolioID tj → finished (ti, pi) ∨ finished (tj, pj).
Proof.
  intros Hs.
  intros i j ti pi tj pj Hi Hj Hij Hp.
  assert (entries s ≡ₚ (ti, pi) :: (tj, pj) :: map (λ t, (t, run_of t)) (y_tasks s)
    ++ busy (<[j := None]> (<[i := None]> (y_workers s)))) as Hperm.
  { unfold entries. rewrite (busy_lookup _ _ _ Hi). csys. rewrite <-Permutation_middle. f_equiv.
    rewrite (busy_lookup (<[i := None]> (y_workers s)) j (Some (tj, pj))) by (by rewrite list_lookup_insert_ne).
    csys. by rewrite <-Permutation_middle. }
  pose proof (entries_perm _ _ _ Hperm (si_entries _ Hs)) as He.
  destruct (ei_excl _ _ He (ti, pi) (tj, pj)) as [Heq|?]; [by left|by right; left|done| |done].
  exfalso. eapply (entries_head_ids _ (ti, pi) _ (tj, pj) He); [by left|done].
Qed.

(** A run still in the queue has everything ahead of it. *)
Lemma queued_unfinished t : ¬ finished (t, run_of t).
Proof.
  unfold finished. cbn [fst snd]. unfold Run. intros [_ Hk]%conforms_Call.
  specialize (Hk 0). apply conforms_Call in Hk as [_ Hk].
  specialize (Hk (Ok (to_row zero_Portfolio))). apply conforms_Call in Hk as [Hown _]. by destruct Hown.
Qed.

(** The queue never holds two runs of one portfolio, and a worker whose
    portfolio is queued again is done. *)
Lemma exclusive_queue s : sys_inv s →
  (∀ k l tk tl, y_tasks s !! k = Some tk → y_tasks s !! l = Some tl →
     t_portfolioID tk = t_portfolioID tl → k = l) ∧
  (∀ k i t ti pi, y_tasks s !! k = Some t → y_workers s !! i = Some (Some (ti, pi)) →
     t_portfolioID t = t_portfolioID ti → finished (ti, pi)).
Proof.
  intros [He _]. pose proof (ei_nodup _ _ He) as Hnd. unfold entries in Hnd. rewrite map_app, map_map in Hnd.
  apply NoDup_app in Hnd as (Hq & Hqw & _). cbn [fst] in *.
  assert (∀ k t, y_tasks s !! k = Some t → (t, run_of t) ∈ entries s) as Hin.
  { intros k t Hk. apply elem_of_app. left. apply list_elem_of_fmap. exists t.
    split; [done|by eapply list_elem_of_lookup_2]. }
  split.
  - intros k l tk tl Hk Hl Hp.
    destruct (ei_excl _ _ He (tk, run_of tk) (tl, run_of tl)) as [Heq|[Hf|Hf]]; eauto.
    + eapply (NoDup_lookup (map t_runID (y_tasks s)) k l (t_runID tk)); [exact Hq|..];
        rewrite list_lookup_fmap; [by rewrite Hk|]. rewrite Hl. cbn. by f_equal.
    + by apply queued_unfinished in Hf.
    + by apply queued_unfinished in Hf.
  - intros k i t ti pi Hk Hi Hp.
    assert ((ti, pi) ∈ busy (y_workers s)) as Hb
      by (apply list_elem_of_omap; exists (Some (ti, pi)); split; [by eapply list_elem_of_lookup_2|done]).
    destruct (ei_excl _ _ He (t, run_of t) (ti, pi)) as [Heq|[Hf|Hf]]; eauto.
    + apply elem_of_app. by right.
    + exfalso. apply (Hqw (t_runID t)); apply list_elem_of_fmap; [|by exists (ti, pi)].
      exists t. split; [done|by eapply list_elem_of_lookup_2].
    + by apply queued_unfinished in Hf.
Qed.

(** C2: after crash recovery, in every state the running server can reach, under
    every interleaving of submissions, workers, handlers' writes and server
    faults: the task channel is bounded by four times the worker count and the
    schema invariant holds; the channel holds at most one task of a portfolio;
    while it holds one, a worker with a run of that portfolio has no runner to
    call and no status to write any more, and of two workers with runs of one
    portfolio at least one has none.  Such a worker may still prune, complete its
    entry in the hub and notify, beside the next run of its portfolio. *)
Theorem no_concurrent_backtests (numCPU : Z) (d : db) (s : sys) :
  db_inv d → (∀ pid, ¬ in_flight d pid) →
  rtc (sys_step format_v uuid_String quote_string o marshal_err) (Start cfg numCPU (NewDispatcher cfg numCPU d)) s →
  let n := Z.to_nat (MaxConcurrency (ApplyDefaults numCPU cfg)) in
  db_inv (y_db s) ∧ (length (y_tasks s) ≤ 4 * n)%nat ∧ length (y_workers s) = n ∧
  (∀ i j ti pi tj pj,
     y_workers s !! i = Some (Some (ti, pi)) → y_workers s !! j = Some (Some (tj, pj)) →
     i ≠ j → t_portfolioID ti = t_portfolioID tj → finished (ti, pi) ∨ finished (tj, pj)) ∧
  (∀ k l tk tl, y_tasks s !! k = Some tk → y_tasks s !! l = Some tl →
     t_portfolioID tk = t_portfolioID tl → k = l) ∧
  (∀ k i t ti pi, y_tasks s !! k = Some t → y_workers s !! i = Some (Some (ti, pi)) →
     t_portfolioID t = t_portfolioID ti → finished (ti, pi)).
Proof.
  intros Hinv Hnone Hsteps n. assert (sys_inv s ∧ length (y_workers s) = n ∧ y_cap s = (4 * n)%nat) as (Hs & Hw & Hc).
  { remember (Start _ _ _) as s0 eqn:Hs0.
    assert (sys_inv s0 ∧ length (y_workers s0) = n ∧ y_cap s0 = (4 * n)%nat) as Hinit.
    { subst s0. split; [|split; [cbn -[ApplyDefaults]; by rewrite length_replicate|cbn -[ApplyDefaults Z.mul Nat.mul]; unfold n; lia]].
      assert (busy (replicate n (@None entry)) = []) as Hb by (induction n; done).
      split; cbn -[ApplyDefaults]; [|lia]. unfold entries. cbn -[ApplyDefaults]. fold n. change (omap id (replicate n None)) with (busy (replicate n (@None entry))). rewrite Hb. split; try done.
      - intros i j r x Hr Hi. destruct (Hnone (run_PortfolioID r)). by exists i, r.
      - constructor.
      - intros e ?%not_elem_of_nil. done.
      - intros e ?%not_elem_of_nil. done.
      - intros e f ?%not_elem_of_nil. done. }
    clear Hs0. induction Hsteps as [s1|s1 s2 s3 Hst _ IH]; [done|]. apply IH.
    destruct Hinit as (Hi & Hl & Hcap), (step_workers _ _ Hst) as [-> ->].
    split; [by eapply sys_step_inv|done]. }
  split; [apply Hs|]. split; [rewrite <-Hc; apply Hs|]. split; [done|].
  split; [by apply exclusive_workers|by apply exclusive_queue].
Qed.

End system.

(** ** Outcomes of a submission *)
Section submit.
Context `{MapRange}.

(** Without server faults, submitting a portfolio with no run in flight queues
    exactly one task at the tail while there is room; with a full channel the new
    run row is failed, so that the portfolio is not in flight and can be submitted
    again; a portfolio in flight is refused with [ErrRunInFlight] and nothing is
    written.  After shutdown nothing is queued: the send panics, and the run row
    inserted before it stays queued. *)
Theorem submit_outcomes (pid : uuid) (tr : string) (s : sys) :
  db_inv (y_db s) → faults (y_db s) = [] → tr ∈ [TriggerScheduled; TriggerManual] →
  let '(s', r) := Submit pid tr s in
  portfolios (y_db s') = portfolios (y_db s) ∧
  match r with
  | Ok id =>
    y_closed s = false ∧ y_panicked s' = y_panicked s ∧
    ¬ in_flight (y_db s) pid ∧ in_flight (y_db s') pid ∧ (length (y_tasks s) < y_cap s)%nat ∧
    y_tasks s' = y_tasks s ++ [{| t_portfolioID := pid; t_runID := id;
                                  t_scheduled := bool_decide (tr = TriggerScheduled) |}]
  | Err e =>
    y_tasks s' = y_tasks s ∧
    ((e = ErrRunInFlight ∧ in_flight (y_db s) pid ∧ s' = s) ∨
     (portfolios (y_db s) !! pid = None ∧ s' = s) ∨
     (e = bt_ErrQueueFull ∧ (y_cap s ≤ length (y_tasks s))%nat ∧ ¬ in_flight (y_db s') pid ∧
      y_closed s = false ∧ y_panicked s' = y_panicked s) ∨
     (y_closed s = true ∧ y_panicked s' = true ∧ ¬ in_flight (y_db s) pid ∧ in_flight (y_db s') pid))
  end.
Proof.
  intros Hinv Hf Htr. unfold Submit.
  destruct (CreateRun pid "queued" tr (y_db s)) as [d [r|e]] eqn:Hc.
  - destruct (create_run_effect _ _ _ _ _ Hinv Htr Hc) as (Hid & Hp & Hr & Hn & Hpid & Hfl & Hex & Hno).
    submit_fields s d. destruct (y_closed s) eqn:Hcl.
    { cbn. split; [done|]. split; [done|]. right. right. right. do 3 (split; [done|]).
      exists (run_ID r), r. by rewrite Hr, lookup_insert_eq. }
    destruct (Nat.ltb_spec (length (y_tasks s)) (y_cap s)) as [Hlt|Hge].
    + cbn. split; [done|]. do 3 (split; [done|]). split; [|done].
      exists (run_ID r), r. by rewrite Hr, lookup_insert_eq.
    + destruct (Store.UpdateRunFailed (run_ID r) "dispatcher queue full" 0 d) as [d2 x] eqn:Hu.
      pose proof (update_run_failed_tables _ _ _ _ _ _ Hu) as [Hp2 Hr2].
      cbn. split; [congruence|]. split; [done|]. right. right. left. do 2 (split; [done|]). split; [|done].
      assert (is_ok x = true) as Hx.
      { unfold CreateRun, map_err in Hc. rewrite sql_no_fault, insert_run_queued in Hc by done. cbv zeta in Hc.
        destruct (inflight_conflict (y_db s) _); [done|]. destruct (bool_decide _); [done|].
        injection Hc as <- <-. unfold Store.UpdateRunFailed, then_ in Hu. rewrite sql_no_fault, with_text_storable in Hu by done.
        unfold update_run in Hu. cbn in Hu. rewrite lookup_insert_eq in Hu. cbn in Hu. by injection Hu as _ <-. }
      destruct x as [[]|]; [|done]. rewrite Hr in Hr2.
      intros (i & y & Hy & Hpy & Hiy). rewrite Hr2 in Hy. destruct (decide (i = run_ID r)) as [->|Hne].
      * rewrite lookup_alter_eq, lookup_insert_eq in Hy. injection Hy as <-. done.
      * rewrite lookup_alter_ne, lookup_insert_ne in Hy by done. apply Hno. by exists i, y.
  - destruct (create_run_err _ _ _ _ _ Hinv Hc) as [[Hp Hr] Hn]. cbn. split; [done|]. split; [done|].
    unfold CreateRun, map_err in Hc. rewrite sql_no_fault, insert_run_queued in Hc by done. cbv zeta in Hc.
    set (row := Build_Run _ _ _ _ _ _ _ _ _) in Hc.
    pose proof (inflight_conflict_new (y_db s) row Hinv eq_refl eq_refl) as Hcf. cbn [run_PortfolioID row] in Hcf.
    destruct (inflight_conflict (y_db s) row).
    + injection Hc as <- <-. left. split; [done|]. split; [by apply Hcf|]. by destruct s.
    + destruct (bool_decide_reflect (portfolios (y_db s) !! pid = None)); [|done].
      injection Hc as <- <-. right. left. split; [done|]. by destruct s.
Qed.

End submit.

(** ** Concrete runs *)
Section demo.
#[local] Existing Instance canonical_range.
#[local] Existing Instance ascii_tables.

Definition demo_cfg : Config :=
  {| SnapshotsDir := "/snap"; MaxConcurrency := 2; Timeout := 0; RunnerMode := "host"; OrphanGCInterval := 0 |}.
Definition demo_orchestrator : orchestrator :=
  {| o_cfg := demo_cfg; o_artifactKind := ArtifactBinary; o_notifier := true; o_hub := true |}.
Definition demo_sys : sys := Start demo_cfg 4 (NewDispatcher demo_cfg 4 demo_db).
Definition demo_busy : option sys :=
  worker_take (λ _, "0") (λ u, pad 39 (Z.of_N u)) (λ s, s) demo_orchestrator 1
    (Submit 1%N TriggerManual demo_sys).1.

Lemma demo_idle pid : ¬ in_flight demo_db pid.
Proof.
  intros (i & r & Hr & _ & Hi). cbn in Hr.
  apply lookup_insert_Some in Hr as [[<- <-]|[_ [<- <-]%lookup_singleton_Some]]; done.
Qed.

Lemma no_concurrent_backtests_witness :
  ∃ s, demo_busy = Some s ∧ db_inv (y_db s) ∧ length (busy (y_workers s)) = 1%nat.
Proof.
  assert (match demo_busy with Some s => length (busy (y_workers s)) | None => 0%nat end = 1%nat) as Hlen
    by (vm_compute; reflexivity).
  destruct demo_busy as [s|] eqn:Hs; [|done]. exists s. split; [done|].
  assert (rtc (sys_step (λ _, "0") (λ u, pad 39 (Z.of_N u)) (λ s, s) demo_orchestrator (λ _, None)) demo_sys s) as Hrtc.
  { eapply rtc_l; [apply (step_submit _ _ _ _ _ _ 1%N TriggerManual); set_solver|].
    eapply rtc_l; [by eapply (step_take _ _ _ _ _ _ 1)|]. apply rtc_refl. }
  split; [|done].
  by apply (no_concurrent_backtests _ _ _ demo_cfg _ _ 4 demo_db s demo_db_inv demo_idle Hrtc).
Defined.

Lemma submit_outcomes_witness :
  let '(s', r) := Submit 1%N TriggerScheduled demo_sys in
  is_ok r = true ∧ y_panicked s' = false.
Proof.
  assert (TriggerScheduled ∈ [TriggerScheduled; TriggerManual]) as Ht by (by left).
  pose proof (submit_outcomes 1%N TriggerScheduled demo_sys demo_db_inv eq_refl Ht) as Hs.
  assert (is_ok (Submit 1%N TriggerScheduled demo_sys).2 = true) as Hok by (vm_compute; reflexivity).
  destruct (Submit 1%N TriggerScheduled demo_sys) as [s' [id|e]]; [|done]. split; [done|].
  by destruct Hs as (_ & _ & -> & _).
Defined.

End demo.
