(* ===== verification/Settle.v ===== *)
(** A backtest from its submission to its end, over the real store: whatever the
    runner, the files, the hub and the mails do, a run that a worker takes up on a
    healthy database ends with its portfolio ready or failed and frees it for the
    next one - unless the message of its failure is not text the database takes,
    and then both stay running. *)
From S2P Require Import Prelude GoStrings GoTime Utf8 Types Json PgText Path Prog Store StoreLaws Backtest Dispatcher DispatcherLaws.

(** ** Weakest preconditions of a run's program *)
Section wp.
Context `{MapRange}.

(** Whatever answers the calls - the store its own, any environment the others -
    the program ends in [Q]. *)
Fixpoint wp {R} (p : prog Backtest.call R) (Q : R → db → Prop) (d : db) : Prop :=
  match p with
  | Ret r => Q r d
  | Call c k => ∀ a d', answers c d d' a → wp (k a) Q d'
  end.

Lemma wp_mono {R} (p : prog Backtest.call R) (Q Q' : R → db → Prop) d :
  wp p Q d → (∀ r d, Q r d → Q' r d) → wp p Q' d.
Proof. intros Hp HQ. revert d Hp. induction p as [r|A c k IH]; cbn; eauto. Qed.

Lemma wp_pbind {A R} (p : prog Backtest.call A) (f : A → prog Backtest.call R) Q d :
  wp p (λ a, wp (f a) Q) d → wp (pbind f p) Q d.
Proof. revert d. induction p as [a|X c k IH]; cbn; eauto. Qed.

Lemma wp_do {A R} (c : Backtest.call A) (f : A → prog Backtest.call R) Q d :
  (∀ a d', answers c d d' a → wp (f a) Q d') → wp (pbind f (do c)) Q d.
Proof. done. Qed.

(** A program that asks nothing of the store leaves the database alone. *)
Definition silent_call {A} (c : Backtest.call A) : bool :=
  match c with
  | Backtest.GetByID _ | Backtest.UpdateRunFailed _ _ _ | Backtest.MarkRunningTx _ _
  | Backtest.MarkReadyTx _ _ _ _ _ | Backtest.MarkFailedTx _ _ _ _ | Backtest.PruneRuns _ => false
  | _ => true
  end.
Fixpoint silent {R} (p : prog Backtest.call R) : Prop :=
  match p with Ret _ => True | Call c k => silent_call c = true ∧ ∀ a, silent (k a) end.

Lemma silent_answers {A} (c : Backtest.call A) d d' a : silent_call c = true → answers c d d' a → d' = d.
Proof. by destruct c. Qed.
Lemma wp_silent {R} (p : prog Backtest.call R) Q d : silent p → (∀ r, Q r d) → wp p Q d.
Proof.
  intros Hp HQ. induction p as [r|A c k IH]; cbn; [apply HQ|].
  intros a d' Ha. destruct Hp as [Hc Hk]. rewrite (silent_answers c d d' a Hc Ha). by apply IH.
Qed.
Lemma silent_pbind {A R} (p : prog Backtest.call A) (f : A → prog Backtest.call R) :
  silent p → (∀ a, silent (f a)) → silent (pbind f p).
Proof. intros Hp Hf. induction p as [a|X c k IH]; cbn in *; [apply Hf|]. naive_solver. Qed.

(** ** The calls answered by the store and an environment with a state of its own *)
Context {W : Type} (env : ∀ A, Backtest.call A → W → W * A).

Definition answer A (c : Backtest.call A) : db * W → (db * W) * A :=
  let store {B} (m : db → db * B) (x : db * W) := let '(d, a) := m x.1 in ((d, x.2), a) in
  match c in Backtest.call A return db * W → (db * W) * A with
  | Backtest.GetByID p => store (adapter_GetByID p)
  | Backtest.UpdateRunFailed r m ms => store (Store.UpdateRunFailed r m ms)
  | Backtest.MarkRunningTx p r => store (Store.MarkRunningTx p r)
  | Backtest.MarkReadyTx p r path k ms => store (Store.MarkReadyTx p r (to_ready path k) ms)
  | Backtest.MarkFailedTx p r m ms => store (Store.MarkFailedTx p r m ms)
  | Backtest.PruneRuns p => store (Store.PruneRuns p)
  | c => λ x, let '(w, a) := env _ c x.2 in ((x.1, w), a)
  end.

Lemma answer_answers {A} (c : Backtest.call A) x : answers c x.1 (answer A c x).1.1 (answer A c x).2.
Proof.
  destruct c; cbn;
  repeat match goal with |- context [let '(_, _) := ?e in _] => destruct e eqn:? end; cbn; congruence.
Qed.

Lemma wp_exec {R} (p : prog Backtest.call R) Q x :
  wp p Q x.1 → Q (exec_prog answer p x).2 (exec_prog answer p x).1.1.
Proof.
  revert x. induction p as [r|A c k IH]; intros x Hp; cbn in *; [done|].
  pose proof (answer_answers c x) as Ha. destruct (answer A c x) as [x' a]. by apply IH, Hp.
Qed.
End wp.

(** ** A database that a run has to itself *)
Section holds.
Context `{MapRange}.

(** The rows of portfolio [pid] and its run [rid] on a healthy database: no other
    run of the portfolio is in flight or newer; the other portfolios are [rest]. *)
Record holds (rest : gmap uuid Portfolio) (pid rid : uuid) (p : Portfolio) (run : Types.Run) (d : db) : Prop := {
  hd_inv : db_inv d;
  hd_faults : faults d = [];
  hd_row : portfolios d !! pid = Some p;
  hd_rest : delete pid (portfolios d) = rest;
  hd_run : runs d !! rid = Some run;
  hd_own : run_PortfolioID run = pid;
  hd_alone : ∀ i r, runs d !! i = Some r → run_PortfolioID r = pid → i ≠ rid → inflight r = false;
  hd_newest : ∀ i r, runs d !! i = Some r → run_PortfolioID r = pid → (i ≤ rid)%N;
}.

Lemma holds_get rest pid rid p run d : holds rest pid rid p run d → adapter_GetByID pid d = (d, Ok (to_row p)).
Proof.
  intros Hh. unfold adapter_GetByID, Store.GetByID. rewrite sql_no_fault by apply Hh.
  by rewrite (hd_row _ _ _ _ _ _ Hh).
Qed.

(** The portfolio is in flight by that run only. *)
Lemma holds_in_flight rest pid rid p run d :
  holds rest pid rid p run d → in_flight d pid ↔ inflight run = true.
Proof.
  intros Hh. split.
  - intros (i & x & Hx & Hpx & Hi). destruct (decide (i = rid)) as [->|Hne].
    + rewrite (hd_run _ _ _ _ _ _ Hh) in Hx. by injection Hx as ->.
    + by rewrite (hd_alone _ _ _ _ _ _ Hh i x Hx Hpx Hne) in Hi.
  - intros Hi. exists rid, run. split; [apply Hh|]. split; [by eapply hd_own|done].
Qed.

(** Each transition of the two rows commits when its texts are taken, and is
    refused whole when one is not. *)
Lemma holds_mark ts rest pid rid p run d (f : instant → Portfolio → Portfolio) (g : instant → Types.Run → Types.Run) d' a :
  (∀ t r, run_PortfolioID (g t r) = run_PortfolioID r) → (∀ t r, run_ID (g t r) = run_ID r) →
  good (mark_tx ts pid rid f g) → holds rest pid rid p run d → (d', a) = mark_tx ts pid rid f g d →
  forallb storable ts = true → a = Ok () ∧ ∃ t, holds rest pid rid (f t p) (g t run) d'.
Proof.
  intros Hgp Hgi Hgood [Hinv Hf Hp Hrest Hr Hown Hal Hnew] Hm Hts.
  pose proof (Hgood d Hinv) as [Hinv' _]. rewrite <-Hm in Hinv'.
  unfold mark_tx, in_tx, next_fault, then_ in Hm. rewrite Hf, sql_no_fault, with_text_storable in Hm by done.
  unfold update_portfolio in Hm. rewrite Hp in Hm. cbn [faults set_field] in Hm. rewrite sql_no_fault, with_text_storable in Hm by done.
  unfold update_run in Hm. cbn in Hm. rewrite Hr in Hm.
  set (d1 := Build_db _ _ _ _ _) in Hm. rewrite (proj2 (inflight_conflict_false d1 _)) in Hm.
  2:{ intros _ i s Hs. rewrite Hgi, Hgp, (inv_rid d Hinv _ _ Hr), Hown. intros Hne Hps. by eapply Hal. }
  cbn in Hm. rewrite Hf in Hm. injection Hm as -> ->. split; [done|]. exists (now d).
  split; cbn in *; [done|done|by rewrite lookup_insert_eq|by rewrite delete_insert_eq|
    by rewrite lookup_insert_eq|by rewrite Hgp|..].
  - intros i s [[<- <-]|[Hne Hs]]%lookup_insert_Some; [done|]. eauto.
  - intros i s [[<- <-]|[Hne Hs]]%lookup_insert_Some; [done|]. eauto.
Qed.

Lemma refused_mark ts pid rid d f g d' a :
  faults d = [] → (d', a) = mark_tx ts pid rid f g d → forallb storable ts = false → a = Err invalid_text ∧ d' = d.
Proof.
  intros Hf Hm Hts. unfold mark_tx, in_tx, next_fault, then_ in Hm.
  rewrite Hf, sql_no_fault, with_text_refused in Hm by done. injection Hm as -> ->. by destruct d.
Qed.

(** A prune keeps the newest run. *)
Lemma holds_prune rest pid rid p run d d' a :
  holds rest pid rid p run d → (d', a) = Store.PruneRuns pid d → holds rest pid rid p run d'.
Proof.
  intros [Hinv Hf Hp Hrest Hr Hown Hal Hnew] Hm. symmetry in Hm.
  destruct (prune_tables pid d d' a Hinv Hm) as (Hp' & Hsub & Hkeep).
  pose proof (good_prune pid d Hinv) as [Hinv' _]. rewrite Hm in Hinv'.
  assert (faults d' = []) as Hf'.
  { unfold Store.PruneRuns, in_tx, next_fault, then_, map_err in Hm. rewrite Hf, sql_no_fault, Hp in Hm by done.
    rewrite sql_no_fault in Hm by done. cbn in Hm. rewrite Hf in Hm. by injection Hm as <- _. }
  split; [done|done|by rewrite Hp'|by rewrite Hp'|..|done| |].
  - apply Hkeep; [done|]. intros _ j s Hj Hs. by eapply Hnew.
  - intros i s Hs. eapply Hal, lookup_weaken; eauto.
  - intros i s Hs. eapply Hnew, lookup_weaken; eauto.
Qed.
End holds.

(** ** The run *)
Section run.
Context `{MapRange, UnicodeTables}.
Context (format_v : float64 → string) (uuid_String : uuid → string) (quote_string : string → string).
Context (o : orchestrator).

Definition snapshot_path (pid rid : uuid) : string :=
  Join [Join [SnapshotsDir (o_cfg o); uuid_String pid]; uuid_String rid +:+ ".sqlite"].
Definition reported (err : goerror) : goerror :=
  if errors_is err context_DeadlineExceeded || errors_is err context_Canceled
  then wrap_post bt_ErrTimedOut (": " +:+ fail_msg err) else err.

(** A message of ASCII text is never refused, however long it is. *)
Lemma ascii_message_storable err :
  ascii_string (err_text err) = true → no_nul (err_text err) = true → storable (fail_msg err) = true.
Proof. intros Ha Hn. unfold fail_msg. destruct (_ <? _); [by apply storable_slice|by apply storable_ascii]. Qed.

(** What a run leaves: its result, its row and the row of its portfolio, whose last
    good snapshot was [prev], agree ... *)
Definition agree (pid rid : uuid) (prev : option string) (r : option goerror) (p : Portfolio) (run : Types.Run) : Prop :=
  match r with
  | None =>
    Status p = StatusReady ∧ LastError p = None ∧ SnapshotPath p = Some (snapshot_path pid rid) ∧
    run_Status run = "success" ∧ run_SnapshotPath run = Some (snapshot_path pid rid)
  | Some e =>
    Status p = StatusFailed ∧ SnapshotPath p = prev ∧ run_Status run = "failed" ∧
    ∃ err, e = reported err ∧ storable (fail_msg err) = true ∧
      LastError p = Some (fail_msg err) ∧ run_Error run = Some (fail_msg err)
  end.
(** ... or it failed with a message the database does not take - one with a NUL, or
    cut inside a character, as [fail] and [firstNBytes] cut at a byte - and both
    rows still say that it runs. *)
Definition stuck (prev : option string) (r : option goerror) (p : Portfolio) (run : Types.Run) : Prop :=
  ∃ err, r = Some (reported err) ∧ storable (fail_msg err) = false ∧
    Status p = StatusRunning ∧ SnapshotPath p = prev ∧ run_Status run = "running".
Definition settled rest (pid rid : uuid) (prev : option string) (r : option goerror) (d : db) : Prop :=
  ∃ p run, holds rest pid rid p run d ∧ (agree pid rid prev r p run ∨ stuck prev r p run).

Tactic Notation "marked" hyp(Hm) uconstr(ts) uconstr(f) uconstr(g) uconstr(lem) hyp(Hh) "as" ident(t) ident(Hh') :=
  apply (holds_mark ts _ _ _ _ _ _ f g) with (5 := Hm) in Hh as [-> [t Hh']];
  [|done|done|by apply lem|cbn [forallb]; rewrite ?andb_true_r; done].
Ltac quietly := unfold do, mbind, prog_bind; cbn [pbind];
  repeat first [ exact I | match goal with |- silent (if ?b then _ else _) => destruct b
                           | |- silent (match ?x with _ => _ end) => destruct x end
               | split; [reflexivity|intros ?] ]; cbn.
Lemma silent_fsync tmp final : silent (fsyncAndRename quote_string tmp final).
Proof. unfold fsyncAndRename. quietly. Qed.
Lemma silent_kpis path : silent (readKpisFromSnapshot path).
Proof. unfold readKpisFromSnapshot. quietly. Qed.
Lemma silent_remove_all paths : silent (remove_all paths).
Proof. induction paths as [|q paths IH]; cbn; [done|]. case_bool_decide; [done|]. by split. Qed.
Lemma silent_hub rid s m : silent (hub_complete o rid s m).
Proof. unfold hub_complete. quietly. Qed.
Lemma silent_notify pid rid sch b : silent (notify o pid rid sch b).
Proof. unfold notify. quietly. Qed.

(** What follows the terminal write of a run. *)
Lemma wp_tail rest pid rid prev r status msg sch b d :
  settled rest pid rid prev r d →
  wp (_ ← prune pid; _ ← hub_complete o rid status msg; _ ← notify o pid rid sch b; Ret r)
     (settled rest pid rid prev) d.
Proof.
  intros (p & run & Hh & Ha). apply wp_pbind. unfold prune. intros a d' Hpr.
  apply (holds_prune _ _ _ _ _ _ _ _ Hh) in Hpr.
  assert (settled rest pid rid prev r d') as Hs by (by exists p, run).
  assert (wp (_ ← hub_complete o rid status msg; _ ← notify o pid rid sch b; Ret r) (settled rest pid rid prev) d') as Hw.
  { apply wp_pbind, wp_silent; [apply silent_hub|]. intros _. apply wp_pbind, wp_silent; [apply silent_notify|]. done. }
  destruct a as [paths|]; [|done]. by apply wp_silent; [apply silent_remove_all|].
Qed.

(** The rows of a run under way. *)
Definition under_way (prev : option string) (p : Portfolio) (run : Types.Run) : Prop :=
  Status p = StatusRunning ∧ SnapshotPath p = prev ∧ run_Status run = "running".

Lemma wp_fail rest pid rid prev st sch err p run d :
  holds rest pid rid p run d → under_way prev p run →
  wp (fail o pid rid st sch err) (settled rest pid rid prev) d.
Proof.
  intros Hh (Hst & Hprev & Hrs). unfold fail, since. cbn. intros t d0 ->. intros a d' Hm.
  destruct (storable (fail_msg err)) eqn:Hsto.
  2:{ apply (refused_mark [fail_msg err] _ _ _ (set_failed (fail_msg err)) (run_failed (fail_msg err) _)) in Hm
        as [-> ->]; [|apply Hh|cbn [forallb]; by rewrite Hsto].
      apply (wp_tail _ _ _ _ (Some (reported err))). exists p, run. split; [done|]. right. by exists err. }
  marked Hm [fail_msg err] (set_failed (fail_msg err)) (run_failed (fail_msg err) (durationMs (t - st))) good_mark_failed Hh as t' Hh'.
  apply (wp_tail _ _ _ _ (Some (reported err))). exists (set_failed (fail_msg err) t' p). eexists. split; [exact Hh'|].
  left. split_and!; [done..|]. by exists err.
Qed.

Lemma wp_resolved rest pid rid prev st sch row artifact p run d :
  holds rest pid rid p run d → under_way prev p run →
  wp (run_resolved format_v uuid_String quote_string o pid rid st sch row artifact) (settled rest pid rid prev) d.
Proof.
  intros Hh Hway. pose proof (λ err, wp_fail rest pid rid prev st sch err p run d Hh Hway) as Hfail.
  unfold run_resolved. apply wp_do. intros [[]|e] d0 ->; [|apply Hfail]. apply wp_do. intros ? d0 ->.
  apply wp_do. intros [[]|e] d0 ->; [|apply Hfail].
  apply wp_pbind, wp_silent; [apply silent_fsync|]. intros [[]|e]; [|apply Hfail].
  apply wp_pbind, wp_silent; [apply silent_kpis|]. intros [kp|e]; [|apply Hfail].
  unfold since. apply wp_pbind, wp_do. intros t d0 ->. apply wp_do. intros x d' Hm.
  destruct (storable (snapshot_path pid rid)) eqn:Hsto.
  2:{ apply (refused_mark [snapshot_path pid rid] _ _ _ (set_ready (to_ready (snapshot_path pid rid) kp))
        (run_success (snapshot_path pid rid) (durationMs (t - st)))) in Hm as [-> ->]; [apply Hfail|apply Hh|cbn [forallb]; by rewrite Hsto]. }
  marked Hm [snapshot_path pid rid] (set_ready (to_ready (snapshot_path pid rid) kp)) (run_success (snapshot_path pid rid) (durationMs (t - st)))
    (good_mark_ready pid rid (to_ready (snapshot_path pid rid) kp) (durationMs (t - st))) Hh as t' Hh'.
  apply (wp_tail _ _ _ _ None). eexists _, _. split; [exact Hh'|]. by left.
Qed.

Lemma wp_run rest pid rid prev sch p run d :
  holds rest pid rid p run d → SnapshotPath p = prev → Status p ≠ StatusRunning →
  wp (Run format_v uuid_String quote_string o pid rid sch) (settled rest pid rid prev) d.
Proof.
  intros Hh Hprev Hst. unfold Run. apply wp_do. intros st d0 Hd. change (d0 = d) in Hd. subst d0. apply wp_do. intros a d0.
  change (answers (Backtest.GetByID pid) d d0 a) with ((d0, a) = adapter_GetByID pid d).
  rewrite (holds_get _ _ _ _ _ _ Hh).
  intros [= -> ->]. rewrite bool_decide_eq_false_2 by done. apply wp_do. intros a d' Hm.
  marked Hm [] set_running run_running good_mark_running Hh as t Hh'.
  apply wp_do. intros [artifact|e] d0 ->; [|by eapply wp_fail].
  apply wp_pbind. eapply wp_mono; [by eapply wp_resolved|]. intros r d1 Hs. by intros a d2 ->.
Qed.
End run.

(** ** From the submission to the end *)
Section settles.
Context `{MapRange, UnicodeTables}.
Context (format_v : float64 → string) (uuid_String : uuid → string) (quote_string : string → string).
Context (o : orchestrator).
Context {W : Type} (env : ∀ A, Backtest.call A → W → W * A).

(** A worker runs the task it took. *)
Definition run_task (t : task) : db * W → (db * W) * option goerror :=
  exec_prog (answer env)
    (Run format_v uuid_String quote_string o (t_portfolioID t) (t_runID t) (t_scheduled t)).

Lemma submitted_holds pid tr s s1 rid p :
  db_inv (y_db s) → faults (y_db s) = [] → tr ∈ [TriggerScheduled; TriggerManual] →
  portfolios (y_db s) !! pid = Some p → Submit pid tr s = (s1, Ok rid) →
  ∃ run, holds (delete pid (portfolios (y_db s))) pid rid p run (y_db s1).
Proof.
  intros Hinv Hf Htr Hp. unfold Submit. pose proof (good_create_run pid "queued" tr (y_db s) Hinv) as [Hinv' _].
  destruct (CreateRun pid "queued" tr (y_db s)) as [d [r|e]] eqn:Hc; [|done].
  destruct (create_run_effect _ _ _ _ _ Hinv Htr Hc) as (Hid & Hpd & Hrd & _ & Hpid & Hfl & _ & Hno).
  assert (faults d = []) as Hfd.
  { unfold CreateRun, map_err in Hc. rewrite sql_no_fault, insert_run_queued in Hc by done. cbv zeta in Hc.
    destruct (inflight_conflict (y_db s) _); [done|]. destruct (bool_decide _); [done|]. by injection Hc as <- _. }
  submit_fields s d. destruct (y_closed s); [done|]. destruct (_ <? _)%nat; [|by destruct (Store.UpdateRunFailed _ _ _ _)].
  intros [= <- <-]. cbn. exists r. split; [done|done|by rewrite Hpd|by rewrite Hpd|by rewrite Hrd, lookup_insert_eq|done|..];
    intros i s'; rewrite Hrd; intros [[<- <-]|[Hne Hs]]%lookup_insert_Some; [done| |done|].
  - intros Hps _. apply not_true_iff_false. intros Hi. apply Hno. by exists i, s'.
  - intros _. destruct (inv_fresh _ Hinv) as [_ Hfr]. specialize (Hfr i (mk_is_Some _ _ Hs)). lia.
Qed.

Lemma submit_queues pid tr s s1 rid :
  Submit pid tr s = (s1, Ok rid) →
  y_tasks s1 = y_tasks s ++ [{| t_portfolioID := pid; t_runID := rid; t_scheduled := bool_decide (tr = TriggerScheduled) |}].
Proof.
  unfold Submit. destruct (CreateRun _ _ _ _) as [d [r0|e]]; [|done]. submit_fields s d. destruct (y_closed s); [done|].
  destruct (_ <? _)%nat; [by intros [= <- <-]|by destruct (Store.UpdateRunFailed _ _ _ _)].
Qed.

(** C3: a submitted backtest settles, unless the message of its failure is not
    text the database takes.  Whatever its environment does - building the
    artifact, the runner, the files, the snapshot, mails - a worker that has run a
    task taken up on a healthy database leaves one of two outcomes, and which one
    is decided by the result and its message alone.  Either the portfolio is ready
    with the new snapshot and the run a success, or both are failed with the same
    message and the portfolio still names its last good snapshot, and no run of
    the portfolio is in flight, so that the next submission is accepted; or the
    run failed with a message that holds a NUL or is not UTF-8, the write of which
    is refused: portfolio and run stay running, and the portfolio in flight.  The
    other portfolios are as they were. *)
Theorem submitted_run_settles (pid : uuid) (tr : string) (s s1 : sys) (rid : uuid) (p : Portfolio) (w : W) :
  db_inv (y_db s) → faults (y_db s) = [] → tr ∈ [TriggerScheduled; TriggerManual] →
  portfolios (y_db s) !! pid = Some p → Status p ≠ StatusRunning →
  Submit pid tr s = (s1, Ok rid) →
  let t := {| t_portfolioID := pid; t_runID := rid; t_scheduled := bool_decide (tr = TriggerScheduled) |} in
  let '((d', _), r) := run_task t (y_db s1, w) in
  y_tasks s1 = y_tasks s ++ [t] ∧
  (∃ p' run, portfolios d' !! pid = Some p' ∧ runs d' !! rid = Some run ∧
     (agree uuid_String o pid rid (SnapshotPath p) r p' run ∧ ¬ in_flight d' pid ∨
      stuck (SnapshotPath p) r p' run ∧ in_flight d' pid)) ∧
  db_inv d' ∧ delete pid (portfolios d') = delete pid (portfolios (y_db s)).
Proof.
  intros Hinv Hf Htr Hp Hst Hs t. destruct (submitted_holds _ _ _ _ _ _ Hinv Hf Htr Hp Hs) as [run Hh].
  pose proof (wp_exec env _ _ (y_db s1, w) (wp_run format_v uuid_String quote_string o _ _ _ _
    (t_scheduled t) _ _ _ Hh eq_refl Hst)) as Hq.
  unfold run_task. change (t_portfolioID t) with pid. change (t_runID t) with rid.
  destruct (exec_prog _ _ _) as [[d' w'] r]. cbn in Hq. destruct Hq as (p' & run' & Hd & Ha).
  split; [by eapply submit_queues|]. split; [|split; apply Hd].
  exists p', run'. split; [apply Hd|]. split; [apply Hd|].
  destruct Ha as [Ha|Ha]; [left|right]; (split; [done|]); rewrite (holds_in_flight _ _ _ _ _ _ Hd); unfold inflight.
  - unfold agree in Ha. destruct r as [e|]; [destruct Ha as (_ & _ & -> & _)|destruct Ha as (_ & _ & _ & -> & _)]; done.
  - by destruct Ha as (err & _ & _ & _ & _ & ->).
Qed.
End settles.

(** ** A submitted backtest that succeeds, and one that fails *)
Section demo.
#[local] Existing Instances canonical_range ascii_tables.

(** Everything works, but perhaps the strategy; the state lists the files removed. *)
Definition demo_env (exits : result unit) A (c : Backtest.call A) (removed : list string) : list string * A :=
  match c in Backtest.call A return list string * A with
  | Backtest.Now => (removed, 0)
  | Backtest.GetByID _ => (removed, Err ErrNotFound)
  | Backtest.PruneRuns _ => (removed, Ok [])
  | Backtest.Resolve _ _ => (removed, Ok "/bin/adm")
  | Backtest.Remove path => (path :: removed, Ok ())
  | Backtest.RunnerRun _ => (removed, exits)
  | Backtest.Kpis _ => (removed, Ok {| k_CurrentValue := fzero; k_YtdReturn := None; k_MaxDrawdown := None;
                                       k_Sharpe := None; k_Cagr := None; k_InceptionDate := 0 |})
  | Backtest.Cleanup => (removed, ())
  | Backtest.HubComplete _ _ _ => (removed, ())
  | Backtest.UpdateRunFailed _ _ _ | Backtest.MarkRunningTx _ _ | Backtest.MarkReadyTx _ _ _ _ _
  | Backtest.MarkFailedTx _ _ _ _ | Backtest.MkdirAll _ | Backtest.OpenFile _ | Backtest.Sync _
  | Backtest.CloseFile _ | Backtest.Rename _ _ | Backtest.OpenSnapshot _ | Backtest.CloseSnapshot _
  | Backtest.NotifyRunComplete _ _ _ => (removed, Ok ())
  end.
Definition demo_end (exits : result unit) (d : db) : (db * list string) * option goerror :=
  run_task (λ _, "0") (λ u, itoa (Z.of_N u)) (λ s, s) demo_orchestrator (demo_env exits)
    {| t_portfolioID := 1%N; t_runID := 4%N; t_scheduled := false |} (d, []).

Lemma submitted_run_settles_witness :
  let s := Submit 1%N TriggerManual demo_sys in
  s.2 = Ok 4%N ∧ ∃ p, portfolios (demo_end (Ok ()) (y_db s.1)).1.1 !! 1%N = Some p ∧ Status p = StatusReady.
Proof.
  split; [vm_compute; reflexivity|].
  assert ((Submit 1%N TriggerManual demo_sys) = ((Submit 1%N TriggerManual demo_sys).1, Ok 4%N)) as Hs
    by (vm_compute; reflexivity).
  pose proof (submitted_run_settles (λ _, "0") (λ u, itoa (Z.of_N u)) (λ s, s) demo_orchestrator (demo_env (Ok ()))
    1%N TriggerManual demo_sys _ 4%N demo_portfolio [] demo_db_inv eq_refl ltac:(right; left) eq_refl ltac:(done) Hs) as Hset.
  cbv zeta in Hset. change (bool_decide (TriggerManual = TriggerScheduled)) with false in Hset.
  fold (demo_end (Ok ()) (y_db (Submit 1%N TriggerManual demo_sys).1)) in Hset.
  assert ((demo_end (Ok ()) (y_db (Submit 1%N TriggerManual demo_sys).1)).2 = None) as Hr by (vm_compute; reflexivity).
  destruct (demo_end _ _) as [[d w] r]. cbn in Hr |- *. subst r.
  destruct Hset as (_ & (p' & run & Hp & _ & Ha) & _). exists p'. split; [exact Hp|].
  destruct Ha as [[Ha _]|[(err & Hr & _) _]]; [apply Ha|done].
Defined.

(** The portfolio keeps one run: when that one fails, the prune removes the last
    good snapshot, which the portfolio goes on naming. *)
Definition served_db : db :=
  demo_db <| portfolios := {[1%N := demo_portfolio <| SnapshotPath := Some "/snap/1/3.sqlite" |>]} |>
          <| runs := {[3%N := demo_run 3%N <| run_SnapshotPath := Some "/snap/1/3.sqlite" |>]} |>.
Example failed_run_drops_last_snapshot :
  let d := (CreateRun 1%N "queued" TriggerManual served_db).1 in
  let '((d', removed), r) := demo_end (Err (opaque_err "exit status 1")) d in
  ((λ p, SnapshotPath p) <$> portfolios d' !! 1%N, dom (runs d'), removed)
  = (Some (Some "/snap/1/3.sqlite"), {[4%N]}, ["/snap/1/3.sqlite"; "/snap/1/4.sqlite.tmp"]).
Proof. vm_compute. reflexivity. Qed.

(** A strategy that prints accented text and exits with an error: [fail] cuts the
    message inside a character, the status write is refused, its error dropped, and
    the portfolio stays in flight, so that the next submission is refused. *)
Definition accented (n : nat) : string := String.concat "" (repeat (of_bytes [byte 195; byte 169]) n).
Definition accented_exit : result unit :=
  (HostRunner_Run (λ _ _ _ w, (w, {| proc_runErr := Some (opaque_err "exit status 1"); proc_timeoutCtxErr := None;
     proc_ctxErr := None; proc_stderr := "a" +:+ accented 1020 |}))
    {| rr_RunID := 4%N; rr_Artifact := "/bin/adm"; rr_ArtifactKind := ArtifactBinary; rr_Args := [];
       rr_OutPath := "/snap/1/4.sqlite.tmp"; rr_Timeout := 0; rr_ProgressWriter := true |} ()).2.
Example cut_message_sticks :
  let d := (CreateRun 1%N "queued" TriggerManual demo_db).1 in
  let '((d', _), r) := demo_end accented_exit d in
  match r with Some e => storable (err_text e) | None => false end = true ∧
  ((λ p, Status p) <$> portfolios d' !! 1%N, (λ x, run_Status x) <$> runs d' !! 4%N,
   (Submit 1%N TriggerManual (demo_sys <| y_db := d' |>)).2)
  = (Some StatusRunning, Some "running", Err ErrRunInFlight).
Proof. vm_compute. split; reflexivity. Qed.
End demo.
