(* ===== verification/Scheduler.v ===== *)
(** The nightly scheduler (src/scheduler/scheduler.go, src/scheduler/config.go):
    the dispatch loop over the store's claims and the dispatcher's submissions,
    and the search for a fire slept through.  The market schedule itself
    ([tradecron]) is a parameter: the next fire after an instant.

    Here a drain has the server to itself except while it waits on a full queue.
    The steps other goroutines take between its claims and submissions are in
    [Process], where every single submission of the scheduler is a step that any
    other may precede; [DispatcherLaws] proves exclusion over those. *)
From S2P Require Import Prelude GoStrings GoTime Utf8 Types Json Path Prog Store StoreLaws.
From S2P Require Import Backtest Dispatcher DispatcherLaws.

(** ** src/scheduler/config.go *)
Record Config := { TickInterval : Z; BatchSize : Z }.

Definition ApplyDefaults (c : Config) : Config :=
  {| TickInterval := if TickInterval c =? 0 then 60 * nsPerSecond else TickInterval c;
     BatchSize := if BatchSize c =? 0 then 32 else BatchSize c |}.

Definition ErrInvalidTickInterval :=
  sentinel_err scheduler_ErrInvalidTickInterval "scheduler: tick_interval must be >= 0".
Definition ErrInvalidBatchSize :=
  sentinel_err scheduler_ErrInvalidBatchSize "scheduler: batch_size must be >= 0".

Definition Validate (c : Config) : result unit :=
  if TickInterval c <? 0 then Err ErrInvalidTickInterval
  else if BatchSize c <? 0 then Err ErrInvalidBatchSize
  else Ok ().

Section scheduler.
Context `{MapRange}.
(** The Eastern calendar day of an instant. *)
Context (et_date : instant → Z).
(** The next fire strictly after an instant. *)
Context (Next : instant → instant).
(** [now.AddDate(0, 0, -10)] in Eastern time. *)
Context (ten_days_before : instant → instant).
(** The wait of [TickInterval] on a full queue, during which the rest of the
    server runs: the new state, and the time unless the context was cancelled. *)
Context (wait : Z → sys → sys * option instant).
Context (cfg : Config).

(** The loop of [dispatchDue] over the claimed ids: how many were dispatched and
    whether the queue was full. *)
Fixpoint submit_all (ids : list uuid) (dispatched : nat) (queueFull : bool) (s : sys) : sys * nat * bool :=
  match ids with
  | [] => (s, dispatched, queueFull)
  | id :: ids =>
    let '(s, r) := scheduler_Submit id s in
    match r with
    | Err e => if errors_is e backtest_ErrQueueFull then submit_all ids dispatched true s
               else submit_all ids dispatched queueFull s
    | Ok _ => submit_all ids (S dispatched) queueFull s
    end
  end.

(** [dispatchDue]; [None] when the fuel runs out. *)
Fixpoint dispatchDue (fuel : nat) (until : instant) (s : sys) : option sys :=
  match fuel with
  | O => None
  | S fuel =>
    let '(d, r) := ClaimDue et_date (BatchSize cfg) (y_db s) in
    let s := s <| y_db := d |> in
    match r with
    | Err _ => Some s
    | Ok [] => Some s
    | Ok ids =>
      let '(s, dispatched, queueFull) := submit_all ids 0 false s in
      if queueFull then
        let '(s, t) := wait (TickInterval cfg) s in
        match t with
        | None => Some s
        | Some now => if now <? until then dispatchDue fuel until s else Some s
        end
      else if (dispatched =? 0)%nat then Some s
      else dispatchDue fuel until s
    end
  end.

(** [mostRecentFire]. *)
Fixpoint fire_loop (fuel : nat) (now probe : instant) (last : option instant) : option (option instant) :=
  match fuel with
  | O => None
  | S fuel =>
    let next := Next probe in
    if now <? next then Some last else fire_loop fuel now next (Some next)
  end.
Definition mostRecentFire (fuel : nat) (now : instant) : option (option instant) :=
  fire_loop fuel now (ten_days_before now) None.

(** [sameDay] of two Eastern times. *)
Definition sameDay (a b : instant) : bool := et_date a =? et_date b.

(** The catch-up of [Run] before its loop, and what each fire then does. *)
Definition catch_up (fuel : nat) (now : instant) (s : sys) : option sys :=
  last ← mostRecentFire fuel now;
  match last with
  | Some last => if sameDay last now then dispatchDue fuel (Next now) s else Some s
  | None => Some s
  end.
Definition on_fire (fuel : nat) (fire : instant) (s : sys) : option sys :=
  dispatchDue fuel (Next fire) s.

End scheduler.

(** ** The fire slept through *)
Section fires.
Context (et_date : instant → Z) (Next ten_days_before : instant → instant).
#[local] Notation fire_loop := (fire_loop Next).
#[local] Notation mostRecentFire := (mostRecentFire Next ten_days_before).
#[local] Notation sameDay := (sameDay et_date).
(** The schedule's fires: [Next] finds the first one after an instant. *)
Context (fire : instant → Prop).
Hypothesis Next_spec : ∀ t, fire (Next t) ∧ t < Next t ∧ ∀ u, fire u → t < u → Next t ≤ u.
(** Two fires are at least a gap apart. *)
Context (gap : Z).
Hypothesis gap_pos : 0 < gap.
Hypothesis Next_gap : ∀ t, fire t → t + gap ≤ Next t.

Lemma gap_steps now probe next :
  probe + gap ≤ next → next ≤ now → (S (Z.to_nat ((now - next) / gap)) ≤ Z.to_nat ((now - probe) / gap))%nat.
Proof using gap_pos.
  intros Hg Hn. assert ((now - next) / gap + 1 ≤ (now - probe) / gap) as Hd.
  { rewrite <-Z.div_add by lia. apply Z.div_le_mono; lia. }
  assert (0 ≤ (now - next) / gap) by (apply Z.div_pos; lia). lia.
Qed.

Lemma fire_loop_spec fuel now probe last :
  (Z.to_nat ((now - probe) / gap) + match last with None => 1 | Some _ => 0 end < fuel)%nat → probe ≤ now →
  (is_Some last → fire probe) →
  ∃ r, fire_loop fuel now probe last = Some r ∧
    (r = last ∧ (∀ u, fire u → probe < u → now < u) ∨
     ∃ f, r = Some f ∧ fire f ∧ probe < f ∧ f ≤ now ∧ ∀ u, fire u → u ≤ now → u ≤ f).
Proof using Next_spec gap_pos Next_gap.
  revert probe last. induction fuel as [|fuel IH]; intros probe last Hf Hp Hlast; [lia|]. cbn.
  destruct (Next_spec probe) as (Hn & Hlt & Hleast). destruct (Z.ltb_spec now (Next probe)) as [Hlate|Hdue].
  - exists last. split; [done|]. left. split; [done|]. intros u Hu Hpu. specialize (Hleast u Hu Hpu). lia.
  - destruct (IH (Next probe) (Some (Next probe))) as (r & -> & Hr); [|done|done|].
    { destruct last as [l|].
      - pose proof (Next_gap probe (Hlast (ex_intro _ l eq_refl))) as Hg.
        pose proof (gap_steps _ _ _ Hg Hdue). lia.
      - assert ((now - Next probe) / gap ≤ (now - probe) / gap) by (apply Z.div_le_mono; lia). lia. }
    exists r. split; [done|]. right. destruct Hr as [[-> Hnone]|(f & -> & Hff & Hpf & Hfn & Hmax)].
    + exists (Next probe). do 4 (split; [done|]). intros u Hu Hun.
      destruct (decide (Next probe < u)) as [Hgt|]; [|lia]. specialize (Hnone u Hu Hgt). lia.
    + exists f. do 2 (split; [done|]). split; [lia|done].
Qed.

(** C39: the search for a fire slept through terminates and finds the last fire
    of the ten days up to now, if there is one; so the scheduler catches up
    exactly when a fire of the current Eastern day has already passed. *)
Theorem most_recent_fire_spec (fuel : nat) (now : instant) :
  ten_days_before now ≤ now → (Z.to_nat ((now - ten_days_before now) / gap) + 1 < fuel)%nat →
  (∀ u, et_date u = et_date now → ten_days_before now < u) →
  (∀ a b c, a ≤ b → b ≤ c → et_date a = et_date c → et_date b = et_date a) →
  ∃ r, mostRecentFire fuel now = Some r ∧
    (match r with
     | Some f => fire f ∧ ten_days_before now < f ∧ f ≤ now ∧ (∀ u, fire u → u ≤ now → u ≤ f)
     | None => ∀ u, fire u → ten_days_before now < u → now < u
     end) ∧
    ((∃ f, r = Some f ∧ sameDay f now = true) ↔ ∃ u, fire u ∧ u ≤ now ∧ et_date u = et_date now).
Proof using Next_spec gap_pos Next_gap.
  intros Hle Hfuel Hday Hconv. unfold mostRecentFire.
  destruct (fire_loop_spec fuel now (ten_days_before now) None) as (r & -> & Hr); [done|done|by intros []|].
  exists r. split; [done|]. unfold sameDay. setoid_rewrite Z.eqb_eq.
  destruct Hr as [[-> Hnone]|(f & -> & Hf & Hp & Hn & Hmax)].
  - split; [done|]. split; [by intros (f & [=] & _)|]. intros (u & Hu & Hun & Hd). specialize (Hnone u Hu (Hday u Hd)). lia.
  - split; [done|]. split; [intros (g & [= <-] & Hd); eauto|].
    intros (u & Hu & Hun & Hd). exists f. split; [done|].
    rewrite (Hconv u f now); [done|by apply Hmax|done|done].
Qed.
End fires.

(** ** Draining the due portfolios *)
Section drain.
Context `{MapRange} (et_date : instant → Z) (wait : Z → sys → sys * option instant) (cfg : Config).
#[local] Notation dispatchDue := (dispatchDue et_date wait cfg).
#[local] Notation due d := (list_to_set (map ID (due_rows et_date d)) : gset uuid).

Lemma elem_of_due d i : db_inv d → i ∈ due d ↔ ∃ p, portfolios d !! i = Some p ∧ dispatchable et_date d p.
Proof.
  intros Hinv. rewrite elem_of_list_to_set, list_elem_of_fmap. split.
  - intros (p & -> & Hp). apply elem_of_due_rows in Hp as [? ?]; [|done]. eauto.
  - intros (p & Hp & Hd). pose proof (inv_pid d Hinv _ _ Hp) as Hid. exists p. split; [done|].
    apply elem_of_due_rows; [done|]. by rewrite Hid.
Qed.

Lemma due_portfolio_not_in_flight d i : db_inv d → i ∈ due d → ¬ in_flight d i.
Proof.
  intros Hinv (p & Hp & _ & _ & Hfl & _)%elem_of_due (j & r & Hr & Hrp & Hi); [|done].
  rewrite (Hfl j r Hr) in Hi; [done|]. by rewrite (inv_pid d Hinv _ _ Hp).
Qed.

(** Queueing a scheduled run takes its portfolio off the due set, and only it. *)
Lemma due_after_create d d' r :
  db_inv d → db_inv d' → runs d !! run_ID r = None → runs d' = <[run_ID r := r]> (runs d) →
  portfolios d' = portfolios d → now d' = now d → inflight r = true → run_StartedAt r = None →
  due d' = due d ∖ {[run_PortfolioID r]}.
Proof.
  intros Hinv Hinv' Hnew Hr Hp Hn Hi Hst. apply set_eq. intros i.
  rewrite elem_of_difference, elem_of_singleton, !elem_of_due by done. rewrite Hp. split.
  - intros (p & Hpi & He & Hs & Hfl & Hran). assert (ID p ≠ run_PortfolioID r) as Hne.
    { intros Heq. assert (inflight r = false) as Hf; [|congruence]. eapply (Hfl (run_ID r)); [|done].
      by rewrite Hr, lookup_insert_eq. }
    split; [|by rewrite <-(inv_pid d Hinv _ _ Hpi)]. exists p. do 3 (split; [done|]).
    assert (∀ j s, runs d !! j = Some s → runs d' !! j = Some s) as Hold.
    { intros j s Hs'. rewrite Hr, lookup_insert_ne; [done|]. intros <-. by rewrite Hnew in Hs'. }
    split; [intros j s Hs'; eapply Hfl; by apply Hold|].
    intros j s t Hs' ? ? ?. rewrite <-Hn. eapply Hran; [by apply Hold|done..].
  - intros ((p & Hpi & He & Hs & Hfl & Hran) & Hne). exists p. do 3 (split; [done|]).
    rewrite <-(inv_pid d Hinv _ _ Hpi) in Hne. split.
    + intros j s. rewrite Hr. intros [[<- <-]|[_ Hs']]%lookup_insert_Some; [congruence|by eapply Hfl].
    + intros j s t. rewrite Hr, Hn. intros [[<- <-]|[_ Hs']]%lookup_insert_Some; [congruence|by eapply Hran].
Qed.

(** The dispatcher is healthy: it is open and its database answers. *)
Definition healthy (s : sys) : Prop :=
  db_inv (y_db s) ∧ faults (y_db s) = [] ∧ y_closed s = false.

Lemma submit_due s pid :
  healthy s → pid ∈ due (y_db s) → (length (y_tasks s) < y_cap s)%nat →
  ∃ s' id, scheduler_Submit pid s = (s', Ok id) ∧ healthy s' ∧ y_cap s' = y_cap s ∧
    y_tasks s' = y_tasks s ++ [{| t_portfolioID := pid; t_runID := id; t_scheduled := true |}] ∧
    due (y_db s') = due (y_db s) ∖ {[pid]} ∧ portfolios (y_db s') = portfolios (y_db s).
Proof.
  intros (Hinv & Hf & Hcl) Hdue Hroom. unfold scheduler_Submit, Submit.
  assert (TriggerScheduled ∈ [TriggerScheduled; TriggerManual]) as Htr by (by left).
  destruct (CreateRun pid "queued" TriggerScheduled (y_db s)) as [d [r|e]] eqn:Hc.
  2:{ exfalso. apply due_portfolio_not_in_flight in Hdue as Hno; [|done].
      apply elem_of_due in Hdue as (p & Hp & _); [|done].
      unfold CreateRun, map_err in Hc. rewrite sql_no_fault, insert_run_queued in Hc by done. cbv zeta in Hc.
      set (row := Build_Run _ _ _ _ _ _ _ _ _) in Hc.
      pose proof (inflight_conflict_new (y_db s) row Hinv eq_refl eq_refl) as [Hcf _]. cbn [run_PortfolioID row] in Hcf.
      destruct (inflight_conflict (y_db s) row); [by apply Hno, Hcf|].
      by rewrite Hp in Hc. }
  destruct (create_run_effect _ _ _ _ _ Hinv Htr Hc) as (Hid & Hp & Hr & Hn & Hpid & Hfl & Hex & Hno).
  destruct (good_after _ _ _ _ (good_create_run pid "queued" TriggerScheduled) Hinv Hc) as [Hinv' _].
  assert (faults d = [] ∧ now d = now (y_db s) ∧ run_StartedAt r = None) as (Hfd & Hnow & Hst).
  { unfold CreateRun, map_err in Hc. rewrite sql_no_fault, insert_run_queued in Hc by done. cbv zeta in Hc.
    destruct (inflight_conflict _ _); [done|]. destruct (bool_decide _); [done|]. injection Hc as <- <-. done. }
  submit_fields s d. rewrite Hcl. destruct (Nat.ltb_spec (length (y_tasks s)) (y_cap s)); [|lia].
  eexists _, _. split; [done|]. split; [done|]. split; [done|]. split; [done|]. split; [|done].
  cbn [y_db set_field]. rewrite <-Hpid. apply due_after_create; try done.
  apply eq_None_not_Some. intros Hs. apply (inv_fresh _ Hinv) in Hs. lia.
Qed.

Lemma submit_all_due ids n q s :
  healthy s → NoDup ids → (∀ i, i ∈ ids → i ∈ due (y_db s)) → (length (y_tasks s) + length ids ≤ y_cap s)%nat →
  ∃ s' new, submit_all ids n q s = (s', (n + length ids)%nat, q) ∧ healthy s' ∧ y_cap s' = y_cap s ∧
    y_tasks s' = y_tasks s ++ new ∧ map t_portfolioID new = ids ∧ Forall (λ t, t_scheduled t = true) new ∧
    due (y_db s') = due (y_db s) ∖ list_to_set ids ∧ portfolios (y_db s') = portfolios (y_db s).
Proof.
  revert n s. induction ids as [|i ids IH]; intros n s Hh Hnd Hin Hroom; cbn [submit_all length] in *.
  { exists s, []. rewrite Nat.add_0_r, app_nil_r. cbn. split_and!; try done. set_solver. }
  apply NoDup_cons in Hnd as [Hi Hnd].
  destruct (submit_due s i) as (s1 & id & -> & Hh1 & Hc1 & Ht1 & Hd1 & Hp1); [done|apply Hin; by left|lia|].
  destruct (IH (S n) s1) as (s' & new & -> & Hh' & Hc' & Ht' & Hids & Hsch & Hd' & Hp'); [done|done| | |].
  { intros j Hj. rewrite Hd1. apply elem_of_difference. split; [apply Hin; by right|].
    rewrite elem_of_singleton. by intros ->. }
  { rewrite Ht1, length_app, Hc1. cbn. lia. }
  exists s', ({| t_portfolioID := i; t_runID := id; t_scheduled := true |} :: new).
  split; [do 2 f_equal; lia|]. split; [done|]. split; [congruence|]. split; [by rewrite Ht', Ht1, <-app_assoc|].
  split; [cbn; congruence|]. split; [by constructor|]. split; [|congruence].
  rewrite Hd', Hd1. cbn. set_solver.
Qed.

Lemma claim_due_no_fault s :
  healthy s → 0 < BatchSize cfg →
  ClaimDue et_date (BatchSize cfg) (y_db s) =
    (y_db s, Ok (take (Z.to_nat (BatchSize cfg)) (map ID (due_rows et_date (y_db s))))).
Proof.
  intros (Hinv & Hf & _) Hb. unfold ClaimDue. rewrite sql_no_fault by done.
  destruct (Z.ltb_spec (BatchSize cfg) 0); [lia|]. by rewrite firstn_map.
Qed.

Lemma size_due d : db_inv d → size (due d) = length (due_rows et_date d).
Proof. intros Hinv. rewrite size_list_to_set by (by apply NoDup_due_rows). by rewrite length_map. Qed.

Lemma due_empty d : due d = ∅ → due_rows et_date d = [].
Proof.
  intros He. destruct (due_rows et_date d) as [|p l]; [done|]. exfalso.
  assert (ID p ∈ (∅ : gset uuid)) as Hin; [|set_solver]. rewrite <-He. cbn. set_solver.
Qed.

Lemma dispatch_due_loop fuel until s :
  healthy s → 0 < BatchSize cfg → (size (due (y_db s)) < fuel)%nat →
  (length (y_tasks s) + size (due (y_db s)) ≤ y_cap s)%nat →
  ∃ s' new, dispatchDue fuel until s = Some s' ∧ due (y_db s') = ∅ ∧ y_tasks s' = y_tasks s ++ new ∧
    NoDup (map t_portfolioID new) ∧ (∀ i, i ∈ map t_portfolioID new ↔ i ∈ due (y_db s)) ∧
    Forall (λ t, t_scheduled t = true) new ∧ portfolios (y_db s') = portfolios (y_db s).
Proof.
  revert s. induction fuel as [|fuel IH]; intros s Hh Hb Hf Hroom; [lia|].
  cbn [dispatchDue]. rewrite claim_due_no_fault by done. pose proof Hh as (Hinv & _).
  assert (s <| y_db := y_db s |> = s) as Hs by (by destruct s). cbv zeta. rewrite Hs.
  set (ids := take (Z.to_nat (BatchSize cfg)) (map ID (due_rows et_date (y_db s)))).
  assert (NoDup ids) as Hnd by (eapply sublist_NoDup; [by apply NoDup_due_rows|apply sublist_take]).
  assert (∀ i, i ∈ ids → i ∈ due (y_db s)) as Hin.
  { intros i Hi%elem_of_take_in. by apply elem_of_list_to_set. }
  assert (length ids ≤ size (due (y_db s)))%nat as Hlen.
  { rewrite size_due by done. unfold ids. rewrite length_take, length_map. lia. }
  destruct (submit_all_due ids 0 false s) as (s1 & new & Hsub & Hh1 & Hc1 & Ht1 & Hids & Hsch & Hd1 & Hp1);
    [done|done|done|lia|].
  destruct ids as [|i ids'] eqn:Hids0.
  { exists s, []. rewrite app_nil_r. assert (due (y_db s) = ∅) as He.
    { unfold ids in Hids0. apply (f_equal length) in Hids0. rewrite length_take, length_map in Hids0. cbn in Hids0.
      destruct (due_rows et_date (y_db s)); [done|]. cbn in Hids0. lia. }
    rewrite He. do 3 (split; [done|]). split; [constructor|]. split; [set_solver|]. split; [constructor|done]. }
  rewrite Hsub. cbn [length Nat.add Nat.eqb].
  assert (size (due (y_db s1)) + length (i :: ids') = size (due (y_db s)))%nat as Hsize.
  { assert (list_to_set (i :: ids') ⊆ due (y_db s)) as Hsub'.
    { intros j Hj%elem_of_list_to_set. auto. }
    rewrite Hd1, size_difference by done. pose proof (subseteq_size _ _ Hsub') as Hle.
    pose proof (size_list_to_set (C := gset uuid) _ Hnd) as Hsz. lia. }
  destruct (IH s1) as (s2 & new2 & Hrun & Hd2 & Ht2 & Hnd2 & Hel2 & Hsch2 & Hp2); [done|done| | |].
  { cbn in Hsize. lia. }
  { rewrite Ht1, length_app, Hc1. apply (f_equal length) in Hids. rewrite length_map in Hids. cbn in *. lia. }
  exists s2, (new ++ new2). split; [done|]. split; [done|]. split; [by rewrite Ht2, Ht1, <-app_assoc|].
  rewrite map_app, Hids. split; [|split; [|split; [by apply Forall_app|congruence]]].
  - apply NoDup_app. split; [done|]. split; [|done]. intros j Hj Hj2. apply Hel2 in Hj2. rewrite Hd1 in Hj2.
    apply elem_of_difference in Hj2 as [_ Hj2]. apply Hj2. by apply elem_of_list_to_set.
  - intros j. rewrite elem_of_app, Hel2, Hd1, elem_of_difference.
    rewrite (elem_of_list_to_set (C := gset uuid) j (i :: ids')).
    destruct (decide (j ∈ i :: ids')) as [Hj|Hj]; [|tauto]. pose proof (Hin j Hj). tauto.
Qed.

(** C38: with a working database and room in the task channel, [dispatchDue]
    terminates, leaves no portfolio due, and queues exactly one scheduled task
    for every portfolio that was due and for no other. *)
Theorem dispatch_due_drains (fuel : nat) (until : instant) (s : sys) :
  healthy s → 0 < BatchSize cfg →
  (length (due_rows et_date (y_db s)) < fuel)%nat →
  (length (y_tasks s) + length (due_rows et_date (y_db s)) ≤ y_cap s)%nat →
  ∃ s' new, dispatchDue fuel until s = Some s' ∧ due_rows et_date (y_db s') = [] ∧
    y_tasks s' = y_tasks s ++ new ∧ map t_portfolioID new ≡ₚ map ID (due_rows et_date (y_db s)) ∧
    Forall (λ t, t_scheduled t = true) new ∧ portfolios (y_db s') = portfolios (y_db s).
Proof.
  intros Hh Hb Hf Hroom. pose proof Hh as (Hinv & _). rewrite <-size_due in Hf, Hroom by done.
  destruct (dispatch_due_loop fuel until s Hh Hb Hf Hroom) as (s' & new & Hrun & Hd & Ht & Hnd & Hel & Hsch & Hp).
  exists s', new. split; [done|]. split; [by apply due_empty|]. split; [done|]. split; [|done].
  apply NoDup_Permutation; [done|by apply NoDup_due_rows|]. intros i.
  by rewrite Hel, elem_of_list_to_set.
Qed.

End drain.

(** ** Witnesses *)
Section demo.
#[local] Existing Instance canonical_range.
Definition nsPerHour : Z := 3600 * nsPerSecond.
(** A market that closes at 20:00 every day. *)
Definition demo_Next (t : instant) : instant :=
  (t - 20 * nsPerHour) / (24 * nsPerHour) * (24 * nsPerHour) + 44 * nsPerHour.
Definition demo_fire (t : instant) : Prop := t mod (24 * nsPerHour) = 20 * nsPerHour.
Definition demo_now : instant := 1000 * (24 * nsPerHour) + 21 * nsPerHour.

Lemma demo_Next_spec t : demo_fire (demo_Next t) ∧ t < demo_Next t ∧ ∀ u, demo_fire u → t < u → demo_Next t ≤ u.
Proof.
  unfold demo_fire, demo_Next, nsPerHour, nsPerSecond. split; [|split].
  - rewrite Z.add_comm, Z.mod_add by lia. reflexivity.
  - Z.to_euclidean_division_equations; lia.
  - intros u Hu Htu. Z.to_euclidean_division_equations; nia.
Qed.

Lemma demo_Next_gap t : demo_fire t → t + 24 * nsPerHour ≤ demo_Next t.
Proof. unfold demo_fire, demo_Next, nsPerHour, nsPerSecond. intros Ht. Z.to_euclidean_division_equations; lia. Qed.

Lemma most_recent_fire_spec_witness :
  ∃ r, mostRecentFire demo_Next (λ t, t - 240 * nsPerHour) 20 demo_now = Some r ∧
    (∃ f, r = Some f ∧ sameDay (λ t, t / (24 * nsPerHour)) f demo_now = true).
Proof.
  destruct (most_recent_fire_spec (λ t, t / (24 * nsPerHour)) demo_Next (λ t, t - 240 * nsPerHour)
    demo_fire demo_Next_spec (24 * nsPerHour) eq_refl demo_Next_gap 20 demo_now) as (r & Hr & _ & Hday).
  - unfold demo_now, nsPerHour, nsPerSecond. lia.
  - vm_compute. lia.
  - intros u Hu. unfold demo_now, nsPerHour, nsPerSecond in *. Z.to_euclidean_division_equations; lia.
  - intros a b c Hab Hbc Hac. unfold nsPerHour, nsPerSecond in *. Z.to_euclidean_division_equations; lia.
  - exists r. split; [exact Hr|]. apply Hday. exists (1000 * (24 * nsPerHour) + 20 * nsPerHour).
    unfold demo_fire, demo_now, nsPerHour, nsPerSecond. split; [reflexivity|]. split; [lia|reflexivity].
Defined.

Lemma dispatch_due_drains_witness :
  map ID (due_rows day_of (y_db demo_sys)) = [1%N] ∧
  ∃ s' new, dispatchDue day_of (λ _ s, (s, None)) {| TickInterval := 0; BatchSize := 8 |} 3 0 demo_sys = Some s' ∧
    y_tasks s' = y_tasks demo_sys ++ new ∧ map t_portfolioID new ≡ₚ [1%N].
Proof.
  assert (map ID (due_rows day_of (y_db demo_sys)) = [1%N]) as Hdue by (vm_compute; reflexivity).
  assert (length (due_rows day_of (y_db demo_sys)) = 1%nat) as Hlen by (vm_compute; reflexivity).
  split; [exact Hdue|].
  destruct (dispatch_due_drains day_of (λ _ s, (s, None)) {| TickInterval := 0; BatchSize := 8 |} 3 0 demo_sys)
    as (s' & new & Hrun & _ & Ht & Hperm & _ & _).
  - split; [exact demo_db_inv|]. split; reflexivity.
  - reflexivity.
  - rewrite Hlen. lia.
  - rewrite Hlen. apply Nat.leb_le. vm_compute. reflexivity.
  - exists s', new. rewrite Hdue in Hperm. done.
Defined.
End demo.
