(* ===== verification/Web.v ===== *)
(** The HTTP side of the portfolio API: the fiber request and response a handler
    works on, the response writers and views of src/portfolio/handler.go, and the
    interfaces through which handlers reach the rest of the server
    (src/portfolio/store.go, src/portfolio/snapshot_iface.go). *)
From S2P Require Import Prelude GoStrings GoTime Types Params.
From S2P Require Progress.

(** ** Requests *)

(** The parts of [fiber.Ctx] handlers read: the subject the auth middleware left
    on the locals, route and query parameters, the body and the path. *)
Record request := {
  rq_sub : option string; rq_slug : string; rq_date : string; rq_runId : string;
  rq_query : gmap string string; rq_body : string; rq_path : string;
}.
Definition Query (rq : request) (k : string) : string := default "" (rq_query rq !! k).

Definition ErrNoSubject := sentinel_err portfolio_ErrNoSubject "missing authenticated subject".

(** [subject]. *)
Definition subject (rq : request) : result string :=
  match rq_sub rq with
  | Some sub => if bool_decide (sub = "") then Err ErrNoSubject else Ok sub
  | None => Err ErrNoSubject
  end.

(** ** Views *)
Record portfolioView := {
  v_Slug : string; v_Name : string; v_Status : string; v_RunID : option string;
  v_StrategyCode : string; v_StrategyVer : option string; v_StrategyCloneURL : string;
  v_Parameters : gmap string json; v_PresetName : option string; v_Benchmark : string;
  v_StartDate : option string; v_EndDate : option string; v_CreatedAt : string;
  v_UpdatedAt : string; v_LastRunAt : option string; v_LastError : option string;
  v_RunRetention : Z; v_CurrentValue : option float64; v_YtdReturn : option float64;
  v_MaxDrawDown : option float64; v_Sharpe : option float64; v_CagrSinceInception : option float64;
  v_InceptionDate : option string;
}.

#[export] Instance eta_portfolioView : Eta portfolioView := λ v,
  Build_portfolioView (v_Slug v) (v_Name v) (v_Status v) (v_RunID v) (v_StrategyCode v) (v_StrategyVer v)
    (v_StrategyCloneURL v) (v_Parameters v) (v_PresetName v) (v_Benchmark v) (v_StartDate v) (v_EndDate v)
    (v_CreatedAt v) (v_UpdatedAt v) (v_LastRunAt v) (v_LastError v) (v_RunRetention v) (v_CurrentValue v)
    (v_YtdReturn v) (v_MaxDrawDown v) (v_Sharpe v) (v_CagrSinceInception v) (v_InceptionDate v).

(** [toView]. *)
Definition toView (p : Portfolio) : portfolioView :=
  {| v_Slug := Types.Slug p; v_Name := Name p; v_Status := Status p; v_RunID := None;
     v_StrategyCode := StrategyCode p; v_StrategyVer := StrategyVer p;
     v_StrategyCloneURL := StrategyCloneURL p; v_Parameters := Parameters p;
     v_PresetName := PresetName p; v_Benchmark := Benchmark p;
     v_StartDate := format_date <$> StartDate p; v_EndDate := format_date <$> EndDate p;
     v_CreatedAt := format_timestamp (CreatedAt p); v_UpdatedAt := format_timestamp (UpdatedAt p);
     v_LastRunAt := format_timestamp <$> LastRunAt p; v_LastError := LastError p;
     v_RunRetention := RunRetention p; v_CurrentValue := CurrentValue p;
     v_YtdReturn := YtdReturn p; v_MaxDrawDown := MaxDrawdown p; v_Sharpe := Sharpe p;
     v_CagrSinceInception := CagrSinceInception p;
     v_InceptionDate := format_date <$> InceptionDate p |}.

(** The generated shapes of src/openapi/openapi.gen.go the handlers fill in. *)
Record RunProgress := {
  rp_Step : Z; rp_TotalSteps : Z; rp_Pct : float64; rp_ElapsedMs : option Z; rp_EtaMs : option Z;
  rp_Measurements : option Z; rp_CurrentDate : option instant; rp_TargetDate : option instant;
}.
Record BacktestRun := {
  br_Id : uuid; br_PortfolioSlug : string; br_Status : string; br_StartedAt : option instant;
  br_FinishedAt : option instant; br_DurationMs : option Z; br_Error : option string;
  br_Progress : option RunProgress;
}.
Record RecalculatingResponse := {
  rc_Status : string; rc_RunId : uuid; rc_PortfolioSlug : string; rc_RunStatus : string;
  rc_PollUrl : string; rc_Message : option string;
}.

Definition nonzero (n : Z) : option Z := if n =? 0 then None else Some n.

(** [toAPIProgress]: malformed dates are dropped. *)
Definition toAPIProgress (msg : Progress.ProgressMessage) : RunProgress :=
  {| rp_Step := Progress.Step msg; rp_TotalSteps := Progress.TotalSteps msg; rp_Pct := Progress.Pct msg;
     rp_ElapsedMs := nonzero (Progress.ElapsedMS msg); rp_EtaMs := nonzero (Progress.EtaMS msg);
     rp_Measurements := nonzero (Progress.Measurements msg);
     rp_CurrentDate := if bool_decide (Progress.CurrentDate msg = "") then None
                       else parse_date (Progress.CurrentDate msg);
     rp_TargetDate := if bool_decide (Progress.TargetDate msg = "") then None
                      else parse_date (Progress.TargetDate msg) |}.

(** [toAPIRun], given what the hub has for the run. *)
Definition toAPIRun (r : Run) (slug : string) (latest : option Progress.ProgressMessage) : BacktestRun :=
  {| br_Id := run_ID r; br_PortfolioSlug := slug; br_Status := run_Status r;
     br_StartedAt := run_StartedAt r; br_FinishedAt := run_FinishedAt r;
     br_DurationMs := run_DurationMs r; br_Error := run_Error r;
     br_Progress := toAPIProgress <$> latest |}.

(** ** Responses *)
Section response.
(** What the snapshot readers return. *)
Context {out : Type}.

(** The values of a [fiber.Map]. *)
Inductive field :=
  | FStr (s : string)
  | FStrs (l : list string)
  | FRetyped (l : list ParameterRetype)
  | FParams (m : gmap string json)
  | FRaw (s : string)
  | FMap (m : list (string * field)).

(** What a stream writer sends: one terminal event, or the events of a
    subscription to the progress hub. *)
Inductive stream :=
  | StreamTerminal (status errMsg : string)
  | StreamEvents (ch : Progress.loc).

(** A response body before it is marshalled. *)
Inductive payload :=
  | BProblem (title : string) (status : Z) (detail instance : string)
  | BView (v : portfolioView)
  | BViews (l : list portfolioView)
  | BRun (r : BacktestRun)
  | BRuns (l : list BacktestRun)
  | BRecalculating (r : RecalculatingResponse)
  | BMap (m : list (string * field))
  | BOut (o : out)
  | BStream (s : stream)
  | BEmpty.

Record response := { status : Z; content_type : string; body : payload }.

(** A fresh fiber context: 200 with no body. *)
Definition fresh : response := {| status := 200; content_type := ""; body := BEmpty |}.

Context {W : Type}.

(** The response being built and the rest of the server. *)
Record conn := { c_resp : response; c_world : W }.

Definition on_world {A} (f : W → W * A) (c : conn) : conn * A :=
  let '(w, a) := f (c_world c) in ({| c_resp := c_resp c; c_world := w |}, a).

(** [writeProblem]: it returns what [Send] returns, which is nil. *)
Definition writeProblem (rq : request) (st : Z) (title detail : string) (c : conn) :
    conn * option goerror :=
  ({| c_resp := {| status := st; content_type := "application/problem+json";
                   body := BProblem title st detail (rq_path rq) |};
      c_world := c_world c |}, None).

(** Why [sonic.Marshal] refuses a body, if it does. *)
Context (sonic_err : payload → option goerror).

(** [writeJSON]. *)
Definition writeJSON (rq : request) (st : Z) (v : payload) (c : conn) : conn * option goerror :=
  match sonic_err v with
  | Some err => writeProblem rq 500 "Internal Server Error" (err_text err) c
  | None =>
    ({| c_resp := {| status := st; content_type := "application/json"; body := v |};
        c_world := c_world c |}, None)
  end.

(** [c.Status(st).JSON(v)]; [c.JSON(v)] keeps the status. *)
Definition status_JSON (st : Z) (v : payload) (c : conn) : conn * option goerror :=
  match sonic_err v with
  | Some err => ({| c_resp := {| status := st; content_type := content_type (c_resp c);
                                 body := body (c_resp c) |}; c_world := c_world c |}, Some err)
  | None => ({| c_resp := {| status := st; content_type := "application/json"; body := v |};
                c_world := c_world c |}, None)
  end.
Definition JSON (v : payload) (c : conn) : conn * option goerror :=
  status_JSON (status (c_resp c)) v c.

(** [c.SendStatus(st)]. *)
Definition SendStatus (st : Z) (c : conn) : conn * option goerror :=
  ({| c_resp := {| status := st; content_type := content_type (c_resp c); body := body (c_resp c) |};
      c_world := c_world c |}, None).

End response.
Arguments field : clear implicits.
Arguments payload : clear implicits.
Arguments response : clear implicits.
Arguments conn : clear implicits.

(** ** What handlers ask of the rest of the server *)

(** [Store]. *)
Class Store (W : Type) := {
  st_List : string → W → W * result (list Portfolio);
  st_Get : string → string → W → W * result Portfolio;
  st_Insert : Portfolio → W → W * result unit;
  st_UpdateName : string → string → string → W → W * result unit;
  st_UpdateDates : string → string → option instant → option instant → W → W * result unit;
  st_UpdateRunRetention : string → string → Z → W → W * result unit;
  st_Delete : string → string → W → W * result unit;
  st_ApplyUpgrade : uuid → string → string → gmap string json → option string → W → W * result unit;
  st_ListByStrategyCode : string → W → W * result (list Portfolio);
  st_ListRuns : uuid → W → W * result (list Run);
  st_GetRun : uuid → uuid → W → W * result Run;
}.

(** [Dispatcher], [strategy.ReadStore], the progress hub and the file system. *)
Class Services (W : Type) := {
  sv_Submit : uuid → W → W * result uuid;
  sv_StrategyGet : string → W → W * result Strategy;
  sv_Latest : uuid → W → option Progress.ProgressMessage;
  sv_Subscribe : uuid → W → W * Progress.outcome Progress.loc;
  sv_RemoveAll : string → W → W * option goerror;
}.

(** [strategy.BuilderFunc] and [strategy.RunDescribe]: a clone URL to a binary
    and its cleanup, a binary to its describe JSON. *)
Class Builder (W : Type) := {
  bd_Build : string → W → W * result string;
  bd_Cleanup : string → W → W * unit;
  bd_RunDescribe : string → W → W * result string;
}.

(** The methods of [SnapshotReader], with their arguments. *)
Inductive snapshot_query :=
  | QSummary | QDrawdowns | QStatistics | QTrailingReturns | QCurrentHoldings
  | QHoldingsAsOf (date : instant)
  | QHoldingsHistory (from to : option instant)
  | QHoldingsImpact (slug : string) (topN : Z)
  | QPerformance (slug : string) (from to : option instant)
  | QTransactions (from to : option instant) (types : list string)
  | QMetrics (windows metrics : list string)
  | QPrediction.

(** [SnapshotOpener] and [SnapshotReader]. *)
Class Snapshots (W out : Type) := {
  reader : Type;
  sn_Open : string → W → W * result reader;
  sn_Read : snapshot_query → reader → W → W * result out;
  sn_Close : reader → W → W * option goerror;
}.
