(* ===== verification/Snapshot.v ===== *)
(** The snapshot reader as the portfolio handlers see it (src/snapshot/opener.go):
    one method per query, [snapshot.ErrNotFound] translated for the methods the
    adapter overrides. *)
From S2P Require Import Prelude GoStrings GoTime Types.
From S2P Require Import SnapDb SnapReturns Holdings Impact.
From S2P Require Import Web.

(** What the methods of [portfolio.SnapshotReader] return. *)
Inductive reading :=
  | RSummary (r : PortfolioSummary)
  | RDrawdowns (r : list Drawdown)
  | RStatistics (r : list PortfolioStatistic)
  | RTrailingReturns (r : list TrailingReturnRow)
  | RCurrentHoldings (r : HoldingsResponse)
  | RHoldingsAsOf (r : HoldingsAsOfResponse)
  | RHoldingsHistory (r : list HoldingsHistoryEntry)
  | RHoldingsImpact (r : option HoldingsImpactResponse)
  | RPerformance (r : PortfolioPerformance)
  | RTransactions (r : list Transaction)
  | RMetrics (r : PortfolioMetrics)
  | RPrediction (r : PredictionResponse).

Definition ErrSnapshotNotFound : goerror :=
  sentinel_err portfolio_ErrSnapshotNotFound "snapshot: not found".

(** The overridden methods of [readerAdapter]. *)
Definition overridden {A} (m : rd A) : rd A := λ s,
  match m s with
  | (s', Err e) => (s', Err (if errors_is e snapshot_ErrNotFound then ErrSnapshotNotFound else e))
  | r => r
  end.
Definition as_reading {A} (f : A → reading) (m : rd A) : rd reading := a ← m; mret (f a).

Section adapter.
Context `{Driver, MapRange} (format_g : float64 → string).

Definition readerAdapter (q : snapshot_query) (db : snapdb) : rd reading :=
  match q with
  | QSummary => as_reading RSummary (Summary db)
  | QDrawdowns => as_reading RDrawdowns (Drawdowns db)
  | QStatistics => as_reading RStatistics (Statistics db)
  | QTrailingReturns => as_reading RTrailingReturns (TrailingReturns db)
  | QCurrentHoldings => as_reading RCurrentHoldings (CurrentHoldings db)
  | QHoldingsAsOf date => as_reading RHoldingsAsOf (overridden (HoldingsAsOf db date))
  | QHoldingsHistory from to => as_reading RHoldingsHistory (HoldingsHistory db from to)
  | QHoldingsImpact slug topN => as_reading RHoldingsImpact (overridden (HoldingsImpact format_g db slug topN))
  | QPerformance slug from to => as_reading RPerformance (Performance db slug from to)
  | QTransactions from to types => as_reading RTransactions (Transactions db from to types)
  | QMetrics windows metrics => as_reading RMetrics (Metrics db windows metrics)
  | QPrediction => as_reading RPrediction (overridden (Prediction db))
  end.

(** [Opener], over a server whose files and whose queries' faults are [open_file],
    [script] and [set_script]. *)
Context {W : Type} (open_file : string → W → result snapdb) (script : W → list fault)
  (set_script : list fault → W → W).

#[export] Instance Opener : Snapshots W reading := {
  reader := snapdb;
  sn_Open path w := (w, open_file path w);
  sn_Read q db w := let '(s, r) := readerAdapter q db (script w) in (set_script s w, r);
  sn_Close db w := (w, None);
}.
End adapter.
