(* ===== verification/Settings.v ===== *)
(** The configuration of the program (src/cmd/config.go, viper.go, root.go, the
    flags of server.go, log.go, version.go): the flags, the keys they are bound
    to, the defaults, the structure the settings are decoded into, and logging. *)
From S2P Require Import Prelude GoStrings GoTime Types Path.
From Stdlib Require Import Ascii.

(** ** Values of flags, defaults and configuration files *)
Inductive value := VStr (s : string) | VInt (n : Z) | VDur (ns : Z) | VBool (b : bool) | VFloat (f : float64).
Definition same_kind (v w : value) : bool :=
  match v, w with
  | VStr _, VStr _ | VInt _, VInt _ | VDur _, VDur _ | VBool _, VBool _ | VFloat _, VFloat _ => true
  | _, _ => false
  end.
Definition seconds (n : Z) : Z := n * nsPerSecond.

(** ** src/cmd/config.go, src/cmd/log.go: the structures *)
Record logConf := { Level : string; Output : string; Pretty : bool; ReportCaller : bool }.
Record serverConf := { Port : Z; AllowOrigins : string }.
Record authConf := { JWKSURL : string; Audience : string; Issuer : string }.
Record strategyConf := {
  RegistrySyncInterval : Z; InstallConcurrency : Z; OfficialDir : string; GithubQuery : string;
  EphemeralDir : string; EphemeralInstallTimeout : Z; StatsRefreshTime : string; StatsStartDate : string;
  StatsTickInterval : Z;
}.
Record backtestConf := { SnapshotsDir : string; MaxConcurrency : Z; Timeout : Z; OrphanGCInterval : Z }.
Record dockerConf := {
  Socket : string; Network : string; CPULimit : float64; MemoryLimit : string; BuildTimeout : Z;
  ImagePrefix : string; SnapshotsHostPath : string;
}.
Record runnerConf := { Mode : string; Docker : dockerConf }.
Record mailgunConf := { Domain : string; APIKey : string; FromAddress : string }.
Record schedulerConf := { TickInterval : Z; BatchSize : Z; Enabled : bool }.
Record Config := {
  DataDir : string; AppBaseURL : string; UnsubscribeSecret : string; Log : logConf; DB_URL : string;
  Server : serverConf; Auth : authConf; GitHub_Token : string; Strategy_ : strategyConf;
  Backtest_ : backtestConf; Runner : runnerConf; Scheduler_ : schedulerConf; Mailgun : mailgunConf;
}.
#[export] Instance eta_backtestConf : Eta backtestConf := λ c,
  Build_backtestConf (SnapshotsDir c) (MaxConcurrency c) (Timeout c) (OrphanGCInterval c).
#[export] Instance eta_strategyConf : Eta strategyConf := λ c,
  Build_strategyConf (RegistrySyncInterval c) (InstallConcurrency c) (OfficialDir c) (GithubQuery c) (EphemeralDir c)
    (EphemeralInstallTimeout c) (StatsRefreshTime c) (StatsStartDate c) (StatsTickInterval c).
#[export] Instance eta_Config : Eta Config := λ c,
  Build_Config (DataDir c) (AppBaseURL c) (UnsubscribeSecret c) (Log c) (DB_URL c) (Server c) (Auth c)
    (GitHub_Token c) (Strategy_ c) (Backtest_ c) (Runner c) (Scheduler_ c) (Mailgun c).

(** [applyDataDirFallbacks]. *)
Definition or_default (s d : string) : string := if bool_decide (s = "") then d else s.
Definition applyDataDirFallbacks (c : Config) : Config :=
  let base := DataDir c in
  let c := c <| Backtest_ := Backtest_ c <| SnapshotsDir := or_default (SnapshotsDir (Backtest_ c)) (Join [base; "snapshots"]) |> |> in
  let c := c <| Strategy_ := Strategy_ c <| OfficialDir := or_default (OfficialDir (Strategy_ c)) (Join [base; "strategies"; "official"]) |> |> in
  c <| Strategy_ := Strategy_ c <| EphemeralDir := or_default (EphemeralDir (Strategy_ c)) (Join [base; "strategies"; "ephemeral"]) |> |>.

(** ** The flags *)

(** The flags of [init] of src/cmd/root.go, with their defaults. *)
Definition root_flags : list (string * value) :=
  [("config", VStr ""); ("log-level", VStr "info"); ("log-output", VStr "stdout"); ("log-pretty", VBool true);
   ("log-report-caller", VBool false)].

(** The flags of [init] of src/cmd/server.go. *)
Definition origins : string :=
  "http://localhost:5174,http://localhost:9000,https://pennyvault.com,https://www.pennyvault.com".
Definition from_address : string := "Penny Vault <no-reply@mg.pennyvault.com>".
Definition docker_socket : string := "unix:///var/run/docker.sock".
Definition server_flags : list (string * value) :=
  [("data-dir", VStr "/var/lib/pvapi"); ("db-url", VStr ""); ("server-port", VInt 3000);
   ("server-allow-origins", VStr origins); ("auth-jwks-url", VStr ""); ("auth-audience", VStr "");
   ("auth-issuer", VStr ""); ("github-token", VStr "");
   ("strategy-registry-sync-interval", VDur (seconds 3600)); ("strategy-install-concurrency", VInt 2);
   ("strategy-official-dir", VStr ""); ("strategy-github-query", VStr "owner:penny-vault topic:pvbt-strategy");
   ("strategy-ephemeral-dir", VStr ""); ("strategy-ephemeral-install-timeout", VDur (seconds 300));
   ("backtest-snapshots-dir", VStr ""); ("backtest-orphan-gc-interval", VDur (seconds (7 * 24 * 3600)));
   ("runner-docker-socket", VStr docker_socket); ("runner-docker-network", VStr "");
   ("runner-docker-cpu-limit", VFloat fzero); ("runner-docker-memory-limit", VStr "");
   ("runner-docker-build-timeout", VDur (seconds 600)); ("runner-docker-image-prefix", VStr "pvapi-strategy");
   ("runner-docker-snapshots-host-path", VStr ""); ("mailgun-domain", VStr ""); ("mailgun-api-key", VStr "");
   ("mailgun-from-address", VStr from_address); ("app-base-url", VStr "https://www.pennyvault.com");
   ("unsubscribe-secret", VStr "")].

(** [strings.Replace(s, old, new, 1)] and [strings.ReplaceAll], for one byte. *)
Fixpoint replace_first (old new : ascii) (s : string) : string :=
  match s with
  | EmptyString => EmptyString
  | String a s => if bool_decide (a = old) then String new s else String a (replace_first old new s)
  end.
Fixpoint replace_all (old new : ascii) (s : string) : string :=
  match s with
  | EmptyString => EmptyString
  | String a s => String (if bool_decide (a = old) then new else a) (replace_all old new s)
  end.
Definition dash : ascii := byte 45.
Definition dot : ascii := byte 46.
Definition underscore : ascii := byte 95.

(** [bindPFlag]: the key a flag is bound to. *)
Definition flag_key (name : string) : string := replace_all dash underscore (replace_first dash dot name).
Definition bindPFlag (name : string) : string * string := (flag_key name, name).
(** [bindPFlagsToViper]. *)
Definition bindPFlagsToViper (flags : list (string * value)) : list (string * string) := map bindPFlag flags.*1.

(** The [mustBindPFlag] calls of src/cmd/server.go. *)
Definition docker_bindings : list (string * string) :=
  [("runner.docker.socket", "runner-docker-socket"); ("runner.docker.network", "runner-docker-network");
   ("runner.docker.cpu_limit", "runner-docker-cpu-limit");
   ("runner.docker.memory_limit", "runner-docker-memory-limit");
   ("runner.docker.build_timeout", "runner-docker-build-timeout");
   ("runner.docker.image_prefix", "runner-docker-image-prefix");
   ("runner.docker.snapshots_host_path", "runner-docker-snapshots-host-path")].

(** Every key and the flag bound to it, in the order the [init] functions run. *)
Definition bindings : list (string * string) :=
  bindPFlagsToViper root_flags ++ bindPFlagsToViper server_flags ++ docker_bindings.

(** [setViperDefaults]. *)
Definition viper_defaults : list (string * value) :=
  [("data_dir", VStr "/var/lib/pvapi"); ("server.allow_origins", VStr origins);
   ("backtest.max_concurrency", VInt 0); ("backtest.timeout", VStr "15m");
   ("backtest.orphan_gc_interval", VDur (seconds (7 * 24 * 3600))); ("runner.mode", VStr "host");
   ("runner.docker.socket", VStr docker_socket); ("runner.docker.network", VStr "");
   ("runner.docker.cpu_limit", VFloat fzero); ("runner.docker.memory_limit", VStr "");
   ("runner.docker.build_timeout", VDur (seconds 600)); ("runner.docker.image_prefix", VStr "pvapi-strategy");
   ("runner.docker.snapshots_host_path", VStr ""); ("scheduler.tick_interval", VStr "60s");
   ("scheduler.batch_size", VInt 32); ("scheduler.enabled", VBool true);
   ("strategy.ephemeral_install_timeout", VDur (seconds 300)); ("strategy.stats_refresh_time", VStr "17:00");
   ("strategy.stats_start_date", VStr "2010-01-01"); ("strategy.stats_tick_interval", VDur (seconds 300));
   ("mailgun.domain", VStr ""); ("mailgun.api_key", VStr ""); ("mailgun.from_address", VStr from_address)].

(** The last entry for a key. *)
Fixpoint assoc {A} (l : list (string * A)) (k : string) : option A :=
  match l with
  | [] => None
  | (k', a) :: l => match assoc l k with Some b => Some b | None => if bool_decide (k' = k) then Some a else None end
  end.

(** The environment variable of a key: the prefix and the key replacer of
    [initConfig], in upper case as viper documents it. *)
Definition upper_byte (c : ascii) : ascii :=
  if (97 <=? Z.of_nat (code c)) && (Z.of_nat (code c) <=? 122) then byte (code c - 32) else c.
Definition to_upper (s : string) : string := of_bytes (map upper_byte (bytes_of s)).
Definition env_name (key : string) : string :=
  to_upper ("pvapi_" +:+ replace_all dot underscore (replace_all dash underscore key)).

(** ** Reading the settings

    What viper makes of one key: the flag bound to it (its value, and whether it
    was given on the command line), its default, the environment variable and
    the entry of the configuration file.  The laws are viper's documented
    precedence; [Unmarshal] sees only keys that a flag, a default or the file
    names, whatever the environment holds. *)
Class Viper := {
  resolve (flag : option (value * bool)) (dflt : option value) (env : option string) (file : option value) : option value;
  resolve_changed v dflt env file : resolve (Some (v, true)) dflt env file = Some v;
  resolve_unknown env : resolve None None env None = None;
  resolve_default d flag : (∀ v b, flag = Some (v, b) → b = false) → resolve flag (Some d) None None = Some d;
}.

(** mapstructure's weak decoding into a field, exact on a value of its type. *)
Class Decoder := {
  as_string : value → result string;
  as_int : value → result Z;
  as_duration : value → result Z;
  as_bool : value → result bool;
  as_float : value → result float64;
  as_string_exact s : as_string (VStr s) = Ok s;
  as_int_exact n : as_int (VInt n) = Ok n;
  as_duration_exact n : as_duration (VDur n) = Ok n;
  as_bool_exact b : as_bool (VBool b) = Ok b;
  as_float_exact f : as_float (VFloat f) = Ok f;
}.

Section settings.
Context `{!Viper, !Decoder}.
(** What the command line gives a flag, the environment, and the file. *)
Context (given : string → option value) (env : string → option string) (file : string → option value).

Definition flag_named (name : string) : option (value * bool) :=
  match assoc (root_flags ++ server_flags) name with
  | Some d => Some (match given name with Some v => (v, true) | None => (d, false) end)
  | None => None
  end.

(** The effective value of a key. *)
Definition get (key : string) : option value :=
  resolve (match assoc bindings key with Some name => flag_named name | None => None end)
    (assoc viper_defaults key) (env (env_name key)) (file key).

(** A field of the structure at its key; a missing key leaves the zero value. *)
Definition field {A} (as_A : value → result A) (zero : A) (key : string) : result A :=
  match get key with Some v => as_A v | None => Ok zero end.
Definition str : string → result string := field as_string "".
Definition int : string → result Z := field as_int 0.
Definition dur : string → result Z := field as_duration 0.
Definition bool_ : string → result bool := field as_bool false.
Definition float : string → result float64 := field as_float fzero.

(** [viper.Unmarshal(&conf)], structure by structure. *)
Definition read_log : result logConf :=
  l ← str "log.level"; o ← str "log.output"; p ← bool_ "log.pretty"; r ← bool_ "log.report_caller";
  Ok {| Level := l; Output := o; Pretty := p; ReportCaller := r |}.
Definition read_server : result serverConf :=
  p ← int "server.port"; o ← str "server.allow_origins"; Ok {| Port := p; AllowOrigins := o |}.
Definition read_auth : result authConf :=
  j ← str "auth.jwks_url"; a ← str "auth.audience"; i ← str "auth.issuer";
  Ok {| JWKSURL := j; Audience := a; Issuer := i |}.
Definition read_strategy : result strategyConf :=
  i ← dur "strategy.registry_sync_interval"; c ← int "strategy.install_concurrency";
  o ← str "strategy.official_dir"; q ← str "strategy.github_query"; e ← str "strategy.ephemeral_dir";
  t ← dur "strategy.ephemeral_install_timeout"; r ← str "strategy.stats_refresh_time";
  d ← str "strategy.stats_start_date"; k ← dur "strategy.stats_tick_interval";
  Ok {| RegistrySyncInterval := i; InstallConcurrency := c; OfficialDir := o; GithubQuery := q; EphemeralDir := e;
        EphemeralInstallTimeout := t; StatsRefreshTime := r; StatsStartDate := d; StatsTickInterval := k |}.
Definition read_backtest : result backtestConf :=
  s ← str "backtest.snapshots_dir"; m ← int "backtest.max_concurrency"; t ← dur "backtest.timeout";
  g ← dur "backtest.orphan_gc_interval";
  Ok {| SnapshotsDir := s; MaxConcurrency := m; Timeout := t; OrphanGCInterval := g |}.
Definition read_docker : result dockerConf :=
  s ← str "runner.docker.socket"; n ← str "runner.docker.network"; c ← float "runner.docker.cpu_limit";
  m ← str "runner.docker.memory_limit"; b ← dur "runner.docker.build_timeout";
  p ← str "runner.docker.image_prefix"; h ← str "runner.docker.snapshots_host_path";
  Ok {| Socket := s; Network := n; CPULimit := c; MemoryLimit := m; BuildTimeout := b; ImagePrefix := p;
        SnapshotsHostPath := h |}.
Definition read_runner : result runnerConf :=
  m ← str "runner.mode"; d ← read_docker; Ok {| Mode := m; Docker := d |}.
Definition read_scheduler : result schedulerConf :=
  t ← dur "scheduler.tick_interval"; b ← int "scheduler.batch_size"; e ← bool_ "scheduler.enabled";
  Ok {| TickInterval := t; BatchSize := b; Enabled := e |}.
Definition read_mailgun : result mailgunConf :=
  d ← str "mailgun.domain"; a ← str "mailgun.api_key"; f ← str "mailgun.from_address";
  Ok {| Domain := d; APIKey := a; FromAddress := f |}.

(** The decoding of [initConfig]; an error of it panics. *)
Definition Unmarshal : result Config :=
  data ← str "data_dir"; base ← str "app_base_url"; secret ← str "unsubscribe_secret"; log ← read_log;
  url ← str "db.url"; server ← read_server; auth ← read_auth; token ← str "github.token";
  strategy ← read_strategy; backtest ← read_backtest; runner ← read_runner; scheduler ← read_scheduler;
  mailgun ← read_mailgun;
  Ok {| DataDir := data; AppBaseURL := base; UnsubscribeSecret := secret; Log := log; DB_URL := url;
        Server := server; Auth := auth; GitHub_Token := token; Strategy_ := strategy; Backtest_ := backtest;
        Runner := runner; Scheduler_ := scheduler; Mailgun := mailgun |}.
End settings.

(** ** src/cmd/log.go *)
Inductive zlevel := Debug | Error | Fatal | Info | Panic | Trace | Warn.
Inductive sink := Stdout | Stderr | File (name : string).
Record logger := { lg_sink : sink; lg_console : bool; lg_level : zlevel; lg_caller : bool }.

Definition lower_byte (c : ascii) : ascii :=
  if (65 <=? Z.of_nat (code c)) && (Z.of_nat (code c) <=? 90) then byte (code c + 32) else c.
Definition to_lower (s : string) : string := of_bytes (map lower_byte (bytes_of s)).
Definition levels : list (string * zlevel) :=
  [("debug", Debug); ("error", Error); ("fatal", Fatal); ("info", Info); ("panic", Panic); ("trace", Trace);
   ("warn", Warn)].

(** [setupLogging], [open] being [os.OpenFile]; [None] is its panic. *)
Definition setupLogging (open : string → option goerror) (conf : logConf) : option logger :=
  let lv := default Warn (assoc levels (to_lower (Level conf))) in
  if bool_decide (Output conf = "stdout") then
    Some {| lg_sink := Stdout; lg_console := Pretty conf; lg_level := lv; lg_caller := ReportCaller conf |}
  else if bool_decide (Output conf = "stderr") then
    Some {| lg_sink := Stderr; lg_console := Pretty conf; lg_level := lv; lg_caller := ReportCaller conf |}
  else
    match open (Output conf) with
    | Some _ => None
    | None => Some {| lg_sink := File (Output conf); lg_console := false; lg_level := lv; lg_caller := ReportCaller conf |}
    end.

(** ** src/cmd/root.go: [initConfig] *)

(** Where viper looks for the file: the one [--config] names, or the first
    [pvapi] of the directories. *)
Inductive config_search := ConfigFile (path : string) | SearchIn (dirs : list string) (typ name : string).
Definition search_for (cfgFile : string) (home : result string) : result config_search :=
  if bool_decide (cfgFile ≠ "") then Ok (ConfigFile cfgFile)
  else home ← home; Ok (SearchIn ["/etc/"; home +:+ "/.config"; "."] "toml" "pvapi").

(** How [initConfig] ends: with the configuration and the logger, by
    [cobra.CheckErr], or by a panic of the decoding or of [setupLogging]. *)
Inductive init_end := Initialised (c : Config) (lg : logger) | CheckErr (e : goerror) | Panicked (msg : string).
Definition initConfig `{!Viper, !Decoder} (given : string → option value) (env : string → option string)
    (home : result string) (read : config_search → result (string → option value)) (open : string → option goerror)
    : init_end :=
  match search_for (match given "config" with Some (VStr f) => f | _ => "" end) home with
  | Err e => CheckErr e
  | Ok w =>
    (* the file is optional *)
    let file := match read w with Ok file => file | Err _ => λ _, None end in
    match Unmarshal given env file with
    | Err _ => Panicked "error reading config into the config struct"
    | Ok c => match setupLogging open (Log c) with Some lg => Initialised c lg | None => Panicked "open log output" end
    end
  end.

(** A file that cannot be read is as good as none, also the one [--config] names. *)
Lemma unread_config_ignored `{!Viper, !Decoder} given env home read read' open :
  (∀ w, ∃ e, read w = Err e) → (∀ w, read' w = Ok (λ _, None)) →
  initConfig given env home read open = initConfig given env home read' open.
Proof.
  intros Hr Hr'. unfold initConfig. destruct (search_for _ home) as [w|e]; [|done].
  rewrite Hr'. by destruct (Hr w) as [e ->].
Qed.

(** ** src/cmd/version.go *)
Record pkginfo := { BuildDate : string; CommitHash : string; ProgramName : string; Version : string }.
Definition newline : string := String (byte 10) EmptyString.
Definition BuildVersionString (i : pkginfo) (goos goarch goVersion : string) : string :=
  let osArch := goos +:+ "/" +:+ goarch in
  let date := or_default (BuildDate i) "unknown" in
  ProgramName i +:+ " " +:+ Version i +:+ " " +:+ osArch +:+ newline +:+ newline +:+
  "Build Date: " +:+ date +:+ newline +:+ "Commit: " +:+ CommitHash i +:+ newline +:+ "Built with: " +:+ goVersion.
(** [GetDependencyList], [deps] being the build information, if there is any. *)
Definition GetDependencyList (quote : string → string) (deps : option (list (string * string))) : list string :=
  match deps with
  | None => []
  | Some l => sort_strings (map (λ '(path, version), path +:+ "=" +:+ quote version) l)
  end.
Definition DepString (quote : string → string) (deps : option (list (string * string))) : string :=
  "Dependencies:" +:+ newline +:+ newline +:+ join (GetDependencyList quote deps) newline.

(** The [version] command: what it prints. *)
Definition RunVersion (i : pkginfo) (goos goarch goVersion : string) (quote : string → string)
    (deps_flag : bool) (deps : option (list (string * string))) : string :=
  BuildVersionString i goos goarch goVersion +:+ newline +:+
  (if deps_flag then newline +:+ DepString quote deps +:+ newline else "").

(** ** Which flags reach the configuration *)

(** The fields flags are meant for. *)
Definition flag_fields : list (string * (Config → value)) :=
  [("log-level", λ c, VStr (Level (Log c))); ("log-output", λ c, VStr (Output (Log c)));
   ("log-pretty", λ c, VBool (Pretty (Log c))); ("log-report-caller", λ c, VBool (ReportCaller (Log c)));
   ("db-url", λ c, VStr (DB_URL c)); ("server-port", λ c, VInt (Port (Server c)));
   ("server-allow-origins", λ c, VStr (AllowOrigins (Server c))); ("auth-jwks-url", λ c, VStr (JWKSURL (Auth c)));
   ("auth-audience", λ c, VStr (Audience (Auth c))); ("auth-issuer", λ c, VStr (Issuer (Auth c)));
   ("github-token", λ c, VStr (GitHub_Token c));
   ("strategy-registry-sync-interval", λ c, VDur (RegistrySyncInterval (Strategy_ c)));
   ("strategy-install-concurrency", λ c, VInt (InstallConcurrency (Strategy_ c)));
   ("strategy-official-dir", λ c, VStr (OfficialDir (Strategy_ c)));
   ("strategy-github-query", λ c, VStr (GithubQuery (Strategy_ c)));
   ("strategy-ephemeral-dir", λ c, VStr (EphemeralDir (Strategy_ c)));
   ("strategy-ephemeral-install-timeout", λ c, VDur (EphemeralInstallTimeout (Strategy_ c)));
   ("backtest-snapshots-dir", λ c, VStr (SnapshotsDir (Backtest_ c)));
   ("backtest-orphan-gc-interval", λ c, VDur (OrphanGCInterval (Backtest_ c)));
   ("runner-docker-socket", λ c, VStr (Socket (Docker (Runner c))));
   ("runner-docker-network", λ c, VStr (Network (Docker (Runner c))));
   ("runner-docker-cpu-limit", λ c, VFloat (CPULimit (Docker (Runner c))));
   ("runner-docker-memory-limit", λ c, VStr (MemoryLimit (Docker (Runner c))));
   ("runner-docker-build-timeout", λ c, VDur (BuildTimeout (Docker (Runner c))));
   ("runner-docker-image-prefix", λ c, VStr (ImagePrefix (Docker (Runner c))));
   ("runner-docker-snapshots-host-path", λ c, VStr (SnapshotsHostPath (Docker (Runner c))));
   ("mailgun-domain", λ c, VStr (Domain (Mailgun c))); ("mailgun-api-key", λ c, VStr (APIKey (Mailgun c)));
   ("mailgun-from-address", λ c, VStr (FromAddress (Mailgun c)))].

(** The flags whose key is no field's: [data.dir], [app.base_url] and
    [unsubscribe.secret], where the fields are [data_dir], [app_base_url] and
    [unsubscribe_secret]; and the configuration file itself. *)
Definition dead_flags : list string := ["data-dir"; "app-base-url"; "unsubscribe-secret"; "config"].
Example every_flag_listed :
  (root_flags ++ server_flags).*1 ≡ₚ dead_flags ++ flag_fields.*1.
Proof. apply (bool_decide_unpack _). vm_compute. done. Qed.

Section reach.
Context `{!Viper, !Decoder}.

(** A flag given on the command line decides its key. *)
Lemma get_given given env file key name d v :
  assoc bindings key = Some name → assoc (root_flags ++ server_flags) name = Some d → given name = Some v →
  get given env file key = Some v.
Proof. intros Hk Hd Hv. unfold get. rewrite Hk. unfold flag_named. rewrite Hd, Hv. apply resolve_changed. Qed.

(** A key no live flag is bound to has the same value whatever is given. *)
Lemma get_ext given given' env file key :
  (∀ name, assoc bindings key = Some name → given name = given' name) →
  get given env file key = get given' env file key.
Proof.
  intros Hg. unfold get. destruct (assoc bindings key) as [name|]; [|done].
  unfold flag_named. by rewrite (Hg name).
Qed.

(** The fields of a decoded configuration are what their keys hold. *)
Ltac fields_of H :=
  repeat match type of H with
  | mbind _ _ = Ok _ => let Hf := fresh "Hf" in apply result_bind_ok in H as (? & Hf & H); try fields_of Hf
  end; try (injection H as <-).
Ltac open_readers :=
  unfold Unmarshal, read_runner, read_log, read_server, read_auth, read_strategy, read_backtest, read_docker,
    read_scheduler, read_mailgun in *.

(** The only keys [Unmarshal] reads. *)
Definition config_keys : list string :=
  ["data_dir"; "app_base_url"; "unsubscribe_secret"; "log.level"; "log.output"; "log.pretty"; "log.report_caller";
   "db.url"; "server.port"; "server.allow_origins"; "auth.jwks_url"; "auth.audience"; "auth.issuer"; "github.token";
   "strategy.registry_sync_interval"; "strategy.install_concurrency"; "strategy.official_dir";
   "strategy.github_query"; "strategy.ephemeral_dir"; "strategy.ephemeral_install_timeout";
   "strategy.stats_refresh_time"; "strategy.stats_start_date"; "strategy.stats_tick_interval";
   "backtest.snapshots_dir"; "backtest.max_concurrency"; "backtest.timeout"; "backtest.orphan_gc_interval";
   "runner.mode"; "runner.docker.socket"; "runner.docker.network"; "runner.docker.cpu_limit";
   "runner.docker.memory_limit"; "runner.docker.build_timeout"; "runner.docker.image_prefix";
   "runner.docker.snapshots_host_path"; "scheduler.tick_interval"; "scheduler.batch_size"; "scheduler.enabled";
   "mailgun.domain"; "mailgun.api_key"; "mailgun.from_address"].

Lemma Unmarshal_ext given given' env file :
  Forall (λ k, get given' env file k = get given env file k) config_keys →
  Unmarshal given' env file = Unmarshal given env file.
Proof.
  intros Hk. rewrite Forall_forall in Hk. open_readers. unfold str, int, dur, bool_, float, field.
  repeat match goal with |- context [get given' env file ?k] =>
    rewrite (Hk k) by (apply (bool_decide_unpack _); vm_compute; done) end. done.
Qed.

(** No key that is read is bound to a dead flag. *)
Lemma dead_not_bound :
  forallb (λ k, match assoc bindings k with Some name => bool_decide (name ∉ dead_flags) | None => true end)
    config_keys = true.
Proof. reflexivity. Qed.

Lemma dead_flags_ignored given given' env file :
  (∀ name, name ∉ dead_flags → given' name = given name) → Unmarshal given' env file = Unmarshal given env file.
Proof.
  intros Hg. apply Unmarshal_ext, Forall_forall. intros k Hk.
  pose proof (proj1 (forallb_forall _ _) dead_not_bound k ltac:(by apply list_elem_of_In)) as Hb. cbv beta in Hb.
  apply get_ext. intros name Hn. rewrite Hn in Hb. apply Hg. by apply bool_decide_eq_true in Hb.
Qed.

Lemma field_given {A} (as_A : value → result A) zero given env file key name d v x :
  assoc bindings key = Some name → assoc (root_flags ++ server_flags) name = Some d → given name = Some v →
  field given env file as_A zero key = Ok x → as_A v = Ok x.
Proof. intros Hk Hd Hv. unfold field. by rewrite (get_given _ _ _ _ _ _ _ Hk Hd Hv). Qed.

(** A key that no flag, default or file names is empty. *)
Lemma str_unknown given env file key :
  file key = None → assoc bindings key = None → assoc viper_defaults key = None → str given env file key = Ok "".
Proof. intros Hf Hb Hd. unfold str, field, get. by rewrite Hf, Hb, Hd, resolve_unknown. Qed.

(** One flag: its field was decoded from the value given. *)
Ltac reached Hkind Hv :=
  match type of Hv with ?g ?n = Some ?v =>
    let d := eval vm_compute in (assoc (root_flags ++ server_flags) n) in
    match d with Some ?d => pose proof (Hkind n d v eq_refl Hv) as Hk; destruct v; try discriminate Hk; clear Hk;
      cbn; f_equal;
      match goal with |- ?x = ?y => match goal with H : _ ?k = Ok x |- _ =>
        eapply (field_given _ _ _ _ _ k n d _ x eq_refl eq_refl Hv) in H;
        rewrite ?as_string_exact, ?as_int_exact, ?as_duration_exact, ?as_bool_exact, ?as_float_exact in H; congruence
      end end
    end
  end.

(** C27: a flag of the command line decides the field it is meant for, above the
    environment, the file and every default; but [--data-dir], [--app-base-url] and
    [--unsubscribe-secret] decide nothing: the configuration is the same whatever
    they say, and the base URL and the secret are empty unless the file sets them. *)
Theorem flags_reach_config given env file c :
  (∀ name d v, assoc (root_flags ++ server_flags) name = Some d → given name = Some v → same_kind v d = true) →
  Unmarshal given env file = Ok c →
  (∀ name fld v, (name, fld) ∈ flag_fields → given name = Some v → fld c = v) ∧
  (∀ given', (∀ name, name ∉ dead_flags → given' name = given name) → Unmarshal given' env file = Ok c) ∧
  (file "app_base_url" = None → AppBaseURL c = "") ∧ (file "unsubscribe_secret" = None → UnsubscribeSecret c = "").
Proof.
  intros Hkind Hc. split; [|split].
  2:{ intros given' Hg. by rewrite (dead_flags_ignored given). }
  all: open_readers; fields_of Hc.
  2:{ split; intros Hfile; pose proof (str_unknown given env file _ Hfile eq_refl eq_refl); cbn; congruence. }
  intros name fld v Hin Hv. unfold flag_fields in Hin.
  repeat (apply elem_of_cons in Hin as [[= -> ->]|Hin]; [reached Hkind Hv|]). by apply elem_of_nil in Hin.
Qed.
End reach.

(** ** The documented precedence on a concrete command line *)
Definition precedence (flag : option (value * bool)) (dflt : option value) (env : option string) (file : option value) :
    option value :=
  match flag, dflt, file with
  | Some (v, true), _, _ => Some v
  | None, None, None => None
  | _, _, _ =>
    match env, file, dflt, flag with
    | Some s, _, _, _ => Some (VStr s)
    | None, Some v, _, _ => Some v
    | None, None, Some v, _ => Some v
    | None, None, None, Some (v, _) => Some v
    | None, None, None, None => None
    end
  end.
Program Definition documented_viper : Viper := {| resolve := precedence |}.
Next Obligation. done. Qed.
Next Obligation. by intros [?|]. Qed.
Next Obligation. intros d [[v b]|] Hb; [|done]. by rewrite (Hb v b eq_refl). Qed.

(** A decoder for what the example gives; durations in text are minutes here. *)
Definition demo_decoder : Decoder := {|
  as_string v := match v with VStr s => Ok s | _ => Err (opaque_err "not a string") end;
  as_int v := match v with VInt n => Ok n | VStr s => match atoi s with Some n => Ok n | None => Err (opaque_err "not a number") end
              | _ => Err (opaque_err "not a number") end;
  as_duration v := match v with VDur n => Ok n | VStr "15m" => Ok (seconds 900) | VStr "60s" => Ok (seconds 60)
                   | _ => Err (opaque_err "not a duration") end;
  as_bool v := match v with VBool b => Ok b | _ => Err (opaque_err "not a bool") end;
  as_float v := match v with VFloat f => Ok f | _ => Err (opaque_err "not a number") end;
  as_string_exact s := eq_refl; as_int_exact n := eq_refl; as_duration_exact n := eq_refl;
  as_bool_exact b := eq_refl; as_float_exact f := eq_refl;
|}.

(** [pvapi serve --data-dir /srv/pv --server-port 8080 --app-base-url https://pv.example]
    with [PVAPI_RUNNER_MODE=docker] and no file. *)
Definition demo_given (name : string) : option value :=
  assoc [("data-dir", VStr "/srv/pv"); ("server-port", VInt 8080); ("app-base-url", VStr "https://pv.example")] name.
Definition demo_env (name : string) : option string := assoc [("PVAPI_RUNNER_MODE", "docker")] name.
#[local] Existing Instances documented_viper demo_decoder.

Example data_dirs :
  let c := applyDataDirFallbacks (Build_Config "/var/lib/pvapi" "" "" (Build_logConf "" "" false false) ""
    (Build_serverConf 0 "") (Build_authConf "" "" "") "" (Build_strategyConf 0 0 "/opt/s" "" "" 0 "" "" 0)
    (Build_backtestConf "" 0 0 0) (Build_runnerConf "" (Build_dockerConf "" "" fzero "" 0 "" ""))
    (Build_schedulerConf 0 0 false) (Build_mailgunConf "" "" "")) in
  (SnapshotsDir (Backtest_ c), OfficialDir (Strategy_ c), EphemeralDir (Strategy_ c))
  = ("/var/lib/pvapi/snapshots", "/opt/s", "/var/lib/pvapi/strategies/ephemeral").
Proof. reflexivity. Qed.
Example data_dir_flag_ignored :
  (λ c, (DataDir c, Port (Server c), Mode (Runner c), SnapshotsDir (Backtest_ (applyDataDirFallbacks c)))) <$>
    Unmarshal demo_given demo_env (λ _, None)
  = Ok ("/var/lib/pvapi", 8080, "docker", "/var/lib/pvapi/snapshots").
Proof. vm_compute. reflexivity. Qed.

Lemma flags_reach_config_witness :
  ∃ c, Unmarshal demo_given demo_env (λ _, None) = Ok c ∧ VInt (Port (Server c)) = VInt 8080 ∧ AppBaseURL c = "".
Proof.
  destruct (Unmarshal demo_given demo_env (λ _, None)) as [c|e] eqn:Hc; [|vm_compute in Hc; discriminate Hc].
  destruct (flags_reach_config demo_given demo_env (λ _, None) c) as (Hf & _ & Hb & _).
  - intros name d v Hd Hv. unfold demo_given in Hv. cbn [assoc] in Hv.
    case_bool_decide as H1; [|case_bool_decide as H2; [|case_bool_decide as H3; [|discriminate Hv]]].
    + rewrite <-H1 in Hd. change (Some (VStr "https://www.pennyvault.com") = Some d) in Hd. injection Hd as <-. by injection Hv as <-.
    + rewrite <-H2 in Hd. change (Some (VInt 3000) = Some d) in Hd. injection Hd as <-. by injection Hv as <-.
    + rewrite <-H3 in Hd. change (Some (VStr "/var/lib/pvapi") = Some d) in Hd. injection Hd as <-. by injection Hv as <-.
  - exact Hc.
  - exists c. split; [reflexivity|]. split; [|by apply Hb]. apply (Hf "server-port" (λ c, VInt (Port (Server c))));
      [|reflexivity]. unfold flag_fields. do 5 right. left.
Defined.
