(* ===== verification/Wiring.v ===== *)
(** How the server is put together (src/cmd/server.go, src/api/server.go): dates
    that default, the container runner's limits, the registry synchroniser with its statistics refresher,
    and the adapters that measure an installed strategy. *)
From S2P Require Import Prelude GoStrings GoTime Types Path Sync Strategies.
From S2P Require Import Settings.
From S2P Require Backtest Docker.
From S2P Require Import SnapDb.
From S2P Require SnapReturns.

(** ** src/cmd/server.go *)

(** [parseStatsStartDate]. *)
Definition parseStatsStartDate (s : string) : instant :=
  if bool_decide (s = "") then date_utc 2010 1 1 else default (date_utc 2010 1 1) (parse_date s).

(** [int64(f)] of a finite double in range: towards zero. *)
Definition int64_of (f : float64) : Z :=
  match f with
  | S754_finite s m e =>
    let n := if 0 <=? e then Z.pos m * 2 ^ e else Z.pos m / 2 ^ (- e) in
    if s then - n else n
  | _ => 0
  end.

(** The limits of the docker mode, [ram] being [units.RAMInBytes]; a bad memory
    limit ends the process. *)
Definition memory_limit (ram : string → result Z) (m : string) : result Z :=
  if bool_decide (m = "" ∨ m = "0") then Ok 0 else ram m.
Definition docker_runner (ram : string → result Z) (network memory hostPath snapshotsDir : string) (cpuLimit : float64) :
    result Docker.DockerRunner :=
  memBytes ← memory_limit ram memory;
  Ok {| Docker.dr_Network := network; Docker.dr_NanoCPUs := int64_of (fmul cpuLimit (f_of_Z 1000000000));
        Docker.dr_MemoryBytes := memBytes; Docker.dr_SnapshotsHostDir := or_default hostPath snapshotsDir;
        Docker.dr_SnapshotsDir := snapshotsDir |}.

(** ** src/api/server.go *)

(** [RegistryConfig]; a nil installer is [false], the zero time [None]. *)
Record RegistryConfig := {
  g_SyncInterval : Z; g_Concurrency : Z; g_OfficialDir : string; g_GitHubOwner : string; g_CacheDir : string;
  g_RunnerMode : string; g_DockerInstaller : bool; g_StatsRefreshTime : string; g_StatsStartDate : option instant;
  g_StatsTickInterval : Z;
}.

(** [startRegistrySync]: the cache directory, the refresher and the options the
    two goroutines start with. *)
Definition startRegistrySync (scan : string → option (Z * Z)) (quote_string : string → string) (conf : RegistryConfig) :
    result (string * StatsRefresher * SyncerOptions) :=
  if g_SyncInterval conf <=? 0 then Err (opaque_err "RegistryConfig.SyncInterval must be > 0")
  else if bool_decide (g_OfficialDir conf = "") then Err (opaque_err "RegistryConfig.OfficialDir must not be empty")
  else if bool_decide (g_GitHubOwner conf = "") then Err (opaque_err "RegistryConfig.GitHubOwner must not be empty")
  else
    let cacheDir := or_default (g_CacheDir conf) (Join [g_OfficialDir conf; ".cache"]) in
    match NewStatsRefresher scan quote_string
            {| c_StartDate := g_StatsStartDate conf; c_RefreshTime := g_StatsRefreshTime conf;
               c_TickInterval := g_StatsTickInterval conf; c_SnapshotDir := "" |} with
    | Err e => Err (wrap "building stats refresher: " e)
    | Ok refresher =>
      Ok (cacheDir, refresher,
          {| o_Installer := true; o_DockerInstaller := g_DockerInstaller conf; o_RunnerMode := g_RunnerMode conf;
             o_OfficialDir := g_OfficialDir conf; o_Concurrency := g_Concurrency conf;
             o_Interval := g_SyncInterval conf; o_Stats := true; o_AutoUpgrader := true |})
    end.

(** [hostStatRunner.Run]: the request it hands to the host runner. *)
Definition stat_request (req : StatRunRequest) : Backtest.RunRequest :=
  {| Backtest.rr_RunID := uuid_Nil; Backtest.rr_Artifact := sr_Artifact req;
     Backtest.rr_ArtifactKind := Backtest.ArtifactBinary; Backtest.rr_Args := sr_Args req;
     Backtest.rr_OutPath := sr_OutPath req; Backtest.rr_Timeout := 0; Backtest.rr_ProgressWriter := false |}.

(** [snapshotKpis], given what opening the file returned; the metrics without a
    counterpart are dropped, the time is the refresher's. *)
Definition stats_of (k : SnapReturns.Kpis_) : StatsResult :=
  {| r_CAGR := SnapReturns.k_Cagr k; r_MaxDrawdown := SnapReturns.k_MaxDrawdown k; r_Sharpe := SnapReturns.k_Sharpe k;
     r_Sortino := SnapReturns.k_Sortino k; r_UlcerIndex := SnapReturns.k_UlcerIndex k; r_Beta := SnapReturns.k_Beta k;
     r_Alpha := SnapReturns.k_Alpha k; r_StdDev := SnapReturns.k_StdDev k; r_TaxCostRatio := SnapReturns.k_TaxCostRatio k;
     r_OneYearReturn := SnapReturns.k_OneYearReturn k; r_YtdReturn := SnapReturns.k_YtdReturn k;
     r_BenchmarkYtdReturn := SnapReturns.k_BenchmarkYtdReturn k; r_AsOf := 0 |}.
Definition snapshotKpis `{Driver, MapRange} (opened : result snapdb) (s : list fault) : list fault * result StatsResult :=
  match opened with
  | Err e => (s, Err (wrap "open stats snapshot: " e))
  | Ok db =>
    match SnapReturns.Kpis db s with
    | (s, Err e) => (s, Err (wrap "read stats kpis: " e))
    | (s, Ok k) => (s, Ok (stats_of k))
    end
  end.

Example one_and_a_half_cores : int64_of (fmul (fdiv (f_of_Z 3) (f_of_Z 2)) (f_of_Z 1000000000)) = 1500000000.
Proof. reflexivity. Qed.
