(* ===== verification/Boot.v ===== *)
(** The life of the server process (src/cmd/server.go, src/api/server.go,
    src/sql/pool.go, src/sql/migrate.go): what [serve] does from the database
    connection to the last statement of its shutdown, as a program over the calls
    it makes, and the protocol that program keeps to. *)
From S2P Require Import Prelude GoStrings GoTime Types Path Prog.
From S2P Require Settings Wiring Sync Strategies Backtest Docker Scheduler Sweep Auth.

(** ** What the process asks of its environment *)

(** [pgx.ConnConfig]. *)
Record ConnConfig := { User : string; Password : string; Host : string; Port : Z; Database : string }.

(** The goroutines it leaves running. *)
Inductive goroutine :=
  | GOrphanGC (dir : string) (interval : Z)
  | GScheduler (cfg : Scheduler.Config)
  | GSyncer (opts : Sync.SyncerOptions) (cacheDir : string)
  | GStats (r : Strategies.StatsRefresher)
  | GListen (addr : string).

(** What ends the wait of the main goroutine. *)
Inductive served := ListenError (e : goerror) | ListenClosed | Signal.

Inductive boot_call : Type → Type :=
  | PgxNew (url : string) : boot_call (result ConnConfig)
  | PgxPing : boot_call (option goerror)
  | PgxAcquire : boot_call (option goerror)
  | IofsNew (dir : string) : boot_call (option goerror)
  | MigrateNew (connStr : string) : boot_call (option goerror)
  | MigrateUp : boot_call (option goerror)
  | NewPVDataProvider : boot_call (option goerror)
  | FetchMarketHolidays : boot_call (result (list Z))
  | CloseProvider : boot_call unit
  | SetMarketHolidays (holidays : list Z) : boot_call unit
  | MkdirAll (dir : string) : boot_call (option goerror)
  | DockerClient (socket : string) : boot_call (option goerror)
  | StartDispatcher : boot_call unit
  | OsCall {A} (c : Sweep.os_call A) : boot_call A
  | Go (g : goroutine) : boot_call unit
  | JwkCache : boot_call (option goerror)
  | JwkRegister (url : string) : boot_call (option goerror)
  | Serve : boot_call served
  | AwaitScheduler (limit : Z) : boot_call unit
  | ShutdownDispatcher (grace : Z) : boot_call unit
  | ShutdownApp (limit : Z) : boot_call (option goerror).

(** How the process ends: [RunE] returns, [log.Fatal] exits, or it panics. *)
Inductive exit := Returned (err : option goerror) | Fatal (msg : string) | Panicked (msg : string).

(** Statements that may end the process. *)
Definition B (A : Type) : Type := prog boot_call (exit + A).
Definition leave {A} (x : exit) : B A := Ret (inl x).
Definition go_on {A} (a : A) : B A := Ret (inr a).
Definition op {A} (c : boot_call A) : B A := Call c go_on.
Definition seq {A C} (m : B A) (k : A → B C) : B C :=
  pbind (λ r, match r with inl x => leave x | inr a => k a end) m.
Notation "'let*' x := m 'in' k" := (seq m (λ x, k)) (at level 200, x binder, m at level 100, k at level 200).

(** A call whose error ends the process. *)
Definition or_leave (c : boot_call (option goerror)) (x : goerror → exit) : B unit :=
  let* err := op c in match err with Some e => leave (x e) | None => go_on () end.
Definition fatal (msg : string) (_ : goerror) : exit := Fatal msg.
Definition panic (msg : string) (_ : goerror) : exit := Panicked msg.

(** ** src/sql/migrate.go, src/sql/pool.go *)

(** [CreateConnStrFromPool]. *)
Definition CreateConnStrFromPool (c : ConnConfig) : string :=
  let tail := "@" +:+ Host c +:+ ":" +:+ itoa (Port c) +:+ "/" +:+ Database c in
  if bool_decide (Password c = "") then "pgx5://" +:+ User c +:+ tail
  else "pgx5://" +:+ User c +:+ ":" +:+ Password c +:+ tail.

(** [NewDatabaseSchema]; a nil result is [false]. *)
Definition NewDatabaseSchema (dbConnStr : string) : B bool :=
  let* err := op (IofsNew "migrations") in
  match err with
  | Some _ => go_on false
  | None => let* err := op (MigrateNew dbConnStr) in go_on (bool_decide (err = None))
  end.

(** Nothing to migrate is no error. *)
Definition no_change (err : option goerror) : option goerror :=
  match err with Some e => if errors_is e migrate_ErrNoChange then None else Some e | None => None end.
(** [DatabaseSchema.Up]; a nil receiver panics. *)
Definition Up (db : bool) : B (option goerror) :=
  if negb db then leave (Panicked "invalid memory address or nil pointer dereference")
  else let* err := op MigrateUp in go_on (no_change err).
(** [DatabaseSchema.Down], [Version] and [Close], given what golang-migrate
    answers; the server does not call them. *)
Definition Down (answer : option goerror) : option goerror := no_change answer.
Definition schema_Version (answer : result (Z * bool)) : Z * bool * option goerror :=
  match answer with Err e => (0, true, Some e) | Ok (version, dirty) => (version, dirty, None) end.
Definition schema_Close (source database : option goerror) : option goerror * option goerror := (source, database).

(** [Instance]; [once] tells whether the pool was created before. *)
Definition Instance (once : bool) (url : string) : B unit :=
  if once then go_on ()
  else
    let* pool := op (PgxNew url) in
    match pool with
    | Err _ => leave (Panicked "could not create postgresql pool")
    | Ok config =>
      let* _ := or_leave PgxPing (panic "could not ping database server") in
      let* migrate := NewDatabaseSchema (CreateConnStrFromPool config) in
      let* err := Up migrate in
      match err with Some _ => leave (Panicked "could not migrate database") | None => go_on () end
    end.
(** [Acquire]; the server uses the pool itself. *)
Definition Acquire (once : bool) : B unit :=
  let* _ := Instance once "" in or_leave PgxAcquire (panic "could not acquire postgresql connection").

Section boot.
Context (numCPU : Z) (ram : string → result Z) (scan : string → option (Z * Z)) (quote_string : string → string).

(** ** src/cmd/server.go: start-up *)

(** The trading calendar. *)
Definition load_calendar : B unit :=
  let* _ := or_leave NewPVDataProvider (fatal "market calendar: open pv-data provider") in
  let* holidays := op FetchMarketHolidays in
  let* _ := op CloseProvider in
  match holidays with
  | Err _ => leave (Fatal "market calendar: fetch holidays")
  | Ok l => op (SetMarketHolidays l)
  end.

(** The backtest configuration, checked, and its snapshot directory. *)
Definition backtest_config (conf : Settings.Config) : Backtest.Config :=
  let b := Settings.Backtest_ conf in
  Backtest.ApplyDefaults numCPU
    {| Backtest.SnapshotsDir := Settings.SnapshotsDir b; Backtest.MaxConcurrency := Settings.MaxConcurrency b;
       Backtest.Timeout := Settings.Timeout b; Backtest.RunnerMode := Settings.Mode (Settings.Runner conf);
       Backtest.OrphanGCInterval := Settings.OrphanGCInterval b |}.
Definition prepare_backtests (btCfg : Backtest.Config) : B unit :=
  match Backtest.Validate btCfg with
  | Err _ => leave (Fatal "backtest config")
  | Ok _ => or_leave (MkdirAll (Backtest.SnapshotsDir btCfg)) (fatal "mkdir snapshots_dir")
  end.

(** The switch on the runner mode: the runner's artifacts and limits. *)
Inductive runner := HostRunner | DockerRunner (r : Docker.DockerRunner).
Definition artifact_kind (r : runner) : Backtest.ArtifactKind :=
  match r with HostRunner => Backtest.ArtifactBinary | DockerRunner _ => Backtest.ArtifactImage end.
Definition select_runner (conf : Settings.Config) : B runner :=
  let mode := Settings.Mode (Settings.Runner conf) in
  let d := Settings.Docker (Settings.Runner conf) in
  if bool_decide (mode = "host") then go_on HostRunner
  else if bool_decide (mode = "docker") then
    let* _ := or_leave (DockerClient (Settings.Socket d)) (fatal "docker client") in
    match Wiring.docker_runner ram (Settings.Network d) (Settings.MemoryLimit d) (Settings.SnapshotsHostPath d)
            (Settings.SnapshotsDir (Settings.Backtest_ conf)) (Settings.CPULimit d) with
    | Err _ => leave (Fatal "parse runner.docker.memory_limit")
    | Ok r => go_on (DockerRunner r)
    end
  else if bool_decide (mode = "kubernetes") then leave (Fatal "runner.mode = kubernetes lands in plan 9")
  else leave (Fatal "unknown runner.mode").

(** A program of the sweeps as part of this one. *)
Fixpoint sweeping {A} (p : prog Sweep.os_call A) : B A :=
  match p with
  | Ret a => go_on a
  | Call c k => Call (OsCall c) (λ a, sweeping (k a))
  end.

(** The scheduler, if it is enabled; the result tells whether it was started. *)
Definition start_scheduler (conf : Settings.Config) : B bool :=
  let s := Settings.Scheduler_ conf in
  if Settings.Enabled s then
    let cfg := Scheduler.ApplyDefaults
      {| Scheduler.TickInterval := Settings.TickInterval s; Scheduler.BatchSize := Settings.BatchSize s |} in
    match Scheduler.Validate cfg with
    | Err _ => leave (Fatal "scheduler config")
    | Ok _ => let* _ := op (Go (GScheduler cfg)) in go_on true
    end
  else go_on false.

(** ** src/api/server.go *)

(** [NewAuthMiddleware]: the configuration checks, then the key cache. *)
Definition NewAuthMiddleware (conf : Auth.AuthConfig) : B (option goerror) :=
  match Auth.check_config conf with
  | Some e => go_on (Some e)
  | None =>
    let* err := op JwkCache in
    match err with
    | Some e => go_on (Some (wrap "creating JWK cache: " e))
    | None =>
      let* err := op (JwkRegister (Auth.JWKSURL conf)) in
      go_on (wrap "registering JWKS URL: " <$> err)
    end
  end.

(** The [RegistryConfig] of src/cmd/server.go. *)
Definition registry_config (conf : Settings.Config) (r : runner) : Wiring.RegistryConfig :=
  let s := Settings.Strategy_ conf in
  {| Wiring.g_SyncInterval := Settings.RegistrySyncInterval s; Wiring.g_Concurrency := Settings.InstallConcurrency s;
     Wiring.g_OfficialDir := Settings.OfficialDir s; Wiring.g_GitHubOwner := "penny-vault"; Wiring.g_CacheDir := "";
     Wiring.g_RunnerMode := Settings.Mode (Settings.Runner conf);
     Wiring.g_DockerInstaller := match r with DockerRunner _ => true | HostRunner => false end;
     Wiring.g_StatsRefreshTime := Settings.StatsRefreshTime s;
     Wiring.g_StatsStartDate := Some (Wiring.parseStatsStartDate (Settings.StatsStartDate s));
     Wiring.g_StatsTickInterval := Settings.StatsTickInterval s |}.

(** [NewApp] on a configuration with a pool; the routes are [Routes]'. *)
Definition NewApp (conf : Settings.Config) (r : runner) : B (option goerror) :=
  let a := Settings.Auth conf in
  let* err := NewAuthMiddleware {| Auth.JWKSURL := Settings.JWKSURL a; Auth.Audience := Settings.Audience a;
                                   Auth.Issuer := Settings.Issuer a |} in
  match err with
  | Some e => go_on (Some (wrap "build auth middleware: " e))
  | None =>
    match Wiring.startRegistrySync scan quote_string (registry_config conf r) with
    | Err e => go_on (Some (wrap "start registry sync: " e))
    | Ok (cacheDir, refresher, opts) =>
      let* _ := op (Go (GSyncer opts cacheDir)) in
      let* _ := op (Go (GStats refresher)) in
      go_on None
    end
  end.

(** ** src/cmd/server.go: serving and shutdown *)
Definition shutdown (scheduled : bool) : B unit :=
  let* _ := if scheduled then op (AwaitScheduler (5 * nsPerSecond)) else go_on () in
  let* _ := op (ShutdownDispatcher (30 * nsPerSecond)) in
  let* err := op (ShutdownApp (10 * nsPerSecond)) in
  leave (Returned (wrap "fiber shutdown: " <$> err)).

Definition serve (conf : Settings.Config) (scheduled : bool) : B unit :=
  let* _ := op (Go (GListen (":" +:+ itoa (Settings.Port (Settings.Server conf))))) in
  let* event := op Serve in
  match event with
  | ListenError e => leave (Returned (Some e))
  | ListenClosed => leave (Returned None)
  | Signal => shutdown scheduled
  end.

(** [serverCmd.RunE]. *)
Definition main (conf : Settings.Config) : B unit :=
  let* _ := Instance false (Settings.DB_URL conf) in
  let conf := Settings.applyDataDirFallbacks conf in
  let* _ := load_calendar in
  let btCfg := backtest_config conf in
  let* _ := prepare_backtests btCfg in
  let* r := select_runner conf in
  let* _ := op StartDispatcher in
  let* _ := sweeping (Sweep.StartupSweep (Backtest.SnapshotsDir btCfg) true) in
  let* _ := op (Go (GOrphanGC (Backtest.SnapshotsDir btCfg) (Backtest.OrphanGCInterval btCfg))) in
  let* scheduled := start_scheduler conf in
  let* err := NewApp conf r in
  match err with
  | Some e => leave (Returned (Some (wrap "build app: " e)))
  | None => serve conf scheduled
  end.

(** The process: [main] does not fall off its end. *)
Definition RunE (conf : Settings.Config) : prog boot_call exit :=
  pbind (λ r, Ret (match r with inl x => x | inr _ => Returned None end)) (main conf).
End boot.
