(* ===== verification/BootLaws.v ===== *)
(** The protocol of the server process: which call may happen when, and that the
    program of [Boot] keeps to it whatever the environment answers. *)
From S2P Require Import Prelude GoStrings GoTime Types Path Prog Boot.
From S2P Require Settings Wiring Sync Strategies Backtest Docker Scheduler Sweep Auth.

(** How far the process has come. *)
Record stage := {
  g_opened : bool;      (* the pool was asked for *)
  g_migrated : bool;    (* the schema is up to date *)
  g_calendar : bool;    (* the market calendar is loaded *)
  g_directory : bool;   (* the snapshot directory exists *)
  g_dispatcher : bool;  (* the workers run *)
  g_recovered : bool;   (* leftovers of the last process were failed *)
  g_swept : bool;       (* the start-up sweep is over *)
  g_scheduler : bool;   (* the scheduler was started *)
  g_keys : bool;        (* the key cache knows the configured URL *)
  g_registry : bool;    (* the registry synchroniser was started *)
  g_listening : bool;
  g_signalled : bool;
  g_awaited : bool;     (* the scheduler ended, or had its five seconds *)
  g_closed : bool;      (* the dispatcher was shut down *)
  g_stopped : bool;     (* the HTTP server was shut down *)
}.
#[export] Instance eta_stage : Eta stage := λ g,
  Build_stage (g_opened g) (g_migrated g) (g_calendar g) (g_directory g) (g_dispatcher g) (g_recovered g) (g_swept g)
    (g_scheduler g) (g_keys g) (g_registry g) (g_listening g) (g_signalled g) (g_awaited g) (g_closed g) (g_stopped g).
Definition off : stage := Build_stage false false false false false false false false false false false false false false false.

(** What each call needs. *)
Definition may {A} (g : stage) (c : boot_call A) : bool :=
  match c with
  | PgxNew _ => negb (g_opened g)
  | PgxPing | IofsNew _ | MigrateNew _ | MigrateUp => g_opened g && negb (g_migrated g)
  | PgxAcquire => g_migrated g
  | NewPVDataProvider | FetchMarketHolidays | CloseProvider | SetMarketHolidays _ => g_migrated g && negb (g_calendar g)
  | MkdirAll _ => g_calendar g && negb (g_directory g)
  | DockerClient _ => g_directory g && negb (g_dispatcher g)
  | StartDispatcher => g_migrated g && g_calendar g && g_directory g && negb (g_dispatcher g)
  | OsCall _ => g_dispatcher g && negb (g_swept g)
  | Go (GOrphanGC _ _) => g_dispatcher g && negb (g_swept g)
  | Go (GScheduler _) => g_swept g && negb (g_scheduler g) && negb (g_listening g)
  | JwkCache | JwkRegister _ => g_swept g && negb (g_registry g)
  | Go (GSyncer _ _) => g_keys g && negb (g_registry g)
  | Go (GStats _) => g_registry g && negb (g_listening g)
  | Go (GListen _) => g_dispatcher g && g_swept g && g_keys g && g_registry g && negb (g_listening g)
  | Serve => g_listening g && negb (g_signalled g)
  | AwaitScheduler _ => g_signalled g && g_scheduler g && negb (g_awaited g) && negb (g_closed g)
  | ShutdownDispatcher _ => g_signalled g && implb (g_scheduler g) (g_awaited g) && negb (g_closed g)
  | ShutdownApp _ => g_closed g && negb (g_stopped g)
  end.

(** What it achieves. *)
Definition step {A} (g : stage) (c : boot_call A) : A → stage :=
  match c in boot_call A return A → stage with
  | PgxNew _ => λ r, g <| g_opened := is_ok r |>
  | MigrateUp => λ err, g <| g_migrated :=
      match err with None => true | Some e => errors_is e migrate_ErrNoChange end |>
  | SetMarketHolidays _ => λ _, g <| g_calendar := true |>
  | MkdirAll _ => λ err, g <| g_directory := bool_decide (err = None) |>
  | StartDispatcher => λ _, g <| g_dispatcher := true |>
  | OsCall c => match c in Sweep.os_call A return A → stage with
                | Sweep.MarkAllRunningAsFailed _ => λ r, g <| g_recovered := g_recovered g || is_ok r |>
                | _ => λ _, g
                end
  | Go (GOrphanGC _ _) => λ _, g <| g_swept := true |>
  | Go (GScheduler _) => λ _, g <| g_scheduler := true |>
  | JwkRegister _ => λ err, g <| g_keys := bool_decide (err = None) |>
  | Go (GSyncer _ _) => λ _, g <| g_registry := true |>
  | Go (GListen _) => λ _, g <| g_listening := true |>
  | Serve => λ e, g <| g_signalled := match e with Signal => true | _ => false end |>
  | AwaitScheduler _ => λ _, g <| g_awaited := true |>
  | ShutdownDispatcher _ => λ _, g <| g_closed := true |>
  | ShutdownApp _ => λ _, g <| g_stopped := true |>
  | _ => λ _, g
  end.

(** What the process leaves behind when it ends. *)
Definition may_end (g : stage) (x : exit) : bool :=
  match x with
  | Returned None => g_listening g && implb (g_signalled g) (g_closed g && g_stopped g)
  | Returned (Some _) => g_swept g && implb (g_signalled g) (g_closed g && g_stopped g)
  | Fatal _ => g_migrated g && negb (g_listening g)
  | Panicked _ => negb (g_calendar g)
  end.

(** A program that keeps to the protocol from a stage on, for every answer. *)
Fixpoint follows {R} (ends : stage → R → Prop) (g : stage) (p : prog boot_call R) : Prop :=
  match p with
  | Ret r => ends g r
  | Call c k => may g c = true ∧ ∀ a, follows ends (step g c a) (k a)
  end.

Lemma follows_pbind {A R} (ends : stage → R → Prop) (mid : stage → A → Prop) g (p : prog boot_call A) (f : A → prog boot_call R) :
  follows mid g p → (∀ g a, mid g a → follows ends g (f a)) → follows ends g (pbind f p).
Proof.
  intros Hp Hf. revert g Hp. induction p as [a|X c k IH]; cbn; intros g Hp; [by apply Hf|].
  destruct Hp as [Hm Hk]. split; [done|]. intros a. by apply IH.
Qed.
Lemma follows_mono {R} (E E' : stage → R → Prop) g (p : prog boot_call R) :
  follows E g p → (∀ g r, E g r → E' g r) → follows E' g p.
Proof.
  intros Hp HE. revert g Hp. induction p as [a|X c k IH]; cbn; intros g Hp; [by apply HE|].
  destruct Hp as [Hm Hk]. split; [done|]. intros a. by apply IH.
Qed.

(** A statement that may end the process: [post] holds where it goes on. *)
Definition leads {A} (post : stage → A → Prop) : stage → exit + A → Prop :=
  λ g r, match r with inl x => may_end g x = true | inr a => post g a end.
Definition triple {A} (g : stage) (m : B A) (post : stage → A → Prop) : Prop := follows (leads post) g m.

Lemma triple_seq {A C} g (m : B A) (k : A → B C) mid post :
  triple g m mid → (∀ g a, mid g a → triple g (k a) post) → triple g (seq m k) post.
Proof.
  intros Hm Hk. eapply follows_pbind; [exact Hm|]. intros g' [x|a] Hr; [exact Hr|]. by apply Hk.
Qed.
Lemma triple_go_on {A} g (a : A) (post : stage → A → Prop) : post g a → triple g (go_on a) post.
Proof. done. Qed.
Lemma triple_leave {A} g x (post : stage → A → Prop) : may_end g x = true → triple g (leave x) post.
Proof. done. Qed.
Lemma triple_op {A} g (c : boot_call A) (post : stage → A → Prop) :
  may g c = true → (∀ a, post (step g c a) a) → triple g (op c) post.
Proof. by split. Qed.
Lemma triple_or_leave g (c : boot_call (option goerror)) x (post : stage → unit → Prop) :
  may g c = true → (∀ e, may_end (step g c (Some e)) (x e) = true) → post (step g c None) () →
  triple g (or_leave c x) post.
Proof. intros Hm He Hp. split; [done|]. intros [e|]; [apply He|exact Hp]. Qed.

(** Walk a straight-line program: one call, one case of its answer at a time. *)
Ltac walk :=
  cbn;
  repeat first
    [ reflexivity
    | split; [reflexivity|intros ?; cbn]
    | case_match; simplify_eq; cbn ].

Section protocol.
Context (numCPU : Z) (ram : string → result Z) (scan : string → option (Z * Z)) (quote_string : string → string).

Definition ready : stage := off <| g_opened := true |> <| g_migrated := true |>.
Definition prepared : stage := ready <| g_calendar := true |> <| g_directory := true |>.
Definition started (recovered : bool) : stage :=
  prepared <| g_dispatcher := true |> <| g_recovered := recovered |>.
Definition swept (recovered scheduled : bool) : stage :=
  started recovered <| g_swept := true |> <| g_scheduler := scheduled |>.
Definition built (recovered scheduled : bool) : stage :=
  swept recovered scheduled <| g_keys := true |> <| g_registry := true |>.

Lemma triple_Instance url : triple off (Instance false url) (λ g _, g = ready).
Proof.
  unfold Instance, triple, NewDatabaseSchema, Up, or_leave, panic. walk.
Qed.

Lemma triple_calendar : triple ready load_calendar (λ g _, g = ready <| g_calendar := true |>).
Proof. unfold load_calendar, triple, or_leave, fatal. walk. Qed.

Lemma triple_prepare btCfg : triple (ready <| g_calendar := true |>) (prepare_backtests btCfg) (λ g _, g = prepared).
Proof. unfold prepare_backtests, triple, or_leave, fatal. walk. Qed.

Lemma triple_select conf : triple prepared (select_runner ram conf) (λ g _, g = prepared).
Proof. unfold select_runner, triple, or_leave, fatal. walk. Qed.

(** The sweep only moves towards recovery. *)
Lemma triple_sweeping {A} (p : prog Sweep.os_call A) r :
  triple (started r) (sweeping p) (λ g _, ∃ r', g = started r').
Proof.
  revert r. unfold triple. induction p as [a|X c k IH]; intros r; cbn; [eauto|].
  split; [done|]. intros a. destruct c; apply IH.
Qed.

Lemma triple_scheduler conf r : triple (swept r false) (start_scheduler conf) (λ g b, g = swept r b).
Proof. unfold start_scheduler, triple. walk. Qed.

Lemma triple_NewApp conf rn r b :
  triple (swept r b) (NewApp scan quote_string conf rn) (λ g err, match err with None => g = built r b | Some _ =>
    may_end g (Returned err) = true end).
Proof.
  unfold NewApp, NewAuthMiddleware, triple. cbn.
  destruct (Auth.check_config _) as [e|]; [reflexivity|]. cbn. split; [reflexivity|]. intros [e|]; [reflexivity|].
  cbn. split; [reflexivity|]. intros [e|]; [reflexivity|]. cbn.
  destruct (Wiring.startRegistrySync _ _ _) as [[[dir rf] opts]|e]; [|reflexivity]. walk.
Qed.

Lemma triple_serve conf r b : triple (built r b) (serve conf b) (λ _ _, False).
Proof. unfold serve, shutdown, triple. walk. Qed.

Lemma triple_main conf : triple off (main numCPU ram scan quote_string conf) (λ _ _, False).
Proof.
  unfold main. eapply triple_seq; [apply triple_Instance|]. intros ? _ ->. cbv zeta.
  eapply triple_seq; [apply triple_calendar|]. intros ? _ ->.
  eapply triple_seq; [apply triple_prepare|]. intros ? _ ->.
  eapply triple_seq; [apply triple_select|]. intros ? rn ->.
  eapply (triple_seq _ _ _ (λ g _, g = started false)); [by split|]. intros ? _ ->.
  eapply triple_seq; [apply triple_sweeping|]. intros ? _ [r ->].
  eapply (triple_seq _ _ _ (λ g _, g = swept r false)); [by split|]. intros ? _ ->.
  eapply triple_seq; [apply triple_scheduler|]. intros ? b ->.
  eapply triple_seq; [apply triple_NewApp|]. intros g [e|] Hg.
  - apply triple_leave. by revert Hg.
  - subst g. apply triple_serve.
Qed.

(** C7: whatever the environment answers, the process keeps to the protocol of
    [may]: the schema is migrated before anything else reads the database, the
    calendar is loaded before the scheduler can run, the leftovers of the last
    process are swept before the scheduler, the registry synchroniser or the HTTP
    server can submit work, no request is served before the key cache knows the
    configured keys, and a signal shuts down first the scheduler, then the
    dispatcher, then the HTTP server; the process returns without an error only
    then, or when its listener closed. *)
Theorem boot_protocol (conf : Settings.Config) :
  follows (λ g x, may_end g x = true) off (RunE numCPU ram scan quote_string conf).
Proof.
  unfold RunE. eapply follows_pbind; [apply triple_main|]. intros g [x|[]] Hr; [exact Hr|done].
Qed.

(** The connection string of a password is that of another user and host. *)
Example conn_string_ambiguous :
  CreateConnStrFromPool {| User := "pv"; Password := "a@b"; Host := "db"; Port := 5432; Database := "pv" |} =
  CreateConnStrFromPool {| User := "pv"; Password := "a"; Host := "b@db"; Port := 5432; Database := "pv" |}.
Proof. reflexivity. Qed.
End protocol.
