(* ===== verification/Process.v ===== *)
(** The running process: the main goroutine of [Boot] interleaved with what it
    leaves running (the scheduler, the registry synchroniser, the HTTP server, the
    workers of the dispatcher), over the database, through signals, shutdown,
    crashes and restarts (src/cmd/server.go).

    A call is one step, so a signal comes before it or after it: a transaction
    whose commit reaches the server while the signal cancels its context, and
    whose caller then reads an error, is not a trace of this model. *)
From S2P Require Import Prelude GoStrings GoTime Utf8 Types Json Path Prog Store StoreLaws Backtest.
From S2P Require Import Dispatcher DispatcherLaws Boot BootLaws.
From S2P Require Settings Sweep.

(** The process and its database.  [p_stage] and [p_born] are ghosts: how far the
    main goroutine has come, and the first identifier handed out after the
    recovery of the start-up sweep. *)
Record process := {
  p_main : prog boot_call exit;
  p_stage : stage;
  p_sys : sys;
  p_scheduling : bool;
  p_syncing : bool;
  p_listening : bool;
  p_cancelled : bool;
  p_born : option uuid;
}.
#[export] Instance eta_process : Eta process := λ p,
  {| p_main := p_main p; p_stage := p_stage p; p_sys := p_sys p; p_scheduling := p_scheduling p;
     p_syncing := p_syncing p; p_listening := p_listening p; p_cancelled := p_cancelled p; p_born := p_born p |}.
Definition p_db (p : process) : db := y_db (p_sys p).

Section process.
Context `{MapRange, UnicodeTables}.
Context (format_v : float64 → string) (uuid_String : uuid → string) (quote_string : string → string).
Context (marshal_err : gmap string json → option goerror).
Context (numCPU : Z) (ram : string → result Z) (scan : string → option (Z * Z)).
Context (conf : Settings.Config) (o : orchestrator).

Definition cfg : Config := backtest_config numCPU (Settings.applyDataDirFallbacks conf).

(** A process that starts on a database. *)
Definition launch (d : db) : process :=
  {| p_main := RunE numCPU ram scan quote_string conf; p_stage := off; p_sys := NewDispatcher cfg numCPU d;
     p_scheduling := false; p_syncing := false; p_listening := false; p_cancelled := false; p_born := None |}.

(** ** The main goroutine *)

(** What a call does to the dispatcher and the database. *)
Definition main_sys {A} (c : boot_call A) (s s' : sys) : A → Prop :=
  match c in boot_call A return A → Prop with
  | StartDispatcher => λ _, s' = Start cfg numCPU s
  | ShutdownDispatcher _ => λ _, s' = Shutdown s
  | OsCall c =>
    match c in Sweep.os_call A return A → Prop with
    | Sweep.MarkAllRunningAsFailed reason => λ r, ∃ d,
        (d, r) = Store.MarkAllRunningAsFailed reason (y_db s) ∧ s' = s <| y_db := d |>
    | _ => λ _, s' = s
    end
  | _ => λ _, s' = s
  end.

(** What it starts and ends. *)
Definition main_runs {A} (c : boot_call A) (p : process) : A → process :=
  match c in boot_call A return A → process with
  | Go (GScheduler _) => λ _, p <| p_scheduling := true |>
  | Go (GSyncer _ _) => λ _, p <| p_syncing := true |>
  | Go (GListen _) => λ _, p <| p_listening := true |>
  | Serve => λ e, match e with Signal => p <| p_cancelled := true |> | _ => p <| p_listening := false |> end
  | ShutdownApp _ => λ _, p <| p_listening := false |>
  | OsCall c =>
    match c in Sweep.os_call A return A → process with
    | Sweep.MarkAllRunningAsFailed _ => λ r,
        if is_ok r then p <| p_born := Some (next_uuid (p_db p)) |> else p
    | _ => λ _, p
    end
  | _ => λ _, p
  end.

(** ** The workers, once the signal has cancelled their context *)

(** A statement issued on a cancelled context fails before it reaches the
    database, as pgx documents it; the other calls answer as they like.  (One
    already under way when the signal comes counts as issued before it.) *)
Definition cancelled_answers {A} (c : Backtest.call A) : A → Prop :=
  match c in Backtest.call A return A → Prop with
  | Backtest.GetByID _ => λ a, is_ok a = false
  | Backtest.UpdateRunFailed _ _ _ => λ a, is_ok a = false
  | Backtest.MarkRunningTx _ _ => λ a, is_ok a = false
  | Backtest.MarkReadyTx _ _ _ _ _ => λ a, is_ok a = false
  | Backtest.MarkFailedTx _ _ _ _ => λ a, is_ok a = false
  | Backtest.PruneRuns _ => λ a, is_ok a = false
  | _ => λ _, True
  end.

Definition on_sys (f : sys → sys) (p : process) : process := p <| p_sys := f (p_sys p) |>.
Definition alive (p : process) : Prop := ∃ A (c : boot_call A) k, p_main p = Call c k.

(** One step of a process that has not ended. *)
Inductive process_step : process → process → Prop :=
  | ps_main p A (c : boot_call A) k a s' :
      p_main p = Call c k → main_sys c (p_sys p) s' a →
      process_step p (main_runs c (p <| p_main := k a |> <| p_stage := step (p_stage p) c a |> <| p_sys := s' |>) a)
  | ps_scheduler p pid :
      alive p → p_scheduling p = true → p_cancelled p = false →
      process_step p (on_sys (λ s, (scheduler_Submit pid s).1) p)
  | ps_scheduler_ends p : process_step p (p <| p_scheduling := false |>)
  | ps_handler p pid :
      alive p → p_listening p = true → process_step p (on_sys (λ s, (handler_Submit pid s).1) p)
  | ps_upgrader p pid :
      alive p → p_syncing p = true → p_cancelled p = false →
      process_step p (on_sys (λ s, (handler_Submit pid s).1) p)
  | ps_writer p op :
      alive p → p_listening p = true ∨ (p_syncing p = true ∧ p_cancelled p = false) → other_writer op = true →
      process_step p (on_sys (λ s, s <| y_db := exec marshal_err op (y_db s) |>) p)
  | ps_take p i s' :
      alive p → worker_take format_v uuid_String quote_string o i (p_sys p) = Some s' →
      process_step p (p <| p_sys := s' |>)
  | ps_call p i t A (c : Backtest.call A) k d a :
      alive p → y_workers (p_sys p) !! i = Some (Some (t, Call c k)) →
      (if p_cancelled p then cancelled_answers c a ∧ d = p_db p else answers c (p_db p) d a) →
      process_step p (on_sys (λ s, s <| y_db := d |> <| y_workers := <[i := Some (t, k a)]> (y_workers s) |>) p)
  | ps_finish p i t r :
      alive p → y_workers (p_sys p) !! i = Some (Some (t, Ret r)) →
      process_step p (on_sys (λ s, s <| y_workers := <[i := None]> (y_workers s) |>) p)
  | ps_clock p t : process_step p (on_sys (λ s, s <| y_db := exec marshal_err (OpClock t) (y_db s) |>) p)
  | ps_faults p fs : process_step p (on_sys (λ s, s <| y_db := y_db s <| faults := fs |> |>) p).

(** A process, or the next one after it ended or was killed at any point. *)
Inductive life_step : process → process → Prop :=
  | ls_step p p' : process_step p p' → life_step p p'
  | ls_restart p : life_step p (launch (p_db p)).
End process.
