(* ===== verification/ProcessLaws.v ===== *)
(** What the running process guarantees: work is accepted only once the database is
    migrated and swept, no run of a former process is mistaken for a live one,
    workers never run one portfolio twice at a time in any life of the process, and
    what a signal interrupts stays in flight until the next start fails it. *)
From S2P Require Import Prelude GoStrings GoTime Utf8 Types Json Path Prog Store StoreLaws Backtest.
From S2P Require Import Dispatcher DispatcherLaws Boot BootLaws Process.
From S2P Require Settings Sweep.

(** ** The order of the stages *)
Record stage_ok (g : stage) : Prop := {
  so_swept : g_swept g = true → g_dispatcher g = true;
  so_recovered : g_recovered g = true → g_dispatcher g = true;
  so_scheduler : g_scheduler g = true → g_swept g = true;
  so_keys : g_keys g = true → g_swept g = true;
  so_registry : g_registry g = true → g_swept g = true;
  so_listening : g_listening g = true → g_registry g = true ∧ g_keys g = true;
  so_signalled : g_signalled g = true → g_listening g = true;
  so_closed : g_closed g = true → g_signalled g = true;
}.

Ltac bools := rewrite ?andb_true_iff, ?orb_true_iff, ?negb_true_iff, ?implb_true_iff in *.
Lemma stage_ok_step g A (c : boot_call A) a : stage_ok g → may g c = true → stage_ok (step g c a).
Proof.
  intros [] Hm. destruct c as [| | | | | | | | | | | | |? []|[]| | | | | |]; cbn in *; bools;
    split; cbn; intros; bools; try solve [intuition congruence].
Qed.

Section laws.
Context `{MapRange, UnicodeTables}.
Context (format_v : float64 → string) (uuid_String : uuid → string) (quote_string : string → string).
Context (marshal_err : gmap string json → option goerror).
Context (numCPU : Z) (ram : string → result Z) (scan : string → option (Z * Z)).
Context (conf : Settings.Config) (o : orchestrator).
#[local] Notation launch := (launch quote_string numCPU ram scan conf).
#[local] Notation cfg := (cfg numCPU conf).
#[local] Notation process_step :=
  (process_step format_v uuid_String quote_string marshal_err numCPU conf o).
#[local] Notation life_step :=
  (life_step format_v uuid_String quote_string marshal_err numCPU ram scan conf o).
#[local] Notation sys_step := (sys_step format_v uuid_String quote_string o marshal_err).
#[local] Notation sys_inv := (sys_inv format_v uuid_String quote_string o).
#[local] Notation entries := (entries format_v uuid_String quote_string o).

(** Every run in flight was queued after [n] identifiers were handed out. *)
Definition born_after (n : uuid) (d : db) : Prop :=
  (n ≤ next_uuid d)%N ∧ ∀ i r, runs d !! i = Some r → inflight r = true → (n ≤ i)%N.

Record process_inv (p : process) : Prop := {
  pi_main : follows (λ g x, may_end g x = true) (p_stage p) (p_main p);
  pi_stage : stage_ok (p_stage p);
  pi_sys : sys_inv (p_sys p);
  pi_started : y_started (p_sys p) = g_dispatcher (p_stage p);
  pi_closed : y_closed (p_sys p) = g_closed (p_stage p);
  pi_cancelled : p_cancelled p = g_signalled (p_stage p);
  pi_scheduling : p_scheduling p = true → g_scheduler (p_stage p) = true;
  pi_syncing : p_syncing p = true → g_registry (p_stage p) = true;
  pi_listening : p_listening p = true → g_listening (p_stage p) = true;
  pi_idle : g_swept (p_stage p) = false → entries (p_sys p) = [];
  pi_panicked : y_panicked (p_sys p) = true → g_closed (p_stage p) = true;
  pi_born : g_recovered (p_stage p) = true → ∃ n, p_born p = Some n ∧ born_after n (p_db p);
}.

(** What a step of the dispatcher may do that is no business of the main goroutine. *)
Record quietly (s s' : sys) : Prop := {
  qt_started : y_started s' = y_started s;
  qt_closed : y_closed s' = y_closed s;
  qt_panicked : y_panicked s' = true → y_panicked s = true ∨ y_closed s = true;
  qt_inv : sys_inv s → sys_inv s';
  qt_born : ∀ n, sys_inv s → born_after n (y_db s) → born_after n (y_db s');
}.

Lemma born_frame ex n d d' : frame ex d d' → born_after n d → born_after n d'.
Proof.
  intros Hf [Hn Hb]. split; [pose proof (fr_next _ _ _ Hf); lia|].
  intros i r Hr Hi. destruct (fr_back _ _ _ Hf _ _ Hr) as (r0 & Hr0 & _ & Hi0). eauto.
Qed.

(** Submissions: only the new run joins those in flight. *)
Lemma born_submit n pid tr s :
  tr ∈ [TriggerScheduled; TriggerManual] → db_inv (y_db s) → born_after n (y_db s) → born_after n (y_db (Submit pid tr s).1).
Proof.
  intros Htr Hinv Hb. unfold Submit. destruct (CreateRun pid "queued" tr (y_db s)) as [d [r|e]] eqn:Hc.
  - destruct (create_run_effect _ _ _ _ _ Hinv Htr Hc) as (Hid & _ & Hr & Hn & _).
    assert (born_after n d) as Hd.
    { destruct Hb as [Hle Hb]. split; [lia|]. intros i x. rewrite Hr.
      intros [[<- <-]|[_ Hx]]%lookup_insert_Some Hi; [lia|eauto]. }
    submit_fields s d. destruct (y_closed s); [exact Hd|]. destruct (_ <? _)%nat; [exact Hd|].
    destruct (good_after _ _ _ _ (good_create_run pid "queued" tr) Hinv Hc) as [Hinv' _].
    destruct (Store.UpdateRunFailed _ _ _ d) as [d2 x] eqn:Hu. cbn.
    destruct (good_after _ _ _ _ (good_run_failed _ _ _) Hinv' Hu) as [_ Hn2].
    by eapply (born_frame (none_but [run_ID r])), Hd; eapply frame_update_run_failed; [exact Hu|done|intros _; left].
  - destruct (create_run_err _ _ _ _ _ Hinv Hc) as [Hs Hn]. cbn.
    eapply (born_frame (none_but [])), Hb. apply frame_refl; [done|lia].
Qed.
Lemma submit_flags pid tr s :
  y_started (Submit pid tr s).1 = y_started s ∧ y_closed (Submit pid tr s).1 = y_closed s ∧
  (y_panicked (Submit pid tr s).1 = true → y_panicked s = true ∨ y_closed s = true).
Proof.
  unfold Submit. destruct (CreateRun _ _ _ _) as [d [r|e]]; [|by cbn; auto]. submit_fields s d.
  destruct (y_closed s) eqn:Hc; [by cbn; auto|]. destruct (_ <? _)%nat; [by cbn; auto|].
  destruct (Store.UpdateRunFailed _ _ _ d). cbn. auto.
Qed.

Lemma quietly_submit pid tr s : tr ∈ [TriggerScheduled; TriggerManual] → quietly s (Submit pid tr s).1.
Proof.
  intros Htr. destruct (submit_flags pid tr s) as (H1 & H2 & H3). split; [done|done|done|..].
  - by apply step_submit_inv.
  - intros n Hs. apply born_submit; [done|]. apply Hs.
Qed.
Lemma quietly_handler pid s : quietly s (handler_Submit pid s).1.
Proof.
  unfold handler_Submit. pose proof (quietly_submit pid TriggerManual s ltac:(set_solver)) as Hq.
  by destruct (Submit pid TriggerManual s).
Qed.
Lemma quietly_scheduler pid s : quietly s (scheduler_Submit pid s).1.
Proof. apply quietly_submit. set_solver. Qed.

(** The other steps of the running system. *)
Lemma quietly_step s s' :
  sys_step s s' → y_started s' = y_started s → y_closed s' = y_closed s → y_panicked s' = y_panicked s →
  (∀ n, sys_inv s → born_after n (y_db s) → born_after n (y_db s')) → quietly s s'.
Proof.
  intros Hs H1 H2 H3 H4. split; [done|done|rewrite H3; auto| |done]. by eapply sys_step_inv.
Qed.
Lemma quietly_other op s :
  other_writer op = true → quietly s (s <| y_db := exec marshal_err op (y_db s) |>).
Proof.
  intros Hop. apply quietly_step; [by apply step_other|done..|].
  intros n Hs Hb. eapply born_frame; [|done]. apply fr_other; [apply Hs|done].
Qed.
Lemma quietly_faults fs s : quietly s (s <| y_db := y_db s <| faults := fs |> |>).
Proof. apply quietly_step; [by apply step_faults|done..]. Qed.
Lemma quietly_take i s s' : worker_take format_v uuid_String quote_string o i s = Some s' → quietly s s'.
Proof.
  intros Ht. assert (y_db s' = y_db s ∧ y_started s' = y_started s ∧ y_closed s' = y_closed s ∧
    y_panicked s' = y_panicked s) as (Hd & ? & ? & ?).
  { unfold worker_take in Ht. by destruct (y_workers s !! i) as [[|]|], (y_tasks s); simplify_eq. }
  apply quietly_step; [by eapply step_take|done..|]. by rewrite Hd.
Qed.
Lemma quietly_finish i t r s :
  y_workers s !! i = Some (Some (t, Ret r)) → quietly s (s <| y_workers := <[i := None]> (y_workers s) |>).
Proof. intros Hi. apply quietly_step; [by eapply step_finish|done..]. Qed.

Lemma sys_entry i x s : y_workers s !! i = Some (Some x) → ∃ l, entries s ≡ₚ x :: l ∧
  (∀ d y, entries (s <| y_db := d |> <| y_workers := <[i := Some y]> (y_workers s) |>) ≡ₚ y :: l).
Proof.
  intros Hi. exists (map (λ t, (t, Run format_v uuid_String quote_string o (t_portfolioID t) (t_runID t) (t_scheduled t)))
    (y_tasks s) ++ busy (<[i := None]> (y_workers s))).
  unfold DispatcherLaws.entries. split.
  - rewrite (busy_lookup _ _ _ Hi). cbn. by rewrite <-Permutation_middle.
  - intros d y. cbn. rewrite (busy_insert _ _ _ (Some y) Hi). cbn. by rewrite <-Permutation_middle.
Qed.

Lemma quietly_call i t A (c : Backtest.call A) k d a s :
  y_workers s !! i = Some (Some (t, Call c k)) → answers c (y_db s) d a →
  quietly s (s <| y_db := d |> <| y_workers := <[i := Some (t, k a)]> (y_workers s) |>).
Proof.
  intros Hi Ha. apply quietly_step; [by eapply step_call|done..|]. intros n [He _] Hb.
  destruct (sys_entry _ _ _ Hi) as (l & Hp & _). pose proof (entries_perm _ _ _ Hp He) as Hl.
  assert (∃ live, conforms (t_portfolioID t) (t_runID t) live (Call c k) ∧ (live = true → live_task (y_db s) t))
    as (live & [Hown _]%conforms_Call & Hlive).
  { destruct (ei_live _ _ Hl (t, Call c k)) as [Hf|[Hc Hlt]]; [by left| |]; [by exists false|by exists true]. }
  destruct (own_call_frame t live c (y_db s) d a) as [_ Hfr]; [apply He|apply He|done|done|done|].
  by eapply born_frame.
Qed.

(** A call that failed on the cancelled context. *)
Lemma entries_refused d t A (c : Backtest.call A) k a l :
  entries_inv d ((t, Call c k) :: l) → terminal c a = false → entries_inv d ((t, k a) :: l).
Proof.
  intros He Ht. assert (finished (t, Call c k) → finished (t, k a)) as Hfin by apply finished_call.
  apply entries_cons.
  - by eapply entries_cons_inv.
  - intros f Hf. by eapply (entries_head_ids _ _ _ _ He).
  - apply (ei_fresh _ _ He (t, Call c k)). by left.
  - destruct (ei_live _ _ He (t, Call c k)) as [Hf|[[_ Hc]%conforms_Call Hl]]; [by left|left; auto|right].
    split; [|done]. specialize (Hc a). by rewrite Ht in Hc.
  - intros f Hf Hp. destruct (ei_excl _ _ He (t, Call c k) f) as [Heq|[?|?]]; [by left|by right|done| |auto|auto].
    by destruct (entries_head_ids _ _ _ _ He Hf).
Qed.
Lemma cancelled_not_terminal {A} (c : Backtest.call A) a : cancelled_answers c a → terminal c a = false.
Proof. by destruct c. Qed.

Lemma quietly_refused i t A (c : Backtest.call A) k a s :
  y_workers s !! i = Some (Some (t, Call c k)) → cancelled_answers c a →
  quietly s (s <| y_db := y_db s |> <| y_workers := <[i := Some (t, k a)]> (y_workers s) |>).
Proof.
  intros Hi Ha. split; [done|done|cbn; auto| |done]. intros [He Hb]. split; [|done].
  destruct (sys_entry _ _ _ Hi) as (l & Hp & Hq). eapply entries_perm; [symmetry; apply Hq|].
  eapply entries_refused; [|by apply cancelled_not_terminal]. by eapply entries_perm.
Qed.

(** A goroutine's step keeps the invariant. *)
Lemma inv_quietly p s' :
  process_inv p → quietly (p_sys p) s' → (g_swept (p_stage p) = false → entries s' = []) →
  process_inv (p <| p_sys := s' |>).
Proof.
  intros [] [] Hidle. split; cbn; try done; try congruence.
  - by apply qt_inv0.
  - intros [?|?]%qt_panicked0; [auto|congruence].
  - intros Hr. destruct (pi_born0 Hr) as (n & Hn & Hb). exists n. split; [done|]. by apply qt_born0.
Qed.
Lemma swept_idle p s' : g_swept (p_stage p) = true → g_swept (p_stage p) = false → entries s' = [].
Proof. congruence. Qed.

(** A busy worker, or a task, means that the sweep is over. *)
Lemma busy_swept p x l : process_inv p → entries (p_sys p) ≡ₚ x :: l → g_swept (p_stage p) = true.
Proof.
  intros Hp Hl. destruct (g_swept (p_stage p)) eqn:Hs; [done|].
  rewrite (pi_idle p Hp Hs) in Hl. by apply Permutation_nil_cons in Hl.
Qed.
Lemma task_entry i s s' :
  worker_take format_v uuid_String quote_string o i s = Some s' → ∃ x l, entries s ≡ₚ x :: l.
Proof.
  unfold worker_take, DispatcherLaws.entries. destruct (y_workers s !! i) as [[|]|]; [done| |done].
  destruct (y_tasks s) as [|t ts]; [done|]. intros _. cbn. eauto.
Qed.

(** ** The main goroutine *)
Lemma entries_nil d : db_inv d → newest d → entries_inv d [].
Proof.
  intros Hinv Hn. split; [done|done|constructor|..].
  - by intros e ?%not_elem_of_nil.
  - by intros e ?%not_elem_of_nil.
  - by intros e f ?%not_elem_of_nil.
Qed.
Lemma recovered_sys reason s d r :
  entries s = [] → sys_inv s → (d, r) = Store.MarkAllRunningAsFailed reason (y_db s) →
  sys_inv (s <| y_db := d |>) ∧ (is_ok r = true → born_after (next_uuid d) d) ∧
  (is_ok r = false → same_tables (y_db s) d ∧ (next_uuid (y_db s) ≤ next_uuid d)%N).
Proof.
  intros He [Hs Hb] Hm. destruct (good_after _ _ _ _ (good_mark_all reason) (ei_db _ _ Hs) (eq_sym Hm)) as [Hinv Hn].
  assert (is_ok r = true → ∀ i x, runs d !! i = Some x → inflight x = false) as Hok.
  { intros Hok i x. destruct r as [n|e]; [|done]. by eapply recovery_no_flight. }
  assert (is_ok r = false → same_tables (y_db s) d) as Herr.
  { intros Hf. destruct r as [|e]; [done|]. by eapply in_tx_Err. }
  split; [|split].
  - split; [|exact Hb]. change (entries_inv d (entries s)). rewrite He. apply entries_nil; [done|].
    destruct (is_ok r) eqn:Hr.
    + intros i j x y Hx Hf. by rewrite (Hok eq_refl i x Hx) in Hf.
    + destruct (Herr eq_refl) as [Hp Hrs]. intros i j x y. rewrite Hrs. apply (ei_newest _ _ Hs).
  - intros Hr. split; [done|]. intros i x Hx Hf. by rewrite (Hok Hr i x Hx) in Hf.
  - auto.
Qed.

(** The workers a start makes are idle. *)
Lemma started_sys s : entries s = [] → sys_inv s → sys_inv (Start cfg numCPU s) ∧ entries (Start cfg numCPU s) = [].
Proof.
  intros He [Hs Hb]. unfold Start. destruct (y_started s); [by split|].
  set (n := Z.to_nat _). assert (y_tasks s = []) as Ht.
  { unfold DispatcherLaws.entries in He. apply app_eq_nil in He as [He _]. by apply map_eq_nil in He. }
  assert (entries (s <| y_started := true |> <| y_workers := replicate n None |>) = []) as He'.
  { unfold DispatcherLaws.entries. cbn [y_tasks set_field]. rewrite Ht.
    cbn [map app y_workers set_field]. clear. by induction n. }
  split; [|exact He']. split; [|exact Hb]. rewrite He'.
  change (entries_inv (y_db s) []). apply entries_nil; apply Hs.
Qed.

Lemma shutdown_flags s : y_started s = true → y_closed s = false →
  Shutdown s = s <| y_closed := true |>.
Proof. intros H1 H2. unfold Shutdown. by rewrite H1, H2. Qed.

Ltac plain_call :=
  split; cbn -[DispatcherLaws.entries] in *; try assumption; bools; try congruence; try (intros; intuition congruence).

Lemma inv_main p A (c : boot_call A) k a s' :
  process_inv p → p_main p = Call c k → main_sys numCPU conf c (p_sys p) s' a →
  process_inv (main_runs c (p <| p_main := k a |> <| p_stage := step (p_stage p) c a |> <| p_sys := s' |>) a).
Proof.
  intros Hp Hm Hs. pose proof Hp as [Hf Hg Hsys Hst Hcl Hca Hsc Hsy Hli Hid Hpa Hbo]. rewrite Hm in Hf. destruct Hf as [Hmay Hk].
  specialize (Hk a). pose proof (stage_ok_step _ _ c a Hg Hmay) as Hg'. pose proof Hg as [].
  destruct c as [| | | | | | | | | | | | |? os|[]| | | | | |]; try (cbn in Hs; subst s'; solve [plain_call]).
  - (* StartDispatcher *) cbn in Hs, Hmay. bools. subst s'. destruct Hmay as [_ Hd].
    assert (g_swept (p_stage p) = false) as Hns by (destruct (g_swept (p_stage p)) eqn:?; intuition congruence).
    destruct (started_sys _ (Hid Hns) Hsys) as [Hsys' He'].
    assert (y_started (Start cfg numCPU (p_sys p)) = true ∧ y_closed (Start cfg numCPU (p_sys p)) = y_closed (p_sys p) ∧
      y_panicked (Start cfg numCPU (p_sys p)) = y_panicked (p_sys p) ∧ y_db (Start cfg numCPU (p_sys p)) = y_db (p_sys p))
      as (H1 & H2 & H3 & H4) by (unfold Start; by destruct (y_started (p_sys p)) eqn:?).
    split; cbn -[DispatcherLaws.entries Start]; try done; try congruence.
    + by rewrite H3.
    + intros Hr. destruct (Hbo Hr) as (n & Hn & Hb). exists n. split; [done|]. unfold p_db. cbn -[Start]. by rewrite H4.
  - (* OsCall *) destruct os; try (cbn in Hs; subst s'; solve [plain_call]).
    cbn in Hs, Hmay. bools. destruct Hmay as [Hd Hns]. destruct Hs as (d & Hmark & ->).
    destruct (recovered_sys _ _ _ _ (Hid Hns) Hsys Hmark) as (Hsys' & Hok & Herr).
    cbn in Hk, Hg'. destruct (is_ok a) eqn:Ha; cbn -[DispatcherLaws.entries]; rewrite ?Ha; cbn -[DispatcherLaws.entries];
      (split; cbn -[DispatcherLaws.entries] in *; rewrite ?Ha; try done).
    + intros _. eexists. split; [done|]. by apply Hok.
    + rewrite orb_false_r. intros Hr. destruct (Hbo Hr) as (n & Hn & Hb). exists n. split; [done|].
      destruct (Herr eq_refl). eapply (born_frame (none_but [])), Hb. by apply frame_refl.
  - (* Serve *) cbn in Hs. subst s'. destruct a; plain_call.
  - (* ShutdownDispatcher *) cbn in Hs, Hmay. bools. destruct Hmay as [[Hsig Hw] Hnc].
    assert (y_started (p_sys p) = true) as Hd by (rewrite Hst; intuition).
    rewrite shutdown_flags in Hs by (done || congruence). subst s'.
    assert (sys_inv (p_sys p <| y_closed := true |>)) by (destruct Hsys; by split). plain_call.
Qed.

(** ** Every step, every life *)
Lemma inv_step p p' : process_inv p → process_step p p' → process_inv p'.
Proof.
  intros Hp Hs. pose proof Hp as [_ [] _ _ _ _ Hsc Hsy Hli Hid _ _].
  destruct Hs as [p A c k a s' Hm Hs|p pid _ Hb _|p|p pid _ Hb|p pid _ Hb _|p op _ Hb Hop|p i s' _ Ht
    |p i t A c k d a _ Hi Ha|p i t r _ Hi|p t|p fs]; unfold on_sys.
  - by eapply inv_main.
  - apply inv_quietly; [done|apply quietly_scheduler|apply swept_idle; auto].
  - by destruct Hp; split.
  - apply inv_quietly; [done|apply quietly_handler|apply swept_idle; destruct so_listening0; auto].
  - apply inv_quietly; [done|apply quietly_handler|apply swept_idle; auto].
  - apply inv_quietly; [done|by apply quietly_other|apply swept_idle].
    destruct Hb as [Hb|[Hb _]]; [destruct so_listening0|]; auto.
  - apply inv_quietly; [done|by eapply quietly_take|]. destruct (task_entry _ _ _ Ht) as (x & l & He).
    apply swept_idle. by eapply busy_swept.
  - destruct (sys_entry _ _ _ Hi) as (l & He & _).
    apply inv_quietly; [done| |apply swept_idle; by eapply busy_swept].
    destruct (p_cancelled p); [destruct Ha as [Ha ->]; by eapply quietly_refused|by eapply quietly_call].
  - destruct (sys_entry _ _ _ Hi) as (l & He & _).
    apply inv_quietly; [done|by eapply quietly_finish|apply swept_idle; by eapply busy_swept].
  - apply inv_quietly; [done|by apply quietly_other|exact Hid].
  - apply inv_quietly; [done|apply quietly_faults|exact Hid].
Qed.

Lemma inv_launch d : db_inv d → newest d → process_inv (launch d).
Proof.
  intros Hinv Hn. split; try done.
  - unfold Process.launch, RunE. cbn [p_stage p_main]. eapply follows_pbind; [apply triple_main|].
    intros g [x|[]] Hr; [exact Hr|done].
  - split; [by apply entries_nil|cbn; lia].
Qed.

Lemma inv_life p p' : process_inv p → rtc life_step p p' → process_inv p'.
Proof.
  intros Hp Hs. induction Hs as [|p p1 p' Hs _ IH]; [done|]. apply IH. destruct Hs as [p p1 Hs|p].
  - by eapply inv_step.
  - apply inv_launch; apply (pi_sys _ Hp).
Qed.

(** C4: over any number of lives of the process, each ended by a return, a signal or
    a crash at any point, and under every interleaving within them: the schema
    invariant holds; nothing accepts work before the workers run and the start-up
    sweep is over; no submission panics before the dispatcher is shut down; once
    the recovery of a life has committed, every run in flight was queued after it;
    and of two workers with runs of one portfolio at least one is done. *)
Theorem process_lives (d : db) (p : process) :
  db_inv d → newest d → rtc life_step (launch d) p →
  db_inv (p_db p) ∧
  (p_scheduling p = true ∨ p_syncing p = true ∨ p_listening p = true ∨ y_tasks (p_sys p) ≠ [] →
     y_started (p_sys p) = true ∧ g_swept (p_stage p) = true) ∧
  (y_panicked (p_sys p) = true → y_closed (p_sys p) = true) ∧
  (g_recovered (p_stage p) = true → ∃ n, p_born p = Some n ∧ born_after n (p_db p)) ∧
  (∀ i j ti pi tj pj,
     y_workers (p_sys p) !! i = Some (Some (ti, pi)) → y_workers (p_sys p) !! j = Some (Some (tj, pj)) →
     i ≠ j → t_portfolioID ti = t_portfolioID tj → finished (ti, pi) ∨ finished (tj, pj)).
Proof.
  intros Hinv Hn Hs. pose proof (inv_life _ _ (inv_launch d Hinv Hn) Hs) as [Hmain [] Hsys Hst Hcl Hca Hsc Hsy Hli Hid Hpa Hbo].
  split; [apply Hsys|]. split; [|split; [|split; [done|by eapply exclusive_workers]]].
  - assert (g_swept (p_stage p) = true → y_started (p_sys p) = true ∧ g_swept (p_stage p) = true) as Hw
      by (intros; rewrite Hst; auto).
    intros [?|[?|[?|Ht]]]; apply Hw; [auto|auto|destruct so_listening0; auto|].
    destruct (g_swept (p_stage p)); [done|]. specialize (Hid eq_refl). unfold DispatcherLaws.entries in Hid.
    apply app_eq_nil in Hid as [He%map_eq_nil _]. done.
  - intros Hp. rewrite Hcl. auto.
Qed.

(** ** What a signal interrupts *)

(** Every run in flight stays in flight, unless its portfolio is deleted. *)
Record survive (d d' : db) : Prop := {
  sv_next : (next_uuid d ≤ next_uuid d')%N;
  sv_gone : ∀ i, portfolios d !! i = None → (i < next_uuid d)%N → portfolios d' !! i = None;
  sv_stay : ∀ i r, runs d !! i = Some r → inflight r = true →
    (∃ r', runs d' !! i = Some r' ∧ run_PortfolioID r' = run_PortfolioID r ∧ inflight r' = true) ∨
    portfolios d' !! run_PortfolioID r = None;
}.

Lemma survive_trans d1 d2 d3 : db_inv d1 → survive d1 d2 → survive d2 d3 → survive d1 d3.
Proof.
  intros Hinv [Hn Hg Hs] [Hn' Hg' Hs']. split; [lia| |].
  - intros i Hi Hlt. apply Hg'; [by apply Hg|lia].
  - intros i r Hr Hf. assert (run_PortfolioID r < next_uuid d1)%N as Hlt
      by (apply (proj1 (inv_fresh d1 Hinv)), (inv_fk d1 Hinv i r Hr)).
    destruct (Hs i r Hr Hf) as [(r2 & Hr2 & Hp2 & Hf2)|Hno]; [|right; apply Hg'; [done|lia]].
    rewrite <-Hp2. destruct (Hs' i r2 Hr2 Hf2) as [(r3 & Hr3 & Hp3 & Hf3)|Hno]; [left|by right].
    exists r3. split; [done|]. split; [congruence|done].
Qed.
Lemma survive_frame d d' : frame (none_but []) d d' → survive d d'.
Proof. intros [Hn Hg Hs _]. split; [done|done|]. intros i r Hr Hf. apply (Hs i r Hr Hf), not_elem_of_nil. Qed.
Lemma survive_refl d : survive d d.
Proof. apply survive_frame. by apply frame_refl. Qed.

Lemma survive_submit pid tr s :
  tr ∈ [TriggerScheduled; TriggerManual] → db_inv (y_db s) → survive (y_db s) (y_db (Submit pid tr s).1).
Proof.
  intros Htr Hinv. unfold Submit. destruct (CreateRun pid "queued" tr (y_db s)) as [d [r|e]] eqn:Hc.
  2:{ destruct (create_run_err _ _ _ _ _ Hinv Hc) as [Hs Hn]. apply survive_frame, frame_refl; [done|]. cbn. lia. }
  destruct (create_run_effect _ _ _ _ _ Hinv Htr Hc) as (Hid & Hp & Hr & Hn & _).
  assert (∀ i x, runs (y_db s) !! i = Some x → (i < next_uuid (y_db s))%N) as Hold
    by (intros i x Hx; apply (proj2 (inv_fresh _ Hinv)); eauto).
  assert (survive (y_db s) d) as Hd.
  { split; [lia|by rewrite Hp|]. intros i x Hx Hf. left. exists x. specialize (Hold i x Hx).
    rewrite Hr, lookup_insert_ne by lia. done. }
  submit_fields s d. destruct (y_closed s); [exact Hd|]. destruct (_ <? _)%nat; [exact Hd|].
  destruct (good_after _ _ _ _ (good_create_run pid "queued" tr) Hinv Hc) as [Hinv' _].
  destruct (Store.UpdateRunFailed _ _ _ d) as [d2 x] eqn:Hu. cbn.
  destruct (good_after _ _ _ _ (good_run_failed _ _ _) Hinv' Hu) as [_ Hn2].
  pose proof (frame_update_run_failed (none_but [run_ID r]) _ _ _ _ _ _ Hu Hn2
    ltac:(intros _; by left)) as [_ Hg2 Hs2 _].
  split; [lia| |].
  - intros i Hi Hlt. apply Hg2; [by rewrite Hp|lia].
  - intros i y Hy Hf. specialize (Hold i y Hy). apply Hs2; [|done|].
    + rewrite Hr, lookup_insert_ne by lia. done.
    + intros Hin%list_elem_of_singleton. lia.
Qed.
Lemma survive_handler pid s : db_inv (y_db s) → survive (y_db s) (y_db (handler_Submit pid s).1).
Proof.
  intros Hinv. unfold handler_Submit. pose proof (survive_submit pid TriggerManual s ltac:(set_solver) Hinv).
  by destruct (Submit pid TriggerManual s).
Qed.

(** The main goroutine does not touch the database any more. *)
Lemma main_after_signal p A (c : boot_call A) k a s' :
  process_inv p → p_cancelled p = true → p_main p = Call c k → main_sys numCPU conf c (p_sys p) s' a → y_db s' = p_db p.
Proof.
  intros Hp Hc Hm Hs. pose proof Hp as [Hf [] _ _ _ Hca _ _ _ _ _ _]. rewrite Hm in Hf. destruct Hf as [Hmay _].
  rewrite Hc in Hca. destruct c as [| | | | | | | | | | | | |? []|[]| | | | | |]; cbn in Hs, Hmay; bools; try by subst s'.
  - destruct (so_listening0 (so_signalled0 (eq_sym Hca))). intuition congruence.
  - destruct (so_listening0 (so_signalled0 (eq_sym Hca))). intuition congruence.
  - subst s'. unfold Shutdown. destruct (negb (y_started (p_sys p))); [done|]. by destruct (y_closed (p_sys p)).
Qed.

Lemma cancelled_step p p' :
  process_inv p → p_cancelled p = true → process_step p p' → p_cancelled p' = true ∧ survive (p_db p) (p_db p').
Proof.
  intros Hp Hc Hs. pose proof (ei_db _ _ (si_entries _ _ _ _ _ (pi_sys p Hp))) as Hinv.
  destruct Hs as [p A c k a s' Hm Hs|p pid _ Hb Hno|p|p pid _ Hb|p pid _ Hb Hno|p op _ Hb Hop|p i s' _ Ht
    |p i t A c k d a _ Hi Ha|p i t r _ Hi|p t|p fs]; unfold on_sys, p_db in *; cbn; try congruence.
  - pose proof (main_after_signal p A c k a s' Hp Hc Hm Hs) as Hd. unfold p_db in Hd.
    assert (∀ q, p_cancelled (main_runs c q a) = true ∨ p_cancelled q = false) as Hr.
    { intros q. destruct (p_cancelled q) eqn:Hq; [left|by right].
      destruct c as [| | | | | | | | | | | | |? []|[]| | | | | |]; cbn; try done; by destruct a. }
    assert (∀ q, p_sys (main_runs c q a) = p_sys q) as Hsame.
    { intros q. destruct c as [| | | | | | | | | | | | |? []|[]| | | | | |]; cbn; try done; by destruct a. }
    rewrite Hsame. cbn. rewrite Hd. split; [|apply survive_refl].
    destruct (Hr (p <| p_main := k a |> <| p_stage := step (p_stage p) c a |> <| p_sys := s' |>)) as [?|Hq]; [done|].
    cbn in Hq. congruence.
  - split; [done|apply survive_refl].
  - split; [done|by apply survive_handler].
  - split; [done|]. by apply survive_frame, fr_other.
  - split; [done|]. replace (y_db s') with (y_db (p_sys p)); [apply survive_refl|].
    unfold worker_take in Ht. by destruct (y_workers (p_sys p) !! i) as [[|]|], (y_tasks (p_sys p)); simplify_eq.
  - rewrite Hc in Ha. destruct Ha as [_ ->]. split; [done|apply survive_refl].
  - split; [done|apply survive_refl].
  - split; [done|]. apply survive_frame. by apply frame_refl.
  - split; [done|]. apply survive_frame. by apply frame_refl.
Qed.

(** C40: from the moment the signal arrives no backtest reaches a result any more,
    the thirty seconds of the shutdown notwithstanding: whatever the process still
    does, every run that was in flight stays in flight, unless its portfolio is
    deleted, until a later process fails it. *)
Theorem signal_interrupts_runs (d : db) (p p' : process) (i : uuid) (r : Types.Run) :
  db_inv d → newest d → rtc life_step (launch d) p → p_cancelled p = true → rtc process_step p p' →
  runs (p_db p) !! i = Some r → inflight r = true →
  (∃ r', runs (p_db p') !! i = Some r' ∧ run_PortfolioID r' = run_PortfolioID r ∧ inflight r' = true) ∨
  portfolios (p_db p') !! run_PortfolioID r = None.
Proof.
  intros Hinv Hn Hreach Hc Hs. pose proof (inv_life _ _ (inv_launch d Hinv Hn) Hreach) as Hp. clear Hreach.
  revert i r. enough (survive (p_db p) (p_db p')) as [_ _ Hst] by exact Hst.
  induction Hs as [p|p p1 p' Hs _ IH]; [apply survive_refl|].
  destruct (cancelled_step _ _ Hp Hc Hs) as [Hc1 Hs1].
  eapply survive_trans; [apply (pi_sys _ Hp)|exact Hs1|]. apply IH; [done|by eapply inv_step].
Qed.
End laws.

(** ** A process that starts, queues a backtest and is told to stop *)
Section demo.
#[local] Existing Instances canonical_range ascii_tables.

Definition demo_conf : Settings.Config :=
  Settings.Build_Config "/var/lib/pvapi" "" "" (Settings.Build_logConf "info" "stdout" true false) "postgres://db/pv"
    (Settings.Build_serverConf 3000 "") (Settings.Build_authConf "https://keys" "api" "https://issuer") ""
    (Settings.Build_strategyConf 3600 2 "" "" "" 300 "17:00" "2010-01-01" 300)
    (Settings.Build_backtestConf "" 2 0 0)
    (Settings.Build_runnerConf "host" (Settings.Build_dockerConf "" "" fzero "" 0 "" ""))
    (Settings.Build_schedulerConf 0 0 true) (Settings.Build_mailgunConf "" "" "").

(** An environment where everything works, and what it does to the dispatcher. *)
Definition works {A} (c : Sweep.os_call A) (s : sys) : sys * A :=
  match c in Sweep.os_call A return sys * A with
  | Sweep.OsNow => (s, 0)
  | Sweep.ReadDir _ => (s, Ok [])
  | Sweep.Stat _ => (s, Ok 0)
  | Sweep.OsRemove _ | Sweep.OsRemoveAll _ => (s, None)
  | Sweep.MarkAllRunningAsFailed reason =>
    let '(d, r) := Store.MarkAllRunningAsFailed reason (y_db s) in (s <| y_db := d |>, r)
  | Sweep.AllPortfolioIDs | Sweep.AllRunIDs => (s, Ok ∅)
  end.
Definition answered {A} (c : boot_call A) (s : sys) : sys * A :=
  match c in boot_call A return sys * A with
  | PgxNew _ => (s, Ok {| User := "pv"; Password := ""; Host := "db"; Port := 5432; Database := "pv" |})
  | FetchMarketHolidays => (s, Ok [])
  | StartDispatcher => (Start (cfg 4 demo_conf) 4 s, ())
  | ShutdownDispatcher _ => (Shutdown s, ())
  | OsCall c => works c s
  | Serve => (s, Signal)
  | PgxPing | PgxAcquire | IofsNew _ | MigrateNew _ | MigrateUp | NewPVDataProvider | MkdirAll _ | DockerClient _ | JwkCache
  | JwkRegister _ | ShutdownApp _ => (s, None)
  | CloseProvider | SetMarketHolidays _ | Go _ | AwaitScheduler _ => (s, ())
  end.
Lemma answered_ok {A} (c : boot_call A) s : main_sys 4 demo_conf c s (answered c s).1 (answered c s).2.
Proof.
  destruct c as [| | | | | | | | | | | | |? []|[]| | | | | |]; cbn; try done.
  destruct (Store.MarkAllRunningAsFailed _ _) as [d r] eqn:Hm. cbn. eauto.
Qed.

(** Let the main goroutine run for a number of calls. *)
Fixpoint drive (n : nat) (p : process) : process :=
  match n with
  | O => p
  | S n =>
    match p_main p with
    | Ret _ => p
    | @Call _ _ A c k =>
      let '(s, a) := answered c (p_sys p) in
      drive n (main_runs c (p <| p_main := k a |> <| p_stage := step (p_stage p) c a |> <| p_sys := s |>) a)
    end
  end.
#[local] Notation demo_step := (process_step (λ _, "0") (λ u, pad 39 (Z.of_N u)) (λ s, s) (λ _, None) 4 demo_conf demo_orchestrator).
#[local] Notation demo_life :=
  (life_step (λ _, "0") (λ u, pad 39 (Z.of_N u)) (λ s, s) (λ _, None) 4 (λ _, Ok 0) (λ _, Some (17, 0)) demo_conf demo_orchestrator).
Lemma drive_steps n p : rtc demo_step p (drive n p).
Proof.
  revert p. induction n as [|n IH]; intros p; [apply rtc_refl|]. cbn. destruct (p_main p) as [x|A c k] eqn:Hm; [apply rtc_refl|].
  pose proof (answered_ok c (p_sys p)) as Ha. destruct (answered c (p_sys p)) as [s a]. eapply rtc_l; [|apply IH].
  by apply (ps_main _ _ _ _ _ _ _ p A c k a s).
Qed.
Lemma demo_lives p p' : rtc demo_step p p' → rtc demo_life p p'.
Proof. induction 1; [apply rtc_refl|]. eapply rtc_l; [by apply ls_step|done]. Qed.

Definition demo_launch : process := launch (λ s, s) 4 (λ _, Ok 0) (λ _, Some (17, 0)) demo_conf demo_db.
(** Listening, then with the portfolio queued, then signalled, then ended. *)
Definition demo_up : process := drive 21 demo_launch.
Definition demo_queued : process := Process.on_sys (λ s, (handler_Submit 1%N s).1) demo_up.
Definition demo_signalled : process := drive 1 demo_queued.
Definition demo_ended : process := drive 5 demo_signalled.
Example demo_stages :
  (p_listening demo_up, y_tasks (p_sys demo_queued), p_cancelled demo_signalled, p_main demo_ended) =
  (true, [{| t_portfolioID := 1%N; t_runID := 4%N; t_scheduled := false |}], true, Ret (Returned None)).
Proof. vm_compute. reflexivity. Qed.

Lemma demo_newest : newest demo_db.
Proof. intros i j r s Hr Hi. exfalso. apply (demo_idle (run_PortfolioID r)). by exists i, r. Qed.
Lemma demo_reaches_queued : rtc demo_life demo_launch demo_queued.
Proof.
  apply demo_lives. unfold demo_queued. apply rtc_r with (y := demo_up); [exact (drive_steps 21 demo_launch)|].
  refine (ps_handler _ _ _ _ _ _ _ demo_up 1%N _ _).
  - assert (match p_main demo_up with Call _ _ => true | Ret _ => false end = true) as Ha by (vm_compute; reflexivity).
    unfold alive. destruct (p_main demo_up) as [x|A c k]; [done|]. eauto.
  - vm_compute. reflexivity.
Qed.

Lemma process_lives_witness :
  p_listening demo_queued = true ∧ g_recovered (p_stage demo_queued) = true ∧
  ∃ n, p_born demo_queued = Some n ∧ born_after n (p_db demo_queued).
Proof.
  assert (g_recovered (p_stage demo_queued) = true) as Hr by (vm_compute; reflexivity).
  split; [vm_compute; reflexivity|]. split; [exact Hr|].
  apply (process_lives _ _ _ _ _ _ _ _ _ demo_db demo_queued demo_db_inv demo_newest demo_reaches_queued). exact Hr.
Defined.

(** The queued run outlives the process; the next one would fail it. *)
Lemma signal_interrupts_runs_witness :
  p_main demo_ended = Ret (Returned None) ∧
  ∃ r, runs (p_db demo_signalled) !! 4%N = Some r ∧
    ((∃ r', runs (p_db demo_ended) !! 4%N = Some r' ∧ run_PortfolioID r' = run_PortfolioID r ∧ inflight r' = true) ∨
     portfolios (p_db demo_ended) !! run_PortfolioID r = None).
Proof.
  split; [vm_compute; reflexivity|].
  assert (match runs (p_db demo_signalled) !! 4%N with Some r => inflight r | None => false end = true) as Hr
    by (vm_compute; reflexivity).
  destruct (runs (p_db demo_signalled) !! 4%N) as [r|] eqn:Hl; [|discriminate Hr]. exists r. split; [reflexivity|].
  eapply (signal_interrupts_runs _ _ _ _ _ _ _ _ _ demo_db demo_signalled demo_ended 4%N r demo_db_inv demo_newest).
  - etrans; [exact demo_reaches_queued|]. apply demo_lives, drive_steps.
  - vm_compute. reflexivity.
  - apply drive_steps.
  - exact Hl.
  - exact Hr.
Defined.
End demo.
