(* ===== verification/Handler.v ===== *)
(** The portfolio endpoints (src/portfolio/handler.go, src/portfolio/holdings_impact.go)
    and their routes (src/api/portfolios.go), written against the interfaces of
    [Web]; [run], [early] and [call] are a handler's statements. *)
From S2P Require Import Prelude GoStrings GoTime Utf8 Types Json Path Params Web.

Definition errNotFoundSentinel' := sentinel_err errNotFoundSentinel "not found".
Definition errFromDate' := sentinel_err errFromDate "from must be YYYY-MM-DD".
Definition errToDate' := sentinel_err errToDate "to must be YYYY-MM-DD".
Definition errStrategyMalformed' := sentinel_err errStrategyMalformed "strategy describe is malformed".
Definition ErrInvalidDate' := sentinel_err ErrInvalidDate "invalid date".
Definition ErrImmutableField' := sentinel_err ErrImmutableField
  "field is not updatable; only `name`, `startDate`, `endDate`, `runRetention` may be patched".

Record createBody := {
  cb_Name : string; cb_StrategyCode : string; cb_StrategyCloneURL : string; cb_StrategyVer : string;
  cb_Parameters : gmap string json; cb_Benchmark : string; cb_StartDate : string; cb_EndDate : string;
  cb_RunRetention : option Z;
}.
Record patchBody := { pb_Name : string; pb_StartDate : string; pb_EndDate : string; pb_RunRetention : option Z }.

(** [createBody.toRequest]. *)
Definition toRequest (b : createBody) (startDate endDate : option instant) : CreateRequest :=
  {| r_Name := cb_Name b; r_StrategyCode := cb_StrategyCode b; r_StrategyVer := cb_StrategyVer b;
     r_StrategyCloneURL := cb_StrategyCloneURL b; r_Parameters := cb_Parameters b;
     r_Benchmark := cb_Benchmark b; r_StartDate := startDate; r_EndDate := endDate;
     r_RunRetention := cb_RunRetention b |}.

(** The handler's optional parts: a dispatcher, a progress hub, a snapshots root. *)
Record Handler := { h_dispatcher : bool; h_hub : bool; h_snapshotsDir : string }.

(** [splitParam]; a nil slice is the empty list. *)
Definition splitParam (val defaultVal : string) : list string :=
  if bool_decide (val = "") then
    if bool_decide (defaultVal = "") then [] else [defaultVal]
  else split_byte val (byte 44).

(** [parseTopN]. *)
Definition parseTopN (raw : string) : Z :=
  if bool_decide (raw = "") then 10
  else match atoi raw with
       | None => 10
       | Some n => if n <? 1 then 10 else if 50 <? n then 50 else n
       end.

(** [parseFromTo]. *)
Definition parseFromTo (rq : request) : result (option instant * option instant) :=
  let parse k e :=
    let s := Query rq k in
    if bool_decide (s = "") then Ok None
    else match parse_date s with Some t => Ok (Some t) | None => Err e end in
  from ← parse "from" errFromDate';
  to ← parse "to" errToDate';
  Ok (from, to).

(** [pickInflight]. *)
Definition pickInflight (runs : list Run) : option (uuid * string) :=
  match list_find (λ r, run_Status r = "queued" ∨ run_Status r = "running") runs with
  | Some (_, r) => Some (run_ID r, run_Status r)
  | None => None
  end.

(** [consecutiveFailedRuns]. *)
Fixpoint consecutiveFailedRuns (runs : list Run) : Z :=
  match runs with
  | [] => 0
  | r :: runs => if bool_decide (run_Status r ≠ StatusFailed) then 0 else 1 + consecutiveFailedRuns runs
  end.

Section handler.
Context `{MapRange, UnicodeTables}.
Context {W out : Type}.
Context `{!Store W, !Services W, !Builder W, !Snapshots W out}.
Context (sonic_err : payload out → option goerror).
(** [uuid.UUID.String], [uuid.Parse], [%q], the shortest decimal of a float. *)
Context (uuid_String : uuid → string) (uuid_Parse : string → result uuid).
Context (quote_string : string → string) (format_float : float64 → string).
(** [json.Unmarshal] into [any] and [Describe], [sonic.Unmarshal] into the bodies. *)
Context (json_unmarshal : string → result json) (unmarshal_describe : string → result Describe).
Context (decode_create : string → result createBody) (decode_patch : string → result patchBody).
Context (decode_raw : string → result (gmap string json)).
(** [strategy.ValidateCloneURL]: why a clone URL is refused. *)
Context (urlValidator : string → option goerror).
Context (h : Handler).

Notation conn := (conn out W).
Notation handler := (conn → conn * option goerror).
Notation M := (proc conn (option goerror)).

(** [return f(c)]. *)
Definition ret {A} (f : handler) : M A := r ← call f; early r.
Definition problem {A} (rq : request) (st : Z) (title detail : string) : M A :=
  ret (writeProblem rq st title detail).
Definition internal {A} (rq : request) (e : goerror) : M A :=
  problem rq 500 "Internal Server Error" (err_text e).
Definition unprocessable {A} (rq : request) (detail : string) : M A :=
  problem rq 422 "Unprocessable Entity" detail.

(** The opening of every endpoint: the subject or a 401. *)
Definition authed (rq : request) : M string :=
  match subject rq with
  | Err err => problem rq 401 "Unauthorized" (err_text err)
  | Ok sub => mret sub
  end.

(** The subject's portfolio at the slug, or a 404 or a 500. *)
Definition load (rq : request) : M Portfolio :=
  sub ← authed rq;
  r ← call (on_world (st_Get sub (rq_slug rq)));
  match r with
  | Ok p => mret p
  | Err err => if errors_is err portfolio_ErrNotFound
               then problem rq 404 "Not Found" ("portfolio not found: " +:+ rq_slug rq)
               else internal rq err
  end.

(** [Handler.List]. *)
Definition List (rq : request) : handler := run (
  ownerSub ← authed rq;
  r ← call (on_world (st_List ownerSub));
  match r with
  | Err err => internal rq err
  | Ok rows => ret (writeJSON sonic_err rq 200 (BViews (map toView rows)))
  end).

(** [Handler.Get]. *)
Definition Get (rq : request) : handler := run (
  p ← load rq; ret (writeJSON sonic_err rq 200 (BView (toView p)))).

(** [parseDate]. *)
Definition parseDate (s : string) : result (option instant) :=
  if bool_decide (s = "") then Ok None
  else match parse_date s with
       | Some t => Ok (Some t)
       | None => Err (wrap (quote_string s +:+ ": ") ErrInvalidDate')
       end.

(** [Handler.autoTriggerOrProblem]: the run id, or a status and a problem. *)
Definition autoTriggerOrProblem (created : Portfolio) (c : conn) :
    conn * (option uuid + Z * (string * string)) :=
  if negb (h_dispatcher h) then (c, inl None)
  else
    let '(c, r) := on_world (sv_Submit (ID created)) c in
    (c, match r with
        | Ok runID => inl (Some runID)
        | Err err => if errors_is err portfolio_ErrQueueFull
                     then inr (503, ("Service Unavailable", "backtest queue is full, try again later"))
                     else inr (500, ("Internal Server Error", err_text err))
        end).

(** [Handler.buildPortfolio]. *)
Definition buildPortfolio (ownerSub : string) (norm : CreateRequest) (describe : Describe)
    (cloneURL describeJSON : string) : result Portfolio :=
  slug ← Slug format_float json_unmarshal norm describe;
  Ok {| ID := uuid_Nil; OwnerSub := ownerSub; Types.Slug := slug; Name := r_Name norm;
        StrategyCode := r_StrategyCode norm;
        StrategyVer := if bool_decide (r_StrategyVer norm = "") then None else Some (r_StrategyVer norm);
        StrategyCloneURL := cloneURL; StrategyDescribeJSON := describeJSON;
        Parameters := r_Parameters norm;
        PresetName := presetMatch format_float json_unmarshal (r_Parameters norm) describe;
        Benchmark := r_Benchmark norm; StartDate := r_StartDate norm; EndDate := r_EndDate norm;
        Status := StatusPending; LastRunAt := None; LastError := None; SnapshotPath := None;
        CurrentValue := None; YtdReturn := None; MaxDrawdown := None; Sharpe := None;
        CagrSinceInception := None; InceptionDate := None; CreatedAt := 0; UpdatedAt := 0;
        RunRetention := default 2 (r_RunRetention norm) |}.

(** [Handler.insertAndDispatch]. *)
Definition insertAndDispatch (rq : request) (ownerSub : string) (norm : CreateRequest)
    (describe : Describe) (cloneURL describeJSON : string) : handler := run (
  match buildPortfolio ownerSub norm describe cloneURL describeJSON with
  | Err err => internal rq err
  | Ok p =>
    ins ← call (on_world (st_Insert p));
    match ins with
    | Err err =>
      if errors_is err portfolio_ErrDuplicateSlug then
        problem rq 409 "Conflict" ("portfolio with slug " +:+ Types.Slug p +:+ " already exists for this user")
      else internal rq err
    | Ok _ =>
      stored ← call (on_world (st_Get ownerSub (Types.Slug p)));
      let created := match stored with Ok stored => stored | Err _ => p end in
      t ← call (autoTriggerOrProblem created);
      match t with
      | inr (st, (title, detail)) =>
        _ ← call (on_world (st_Delete ownerSub (Types.Slug created)));
        problem rq st title detail
      | inl runID =>
        let v := toView created <| v_RunID := match runID with
          | Some id => if bool_decide (id = uuid_Nil) then None else Some (uuid_String id)
          | None => None
          end |> in
        ret (writeJSON sonic_err rq 201 (BView v))
      end
    end
  end).

(** [Handler.createOfficial]. *)
Definition createOfficial (rq : request) (ownerSub : string) (req : CreateRequest) : handler := run (
  r ← call (on_world (sv_StrategyGet (r_StrategyCode req)));
  match r with
  | Err err =>
    if errors_is err strategy_ErrNotFound then
      problem rq 422 "Unknown strategy" ("no registered strategy with short_code=" +:+ r_StrategyCode req)
    else internal rq err
  | Ok s =>
    match ValidateCreate unmarshal_describe req s with
    | Err err => problem rq 422 "Invalid portfolio" (err_text err)
    | Ok norm =>
      match unmarshal_describe (s_DescribeJSON s) with
      | Err _ => internal rq errStrategyMalformed'
      | Ok describe =>
        ret (insertAndDispatch rq ownerSub norm describe (s_CloneURL s) (s_DescribeJSON s))
      end
    end
  end).

(** [Handler.createUnofficial]; the build's cleanup runs on every exit after it. *)
Definition createUnofficial (rq : request) (ownerSub : string) (req : CreateRequest) : handler := run (
  match urlValidator (r_StrategyCloneURL req) with
  | Some err => problem rq 422 "Invalid clone URL" (err_text err)
  | None =>
    b ← call (on_world (bd_Build (r_StrategyCloneURL req)));
    match b with
    | Err err => problem rq 422 "Build failed" (err_text err)
    | Ok binPath =>
      res ← call (run (
        raw ← call (on_world (bd_RunDescribe binPath));
        match raw with
        | Err err => problem rq 422 "Describe failed" (err_text err)
        | Ok raw =>
          match unmarshal_describe raw with
          | Err err => problem rq 422 "Describe JSON malformed" (err_text err)
          | Ok describe =>
            match ValidateCreateUnofficial req describe with
            | Err err => problem rq 422 "Invalid portfolio" (err_text err)
            | Ok norm =>
              ret (insertAndDispatch rq ownerSub (norm <| r_StrategyCode := d_ShortCode describe |>)
                     describe (r_StrategyCloneURL req) raw)
            end
          end
        end));
      _ ← call (on_world (bd_Cleanup binPath));
      early res
    end
  end).

(** [Handler.Create]. *)
Definition Create (rq : request) : handler := run (
  ownerSub ← authed rq;
  match decode_create (rq_body rq) with
  | Err err => unprocessable rq ("body is not valid JSON: " +:+ err_text err)
  | Ok b =>
    match parseDate (cb_StartDate b) with
    | Err err => unprocessable rq (err_text err)
    | Ok startDate =>
      match parseDate (cb_EndDate b) with
      | Err err => unprocessable rq (err_text err)
      | Ok endDate =>
        let req := toRequest b startDate endDate in
        let code := bool_decide (r_StrategyCode req = "") in
        let url := bool_decide (r_StrategyCloneURL req = "") in
        if negb code && negb url then
          unprocessable rq "exactly one of strategyCode or strategyCloneUrl is required"
        else if code && url then
          unprocessable rq "one of strategyCode or strategyCloneUrl is required"
        else if negb url then ret (createUnofficial rq ownerSub req)
        else ret (createOfficial rq ownerSub req)
      end
    end
  end).

(** [parsePatchBody]. *)
Definition parsePatchBody (data : string) : result (patchBody * option instant * option instant) :=
  match decode_raw data with
  | Err err => Err (wrap "body is not valid JSON: " err)
  | Ok raw =>
    match list_find (λ k, k ∉ ["name"; "startDate"; "endDate"; "runRetention"]) (range_map raw).*1 with
    | Some (_, k) => Err (wrap ("rejected field " +:+ quote_string k +:+ ": ") ErrImmutableField')
    | None =>
      match decode_patch data with
      | Err err => Err (wrap "body is not valid JSON: " err)
      | Ok b =>
        startDate ← parseDate (pb_StartDate b);
        endDate ← parseDate (pb_EndDate b);
        _ ← validateDates startDate endDate;
        _ ← validateRunRetention (pb_RunRetention b);
        Ok (b, startDate, endDate)
      end
    end
  end.

(** [applyStoreUpdate]: a failed update writes a problem and returns what the
    write returned. *)
Definition applyStoreUpdate (rq : request) (fn : W → W * result unit) : handler := run (
  r ← call (on_world fn);
  match r with
  | Err err => if errors_is err portfolio_ErrNotFound
               then problem rq 404 "Not Found" ("portfolio not found: " +:+ rq_slug rq)
               else internal rq err
  | Ok _ => mret None
  end).

(** [if err := f(c); err != nil { return err }]. *)
Definition check (f : handler) : M () :=
  e ← call f; match e with Some e => early (Some e) | None => mret () end.

(** [Handler.Patch]. *)
Definition Patch (rq : request) : handler := run (
  ownerSub ← authed rq;
  match parsePatchBody (rq_body rq) with
  | Err err => unprocessable rq (err_text err)
  | Ok (b, startDate, endDate) =>
    _ ← (if bool_decide (pb_Name b = "") then mret ()
         else check (applyStoreUpdate rq (st_UpdateName ownerSub (rq_slug rq) (pb_Name b))));
    _ ← (if bool_decide (startDate = None ∧ endDate = None) then mret ()
         else check (applyStoreUpdate rq (st_UpdateDates ownerSub (rq_slug rq) startDate endDate)));
    _ ← match pb_RunRetention b with
        | None => mret ()
        | Some n => check (applyStoreUpdate rq (st_UpdateRunRetention ownerSub (rq_slug rq) n))
        end;
    p ← call (on_world (st_Get ownerSub (rq_slug rq)));
    match p with
    | Err err => internal rq err
    | Ok p => ret (writeJSON sonic_err rq 200 (BView (toView p)))
    end
  end).

(** [Handler.Delete]. *)
Definition Delete (rq : request) : handler := run (
  ownerSub ← authed rq;
  p ← call (on_world (st_Get ownerSub (rq_slug rq)));
  r ← call (on_world (st_Delete ownerSub (rq_slug rq)));
  match r with
  | Err err => if errors_is err portfolio_ErrNotFound
               then problem rq 404 "Not Found" ("portfolio not found: " +:+ rq_slug rq)
               else internal rq err
  | Ok _ =>
    _ ← match p with
        | Ok p => if bool_decide (h_snapshotsDir h = "") then mret None
                  else call (on_world (sv_RemoveAll (Join [h_snapshotsDir h; uuid_String (ID p)])))
        | Err _ => mret None
        end;
    ret (SendStatus 204)
  end).

(** [Handler.writeRecalculating]. *)
Definition writeRecalculating (rq : request) (slug : string) (runID : uuid) (runStatus : string) : handler :=
  writeJSON sonic_err rq 202 (BRecalculating
    {| rc_Status := "recalculating"; rc_RunId := runID; rc_PortfolioSlug := slug; rc_RunStatus := runStatus;
       rc_PollUrl := "/portfolios/" +:+ slug +:+ "/runs/" +:+ uuid_String runID;
       rc_Message := Some "snapshot is being recomputed; poll the run status to determine when it has completed" |}).

(** [Handler.submitFreshRun]: an id and a status, with the error the problem
    writer returned. *)
Definition submitFreshRun (rq : request) (portfolioID : uuid) (c : conn) :
    conn * (uuid * string * option goerror) :=
  let fail st title detail c :=
    let '(c, e) := writeProblem rq st title detail c in (c, (uuid_Nil, "", e)) in
  let '(c, r) := on_world (sv_Submit portfolioID) c in
  match r with
  | Ok id => (c, (id, "queued", None))
  | Err err =>
    if errors_is err portfolio_ErrRunInFlight then
      let '(c, runs) := on_world (st_ListRuns portfolioID) c in
      match runs with
      | Err rerr => fail 500 "Internal Server Error" (err_text rerr) c
      | Ok runs =>
        match pickInflight runs with
        | Some (id, status) => (c, (id, status, None))
        | None => fail 500 "Internal Server Error"
                    "in-flight run vanished after duplicate-submit rejection" c
        end
      end
    else if errors_is err portfolio_ErrQueueFull then
      fail 503 "Service Unavailable" "backtest queue is full, try again later" c
    else fail 500 "Internal Server Error" (err_text err) c
  end.

(** [Handler.respondRecalculating]. *)
Definition respondRecalculating (rq : request) (p : Portfolio) (slug : string) : handler := run (
  if negb (h_dispatcher h) then
    problem rq 501 "Not Implemented" "backtest dispatcher not configured"
  else
    runs ← call (on_world (st_ListRuns (ID p)));
    match runs with
    | Err err => internal rq err
    | Ok runs =>
      match pickInflight runs with
      | Some (id, status) => ret (writeRecalculating rq slug id status)
      | None =>
        if bool_decide (Status p = StatusFailed) && (2 <=? consecutiveFailedRuns runs) then
          let detail := "two consecutive backtest runs failed; retry via POST /portfolios/" +:+ slug +:+ "/runs" in
          problem rq 503 "Snapshot Unavailable"
            match LastError p with
            | Some e => if bool_decide (e = "") then detail else detail +:+ ": " +:+ e
            | None => detail
            end
        else
          s ← call (submitFreshRun rq (ID p));
          let '(id, status, perr) := s in
          match perr with
          | Some perr => early (Some perr)
          | None => ret (writeRecalculating rq slug id status)
          end
      end
    end).

(** [Handler.readSnapshot]; the reader is closed on every exit after it opened. *)
Definition readSnapshot (rq : request) (fn : reader → W → W * result out) : handler := run (
  p ← load rq;
  match SnapshotPath p with
  | Some path =>
    if bool_decide (Status p = StatusReady ∧ path ≠ "") then
      r ← call (on_world (sn_Open path));
      match r with
      | Err _ => ret (respondRecalculating rq p (rq_slug rq))
      | Ok rd =>
        o ← call (on_world (fn rd));
        res ← call (run match o with
          | Err err => if errors_is err errNotFoundSentinel then problem rq 404 "Not Found" "not found"
                       else internal rq err
          | Ok o => ret (JSON sonic_err (BOut o))
          end);
        _ ← call (on_world (sn_Close rd));
        early res
      end
    else ret (respondRecalculating rq p (rq_slug rq))
  | None => ret (respondRecalculating rq p (rq_slug rq))
  end).

(** The error translation of [HoldingsAsOf], [Prediction] and [HoldingsImpact]. *)
Definition snapshot_not_found (r : result out) : result out :=
  match r with
  | Err err => if errors_is err portfolio_ErrSnapshotNotFound then Err errNotFoundSentinel' else Err err
  | Ok o => Ok o
  end.
Definition translated (fn : reader → W → W * result out) (rd : reader) (w : W) : W * result out :=
  let '(w, r) := fn rd w in (w, snapshot_not_found r).

(** The derived-data endpoints. *)
Definition Summary rq := readSnapshot rq (sn_Read QSummary).
Definition Drawdowns rq := readSnapshot rq (sn_Read QDrawdowns).
Definition Statistics rq := readSnapshot rq (sn_Read QStatistics).
Definition TrailingReturns rq := readSnapshot rq (sn_Read QTrailingReturns).
Definition Holdings rq := readSnapshot rq (sn_Read QCurrentHoldings).
Definition Metrics (rq : request) : handler :=
  readSnapshot rq (sn_Read (QMetrics (splitParam (Query rq "window") "since_inception")
                                      (splitParam (Query rq "metric") ""))).
Definition HoldingsAsOf (rq : request) : handler := run (
  match parse_date (rq_date rq) with
  | None => unprocessable rq "date must be YYYY-MM-DD"
  | Some d => ret (readSnapshot rq (translated (sn_Read (QHoldingsAsOf d))))
  end).
Definition HoldingsHistory (rq : request) : handler := run (
  match parseFromTo rq with
  | Err e => unprocessable rq (err_text e)
  | Ok (from, to) => ret (readSnapshot rq (sn_Read (QHoldingsHistory from to)))
  end).
Definition Prediction (rq : request) : handler := readSnapshot rq (translated (sn_Read QPrediction)).
Definition Performance (rq : request) : handler := run (
  match parseFromTo rq with
  | Err e => unprocessable rq (err_text e)
  | Ok (from, to) => ret (readSnapshot rq (sn_Read (QPerformance (rq_slug rq) from to)))
  end).
Definition Transactions (rq : request) : handler := run (
  match parseFromTo rq with
  | Err e => unprocessable rq (err_text e)
  | Ok (from, to) =>
    let s := Query rq "type" in
    let types := if bool_decide (s = "") then [] else split_byte s (byte 44) in
    ret (readSnapshot rq (sn_Read (QTransactions from to types)))
  end).
Definition HoldingsImpact (rq : request) : handler :=
  readSnapshot rq (translated (sn_Read (QHoldingsImpact (rq_slug rq) (parseTopN (Query rq "top"))))).

(** What the hub has for a run, when there is a hub. *)
Definition hub_latest (id : uuid) (c : conn) : conn * option Progress.ProgressMessage :=
  (c, if h_hub h then sv_Latest id (c_world c) else None).

Fixpoint api_runs (slug : string) (runs : list Run) : M (list BacktestRun) :=
  match runs with
  | [] => mret []
  | r :: runs =>
    l ← call (hub_latest (run_ID r));
    rs ← api_runs slug runs;
    mret (toAPIRun r slug l :: rs)
  end.

(** [Handler.ListRuns]. *)
Definition ListRuns (rq : request) : handler := run (
  p ← load rq;
  runs ← call (on_world (st_ListRuns (ID p)));
  match runs with
  | Err err => internal rq err
  | Ok runs => rs ← api_runs (rq_slug rq) runs; ret (JSON sonic_err (BRuns rs))
  end).

(** [Handler.GetRun]. *)
Definition GetRun (rq : request) : handler := run (
  p ← load rq;
  match uuid_Parse (rq_runId rq) with
  | Err _ => unprocessable rq "runId must be a uuid"
  | Ok runID =>
    r ← call (on_world (st_GetRun (ID p) runID));
    match r with
    | Err err => if errors_is err portfolio_ErrNotFound then problem rq 404 "Not Found" "run not found"
                 else internal rq err
    | Ok r => l ← call (hub_latest (run_ID r)); ret (JSON sonic_err (BRun (toAPIRun r (rq_slug rq) l)))
    end
  end).

(** [Handler.CreateRun]. *)
Definition CreateRun (rq : request) : handler := run (
  p ← load rq;
  if bool_decide (Status p = StatusRunning) then problem rq 409 "Conflict" "portfolio is already running"
  else if negb (h_dispatcher h) then
    problem rq 501 "Not Implemented" "backtest dispatcher not configured"
  else
    r ← call (on_world (sv_Submit (ID p)));
    match r with
    | Err err =>
      if errors_is err portfolio_ErrRunInFlight then
        problem rq 409 "Conflict" "a backtest run is already queued or running for this portfolio"
      else if errors_is err portfolio_ErrQueueFull then
        problem rq 503 "Service Unavailable" "backtest queue is full, try again later"
      else internal rq err
    | Ok runID =>
      ret (status_JSON sonic_err 202 (BRun
        {| br_Id := runID; br_PortfolioSlug := rq_slug rq; br_Status := "queued"; br_StartedAt := None;
           br_FinishedAt := None; br_DurationMs := None; br_Error := None; br_Progress := None |}))
    end).

End handler.
