(* ===== verification/Upgrade.v ===== *)
(** Strategy upgrades of portfolios: the shared decision
    (src/portfolio/upgrade_core.go), the endpoint (src/portfolio/upgrade.go) and
    the patch-only auto-upgrade after an install (src/portfolio/auto_upgrade.go). *)
From S2P Require Import Prelude GoStrings GoTime Utf8 Types Json Params Web Handler.

Definition errStoredDescribeInvalid' := sentinel_err errStoredDescribeInvalid "stored describe is invalid".
Definition errRegistryDescribeInvalid' := sentinel_err errRegistryDescribeInvalid "registry describe is invalid".

Inductive UpgradeOutcome :=
  | UpgradeOutcomeUnknown | UpgradeOutcomeAlreadyAtLatest | UpgradeOutcomeApplied
  | UpgradeOutcomeIncompatibleParams | UpgradeOutcomeInvalidParams.

Record UpgradeResult := {
  Outcome : UpgradeOutcome; FromVersion : string; ToVersion : string; RunID : option uuid;
  RunErr : option goerror; Diff : ParameterDiff; NewDescribe : string; ValidateErr : option goerror;
}.
#[export] Instance eta_UpgradeResult : Eta UpgradeResult := λ r,
  Build_UpgradeResult (Outcome r) (FromVersion r) (ToVersion r) (RunID r) (RunErr r) (Diff r)
    (NewDescribe r) (ValidateErr r).

(** [semver.NewVersion] and the methods of [semver.Version] the code calls. *)
Class Semver := {
  version : Type;
  NewVersion : string → result version;
  Major : version → Z;
  Minor : version → Z;
  GreaterThan : version → version → bool;
}.

(** [isPatchBump]. *)
Definition isPatchBump `{Semver} (curVer newVer : version) : bool :=
  if negb (Major curVer =? Major newVer) then false
  else if negb (Minor curVer =? Minor newVer) then false
  else GreaterThan newVer curVer.

Section upgrade.
Context `{MapRange, UnicodeTables}.
Context {W out : Type}.
Context `{!Store W, !Services W}.
Context (format_float : float64 → string).
Context (json_unmarshal : string → result json) (unmarshal_describe : string → result Describe).
(** [json.Marshal] of a parameter map: [Some e] when it fails. *)
Context (marshal_err : gmap string json → option goerror).
Context (h : Handler).

(** [decodeDescribes]. *)
Definition decodeDescribes (p : Portfolio) (s : Strategy) : result (Describe * Describe) :=
  oldDescribe ← (if bool_decide (StrategyDescribeJSON p = "") then Ok zero_Describe
                 else match unmarshal_describe (StrategyDescribeJSON p) with
                      | Ok d => Ok d
                      | Err err => Err (wrap2 errStoredDescribeInvalid' err)
                      end);
  match unmarshal_describe (s_DescribeJSON s) with
  | Ok newDescribe => Ok (oldDescribe, newDescribe)
  | Err err => Err (wrap2 errRegistryDescribeInvalid' err)
  end.

(** The parameters to go on with, or the outcome that ends the attempt. *)
Definition next_params (p : Portfolio) (bodyParams : option (gmap string json))
    (newDescribe : Describe) (diff : ParameterDiff) :
    gmap string json + (UpgradeOutcome * option goerror) :=
  match bodyParams with
  | Some params =>
    match validateParameters params newDescribe with
    | Err err => inr (UpgradeOutcomeInvalidParams, Some err)
    | Ok _ => inl params
    end
  | None =>
    if Compatible diff then inl (mergeKeptAndDefaults (Parameters p) newDescribe diff)
    else inr (UpgradeOutcomeIncompatibleParams, None)
  end.

(** [Handler.doUpgrade]. *)
Definition doUpgrade (p : Portfolio) (s : Strategy) (bodyParams : option (gmap string json)) (w : W) :
    W * (UpgradeResult * option goerror) :=
  let res := {| Outcome := UpgradeOutcomeUnknown; FromVersion := deref (StrategyVer p);
                ToVersion := deref (s_InstalledVer s); RunID := None; RunErr := None;
                Diff := zero_diff; NewDescribe := ""; ValidateErr := None |} in
  if match StrategyVer p, s_InstalledVer s with
     | Some a, Some b => bool_decide (a = b)
     | _, _ => false
     end
  then (w, (res <| Outcome := UpgradeOutcomeAlreadyAtLatest |>, None))
  else
    match decodeDescribes p s with
    | Err err => (w, (res, Some err))
    | Ok (oldDescribe, newDescribe) =>
      let diff := DiffParameters oldDescribe newDescribe in
      let res := res <| Diff := diff |> <| NewDescribe := s_DescribeJSON s |> in
      match next_params p bodyParams newDescribe diff with
      | inr (o, verr) => (w, (res <| Outcome := o |> <| ValidateErr := verr |>, None))
      | inl nextParams =>
        match marshal_err nextParams with
        | Some err => (w, (res, Some err))
        | None =>
          let presetName := MatchPresetName format_float json_unmarshal nextParams newDescribe in
          let '(w, r) := st_ApplyUpgrade (ID p) (deref (s_InstalledVer s)) (s_DescribeJSON s)
                           nextParams presetName w in
          match r with
          | Err err => (w, (res, Some err))
          | Ok _ =>
            let res := res <| Outcome := UpgradeOutcomeApplied |> in
            if negb (h_dispatcher h) then (w, (res, None))
            else
              let '(w, r) := sv_Submit (ID p) w in
              match r with
              | Err err => (w, (res <| RunErr := Some err |>, None))
              | Ok runID => (w, (res <| RunID := Some runID |>, None))
              end
          end
        end
      end
    end.

(** ** src/portfolio/upgrade.go *)
Context (sonic_err : payload out → option goerror) (uuid_String : uuid → string).
(** [sonic.Unmarshal] of the body: the [parameters] member, nil when absent. *)
Context (decode_upgrade : string → result (option (gmap string json))).

Notation conn := (conn out W).
Notation handler := (conn → conn * option goerror).
Notation M := (proc conn (option goerror)).

Definition error_map {A} (rq : request) (st : Z) (code : string) : M A :=
  ret (writeJSON sonic_err rq st (BMap [("error", FStr code)])).

(** [Handler.loadUpgradeTargets]. *)
Definition loadUpgradeTargets (rq : request) : M (Portfolio * Strategy) :=
  p ← load rq;
  if bool_decide (Status p = StatusRunning) then error_map rq 409 "run_in_progress"
  else
    r ← call (on_world (sv_StrategyGet (StrategyCode p)));
    match r with
    | Err _ => error_map rq 422 "strategy_not_installable"
    | Ok s =>
      if bool_decide (s_InstalledVer s = None ∨ s_InstallError s ≠ None)
      then error_map rq 422 "strategy_not_installable"
      else mret (p, s)
    end.

(** [parseUpgradeBody]. *)
Definition parseUpgradeBody (rq : request) : M (option (gmap string json)) :=
  if bool_decide (rq_body rq = "") then mret None
  else match decode_upgrade (rq_body rq) with
       | Err _ => problem rq 400 "Bad Request" "body is not valid JSON"
       | Ok params => mret params
       end.

(** [writeIncompatibleParametersResponse]. *)
Definition writeIncompatibleParametersResponse (rq : request) (p : Portfolio) (s : Strategy)
    (diff : ParameterDiff) : handler :=
  writeJSON sonic_err rq 409 (BMap
    [("error", FStr "parameters_incompatible");
     ("from_version", FStr (deref (StrategyVer p)));
     ("to_version", FStr (deref (s_InstalledVer s)));
     ("incompatibilities", FMap [("removed", FStrs (Removed diff));
                                 ("added_without_default", FStrs (AddedWithoutDefault diff));
                                 ("retyped", FRetyped (Retyped diff))]);
     ("current_parameters", FParams (Parameters p));
     ("new_describe", FRaw (s_DescribeJSON s))]).

(** [writeUpgradeResponse]. *)
Definition writeUpgradeResponse (rq : request) (p : Portfolio) (s : Strategy) (res : UpgradeResult) :
    handler := run (
  match Outcome res with
  | UpgradeOutcomeAlreadyAtLatest =>
    ret (writeJSON sonic_err rq 200 (BMap [("status", FStr "already_at_latest");
                                           ("version", FStr (deref (s_InstalledVer s)))]))
  | UpgradeOutcomeInvalidParams =>
    problem rq 400 "Bad Request" (match ValidateErr res with Some e => err_text e | None => "" end)
  | UpgradeOutcomeIncompatibleParams => ret (writeIncompatibleParametersResponse rq p s (Diff res))
  | UpgradeOutcomeApplied =>
    let body := [("status", FStr "upgraded"); ("from_version", FStr (FromVersion res));
                 ("to_version", FStr (ToVersion res))] in
    match RunErr res with
    | Some err =>
      if errors_is err portfolio_ErrRunInFlight then
        ret (writeJSON sonic_err rq 200 (BMap (body ++ [("note", FStr
          "a backtest run was already in flight; the upgrade is committed and the existing run will continue")])))
      else if errors_is err portfolio_ErrQueueFull then
        problem rq 503 "Service Unavailable"
          "backtest queue is full; the upgrade was committed but no run was queued. Retry by calling POST /portfolios/{slug}/runs"
      else internal rq err
    | None =>
      ret (writeJSON sonic_err rq 200 (BMap
        (body ++ match RunID res with Some id => [("run_id", FStr (uuid_String id))] | None => [] end)))
    end
  | UpgradeOutcomeUnknown => problem rq 500 "Internal Server Error" "unknown upgrade outcome"
  end).

(** [Handler.Upgrade]. *)
Definition Upgrade (rq : request) : handler := run (
  ps ← loadUpgradeTargets rq;
  let '(p, s) := ps in
  bodyParams ← parseUpgradeBody rq;
  r ← call (on_world (doUpgrade p s bodyParams));
  let '(res, err) := r in
  match err with
  | Some err => internal rq err
  | None => ret (writeUpgradeResponse rq p s res)
  end).

(** ** src/portfolio/auto_upgrade.go *)
Context `{Semver}.

(** [AutoUpgrader.tryUpgradeOne]; the outcomes only differ in what they log. *)
Definition tryUpgradeOne (p : Portfolio) (s : Strategy) (newVer : version) (w : W) : W :=
  if bool_decide (Status p = StatusRunning) then w
  else
    match StrategyVer p with
    | None => w
    | Some ver =>
      match NewVersion ver with
      | Err _ => w
      | Ok curVer => if negb (isPatchBump curVer newVer) then w else (doUpgrade p s None w).1
      end
    end.

(** [AutoUpgrader.AutoUpgradeAfterInstall]. *)
Definition AutoUpgradeAfterInstall (shortCode newVer : string) (w : W) : W :=
  let '(w, r) := sv_StrategyGet shortCode w in
  match r with
  | Err _ => w
  | Ok s =>
    if bool_decide (s_InstalledVer s = None ∨ s_InstallError s ≠ None) then w
    else
      match NewVersion newVer with
      | Err _ => w
      | Ok newParsed =>
        let '(w, r) := st_ListByStrategyCode shortCode w in
        match r with
        | Err _ => w
        | Ok portfolios => fold_left (λ w p, tryUpgradeOne p s newParsed w) portfolios w
        end
      end
  end.

End upgrade.
