(* ===== verification/Sse.v ===== *)
(** The progress stream of a run (src/portfolio/progress_handler.go): the
    server-sent events it writes, and the handler that starts it. *)
From S2P Require Import Prelude GoStrings GoTime Utf8 Types Json Web Handler.
From S2P Require Progress.
From Stdlib Require Import Ascii.

Definition newline : ascii := byte 10.
Definition nl : string := String newline "".

(** ** The frames *)
Section frames.
Context (format_float : float64 → string).

(** [json.Marshal] of a struct: its members in declaration order. *)
Definition member (name value : string) : string := marshal_string name +:+ ":" +:+ value.
Definition object (ms : list string) : string := "{" +:+ join ms "," +:+ "}".

Record progressSSEData := {
  ps_Step : Z; ps_TotalSteps : Z; ps_CurrentDate : string; ps_TargetDate : string;
  ps_Pct : float64; ps_ElapsedMS : Z; ps_EtaMS : Z; ps_Measurements : Z;
}.

(** A [Pct] JSON cannot hold fails the marshalling; the error is dropped. *)
Definition marshal_progress (d : progressSSEData) : string :=
  if negb (finite (ps_Pct d)) then ""
  else object [member "step" (itoa (ps_Step d)); member "total_steps" (itoa (ps_TotalSteps d));
    member "current_date" (marshal_string (ps_CurrentDate d));
    member "target_date" (marshal_string (ps_TargetDate d));
    member "pct" (format_float (ps_Pct d)); member "elapsed_ms" (itoa (ps_ElapsedMS d));
    member "eta_ms" (itoa (ps_EtaMS d)); member "measurements" (itoa (ps_Measurements d))].

Record terminalSSEData := { ts_Status : string; ts_Error : string }.

(** An empty error is left out. *)
Definition marshal_terminal (d : terminalSSEData) : string :=
  object (member "status" (marshal_string (ts_Status d)) ::
    if bool_decide (ts_Error d = "") then [] else [member "error" (marshal_string (ts_Error d))]).

(** [fmt.Fprintf(w, "event: %s\ndata: %s\n\n", name, data)]. *)
Definition frame (name data : string) : string :=
  "event: " +:+ name +:+ nl +:+ "data: " +:+ data +:+ nl +:+ nl.

Definition progress_data (msg : Progress.ProgressMessage) : progressSSEData :=
  {| ps_Step := Progress.Step msg; ps_TotalSteps := Progress.TotalSteps msg;
     ps_CurrentDate := Progress.CurrentDate msg; ps_TargetDate := Progress.TargetDate msg;
     ps_Pct := Progress.Pct msg; ps_ElapsedMS := Progress.ElapsedMS msg;
     ps_EtaMS := Progress.EtaMS msg; ps_Measurements := Progress.Measurements msg |}.
Definition writeSSEProgress (msg : Progress.ProgressMessage) : string :=
  frame "progress" (marshal_progress (progress_data msg)).

Definition event_name (status : string) : string :=
  if bool_decide (status = "failed") then "error" else "done".
Definition writeSSETerminal (status errMsg : string) : string :=
  frame (event_name status) (marshal_terminal {| ts_Status := status; ts_Error := errMsg |}).

(** What the [select] of [streamProgressEvents] finds ready, in turn. *)
Inductive ready :=
  | Received (evt : Progress.Event)
  | ChannelClosed
  | ContextDone.

(** [streamProgressEvents]: the bytes written. *)
Fixpoint streamProgressEvents (l : list ready) : string :=
  match l with
  | [] => ""
  | ChannelClosed :: _ | ContextDone :: _ => ""
  | Received evt :: l =>
    match Progress.Progress evt, Progress.Terminal evt with
    | Some msg, _ => writeSSEProgress msg +:+ streamProgressEvents l
    | None, Some t => writeSSETerminal (Progress.Status t) (Progress.Error_ t)
    | None, None => streamProgressEvents l
    end
  end.
End frames.

(** ** The handler *)
Section handler.
Context {W out : Type}.
Context `{!Store W, !Services W}.
Context (uuid_Parse : string → result uuid).
Context (h : Handler).

Notation conn := (conn out W).
Notation handler := (conn → conn * option goerror).
Notation M := (proc conn (option goerror)).

(** [c.SendStreamWriter] after the four headers are set. *)
Definition send_stream (s : stream) (c : conn) : conn * option goerror :=
  ({| c_resp := {| status := status (c_resp c); content_type := "text/event-stream"; body := BStream s |};
      c_world := c_world c |}, None).

(** [Handler.StreamRunProgress]. [Subscribe] neither panics nor blocks. *)
Definition StreamRunProgress (rq : request) : handler := run (
  if negb (h_hub h) then problem rq 501 "Not Implemented" "progress streaming not configured"
  else
    p ← load rq;
    match uuid_Parse (rq_runId rq) with
    | Err _ => problem rq 400 "Bad Request" "invalid run ID"
    | Ok runID =>
      r ← call (on_world (st_GetRun (ID p) runID));
      match r with
      | Err err => if errors_is err portfolio_ErrNotFound then problem rq 404 "Not Found" "run not found"
                   else internal rq err
      | Ok rn =>
        if bool_decide (run_Status rn = "success" ∨ run_Status rn = "failed") then
          ret (send_stream (StreamTerminal (run_Status rn) (default "" (run_Error rn))))
        else
          s ← call (on_world (sv_Subscribe runID));
          match s with
          | Progress.Done ch => ret (send_stream (StreamEvents ch))
          | Progress.Panic | Progress.Block => early (Some (opaque_err "subscribe"))
          end
      end
    end).
End handler.
