(* ===== verification/SseLaws.v ===== *)
(** The progress stream decodes to the events it was given: no text of an event,
    whatever bytes a strategy or an error message puts in it, breaks a frame. *)
From S2P Require Import Prelude GoStrings GoTime Utf8 Types Json Web Sse.
From S2P Require Progress.
From Stdlib Require Import Ascii.

(** ** Text without control characters *)
Definition printable (c : ascii) : Prop := (32 ≤ code c)%nat.
Definition clean (s : string) : Prop := Forall printable (bytes_of s).

Lemma clean_nil : clean "".
Proof. apply Forall_nil_2. Qed.
Lemma clean_cons c s : clean (String c s) ↔ printable c ∧ clean s.
Proof. unfold clean. cbn [bytes_of]. apply Forall_cons. Qed.
Lemma clean_app s t : clean (s +:+ t) ↔ clean s ∧ clean t.
Proof. unfold clean. by rewrite bytes_of_app, Forall_app. Qed.
Lemma clean_join l sep : clean sep → Forall clean l → clean (join l sep).
Proof.
  intros Hs Hl. induction Hl as [|s l Hc Hl IH]; [apply clean_nil|]. cbn [join].
  destruct l; [done|]. by rewrite !clean_app.
Qed.

Definition cleanb (s : string) : bool := forallb (λ c, 32 <=? code c)%nat (bytes_of s).
Lemma cleanb_clean s : cleanb s = true → clean s.
Proof.
  unfold cleanb, clean, printable. rewrite forallb_forall, Forall_forall. intros Hs c Hc.
  apply Nat.leb_le, Hs. by apply list_elem_of_In.
Qed.

Lemma code_byte n : (n < 256)%nat → code (byte n) = n.
Proof. apply nat_ascii_embedding. Qed.
Lemma printable_byte n : (32 ≤ n < 256)%nat → printable (byte n).
Proof. intros Hn. unfold printable. rewrite code_byte; lia. Qed.

Lemma clean_digit n : printable (digit n).
Proof. unfold digit. pose proof (Z.mod_pos_bound n 10). apply printable_byte. lia. Qed.
Lemma clean_digits fuel n acc : clean acc → clean (digits_fuel fuel n acc).
Proof.
  revert n acc. induction fuel as [|fuel IH]; intros n acc Ha; [done|]. cbn [digits_fuel].
  pose proof (clean_digit n). destruct (n / 10 =? 0); [by apply clean_cons|]. apply IH. by apply clean_cons.
Qed.
Lemma clean_itoa n : clean (itoa n).
Proof.
  unfold itoa. assert (clean (digits_fuel (S (Z.to_nat (Z.log2 (Z.abs n)))) (Z.abs n) "")) by apply clean_digits, clean_nil.
  destruct (n <? 0); [|done]. apply clean_cons. split; [|done]. by apply (printable_byte 45); lia.
Qed.

(** ** String literals *)
Lemma decode_rune_tail c l r w :
  decode_rune c l = (r, w) → Forall printable (take (pred w) l).
Proof.
  unfold decode_rune. cbv zeta.
  assert (∀ lo hi x, 128 <= lo → in_range lo hi x = true → printable x) as Hr.
  { intros lo hi x Hlo. unfold in_range, printable. rewrite andb_true_iff, !Z.leb_le. lia. }
  repeat case_match; intros [= <- <-]; cbn [pred take]; repeat constructor;
    repeat match goal with H : _ && _ = true |- _ => apply andb_true_iff in H as [? ?] end;
    (eapply Hr; [|eassumption]; repeat case_match; lia).
Qed.

Lemma escape_byte_printable c : Forall printable (escape_byte c).
Proof.
  assert (∀ n, (n < 128)%nat → Forall printable (escape_byte (byte n))) as Hall.
  { intros n Hn. assert (forallb (λ n, forallb (λ c, 32 <=? code c)%nat (escape_byte (byte n))) (seq 0 128) = true) as Hc
      by (vm_compute; reflexivity).
    rewrite forallb_forall in Hc. specialize (Hc n). rewrite in_seq, forallb_forall in Hc.
    apply Forall_forall. intros x Hx. apply Nat.leb_le, Hc; [lia|]. by apply list_elem_of_In. }
  destruct (decide (code c < 128)%nat) as [Hc|Hc].
  - specialize (Hall _ Hc). unfold byte, code in Hall. by rewrite ascii_nat_embedding in Hall || rewrite nat_ascii_embedding in Hall.
  - unfold escape_byte. rewrite bool_decide_eq_false_2 by lia.
    repeat match goal with |- context [(code c =? ?n)%nat] => destruct (Nat.eqb_spec (code c) n); [lia|] end.
    rewrite bool_decide_eq_false_2 by lia. destruct (Nat.ltb_spec (code c) 32); [lia|]. cbn.
    constructor; [|done]. unfold printable. lia.
Qed.

Lemma escape_from_printable l skip : Forall printable (escape_from skip l).
Proof.
  assert (∀ s, cleanb s = true → Forall printable (bytes_of s)) as Hl by (intros s; apply cleanb_clean).
  revert skip. induction l as [|c l IH]; intros skip; [done|]. cbn [escape_from]. destruct skip; [|apply IH].
  destruct (Nat.ltb_spec (code c) 128) as [Hc|Hc]; [apply Forall_app; split; [apply escape_byte_printable|apply IH]|].
  destruct (decode_rune c l) as [r w] eqn:Hd. pose proof (decode_rune_tail _ _ _ _ Hd).
  repeat case_match; try (apply Forall_app; split; [by apply Hl|apply IH]).
  constructor; [unfold printable; lia|]. apply Forall_app. split; [done|apply IH].
Qed.

Lemma clean_marshal_string s : clean (marshal_string s).
Proof.
  unfold marshal_string. assert (clean quote) by by apply cleanb_clean.
  rewrite !clean_app. split; [done|]. split; [|done]. unfold clean. rewrite bytes_of_of. apply escape_from_printable.
Qed.

(** ** A decoder of event streams *)

(** The [text/event-stream] format on lines: an [event:] line names the event, the
    values of [data:] lines are joined, an empty line dispatches an event that
    has data, every other line is ignored. *)
Fixpoint decode_lines (name : string) (data : option string) (ls : list string) : list (string * string) :=
  match ls with
  | [] => []
  | l :: ls =>
    if bool_decide (l = "") then
      match data with
      | Some d => (name, d) :: decode_lines "" None ls
      | None => decode_lines "" None ls
      end
    else match strip_prefix "event: " l, strip_prefix "data: " l with
         | Some n, _ => decode_lines n data ls
         | None, Some d => decode_lines name (Some (from_option (λ d0, d0 +:+ nl +:+ d) d data)) ls
         | None, None => decode_lines name data ls
         end
  end.
Definition decode (s : string) : list (string * string) := decode_lines "" None (split_byte s newline).

Lemma split_line (e rest : string) :
  clean e → split_byte (e +:+ String newline rest) newline = e :: split_byte rest newline.
Proof.
  induction e as [|a e IH]; str_simpl; [by rewrite decide_True|]. intros [Ha He]%clean_cons.
  rewrite decide_False by (intros ->; unfold printable in Ha; vm_compute in Ha; lia). by rewrite IH.
Qed.

Lemma decode_event name data n ls :
  decode_lines name data (("event: " +:+ n) :: ls) = decode_lines n data ls.
Proof. str_simpl. cbn. reflexivity. Qed.
Lemma decode_data name d ls :
  decode_lines name None (("data: " +:+ d) :: ls) = decode_lines name (Some d) ls.
Proof. str_simpl. cbn. reflexivity. Qed.

(** A frame decodes to its event, whatever follows. *)
Lemma decode_frame name data rest :
  clean name → clean data →
  decode (frame name data +:+ rest) = (name, data) :: decode rest.
Proof.
  intros Hn Hd. unfold decode, frame.
  replace (("event: " +:+ name +:+ nl +:+ "data: " +:+ data +:+ nl +:+ nl) +:+ rest)
    with (("event: " +:+ name) +:+ String newline (("data: " +:+ data) +:+ String newline ("" +:+ String newline rest)))
    by (unfold nl; apply bytes_of_inj; repeat (rewrite !bytes_of_app || cbn [bytes_of]); by rewrite <-!app_assoc).
  assert (clean "event: " ∧ clean "data: ") as [He Hda] by by split; apply cleanb_clean.
  rewrite !split_line by (try apply clean_app; try split; try done; apply clean_nil).
  by rewrite decode_event, decode_data.
Qed.

Section stream.
Context (format_float : float64 → string).
(** A finite double is written without control characters. *)
Hypothesis float_clean : ∀ f, finite f = true → clean (format_float f).

Notation stream := (streamProgressEvents format_float).

Lemma clean_object ms : Forall clean ms → clean (object ms).
Proof.
  intros Hm. unfold object. rewrite !clean_app. split; [by apply cleanb_clean|].
  split; [by apply clean_join; [apply cleanb_clean|]|by apply cleanb_clean].
Qed.
Lemma clean_member n v : clean v → clean (member n v).
Proof.
  intros Hv. unfold member. rewrite !clean_app. split; [apply clean_marshal_string|].
  split; [by apply cleanb_clean|done].
Qed.

Lemma clean_progress d : clean (marshal_progress format_float d).
Proof using float_clean.
  unfold marshal_progress. destruct (finite (ps_Pct d)) eqn:Hf; cbn [negb]; [|apply clean_nil].
  apply clean_object. repeat (apply Forall_cons_2; [apply clean_member;
    first [apply clean_itoa|apply clean_marshal_string|by apply float_clean]|]). apply Forall_nil_2.
Qed.
Lemma clean_terminal d : clean (marshal_terminal d).
Proof.
  unfold marshal_terminal. apply clean_object, Forall_cons_2; [apply clean_member, clean_marshal_string|].
  case_bool_decide; [apply Forall_nil_2|]. apply Forall_cons_2; [|apply Forall_nil_2].
  apply clean_member, clean_marshal_string.
Qed.

(** What reaches the loop before the channel closes or the client leaves, and of
    that, what is sent: everything up to the first terminal event. *)
Fixpoint received (l : list ready) : list Progress.Event :=
  match l with Received e :: l => e :: received l | _ => [] end.
Definition ends (e : Progress.Event) : Prop :=
  Progress.Progress e = None ∧ is_Some (Progress.Terminal e).
#[local] Instance ends_dec e : Decision (ends e) := _.
Definition sent (es : list Progress.Event) : list Progress.Event :=
  match list_find ends es with Some (i, _) => take (S i) es | None => es end.

(** The frame of an event. *)
Definition event_frame (e : Progress.Event) : option (string * string) :=
  match Progress.Progress e, Progress.Terminal e with
  | Some m, _ => Some ("progress", marshal_progress format_float (progress_data m))
  | None, Some t => Some (event_name (Progress.Status t),
      marshal_terminal {| ts_Status := Progress.Status t; ts_Error := Progress.Error_ t |})
  | None, None => None
  end.

Lemma stream_decoded (l : list ready) :
  decode (stream l) = omap event_frame (sent (received l)).
Proof using float_clean.
  induction l as [|[[p t]| |] l IH]; [done| |done..]. cbn [streamProgressEvents received].
  unfold sent in *. cbn [list_find Progress.Progress Progress.Terminal].
  destruct p as [m|].
  - rewrite decide_False by (by intros [? _]). unfold writeSSEProgress.
    rewrite decode_frame, IH by first [apply clean_progress|by apply cleanb_clean].
    destruct (list_find ends (received l)) as [[i e]|]; done.
  - destruct t as [t|].
    + rewrite decide_True by (split; [done|by eexists]). cbn.
      unfold writeSSETerminal. rewrite <-(string_app_nil_r (frame _ _)), decode_frame; [done|..|apply clean_terminal].
      unfold event_name. by case_bool_decide; apply cleanb_clean.
    + rewrite decide_False by (by intros [_ [? ?]]). rewrite IH.
      destruct (list_find ends (received l)) as [[i e]|]; done.
Qed.

(** C20: the bytes of a progress stream decode to one event for each progress
    message received before the first terminal event, in order, then the
    terminal one, and nothing after it; whatever the bytes of the messages and
    errors are, none of them ends a line, starts a frame or forges an event. *)
Theorem stream_decodes (l : list ready) :
  decode (stream l) = omap event_frame (sent (received l)).
Proof using float_clean. apply stream_decoded. Qed.
End stream.

(** A message that tries to forge a second event. *)
Definition demo_event : Progress.Event :=
  Progress.terminal_event {| Progress.Status := "failed"; Progress.Error_ := "x" +:+ nl +:+ nl +:+ "event: done" |}.
Lemma stream_decodes_witness :
  decode (streamProgressEvents (λ _, "0") [Received demo_event; Received demo_event]) =
    [("error", marshal_terminal {| ts_Status := "failed"; ts_Error := "x" +:+ nl +:+ nl +:+ "event: done" |})].
Proof.
  rewrite (stream_decodes (λ _, "0") (λ _ _, cleanb_clean "0" eq_refl)). vm_compute. reflexivity.
Defined.
