(* ===== verification/Relay.v ===== *)
(** From a strategy's standard output to a client: the line writer
    (src/progress/hub.go), the broadcaster of the run, a subscriber's channel and
    the stream of server-sent events (src/portfolio/progress_handler.go). *)
From S2P Require Import Prelude GoStrings GoTime Utf8 Types Json Web Sse SseLaws.
From S2P Require Progress.
From Stdlib Require Import Ascii.
Import Progress(ProgressMessage, Hub, loc, chan, op, OpPublish, Event, progress_event, terminal_event).

#[local] Existing Instance Progress.outcome_ret.
#[local] Existing Instance Progress.outcome_bind.

(** ** What a text publishes *)
Section writer.
Context (parse : string → option ProgressMessage).

(** The progress message of a line, if it holds one. *)
Definition line_message (raw : string) : option ProgressMessage :=
  let line := trim_space raw in
  if decide (line = "") then None
  else msg ← parse line; if decide (Progress.Type_ msg = "progress") then Some msg else None.
(** The progress messages of the complete lines of a text, and what is left of it. *)
Definition printed (text : string) : list ProgressMessage := omap line_message (removelast (split_byte text newline)).
Definition unfinished (text : string) : string := List.last (split_byte text newline) "".

Definition publishes (p : loc) (ms : list ProgressMessage) : list op := OpPublish p <$> ms.

Lemma split_at_newline s idx :
  index_byte s newline = Some idx →
  split_byte s newline = slice_to s idx :: split_byte (slice_from s (idx + 1)) newline.
Proof.
  revert idx. induction s as [|a s IH]; intros idx; cbn [index_byte split_byte]; [done|].
  case_decide as Ha.
  - intros [= <-]. cbn. unfold slice_from. cbn. by rewrite drop_0, of_bytes_of.
  - destruct (index_byte s newline) as [n|] eqn:Hn; [|done]. intros [= <-]. rewrite (IH n eq_refl). done.
Qed.
Lemma no_newline s : index_byte s newline = None → split_byte s newline = [s].
Proof.
  induction s as [|a s IH]; cbn [index_byte split_byte]; [done|]. case_decide; [done|].
  destruct (index_byte s newline); [done|]. intros _. by rewrite IH.
Qed.
Lemma printed_line s idx :
  index_byte s newline = Some idx →
  printed s = option_list (line_message (slice_to s idx)) ++ printed (slice_from s (idx + 1)) ∧
  unfinished s = unfinished (slice_from s (idx + 1)).
Proof.
  intros Hi. unfold printed, unfinished. rewrite (split_at_newline _ _ Hi).
  pose proof (split_byte_ne (slice_from s (idx + 1)) newline) as Hne.
  destruct (split_byte (slice_from s (idx + 1)) newline) as [|l ls]; [done|]. cbn [removelast List.last].
  split; [|done]. cbn [omap list_omap]. by destruct (line_message _).
Qed.

(** A line publishes its message through the run's broadcaster, which stays. *)
Lemma handle_line_step h r p raw :
  Progress.runs h !! r = Some p →
  Progress.handle_line parse h r raw =
    (x ← Progress.exec h (publishes p (option_list (line_message raw))); Progress.Done x.1).
Proof.
  intros Hr. unfold Progress.handle_line, line_message. case_decide; [done|]. destruct (parse _) as [m|]; [|done]. cbn.
  case_decide; [|done]. cbn. unfold Progress.Publish, Progress.broadcaster. rewrite Hr.
  by destruct (Progress.publish_at h p m).
Qed.
Lemma publish_runs h p m h' : Progress.publish_at h p m = Progress.Done h' → Progress.runs h' = Progress.runs h.
Proof.
  unfold Progress.publish_at. destruct (_ !! p); [|done]. cbv zeta. destruct (Progress.fan_out _ _ _) as [x| |]; [|done..].
  by intros [= <-].
Qed.
Lemma publishes_runs p ms h h' evs :
  Progress.exec h (publishes p ms) = Progress.Done (h', evs) → Progress.runs h' = Progress.runs h ∧ evs = [].
Proof.
  revert h evs. induction ms as [|m ms IH]; intros h evs; cbn; [by intros [= <- <-]|].
  destruct (Progress.publish_at h p m) as [h1| |] eqn:Hp; cbn; [|done..].
  destruct (Progress.exec h1 _) as [[h2 e2]| |] eqn:Hx; cbn; [|done..]. intros [= <- <-].
  destruct (IH _ _ Hx) as [-> ->]. by rewrite (publish_runs _ _ _ _ Hp).
Qed.
Lemma exec_app_ops h ops ops' :
  Progress.exec h (ops ++ ops') =
    (x ← Progress.exec h ops; y ← Progress.exec x.1 ops'; Progress.Done (y.1, x.2 ++ y.2)).
Proof.
  revert h. induction ops as [|o ops IH]; intros h; cbn.
  - by destruct (Progress.exec h ops') as [[]| |].
  - destruct (Progress.step h o) as [[h1 e1]| |]; cbn; [|done..]. rewrite IH.
    destruct (Progress.exec h1 ops) as [[h2 e2]| |]; cbn; [|done..].
    destruct (Progress.exec h2 ops') as [[h3 e3]| |]; cbn; [|done..]. by rewrite app_assoc.
Qed.

(** [Write] publishes the messages of the complete lines, in order, and keeps the rest. *)
Lemma write_loop_publishes fuel h r p s :
  (String.length s ≤ fuel)%nat → Progress.runs h !! r = Some p →
  Progress.write_loop parse fuel h r s =
    (x ← Progress.exec h (publishes p (printed s)); Progress.Done (x.1, unfinished s)).
Proof.
  revert h s. induction fuel as [|fuel IH]; intros h s Hl Hr; [by destruct s; [|cbn in Hl; lia]|]. cbn [Progress.write_loop].
  change Progress.newline with newline. destruct (index_byte s newline) as [idx|] eqn:Hi.
  - destruct (printed_line _ _ Hi) as [-> ->]. apply index_byte_split in Hi as [_ Hlt].
    rewrite (handle_line_step _ _ _ _ Hr). unfold publishes. rewrite fmap_app, exec_app_ops.
    destruct (Progress.exec h (OpPublish p <$> option_list _)) as [[h1 e1]| |] eqn:Hx; cbn; [|done..].
    rewrite IH; [|rewrite length_slice_from; lia|by destruct (publishes_runs _ _ _ _ _ Hx) as [-> _]].
    unfold publishes. by destruct (Progress.exec h1 _) as [[h2 e2]| |].
  - unfold printed, unfinished. by rewrite no_newline.
Qed.
Lemma Write_publishes h r p pending chunk :
  Progress.runs h !! r = Some p →
  Progress.Write parse h r pending chunk =
    (x ← Progress.exec h (publishes p (printed (pending +:+ chunk)));
     Progress.Done (x.1, unfinished (pending +:+ chunk))).
Proof. intros Hr. unfold Progress.Write. cbv zeta. by apply write_loop_publishes. Qed.

Lemma published_publishes p ms : Progress.published p (publishes p ms) = ms.
Proof. unfold publishes. induction ms as [|m ms IH]; [done|]. cbn. rewrite decide_True by done. by rewrite IH. Qed.
End writer.

(** ** What the client reads *)
Section client.
Context (parse : string → option ProgressMessage) (format_float : float64 → string).
Hypothesis float_clean : ∀ f, finite f = true → clean (format_float f).

Definition progress_frame (m : ProgressMessage) : string * string :=
  ("progress", marshal_progress format_float (progress_data m)).
Definition terminal_frame (t : Progress.TerminalEvent) : string * string :=
  (event_name (Progress.Status t), marshal_terminal {| ts_Status := Progress.Status t; ts_Error := Progress.Error_ t |}).

Lemma sent_progress (ms : list ProgressMessage) : sent (progress_event <$> ms) = progress_event <$> ms.
Proof.
  unfold sent. destruct (list_find ends (progress_event <$> ms)) as [[i e]|] eqn:Hf; [|done].
  apply list_find_Some in Hf as (He & [Hn _] & _). rewrite list_lookup_fmap in He.
  destruct (ms !! i); [|done]. by injection He as <-.
Qed.
Lemma sent_terminal (ms : list ProgressMessage) t : sent ((progress_event <$> ms) ++ [terminal_event t]) = (progress_event <$> ms) ++ [terminal_event t].
Proof.
  unfold sent. destruct (list_find ends _) as [[i e]|] eqn:Hf; [|done].
  apply list_find_Some in Hf as (He & Hend & _). apply lookup_app_Some in He as [He|[Hl He]].
  - rewrite list_lookup_fmap in He. destruct (ms !! i); [|done]. injection He as <-. by destruct Hend.
  - apply take_ge. rewrite length_app. cbn. lia.
Qed.
Lemma frames_progress (ms : list ProgressMessage) : omap (event_frame format_float) (progress_event <$> ms) = progress_frame <$> ms.
Proof. induction ms as [|m ms IH]; [done|]. cbn. by rewrite IH. Qed.

(** What was received of a stream of messages and at most one terminal event. *)
Lemma received_prefix (acc q : list Event) (H : list ProgressMessage) (t : option Progress.TerminalEvent) :
  acc ++ q = (progress_event <$> H) ++ option_list (terminal_event <$> t) →
  (∃ l, l `prefix_of` H ∧ acc = progress_event <$> l) ∨
  (q = [] ∧ ∃ e, t = Some e ∧ acc = (progress_event <$> H) ++ [terminal_event e]).
Proof.
  revert acc. induction H as [|m H IH]; intros acc Ha; cbn in *.
  - destruct acc as [|a acc]; [left; exists []; split; [apply prefix_nil|done]|]. right.
    destruct t as [e|]; cbn in Ha; [|done]. injection Ha as -> Ha. apply app_eq_nil in Ha as [-> ->]. eauto.
  - destruct acc as [|a acc]; [left; exists []; split; [apply prefix_nil|done]|]. injection Ha as -> Ha.
    destruct (IH _ Ha) as [(l & Hl & ->)|(-> & e & -> & ->)].
    + left. exists (m :: l). split; [by apply prefix_cons|done].
    + right. eauto.
Qed.

Lemma received_all es rest : received rest = [] → received (map Received es ++ rest) = es.
Proof. intros Hr. induction es as [|e es IH]; [done|]. cbn. by rewrite IH. Qed.

(** C21: what a strategy prints reaches the client.  The writer turns a run's
    output, however it is cut into writes, into one publication per complete line
    that is a progress message, in order.  A client that subscribes to the run -
    with the broadcaster's buffer as it is then, and any interleaving of
    publications, other subscribers, receives, completion and cleanup after it -
    is sent bytes that decode to one progress event for each message of a gap-free
    prefix of the buffered messages and those the output then holds, in order,
    followed by at most one terminal event; and to all of them while it is
    subscribed and has read its channel empty. *)
Theorem printed_progress_reaches_client (h h1 h2 : Hub) (r : uuid) (p ch : loc) (b : Progress.runBroadcaster)
    (pending output : string) (ops : list op) (evs : list (loc * Event)) (rest : list ready) :
  Progress.reachable h → Progress.runs h !! r = Some p → Progress.bcasts h !! p = Some b → Progress.terminal b = None →
  Progress.subscribe_at h p = Progress.Done (h1, ch, true) →
  Progress.ops_valid h1 ops → Progress.exec h1 ops = Progress.Done (h2, evs) →
  Progress.published p ops = printed parse (pending +:+ output) → SseLaws.received rest = [] →
  let history := Progress.contents b ++ printed parse (pending +:+ output) in
  let bytes := streamProgressEvents format_float (map Received (Progress.received ch evs) ++ rest) in
  (∀ g, Progress.runs g !! r = Some p →
     Progress.Write parse g r pending output =
       (x ← Progress.exec g (publishes p (printed parse (pending +:+ output)));
        Progress.Done (x.1, unfinished (pending +:+ output)))) ∧
  (∃ l t, l `prefix_of` history ∧
     decode bytes = (progress_frame <$> l) ++ option_list (terminal_frame <$> t)) ∧
  (Progress.subscribed h2 p ch → Progress.chan_queue h2 ch = [] → decode bytes = progress_frame <$> history).
Proof using float_clean.
  intros Hr Hp Hb Ht Hsub Hv Hx Hpub Hrest history bytes. split; [intros g Hg; by apply Write_publishes|].
  pose proof (Progress.subscriber_stream _ _ _ _ _ _ _ _ Hr Hb Ht Hsub Hv Hx) as Hok. rewrite Hpub in Hok.
  fold history in Hok.
  assert (decode bytes = omap (event_frame format_float) (sent (Progress.received ch evs))) as ->.
  { subst bytes. rewrite stream_decoded by done. by rewrite received_all. }
  set (acc := Progress.received ch evs) in *. split.
  - assert (∃ l t, l `prefix_of` history ∧
      acc ++ Progress.chan_queue h2 ch = (progress_event <$> l) ++ option_list (terminal_event <$> t)) as (l & t & Hl & Ha).
    { destruct Hok as [[_ Ha]|[_ Ha]]; [exists history, None; cbn; by rewrite app_nil_r|exact Ha]. }
    destruct (received_prefix _ _ _ _ Ha) as [(k & Hk & ->)|(_ & e & -> & ->)].
    + exists k, None. split; [by etrans|]. cbn. by rewrite app_nil_r, sent_progress, frames_progress.
    + exists l, (Some e). split; [done|]. by rewrite sent_terminal, omap_app, frames_progress.
  - intros Hs Hq. destruct Hok as [[_ Ha]|[[q Hc] _]].
    + rewrite Hq, app_nil_r in Ha. rewrite Ha. change (map progress_event history) with (progress_event <$> history).
      by rewrite sent_progress, frames_progress.
    + exfalso. destruct (Progress.step_safe h (Progress.OpSubscribe p) (Progress.reachable_inv _ Hr)) as (h1' & e1 & Hs1 & Hinv1 & _);
        [by eexists|]. cbn in Hs1. rewrite Hsub in Hs1. injection Hs1 as <- _.
      destruct (Progress.exec_total h1 ops Hinv1 Hv) as (h2' & e2 & Hx2 & Hinv2). rewrite Hx in Hx2. injection Hx2 as <- _.
      destruct Hs as (b2 & Hb2 & Hin). by eapply (Progress.closed_not_sub h2 ch); [|eexists| |].
Qed.
End client.

(** A client that subscribes after one message; the strategy then prints noise, a
    message in two writes, and the start of a line. *)
Definition demo_parse (line : string) : option ProgressMessage :=
  if decide (line = "{2}") then Some (Progress.msg_at 2) else None.
Definition demo_output : string := "warming up" +:+ nl +:+ " {2}" +:+ nl +:+ "{".
Lemma demo_printed : printed demo_parse demo_output = [Progress.msg_at 2] ∧ unfinished demo_output = "{".
Proof. vm_compute. done. Qed.

Definition demo_ops : list op := [OpPublish 0%nat (Progress.msg_at 2); Progress.OpRecv 1%nat; Progress.OpRecv 1%nat].
Lemma printed_progress_reaches_client_witness :
  ∃ h2 evs, Progress.exec Progress.sub1 demo_ops = Progress.Done (h2, evs) ∧
    decode (streamProgressEvents (λ _, "0") (map Received (Progress.received 1%nat evs) ++ [ContextDone]))
      = progress_frame (λ _, "0") <$> [Progress.msg_at 1; Progress.msg_at 2].
Proof.
  destruct (Progress.exec Progress.sub1 demo_ops) as [[h2 evs]| |] eqn:Hx; [|by vm_compute in Hx..].
  exists h2, evs. split; [done|].
  pose proof (printed_progress_reaches_client demo_parse (λ _, "0") (λ _ _, cleanb_clean "0" eq_refl)
    Progress.hub1 Progress.sub1 h2 7%N 0%nat 1%nat (Progress.ring_push Progress.new_broadcaster (Progress.msg_at 1))
    "" demo_output demo_ops evs [ContextDone] Progress.hub1_reachable) as Hw.
  assert (Progress.ops_valid Progress.sub1 demo_ops) as Hv.
  { split; [by eexists|]. intros h e _. split; [done|]. intros h' e' _. by split. }
  destruct (Hw ltac:(by vm_compute) ltac:(by vm_compute) ltac:(by vm_compute) ltac:(by vm_compute) Hv Hx
              ltac:(by vm_compute) eq_refl) as (_ & _ & Hall).
  vm_compute in Hx. injection Hx as <- _. apply Hall; [|by vm_compute].
  eexists. split; [by vm_compute|]. vm_compute. by left.
Defined.
