(* ===== verification/Routes.v ===== *)
(** The route table of the portfolio API (src/api/portfolios.go) and tenant
    isolation: no request writes another user's portfolios or shows one. *)
From S2P Require Import Prelude GoStrings GoTime Utf8 Types Json Params Web Handler Upgrade Sse.

(** The routes [RegisterPortfolioRoutesWith] mounts. *)
Inductive route :=
  | RList | RCreate | RGet | RPatch | RDelete | RSummary | RDrawdowns | RStatistics | RMetrics
  | RTrailingReturns | RHoldings | RHoldingsHistory | RHoldingsAsOf | RHoldingsImpact | RPrediction
  | RPerformance | RTransactions | RUpgrade | RCreateRun | RListRuns | RGetRun
  | RStreamRunProgress.

Section routes.
Context `{MapRange, UnicodeTables}.
Context {W out : Type}.
Context `{!Store W, !Services W, !Builder W, !Snapshots W out}.
Context (sonic_err : payload out → option goerror).
Context (uuid_String : uuid → string) (uuid_Parse : string → result uuid).
Context (quote_string : string → string) (format_float : float64 → string).
Context (json_unmarshal : string → result json) (unmarshal_describe : string → result Describe).
Context (decode_create : string → result createBody) (decode_patch : string → result patchBody).
Context (decode_raw : string → result (gmap string json)).
Context (decode_upgrade : string → result (option (gmap string json))).
Context (marshal_err : gmap string json → option goerror).
Context (urlValidator : string → option goerror).
Context (h : Handler).

Notation conn := (conn out W).
Notation handler := (conn → conn * option goerror).
Notation M := (proc conn (option goerror)).

(** [RegisterPortfolioRoutesWith]. *)
Definition serve (r : route) (rq : request) : handler :=
  match r with
  | RList => List sonic_err rq
  | RCreate => Create sonic_err uuid_String quote_string format_float json_unmarshal unmarshal_describe
                 decode_create urlValidator h rq
  | RGet => Get sonic_err rq
  | RPatch => Patch sonic_err quote_string decode_patch decode_raw rq
  | RDelete => Delete uuid_String h rq
  | RSummary => Summary sonic_err uuid_String h rq
  | RDrawdowns => Drawdowns sonic_err uuid_String h rq
  | RStatistics => Statistics sonic_err uuid_String h rq
  | RMetrics => Metrics sonic_err uuid_String h rq
  | RTrailingReturns => TrailingReturns sonic_err uuid_String h rq
  | RHoldings => Holdings sonic_err uuid_String h rq
  | RHoldingsHistory => HoldingsHistory sonic_err uuid_String h rq
  | RHoldingsAsOf => HoldingsAsOf sonic_err uuid_String h rq
  | RHoldingsImpact => HoldingsImpact sonic_err uuid_String h rq
  | RPrediction => Prediction sonic_err uuid_String h rq
  | RPerformance => Performance sonic_err uuid_String h rq
  | RTransactions => Transactions sonic_err uuid_String h rq
  | RUpgrade => Upgrade format_float json_unmarshal unmarshal_describe marshal_err h sonic_err uuid_String
                  decode_upgrade rq
  | RCreateRun => CreateRun sonic_err h rq
  | RListRuns => ListRuns sonic_err h rq
  | RGetRun => GetRun sonic_err uuid_Parse h rq
  | RStreamRunProgress => StreamRunProgress uuid_Parse h rq
  end.

(** ** What the store promises about owners *)

(** The portfolios of everybody else. *)
Definition foreign (o : string) (m : gmap uuid Portfolio) : gmap uuid Portfolio :=
  filter (λ ip, OwnerSub ip.2 ≠ o) m.

(** The portfolio table behind the interfaces, and the states that keep its schema. *)
Context (table : W → gmap uuid Portfolio) (ok : W → Prop).

(** An operation that leaves the table alone, and one that leaves the rows of
    everybody but one owner alone. *)
Definition quiet {A} (f : W → W * A) : Prop :=
  ∀ w, ok w → ok (f w).1 ∧ table (f w).1 = table w.
Definition owned {A} (o : string) (f : W → W * A) : Prop :=
  ∀ w, ok w → ok (f w).1 ∧ foreign o (table (f w).1) = foreign o (table w).

Class Tenancy := {
  tn_List o : quiet (st_List o);
  tn_List_owner o w l p : ok w → (st_List o w).2 = Ok l → p ∈ l → OwnerSub p = o;
  tn_Get o s : quiet (st_Get o s);
  tn_Get_owner o s w p : ok w → (st_Get o s w).2 = Ok p → OwnerSub p = o ∧ table w !! ID p = Some p;
  tn_ListByStrategyCode c : quiet (st_ListByStrategyCode c);
  tn_ListRuns i : quiet (st_ListRuns i);
  tn_GetRun i j : quiet (st_GetRun i j);
  tn_Insert p : owned (OwnerSub p) (st_Insert p);
  tn_UpdateName o s n : owned o (st_UpdateName o s n);
  tn_UpdateDates o s a b : owned o (st_UpdateDates o s a b);
  tn_UpdateRunRetention o s n : owned o (st_UpdateRunRetention o s n);
  tn_Delete o s : owned o (st_Delete o s);
  tn_ApplyUpgrade p v d ps n w : ok w → table w !! ID p = Some p →
    let w' := (st_ApplyUpgrade (ID p) v d ps n w).1 in
    ok w' ∧ foreign (OwnerSub p) (table w') = foreign (OwnerSub p) (table w);
  tn_Submit i : quiet (sv_Submit i);
  tn_StrategyGet c : quiet (sv_StrategyGet c);
  tn_Subscribe i : quiet (sv_Subscribe i);
  tn_RemoveAll p : quiet (sv_RemoveAll p);
  tn_Build u : quiet (bd_Build u);
  tn_Cleanup b : quiet (bd_Cleanup b);
  tn_RunDescribe b : quiet (bd_RunDescribe b);
  tn_Open p : quiet (sn_Open p);
  tn_Read q rd : quiet (sn_Read q rd);
  tn_Close rd : quiet (sn_Close rd);
}.
Context `{!Tenancy}.

(** ** The isolation invariant of a handler *)
Section isolation.
Context (o : string) (m0 : gmap uuid Portfolio).

(** A view shows a portfolio of the owner. *)
Definition view_of (v : portfolioView) : Prop :=
  ∃ p, OwnerSub p = o ∧ v = toView p <| v_RunID := v_RunID v |>.
Definition body_ok (b : payload out) : Prop :=
  match b with
  | BView v => view_of v
  | BViews l => Forall view_of l
  | _ => True
  end.

(** Everybody else's rows are as in [m0], and the response shows only own ones. *)
Definition iso (c : conn) : Prop :=
  ok (c_world c) ∧ foreign o (table (c_world c)) = foreign o m0 ∧ body_ok (body (c_resp c)).

Definition keeps {A} (m : M A) : Prop := ∀ c, iso c → iso (m c).1.
Definition keeps_h (f : handler) : Prop := ∀ c, iso c → iso (f c).1.

Lemma keeps_mret {A} (a : A) : keeps (mret a).
Proof. by intros c. Qed.
Lemma keeps_early {A} r : keeps (early r : M A).
Proof. by intros c. Qed.
Lemma keeps_bind {A B} (m : M A) (k : A → M B) : keeps m → (∀ a, keeps (k a)) → keeps (m ≫= k).
Proof.
  intros Hm Hk c Hc. specialize (Hm c Hc). unfold mbind, proc_bind.
  destruct (m c) as [c' [r|a]]; [done|]. by apply Hk.
Qed.
Lemma keeps_call {A} (f : conn → conn * A) : (∀ c, iso c → iso (f c).1) → keeps (call f : M A).
Proof. intros Hf c Hc. unfold call. specialize (Hf c Hc). by destruct (f c). Qed.
Lemma keeps_run (m : M (option goerror)) : keeps m → keeps_h (run m).
Proof. intros Hm c Hc. specialize (Hm c Hc). unfold run. by destruct (m c) as [? [?|?]]. Qed.
Lemma keeps_ret {A} (f : handler) : keeps_h f → keeps (ret f : M A).
Proof. intros Hf. apply keeps_bind; [by apply keeps_call|]. intros r. apply keeps_early. Qed.

Lemma iso_on_quiet {A} (f : W → W * A) c : quiet f → iso c → iso (on_world f c).1.
Proof.
  intros Hf (Hok & Hfor & Hb). unfold on_world. destruct (Hf _ Hok) as [Hok' Ht].
  destruct (f (c_world c)) as [w a]. cbn in *. split; [done|]. cbn. by rewrite Ht.
Qed.
Lemma iso_on_owned {A} (f : W → W * A) c : owned o f → iso c → iso (on_world f c).1.
Proof.
  intros Hf (Hok & Hfor & Hb). unfold on_world. destruct (Hf _ Hok) as [Hok' Ht].
  destruct (f (c_world c)) as [w a]. cbn in *. split; [done|]. cbn. by rewrite Ht.
Qed.
Lemma keeps_quiet {A} (f : W → W * A) : quiet f → keeps (call (on_world f) : M A).
Proof. intros Hf. apply keeps_call. intros c. by apply iso_on_quiet. Qed.
Lemma keeps_owned {A} (f : W → W * A) : owned o f → keeps (call (on_world f) : M A).
Proof. intros Hf. apply keeps_call. intros c. by apply iso_on_owned. Qed.

Lemma keeps_writeProblem rq st t d : keeps_h (writeProblem rq st t d).
Proof. intros c (? & ? & ?). by split. Qed.
Lemma keeps_writeJSON rq st v : body_ok v → keeps_h (writeJSON sonic_err rq st v).
Proof. intros Hv c (? & ? & ?). unfold writeJSON. destruct (sonic_err v); by split. Qed.
Lemma keeps_status_JSON st v : body_ok v → keeps_h (status_JSON sonic_err st v).
Proof. intros Hv c (? & ? & ?). unfold status_JSON. destruct (sonic_err v); by split. Qed.
Lemma keeps_JSON v : body_ok v → keeps_h (JSON sonic_err v).
Proof. intros Hv c. by apply keeps_status_JSON. Qed.
Lemma keeps_SendStatus st : keeps_h (SendStatus st).
Proof. intros c (? & ? & ?). by split. Qed.

(** Statements whose result matters: the rest runs on an own portfolio. *)
Lemma keeps_Get {A} s (k : result Portfolio → M A) :
  (∀ r, (∀ p, r = Ok p → OwnerSub p = o) → keeps (k r)) → keeps (call (on_world (st_Get o s)) ≫= k).
Proof.
  intros Hk c Hc. pose proof (iso_on_quiet _ _ (tn_Get o s) Hc) as Hc'.
  pose proof (tn_Get_owner o s (c_world c)) as Ho. unfold mbind, proc_bind, call, on_world in *.
  destruct (st_Get o s (c_world c)) as [w r]. apply Hk; [|done].
  intros p ->. by destruct (Ho p (proj1 Hc) eq_refl).
Qed.
Lemma keeps_List {A} (k : result (list Portfolio) → M A) :
  (∀ r, (∀ l p, r = Ok l → p ∈ l → OwnerSub p = o) → keeps (k r)) → keeps (call (on_world (st_List o)) ≫= k).
Proof.
  intros Hk c Hc. pose proof (iso_on_quiet _ _ (tn_List o) Hc) as Hc'.
  pose proof (tn_List_owner o (c_world c)) as Ho. unfold mbind, proc_bind, call, on_world in *.
  destruct (st_List o (c_world c)) as [w r]. apply Hk; [|done].
  intros l p -> Hp. by eapply (Ho l p (proj1 Hc)).
Qed.

Lemma view_of_toView p : OwnerSub p = o → view_of (toView p).
Proof. intros Hp. by exists p. Qed.

(** The request comes from the owner, if from anybody. *)
Context (rq : request) (Hrq : ∀ sub, subject rq = Ok sub → sub = o).

Lemma keeps_problem {A} st t d : keeps (problem rq st t d : M A).
Proof. apply keeps_ret, keeps_writeProblem. Qed.
Lemma keeps_internal {A} e : keeps (internal rq e : M A).
Proof. apply keeps_problem. Qed.
Lemma keeps_unprocessable {A} d : keeps (unprocessable rq d : M A).
Proof. apply keeps_problem. Qed.

Lemma keeps_ret_bind {A B} (f : handler) (k : A → M B) : keeps_h f → keeps (ret f ≫= k).
Proof.
  intros Hf c Hc. specialize (Hf c Hc). unfold ret, mbind, proc_bind, call, early. by destruct (f c).
Qed.
Lemma keeps_authed {A} (k : string → M A) : keeps (k o) → keeps (authed rq ≫= k).
Proof.
  intros Hk. unfold authed. destruct (subject rq) as [sub|e] eqn:Hs.
  - rewrite (Hrq sub eq_refl). exact Hk.
  - apply keeps_ret_bind, keeps_writeProblem.
Qed.

Lemma bind_assoc {A B C} (m : M A) (k : A → M B) (l : B → M C) c :
  ((m ≫= k) ≫= l) c = (m ≫= λ a, k a ≫= l) c.
Proof. unfold mbind, proc_bind. by destruct (m c) as [? [?|?]]. Qed.
Lemma keeps_assoc {A B C} (m : M A) (k : A → M B) (l : B → M C) :
  keeps (m ≫= λ a, k a ≫= l) → keeps ((m ≫= k) ≫= l).
Proof. intros Hm c Hc. rewrite bind_assoc. by apply Hm. Qed.

Lemma keeps_load {A} (k : Portfolio → M A) :
  (∀ p, OwnerSub p = o → keeps (k p)) → keeps (load rq ≫= k).
Proof.
  intros Hk. unfold load. apply keeps_assoc, keeps_authed, keeps_assoc, keeps_Get.
  intros [p|e] Hp; [by apply Hk, Hp|].
  destruct (errors_is e portfolio_ErrNotFound); apply keeps_ret_bind, keeps_writeProblem.
Qed.

#[local] Hint Resolve tn_List tn_Get tn_ListByStrategyCode tn_ListRuns tn_GetRun tn_UpdateName tn_UpdateDates
  tn_UpdateRunRetention tn_Delete tn_Submit tn_StrategyGet tn_Subscribe tn_RemoveAll tn_Build tn_Cleanup tn_RunDescribe
  tn_Open tn_Read tn_Close : iso.
#[local] Hint Resolve keeps_mret keeps_early keeps_problem keeps_internal keeps_unprocessable
  keeps_writeProblem keeps_SendStatus : iso.
#[local] Hint Resolve view_of_toView : iso.

(** Statement by statement. *)
Ltac iso_step :=
  match goal with
  | |- keeps (load _ ≫= _) => apply keeps_load; intros ? ?
  | |- keeps (authed _ ≫= _) => apply keeps_authed
  | |- keeps (call (on_world (st_Get o _)) ≫= _) => apply keeps_Get; intros ? ?
  | |- keeps (call (on_world (st_List o)) ≫= _) => apply keeps_List; intros ? ?
  | |- keeps (_ ≫= _) => apply keeps_bind; [|intros ?]
  | |- keeps (call (on_world _)) => first [apply keeps_quiet; solve [auto with iso] | apply keeps_owned; solve [auto with iso]]
  | |- keeps (call (run _)) => apply keeps_call; apply keeps_run
  | |- keeps_h (run _) => apply keeps_run
  | |- keeps (ret _) => apply keeps_ret
  | |- keeps_h (writeJSON _ _ _ _) => apply keeps_writeJSON
  | |- keeps_h (JSON _ _) => apply keeps_JSON
  | |- keeps_h (status_JSON _ _ _) => apply keeps_status_JSON
  | |- keeps (match ?x with _ => _ end) => destruct x eqn:?
  | |- keeps_h (match ?x with _ => _ end) => destruct x eqn:?
  | |- _ => solve [auto with iso]
  end.
Ltac iso := repeat iso_step.

Lemma keeps_h_List : keeps_h (List sonic_err rq).
Proof.
  unfold List. iso. cbn. apply Forall_fmap, Forall_forall. intros p Hp. cbn. eauto with iso.
Qed.
Lemma keeps_h_Get : keeps_h (Get sonic_err rq).
Proof. unfold Get. iso. cbn. auto with iso. Qed.

Lemma keeps_trigger created : keeps (call (autoTriggerOrProblem h created) : M _).
Proof.
  apply keeps_call. intros c Hc. unfold autoTriggerOrProblem. destruct (h_dispatcher h); cbn; [|done].
  pose proof (iso_on_quiet _ _ (tn_Submit (ID created)) Hc) as Hc'.
  by destruct (on_world _ c).
Qed.

Lemma keeps_h_insertAndDispatch norm d u j :
  keeps_h (insertAndDispatch sonic_err uuid_String format_float json_unmarshal h rq o norm d u j).
Proof.
  unfold insertAndDispatch. apply keeps_run. destruct (buildPortfolio _ _ _ _ _ _ _) as [p|e] eqn:Hp; [|iso].
  assert (OwnerSub p = o) as Ho.
  { unfold buildPortfolio in Hp. destruct (Slug _ _ _ _); [|done]. by injection Hp as <-. }
  apply keeps_bind; [apply keeps_owned; rewrite <-Ho; apply tn_Insert|]. intros [[]|e]; [|iso].
  apply keeps_Get. intros r Hr. apply keeps_bind; [apply keeps_trigger|].
  assert (OwnerSub (match r with Ok stored => stored | Err _ => p end) = o) as Hcr by (destruct r; auto).
  intros [id|[st [t de]]]; iso. cbn. by eexists.
Qed.
#[local] Hint Resolve keeps_h_insertAndDispatch : iso.

Lemma keeps_h_Create :
  keeps_h (Create sonic_err uuid_String quote_string format_float json_unmarshal unmarshal_describe
             decode_create urlValidator h rq).
Proof. unfold Create, createUnofficial, createOfficial. iso. Qed.

Lemma keeps_update (f : W → W * result unit) : owned o f → keeps_h (applyStoreUpdate rq f).
Proof. intros Hf. unfold applyStoreUpdate. apply keeps_run, keeps_bind; [by apply keeps_owned|]. intros r. iso. Qed.
Lemma keeps_check (f : handler) : keeps_h f → keeps (check f).
Proof. intros Hf. unfold check. apply keeps_bind; [by apply keeps_call|]. intros r. iso. Qed.
#[local] Hint Resolve keeps_update keeps_check : iso.

Lemma keeps_h_Patch : keeps_h (Patch sonic_err quote_string decode_patch decode_raw rq).
Proof. unfold Patch. iso. cbn. eauto with iso. Qed.
Lemma keeps_h_Delete : keeps_h (Delete uuid_String h rq).
Proof. unfold Delete. iso. Qed.

Lemma keeps_recalculating slug id st : keeps_h (writeRecalculating sonic_err uuid_String rq slug id st).
Proof. by apply keeps_writeJSON. Qed.
Lemma keeps_submitFreshRun i : keeps (call (submitFreshRun rq i) : M _).
Proof.
  apply keeps_call. intros c Hc. unfold submitFreshRun.
  pose proof (iso_on_quiet _ _ (tn_Submit i) Hc) as Hc'. destruct (on_world _ c) as [c1 [id|e]]; [exact Hc'|].
  destruct (errors_is e portfolio_ErrRunInFlight).
  - pose proof (iso_on_quiet _ _ (tn_ListRuns i) Hc') as Hc2. cbn [fst] in Hc2.
    destruct (on_world _ c1) as [c2 [runs|re]]; [destruct (pickInflight runs) as [[]|]; [exact Hc2|]|].
    all: exact (keeps_writeProblem rq _ _ _ c2 Hc2).
  - destruct (errors_is e portfolio_ErrQueueFull); exact (keeps_writeProblem rq _ _ _ c1 Hc').
Qed.
#[local] Hint Resolve keeps_recalculating keeps_submitFreshRun : iso.
Lemma keeps_respond p slug : keeps_h (respondRecalculating sonic_err uuid_String h rq p slug).
Proof. unfold respondRecalculating. iso. Qed.
#[local] Hint Resolve keeps_respond : iso.

Lemma quiet_translated (fn : reader → W → W * result out) rd : quiet (fn rd) → quiet (translated fn rd).
Proof. intros Hf w Hw. specialize (Hf w Hw). unfold translated. by destruct (fn rd w). Qed.
#[local] Hint Resolve quiet_translated : iso.

Lemma keeps_readSnapshot fn : (∀ rd, quiet (fn rd)) → keeps_h (readSnapshot sonic_err uuid_String h rq fn).
Proof. intros Hf. unfold readSnapshot. iso. cbn. done. Qed.
#[local] Hint Resolve keeps_readSnapshot : iso.

Lemma keeps_api_runs slug runs : keeps (api_runs h slug runs : M _).
Proof.
  induction runs as [|r runs IH]; cbn [api_runs]; [apply keeps_mret|].
  apply keeps_bind; [by apply keeps_call|]. intros l. apply keeps_bind; [done|]. intros rs. apply keeps_mret.
Qed.
Lemma keeps_hub id : keeps (call (hub_latest h id) : M _).
Proof. by apply keeps_call. Qed.
#[local] Hint Resolve keeps_api_runs keeps_hub : iso.

Lemma keeps_h_runs :
  keeps_h (ListRuns sonic_err h rq) ∧ keeps_h (GetRun sonic_err uuid_Parse h rq) ∧
  keeps_h (CreateRun sonic_err h rq).
Proof. unfold ListRuns, GetRun, CreateRun. split; [|split]; iso; done. Qed.

Lemma keeps_send_stream s : keeps_h (send_stream s).
Proof. by intros c (? & ? & _). Qed.
Lemma keeps_h_Stream : keeps_h (StreamRunProgress uuid_Parse h rq).
Proof. pose proof keeps_send_stream. unfold StreamRunProgress. iso. Qed.

(** An upgrade writes the row it was given. *)
Lemma iso_doUpgrade p s bp c :
  iso c → OwnerSub p = o → table (c_world c) !! ID p = Some p →
  iso (on_world (doUpgrade format_float json_unmarshal unmarshal_describe marshal_err h p s bp) c).1.
Proof.
  intros (Hok & Hfor & Hb) Ho Hp. unfold on_world. cut (ok (doUpgrade format_float json_unmarshal
    unmarshal_describe marshal_err h p s bp (c_world c)).1 ∧ foreign o (table (doUpgrade format_float
    json_unmarshal unmarshal_describe marshal_err h p s bp (c_world c)).1) = foreign o m0).
  { destruct (doUpgrade _ _ _ _ _ _ _ _ _). cbn. by intros []. }
  unfold doUpgrade. cbv zeta. destruct (match StrategyVer p with Some _ => _ | None => false end); [done|].
  destruct (decodeDescribes _ p s) as [[od nd]|e]; [|done].
  destruct (next_params p bp nd _) as [ps|[oc ve]]; [|done]. destruct (marshal_err ps); [done|].
  pose proof (tn_ApplyUpgrade p (deref (s_InstalledVer s)) (s_DescribeJSON s) ps
    (MatchPresetName format_float json_unmarshal ps nd) (c_world c) Hok Hp) as Ha. cbv zeta in Ha.
  rewrite Ho, Hfor in Ha. destruct (st_ApplyUpgrade _ _ _ _ _ _) as [w1 [[]|e]]; [|done].
  destruct (negb (h_dispatcher h)); [done|]. destruct Ha as [Hok1 Hf1].
  destruct (tn_Submit (ID p) w1 Hok1) as [Hok2 Ht2]. destruct (sv_Submit (ID p) w1) as [w2 [id|e]]; cbn in *.
  all: by rewrite Ht2.
Qed.

(** The portfolio a request loads is in the table, and stays there. *)
Lemma load_row c c' p :
  iso c → load rq c = (c', inr p) → OwnerSub p = o ∧ table (c_world c') !! ID p = Some p.
Proof.
  intros Hc. unfold load, authed, mbind, proc_bind. destruct (subject rq) as [sub|e] eqn:Hs.
  2:{ unfold problem, ret, mbind, proc_bind, call, early. by destruct (writeProblem _ _ _ _ _). }
  rewrite (Hrq sub eq_refl). cbn. unfold call, on_world.
  pose proof (tn_Get o (rq_slug rq) _ (proj1 Hc)) as [Hok' Ht].
  pose proof (tn_Get_owner o (rq_slug rq) (c_world c)) as Ho.
  destruct (st_Get o (rq_slug rq) (c_world c)) as [w [p'|e]]; cbn in *.
  - intros [= <- <-]. destruct (Ho p' (proj1 Hc) eq_refl). cbn. by rewrite Ht.
  - by destruct (errors_is e _).
Qed.

Lemma targets_row c c' p s :
  iso c → loadUpgradeTargets sonic_err rq c = (c', inr (p, s)) →
  OwnerSub p = o ∧ table (c_world c') !! ID p = Some p.
Proof.
  intros Hc. unfold loadUpgradeTargets, mbind, proc_bind.
  pose proof (keeps_load (λ p, mret p) (λ _ _, keeps_mret _) c Hc) as Hc1.
  destruct (load rq c) as [c1 [r|p1]] eqn:Hl; [done|].
  assert (iso c1) as Hi1 by (revert Hc1; unfold mbind, proc_bind; by rewrite Hl).
  destruct (load_row _ _ _ Hc Hl) as [Ho Hp]. unfold error_map, ret, mbind, proc_bind, early.
  destruct (bool_decide (Status p1 = StatusRunning)).
  { unfold call. by destruct (writeJSON _ _ _ _ _). }
  unfold call at 1, on_world. pose proof (tn_StrategyGet (StrategyCode p1) _ (proj1 Hi1)) as [_ Ht].
  destruct (sv_StrategyGet _ _) as [w2 [s2|e]]; cbn in *.
  - destruct (bool_decide _); [unfold call; by destruct (writeJSON _ _ _ _ _)|].
    intros [= <- <- <-]. cbn. by rewrite Ht.
  - unfold call. by destruct (writeJSON _ _ _ _ _).
Qed.

Lemma keeps_response p s res :
  keeps_h (writeUpgradeResponse sonic_err uuid_String rq p s res).
Proof. unfold writeUpgradeResponse, writeIncompatibleParametersResponse. iso; done. Qed.

Lemma keeps_targets : keeps (loadUpgradeTargets sonic_err rq : M _).
Proof. unfold loadUpgradeTargets, error_map. iso; done. Qed.
Lemma keeps_body : keeps (parseUpgradeBody decode_upgrade rq : M _).
Proof. unfold parseUpgradeBody. iso. Qed.

Lemma keeps_h_Upgrade :
  keeps_h (Upgrade format_float json_unmarshal unmarshal_describe marshal_err h sonic_err uuid_String
             decode_upgrade rq).
Proof.
  unfold Upgrade. apply keeps_run. intros c Hc. unfold mbind at 1, proc_bind.
  pose proof (keeps_targets c Hc) as Hc1. pose proof (targets_row c) as Hrow.
  destruct (loadUpgradeTargets sonic_err rq c) as [c1 [r|[p s]]]; [done|].
  destruct (Hrow c1 p s Hc eq_refl) as [Ho Hp]. pose proof (keeps_body c1 Hc1) as Hc2.
  unfold mbind at 1, proc_bind. assert (∀ c2 b, parseUpgradeBody decode_upgrade rq c1 = (c2, inr b) →
    c_world c2 = c_world c1) as Hw.
  { unfold parseUpgradeBody. destruct (bool_decide _); [by intros c2 b [= <- <-]|].
    destruct (decode_upgrade _); [by intros c2 b' [= <- <-]|].
    unfold problem, ret, mbind, proc_bind, call, early. by destruct (writeProblem _ _ _ _ _). }
  destruct (parseUpgradeBody decode_upgrade rq c1) as [c2 [r|b]]; [done|]. specialize (Hw c2 b eq_refl).
  rewrite <-Hw in Hp. pose proof (iso_doUpgrade p s b c2 Hc2 Ho Hp) as Hc3.
  unfold mbind, proc_bind, call. destruct (on_world _ c2) as [c3 [res err]].
  destruct err as [e|]; [by apply (@keeps_internal (option goerror) e)|].
  by apply (@keeps_ret (option goerror) _ (keeps_response p s res)).
Qed.

Lemma keeps_serve r :
  keeps_h (serve r rq).
Proof.
  destruct keeps_h_runs as (? & ? & ?).
  destruct r; cbn [serve]; try done;
    first [apply keeps_h_List | apply keeps_h_Create | apply keeps_h_Get | apply keeps_h_Patch
          | apply keeps_h_Delete | apply keeps_h_Upgrade | apply keeps_h_Stream
          | unfold Summary, Drawdowns, Statistics, Metrics, TrailingReturns, Holdings, HoldingsHistory,
              HoldingsAsOf, HoldingsImpact, Prediction, Performance, Transactions; iso].
Qed.
End isolation.

(** Without a subject, no handler gets as far as the server. *)
Lemma unauthenticated r rq c e :
  subject rq = Err e →
  c_world (serve r rq c).1 = c_world c ∧
  (status (c_resp (serve r rq c).1) ∈ [401; 422; 501]).
Proof.
  intros Hs. destruct r; cbn [serve];
    unfold List, Create, Get, Patch, Delete, Summary, Drawdowns, Statistics, Metrics, TrailingReturns, Holdings,
      HoldingsHistory, HoldingsAsOf, HoldingsImpact, Prediction, Performance, Transactions, Upgrade, CreateRun,
      ListRuns, GetRun, StreamRunProgress, loadUpgradeTargets;
    repeat match goal with |- context [match ?x with _ => _ end] =>
      match x with parse_date _ => destruct x | parseFromTo _ => destruct x as [[]|] | negb _ => destruct x end end;
    unfold readSnapshot, load, authed; try rewrite Hs; cbn; set_solver.
Qed.

(** C5: whatever a request asks for, the portfolios of every other user stay as
    they were and no view of one is sent back; a request without a subject
    changes nothing and is answered 401 (or 422, where a date is checked first, or
    501, where there is no progress hub). *)
Theorem tenant_isolation (r : route) (rq : request) (c : conn) :
  ok (c_world c) → c_resp c = fresh →
  let c' := (serve r rq c).1 in
  match subject rq with
  | Ok o => ok (c_world c') ∧ foreign o (table (c_world c')) = foreign o (table (c_world c)) ∧
            body_ok o (body (c_resp c'))
  | Err _ => c_world c' = c_world c ∧ status (c_resp c') ∈ [401; 422; 501]
  end.
Proof.
  intros Hok Hf. cbv zeta. destruct (subject rq) as [o|e] eqn:Hs; [|by eapply unauthenticated].
  apply keeps_serve; [congruence|]. split; [done|]. split; [done|]. by rewrite Hf.
Qed.
End routes.
