(* ===== verification/Server.v ===== *)
(** The server the portfolio handlers run in: the Postgres store behind
    [portfolio.Store] (src/portfolio/store.go), the dispatcher as
    src/cmd/server.go adapts it, the strategy registry, the progress hub and the
    snapshot files; and the proof that this store keeps its owners apart. *)
From S2P Require Import Prelude GoStrings GoTime Utf8 Types PgText Json Path Prog Store StoreLaws Backtest.
From S2P Require Import Dispatcher DispatcherLaws Params Web Handler Upgrade Routes.
From S2P Require Progress.

Definition strategy_ErrNotFound' := sentinel_err strategy_ErrNotFound "strategy not found".

Record server := {
  sv_sys : sys;
  sv_strategies : gmap string Strategy;
  sv_hub : Progress.Hub;
  sv_files : gset string;
}.
#[export] Instance eta_server : Eta server := λ s,
  {| sv_sys := sv_sys s; sv_strategies := sv_strategies s; sv_hub := sv_hub s; sv_files := sv_files s |}.

Definition server_db (s : server) : db := y_db (sv_sys s).
Definition server_table (s : server) : gmap uuid Portfolio := portfolios (server_db s).

Section server.
Context `{MapRange}.
Context (marshal_err : gmap string json → option goerror).
(** Why [os.RemoveAll] fails, if it does. *)
Context (remove_err : string → option goerror).

Definition on_db {A} (f : db → db * A) (s : server) : server * A :=
  let '(d, a) := f (server_db s) in (s <| sv_sys := sv_sys s <| y_db := d |> |>, a).
Definition on_sys {A} (f : sys → sys * A) (s : server) : server * A :=
  let '(y, a) := f (sv_sys s) in (s <| sv_sys := y |>, a).

(** [PoolStore] as a [Store]. *)
#[export] Instance PoolStore : Web.Store server := {
  st_List o := on_db (Store.List o);
  st_Get o s := on_db (Store.Get o s);
  st_Insert p := on_db (Store.Insert marshal_err p);
  st_UpdateName o s n := on_db (Store.UpdateName o s n);
  st_UpdateDates o s a b := on_db (Store.UpdateDates o s a b);
  st_UpdateRunRetention o s n := on_db (Store.UpdateRunRetention o s n);
  st_Delete o s := on_db (Store.Delete o s);
  st_ApplyUpgrade i v d ps n := on_db (Store.ApplyUpgrade i v d ps n);
  st_ListByStrategyCode c := on_db (Store.ListByStrategyCode c);
  st_ListRuns i := on_db (Store.ListRuns i);
  st_GetRun i j := on_db (Store.GetRun i j);
}.

(** [strategy.Get]. *)
Definition strategy_Get (shortCode : string) (s : server) : server * result Strategy :=
  (s, match sv_strategies s !! shortCode with Some st => Ok st | None => Err strategy_ErrNotFound' end).

(** [os.RemoveAll] of a directory or file. *)
Definition RemoveAll (path : string) (s : server) : server * option goerror :=
  match remove_err path with
  | Some e => (s, Some e)
  | None => (s <| sv_files := filter (λ f, f ≠ path ∧ has_prefix f (path +:+ "/") = false) (sv_files s) |>, None)
  end.

#[export] Instance services : Services server := {
  sv_Submit := λ i, on_sys (handler_Submit i);
  sv_StrategyGet := strategy_Get;
  sv_Latest := λ i s, Progress.Latest (sv_hub s) i;
  sv_Subscribe := λ i s,
    match Progress.Subscribe (sv_hub s) i with
    | Progress.Done (h, ch, _) => (s <| sv_hub := h |>, Progress.Done ch)
    | Progress.Panic => (s, Progress.Panic)
    | Progress.Block => (s, Progress.Block)
    end;
  Web.sv_RemoveAll := RemoveAll;
}.

End server.

(** ** Whose rows each statement touches *)
Section statements.
Context `{MapRange} (marshal_err : gmap string json → option goerror).
Section scoped.
Context (o : string).

Definition scoped {A} (m : db → db * result A) : Prop :=
  ∀ d, db_inv d → foreign o (portfolios (m d).1) = foreign o (portfolios d).

Lemma foreign_insert m i p q :
  m !! i = Some q → OwnerSub q = o → OwnerSub p = o → foreign o (<[i := p]> m) = foreign o m.
Proof.
  intros Hq Hoq Hop. apply map_eq. intros j. unfold foreign. rewrite !map_lookup_filter.
  destruct (decide (i = j)) as [<-|Hne]; [|by rewrite lookup_insert_ne].
  rewrite lookup_insert_eq, Hq. cbn. by rewrite !option_guard_False by (cbn; tauto).
Qed.
Lemma foreign_new m i p : m !! i = None → OwnerSub p = o → foreign o (<[i := p]> m) = foreign o m.
Proof.
  intros Hi Hop. apply map_eq. intros j. unfold foreign. rewrite !map_lookup_filter.
  destruct (decide (i = j)) as [<-|Hne]; [|by rewrite lookup_insert_ne].
  rewrite lookup_insert_eq, Hi. cbn. by rewrite option_guard_False by (cbn; tauto).
Qed.
Lemma foreign_delete m i q : m !! i = Some q → OwnerSub q = o → foreign o (delete i m) = foreign o m.
Proof.
  intros Hq Hoq. apply map_eq. intros j. unfold foreign. rewrite !map_lookup_filter.
  destruct (decide (i = j)) as [<-|Hne]; [|by rewrite lookup_delete_ne].
  rewrite lookup_delete_eq, Hq. cbn. by rewrite option_guard_False by (cbn; tauto).
Qed.

Lemma scoped_sql {A} (q : db → result (db * A)) :
  (∀ d d' a, db_inv d → q d = Ok (d', a) → foreign o (portfolios d') = foreign o (portfolios d)) →
  scoped (sql q).
Proof.
  intros Hq d Hinv. destruct (sql q d) as [d' [a|e]] eqn:Hs; cbn.
  - apply sql_Ok in Hs as (d0 & [Hp Hr] & _ & Hn & Hqd). rewrite <-Hp. eapply Hq; [|done].
    eapply inv_tables; eauto. lia.
  - by apply sql_Err in Hs as [-> _].
Qed.
Lemma scoped_with_text {A} ts (q : db → result (db * A)) : scoped (sql q) → scoped (sql (with_text ts q)).
Proof. intros Hq. destruct (with_text_cases ts q) as [-> | ->]; [done|]. apply scoped_sql. by intros ????. Qed.
Lemma scoped_with_jsonb {A} j m (q : db → result (db * A)) : scoped (sql q) → scoped (sql (with_jsonb j m q)).
Proof. intros Hq. destruct (with_jsonb_cases j m q) as [-> | ->]; [done|]. apply scoped_sql. by intros ????. Qed.
Lemma scoped_map_err {A} f (m : db → db * result A) : scoped m → scoped (map_err f m).
Proof. intros Hm d Hinv. specialize (Hm d Hinv). unfold map_err. by destruct (m d). Qed.
Lemma scoped_then_pure {A B} (m : db → db * result A) (k : A → db → db * result B) :
  scoped m → (∀ a d, (k a d).1 = d) → scoped (then_ m k).
Proof.
  intros Hm Hk d Hinv. specialize (Hm d Hinv). unfold then_. destruct (m d) as [d1 [a|e]]; [|done].
  cbn in *. by rewrite Hk.
Qed.
Lemma scoped_update_slug s (f : instant → Portfolio → Portfolio) :
  (∀ t p, OwnerSub (f t p) = OwnerSub p) → scoped (sql (update_slug o s f)).
Proof.
  intros Hf. apply scoped_sql. unfold update_slug. intros d d' n Hinv Hu.
  destruct (find_slug o s d) as [i|] eqn:Hs; [|by injection Hu as <- _].
  apply find_slug_Some in Hs as (p & Hp & Ho & _); [|done]. unfold update_portfolio in Hu. rewrite Hp in Hu.
  injection Hu as <- _. cbn. apply (foreign_insert _ _ _ p); [done|done|by rewrite Hf].
Qed.
End scoped.

(** The statements of the handlers. *)
Lemma scoped_updates o s n a b v :
  scoped o (Store.UpdateName o s n) ∧ scoped o (Store.UpdateDates o s a b) ∧
  scoped o (Store.UpdateRunRetention o s v).
Proof.
  split; [|split]; (apply scoped_then_pure; [|done]); apply scoped_map_err.
  1: by apply scoped_with_text, scoped_update_slug.
  1: by apply scoped_update_slug.
  apply scoped_sql. intros d d' r Hinv Hu. destruct (_ && _); [done|].
  unfold update_slug in Hu. destruct (find_slug o s d) as [i|] eqn:Hs; [|by injection Hu as <- _].
  apply find_slug_Some in Hs as (p & Hp & Ho & _); [|done]. unfold update_portfolio in Hu. rewrite Hp in Hu.
  injection Hu as <- _. by apply (foreign_insert _ _ _ _ p).
Qed.
Lemma scoped_delete o s : scoped o (Store.Delete o s).
Proof.
  apply scoped_then_pure; [|done]. apply scoped_map_err, scoped_sql. unfold delete_row. intros d d' n Hinv Hd.
  destruct (find_slug o s d) as [i|] eqn:Hs; injection Hd as <- _; [|done].
  apply find_slug_Some in Hs as (p & Hp & Ho & _); [|done]. cbn. by apply (foreign_delete _ _ _ p).
Qed.
Lemma scoped_insert p : scoped (OwnerSub p) (Store.Insert marshal_err p).
Proof.
  intros d Hinv. unfold Insert. destruct (marshal_err _); [done|].
  revert d Hinv. apply scoped_map_err, scoped_with_text, scoped_with_jsonb, scoped_sql. intros d d' [] Hinv Hi. unfold insert_row in Hi.
  destruct (RunRetention p <? 1); [done|]. destruct (bool_decide _); [done|].
  destruct (bool_decide _); [|done]. injection Hi as <-. cbn. apply foreign_new; [|done].
  apply eq_None_not_Some. intros Hs. apply (inv_fresh _ Hinv) in Hs. lia.
Qed.
Lemma scoped_apply p v dsc ps n d :
  db_inv d → portfolios d !! ID p = Some p →
  foreign (OwnerSub p) (portfolios (Store.ApplyUpgrade (ID p) v dsc ps n d).1) =
  foreign (OwnerSub p) (portfolios d).
Proof.
  intros Hinv Hp. destruct (Store.ApplyUpgrade _ _ _ _ _ d) as [d' [[]|e]] eqn:Ha; cbn.
  2:{ by apply in_tx_Err in Ha as [-> _]. }
  apply in_tx_Ok in Ha as (d0 & d1 & [Hp0 _] & _ & Hb & [-> _] & _).
  apply then_Ok in Hb as (d2 & m & Hu & Hb). apply map_err_Ok, sql_Ok in Hu as (d3 & [Hp3 _] & _ & _ & Hu).
  apply with_text_Ok, with_jsonb_Ok in Hu. unfold update_portfolio in Hu. rewrite Hp3, Hp0, Hp in Hu. injection Hu as <- <-.
  injection Hb as <-. cbn. by apply (foreign_insert _ _ _ _ p).
Qed.

(** Reading leaves the table alone, and reads own rows. *)
Lemma same_read {A} (q : db → result (db * A)) d :
  (∀ d d' a, q d = Ok (d', a) → d' = d) → portfolios (sql q d).1 = portfolios d.
Proof.
  intros Hq. destruct (sql q d) as [d' [a|e]] eqn:Hs; cbn.
  - apply sql_Ok in Hs as (d0 & [Hp _] & _ & _ & ->%Hq). done.
  - by apply sql_Err in Hs as [-> _].
Qed.
Lemma same_map_err {A} f (m : db → db * result A) d : (map_err f m d).1 = (m d).1.
Proof. unfold map_err. by destruct (m d). Qed.

Lemma get_owner o s d d' p :
  db_inv d → Store.Get o s d = (d', Ok p) → OwnerSub p = o ∧ portfolios d !! ID p = Some p.
Proof.
  intros Hinv Hg. apply sql_Ok in Hg as (d0 & [Hp _] & _ & _ & Hg).
  destruct (filter _ (rows d0)) as [|q l] eqn:Hf; [done|]. injection Hg as _ <-.
  assert (q ∈ filter (λ p, OwnerSub p = o ∧ Types.Slug p = s) (rows d0)) as Hin by (rewrite Hf; by left).
  apply list_elem_of_filter in Hin as [[Ho _] [i Hi]%elem_of_rows]. rewrite Hp in Hi.
  split; [done|]. by rewrite (inv_pid _ Hinv _ _ Hi).
Qed.
Lemma list_owner o d d' l p : Store.List o d = (d', Ok l) → p ∈ l → OwnerSub p = o.
Proof.
  intros Hl. apply map_err_Ok, sql_Ok in Hl as (d0 & _ & _ & _ & Hl). injection Hl as _ <-.
  rewrite merge_sort_Permutation, list_elem_of_filter. by intros [].
Qed.
End statements.

(** ** The store keeps owners apart *)
Section tenancy.
Context `{MapRange} {out : Type}.
Context (marshal_err : gmap string json → option goerror) (remove_err : string → option goerror).
#[local] Existing Instances PoolStore services.
Context `{!Builder server, !Snapshots server out}.

Definition server_ok (s : server) : Prop := db_inv (server_db s).

Lemma on_db_table {A} (f : db → db * A) s :
  server_db (on_db f s).1 = (f (server_db s)).1.
Proof. unfold on_db. by destruct (f (server_db s)). Qed.

Lemma quiet_on_db {A} (f : db → db * result A) :
  good f → (∀ d, portfolios (f d).1 = portfolios d) → quiet server_table server_ok (on_db f).
Proof.
  intros Hg Hf s Hok. unfold server_ok, server_table. rewrite !on_db_table. split; [by apply Hg|apply Hf].
Qed.
Lemma owned_on_db {A} o (f : db → db * result A) :
  good f → scoped o f → owned server_table server_ok o (on_db f).
Proof.
  intros Hg Hf s Hok. unfold server_ok, server_table. rewrite !on_db_table. split; [by apply Hg|by apply Hf].
Qed.

Lemma quiet_submit i : quiet server_table server_ok (on_sys (handler_Submit i)).
Proof.
  intros s Hok. unfold server_ok, server_table, server_db, on_sys, handler_Submit, Submit.
  assert (TriggerManual ∈ [TriggerScheduled; TriggerManual]) as Htr by set_solver.
  destruct (Store.CreateRun i "queued" TriggerManual (y_db (sv_sys s))) as [d [r|e]] eqn:Hc.
  - destruct (create_run_effect _ _ _ _ _ Hok Htr Hc) as (_ & Hp & _).
    destruct (good_after _ _ _ _ (good_create_run i "queued" TriggerManual) Hok Hc) as [Hinv _].
    submit_fields (sv_sys s) d. destruct (y_closed (sv_sys s)); [by destruct (errors_is _ _)|].
    destruct (length (y_tasks (sv_sys s)) <? y_cap (sv_sys s))%nat; [done|].
    pose proof (good_run_failed (run_ID r) "dispatcher queue full" 0 d Hinv) as [Hinv' _].
    destruct (Store.UpdateRunFailed _ _ _ d) as [d' u] eqn:Hu. cbn in *. split; [done|].
    apply update_run_failed_tables in Hu as [-> _]. done.
  - destruct (create_run_err _ _ _ _ _ Hok Hc) as [[Hp Hr] Hn]. cbn.
    split; [|done]. eapply inv_tables; eauto. lia.
Qed.

(** The builder and the snapshot files are not in the database. *)
Hypothesis build_quiet : ∀ u, quiet server_table server_ok (bd_Build u).
Hypothesis cleanup_quiet : ∀ b, quiet server_table server_ok (bd_Cleanup b).
Hypothesis describe_quiet : ∀ b, quiet server_table server_ok (bd_RunDescribe b).
Hypothesis open_quiet : ∀ p, quiet server_table server_ok (sn_Open p).
Hypothesis read_quiet : ∀ q rd, quiet server_table server_ok (sn_Read q rd).
Hypothesis close_quiet : ∀ rd, quiet server_table server_ok (sn_Close rd).

Lemma server_tenancy :
  @Tenancy server out (PoolStore marshal_err) (services remove_err) _ _ server_table server_ok.
Proof using build_quiet cleanup_quiet describe_quiet open_quiet read_quiet close_quiet.
  split; try done.
  - intros o. apply quiet_on_db; [apply good_map_err, good_read; by intros ? ? ? [= <- _]|]. intros d.
    unfold Store.List. rewrite same_map_err. apply same_read. by intros ? ? ? [= <- _].
  - intros o s l p _. cbn. unfold on_db. destruct (Store.List o (server_db s)) as [d r] eqn:Hl. cbn.
    intros ->. by eapply list_owner.
  - intros o s. apply quiet_on_db; [unfold Store.Get; apply good_read|unfold Store.Get; intros d; apply same_read];
      intros d1 d2 a; destruct (filter _ (rows d1)); congruence.
  - intros o sl s p Hok. cbn. unfold on_db, server_table. destruct (Store.Get o sl (server_db s)) as [d r] eqn:Hg.
    cbn. intros ->. by eapply get_owner.
  - intros c. apply quiet_on_db; [apply good_map_err, good_read; by intros ? ? ? [= <- _]|].
    intros d. unfold Store.ListByStrategyCode. rewrite same_map_err. apply same_read. by intros ? ? ? [= <- _].
  - intros i. apply quiet_on_db; [|intros d]; unfold Store.ListRuns; [apply good_read|apply same_read];
      by intros ? ? ? [= <- _].
  - intros i j. apply quiet_on_db; [|intros d]; unfold Store.GetRun;
      [apply good_map_err, good_read|rewrite same_map_err; apply same_read]; intros d1 d2 a;
      destruct (runs d1 !! j); try done; destruct (decide _); congruence.
  - intros p. apply owned_on_db; [apply good_insert|apply scoped_insert].
  - intros o s n. apply owned_on_db; [|by apply (scoped_updates o s n None None 0)].
    unfold Store.UpdateName. auto with pvapi.
  - intros o s a b. apply owned_on_db; [|by apply (scoped_updates o s "" a b 0)].
    unfold Store.UpdateDates. auto with pvapi.
  - intros o s n. apply owned_on_db; [apply good_update_run_retention|by apply (scoped_updates o s "" None None n)].
  - intros o s. apply owned_on_db; [apply good_delete|apply scoped_delete].
  - intros p v dsc ps n s Hok Hp. cbv zeta. unfold server_ok, server_table. cbn [st_ApplyUpgrade PoolStore].
    rewrite !on_db_table. split; [|by apply scoped_apply].
    assert (good (Store.ApplyUpgrade (ID p) v dsc ps n)) as Hg by (unfold Store.ApplyUpgrade; auto 10 with pvapi).
    by apply Hg.
  - intros i. apply quiet_submit.
  - intros i s Hok. cbn. by destruct (Progress.Subscribe _ _) as [[[]]| |].
  - intros p s Hok. cbn. unfold RemoveAll. by destruct (remove_err p).
Qed.
End tenancy.
