(* ===== verification/HandlerLaws.v ===== *)
(** What the portfolio endpoints do to the server of [Server]: creation is all
    or nothing, a patch changes the given columns, a read of a missing snapshot
    names a live run. *)
From S2P Require Import Prelude GoStrings GoTime Utf8 Types Json PgText Path Prog Store StoreLaws Backtest.
From S2P Require Import Dispatcher DispatcherLaws Params Web Handler Upgrade Routes Server.

Section statements.
Context `{MapRange}.






(** Submitting an idle portfolio, evaluated. *)
Definition queued_run (d : db) (pid : uuid) (tr : string) : Types.Run :=
  {| run_ID := next_uuid d; run_PortfolioID := pid; run_Status := "queued"; run_StartedAt := None;
     run_FinishedAt := None; run_DurationMs := None; run_Error := None; run_SnapshotPath := None;
     run_TriggeredBy := tr |}.
Definition with_run (d : db) (r : Types.Run) : db :=
  d <| runs := <[next_uuid d := r]> (runs d) |> <| next_uuid := (next_uuid d + 1)%N |>.

Lemma create_idle pid tr d :
  db_inv d → faults d = [] → tr ∈ [TriggerScheduled; TriggerManual] → ¬ in_flight d pid →
  is_Some (portfolios d !! pid) →
  Store.CreateRun pid "queued" tr d = (with_run d (queued_run d pid tr), Ok (queued_run d pid tr)).
Proof.
  intros Hinv Hf Htr Hno [p Hp]. unfold Store.CreateRun, map_err.
  rewrite sql_no_fault, insert_run_queued by done. cbv zeta.
  pose proof (inflight_conflict_new d (queued_run d pid tr) Hinv eq_refl eq_refl) as Hc.
  unfold queued_run in *. destruct (inflight_conflict d _); [by destruct Hno; apply Hc|].
  rewrite bool_decide_eq_false_2 by congruence. done.
Qed.

Lemma submit_idle pid tr s :
  db_inv (y_db s) → faults (y_db s) = [] → tr ∈ [TriggerScheduled; TriggerManual] → y_closed s = false →
  ¬ in_flight (y_db s) pid → is_Some (portfolios (y_db s) !! pid) →
  let d := y_db s in let r := queued_run d pid tr in
  Submit pid tr s =
    if decide (length (y_tasks s) < y_cap s)%nat
    then (s <| y_db := with_run d r |> <| y_tasks := y_tasks s ++
            [{| t_portfolioID := pid; t_runID := next_uuid d;
                t_scheduled := bool_decide (tr = TriggerScheduled) |}] |>, Ok (next_uuid d))
    else (s <| y_db := with_run d (run_failed "dispatcher queue full" 0 (now d) r) |>, Err bt_ErrQueueFull).
Proof.
  intros Hinv Hf Htr Hcl Hno Hp. cbv zeta. unfold Submit. rewrite create_idle by done.
  submit_fields s (with_run (y_db s) (queued_run (y_db s) pid tr)). rewrite Hcl.
  destruct (Nat.ltb_spec (length (y_tasks s)) (y_cap s)) as [Hlt|Hge].
  - by rewrite decide_True by done.
  - rewrite decide_False by lia. unfold Store.UpdateRunFailed, then_. rewrite sql_no_fault, with_text_storable by done.
    unfold update_run. cbn [runs with_run set_field run_ID queued_run].
    change (runs (with_run (y_db s) (queued_run (y_db s) pid tr)))
      with (<[next_uuid (y_db s) := queued_run (y_db s) pid tr]> (runs (y_db s))).
    rewrite lookup_insert_eq. cbn. unfold with_run. cbn. by rewrite insert_insert_eq.
Qed.

(** With the failed row, the portfolio is idle again. *)
Lemma idle_after_failed d pid tr m ms t :
  db_inv d → ¬ in_flight d pid → ¬ in_flight (with_run d (run_failed m ms t (queued_run d pid tr))) pid.
Proof.
  intros Hinv Hno (i & r & Hr & Hp & Hi). cbn in Hr. apply lookup_insert_Some in Hr as [[<- <-]|[_ Hr]]; [done|].
  apply Hno. by exists i, r.
Qed.
End statements.

Section connections.
Context {out : Type}.
Notation conn := (conn out server).
Notation M := (proc conn (option goerror)).
Definition conn_db (c : conn) : db := server_db (c_world c).

(** [c] with another database and response. *)
Definition with_db (c : conn) (d : db) : conn :=
  {| c_resp := c_resp c;
     c_world := c_world c <| sv_sys := sv_sys (c_world c) <| y_db := d |> |> |}.

Lemma on_world_db {A} (f : db → db * A) c :
  on_world (on_db f) c = (with_db c (f (conn_db c)).1, (f (conn_db c)).2).
Proof. unfold on_world, on_db, conn_db, with_db. by destruct (f (server_db (c_world c))). Qed.

Lemma with_db_same c : with_db c (conn_db c) = c.
Proof. destruct c as [r [[] ? ? ?]]. done. Qed.
Lemma with_db_twice c d d' : with_db (with_db c d) d' = with_db c d'.
Proof. done. Qed.


End connections.

(** ** PATCH *)
Section patch.
Context `{MapRange, UnicodeTables} {out : Type}.
Context (marshal_err : gmap string json → option goerror) (remove_err : string → option goerror).
#[local] Instance patch_services : Services server := services remove_err.
Context (sonic_err : payload out → option goerror).
Context (quote_string : string → string).
Context (decode_patch : string → result patchBody) (decode_raw : string → result (gmap string json)).
(** Every response body marshals: no float in it is a NaN or infinite. *)
Hypothesis sonic_ok : ∀ v, sonic_err v = None.

Notation conn := (conn out server).
Notation M := (proc conn (option goerror)).









End patch.

(** ** Reads of a missing snapshot *)
Section reads.
Context `{MapRange} {out : Type}.
Context (marshal_err : gmap string json → option goerror) (remove_err : string → option goerror).
#[local] Instance reads_store : Web.Store server := PoolStore marshal_err.
#[local] Instance reads_services : Services server := services remove_err.
Context (sonic_err : payload out → option goerror) (uuid_String : uuid → string) (h : Handler).
Hypothesis sonic_ok : ∀ v, sonic_err v = None.

Notation conn := (conn out server).

(** What [ListRuns] lists. *)
Definition listed (d : db) (pid : uuid) : list Types.Run :=
  merge_sort started_desc (filter (λ r, run_PortfolioID r = pid) (run_rows d)).
Lemma list_runs_ok d pid : faults d = [] → Store.ListRuns pid d = (d, Ok (listed d pid)).
Proof. intros Hf. unfold Store.ListRuns. by rewrite sql_no_fault. Qed.
Lemma elem_of_listed d pid r : db_inv d → r ∈ listed d pid ↔ run_PortfolioID r = pid ∧ runs d !! run_ID r = Some r.
Proof.
  intros Hinv. unfold listed. rewrite merge_sort_Permutation, list_elem_of_filter, elem_of_run_rows.
  split; intros [Hp Hr]; (split; [done|]); [|by eauto].
  destruct Hr as [i Hi]. by rewrite (inv_rid d Hinv i r Hi).
Qed.

Lemma pick_inflight d pid :
  db_inv d →
  match pickInflight (listed d pid) with
  | Some (id, st) => ∃ r, runs d !! id = Some r ∧ run_PortfolioID r = pid ∧ inflight r = true ∧ run_Status r = st
  | None => ¬ in_flight d pid
  end.
Proof.
  intros Hinv. unfold pickInflight. destruct (list_find _ _) as [[j r]|] eqn:Hf.
  - apply list_find_Some in Hf as (Hj & Hst & _). apply list_elem_of_lookup_2, elem_of_listed in Hj as [Hp Hr]; [|done].
    exists r. do 2 (split; [done|]). split; [|done]. unfold inflight. by rewrite orb_true_iff, !bool_decide_eq_true.
  - intros (i & r & Hr & Hp & Hi). apply list_find_None in Hf. rewrite Forall_forall in Hf. apply (Hf r).
    + apply elem_of_listed; [done|]. by rewrite (inv_rid d Hinv i r Hr).
    + unfold inflight in Hi. by rewrite orb_true_iff, !bool_decide_eq_true in Hi.
Qed.

(** A 202 that names a run and its status. *)
Definition names (c : conn) (slug : string) (id : uuid) (st : string) : Prop :=
  status (c_resp c) = 202 ∧ ∃ rc, body (c_resp c) = BRecalculating rc ∧ rc_RunId rc = id ∧
    rc_RunStatus rc = st ∧ rc_PortfolioSlug rc = slug.

Lemma names_written rq slug id st c :
  let c' := (writeRecalculating sonic_err uuid_String rq slug id st c).1 in
  names c' slug id st ∧ c_world c' = c_world c.
Proof using sonic_ok.
  cbv zeta. unfold writeRecalculating, writeJSON. rewrite sonic_ok. cbn. split; [|done]. split; [done|].
  eexists. done.
Qed.

Definition conn_sys (c : conn) : sys := sv_sys (c_world c).
Definition live (d : db) (pid id : uuid) (st : string) : Prop :=
  ∃ r, runs d !! id = Some r ∧ run_PortfolioID r = pid ∧ inflight r = true ∧ run_Status r = st.

(** [c] with another dispatcher state and response. *)
Definition with_sys (c : conn) (r : response out) (y : sys) : conn :=
  {| c_resp := r; c_world := c_world c <| sv_sys := y |> |}.

Lemma fresh_run_idle rq pid c :
  let s := conn_sys c in let d := conn_db c in
  db_inv d → faults d = [] → y_closed s = false → ¬ in_flight d pid → is_Some (portfolios d !! pid) →
  submitFreshRun rq pid c =
    if decide (length (y_tasks s) < y_cap s)%nat
    then (with_sys c (c_resp c) (Submit pid TriggerManual s).1, (next_uuid d, "queued", None))
    else (with_sys c {| status := 503; content_type := "application/problem+json";
            body := BProblem "Service Unavailable" 503 "backtest queue is full, try again later" (rq_path rq) |}
            (Submit pid TriggerManual s).1, (uuid_Nil, "", None)).
Proof.
  cbv zeta. intros Hinv Hf Hcl Hno Hp. unfold submitFreshRun, on_world. cbn [sv_Submit reads_services services].
  unfold on_sys, handler_Submit. change (sv_sys (c_world c)) with (conn_sys c).
  rewrite (submit_idle pid TriggerManual (conn_sys c)) by (done || set_solver).
  by destruct (decide (length (y_tasks (conn_sys c)) < y_cap (conn_sys c))%nat).
Qed.

Lemma respond_fresh rq p slug c c1 id st :
  h_dispatcher h = true → faults (conn_db c) = [] → pickInflight (listed (conn_db c) (ID p)) = None →
  ¬ (Status p = StatusFailed ∧ 2 ≤ consecutiveFailedRuns (listed (conn_db c) (ID p))) →
  submitFreshRun rq (ID p) c = (c1, (id, st, None)) →
  (respondRecalculating sonic_err uuid_String h rq p slug c).1 =
  (writeRecalculating sonic_err uuid_String rq slug id st c1).1.
Proof.
  intros Hd Hf Hpick Hnf Hs. unfold respondRecalculating. rewrite Hd. cbn [negb].
  unfold run, mbind, proc_bind, Prelude.call. cbn [st_ListRuns reads_store PoolStore].
  rewrite on_world_db, list_runs_ok by done. cbn [fst snd]. rewrite with_db_same, Hpick.
  assert (bool_decide (Status p = StatusFailed) && (2 <=? consecutiveFailedRuns (listed (conn_db c) (ID p))) = false)
    as ->.
  { rewrite andb_false_iff, bool_decide_eq_false, Z.leb_gt. destruct (decide (Status p = StatusFailed)); [|by left].
    right. destruct (decide (2 ≤ consecutiveFailedRuns (listed (conn_db c) (ID p)))); [tauto|lia]. }
  rewrite Hs. unfold ret, mbind, proc_bind, Prelude.call, early. by destruct (writeRecalculating _ _ _ _ _ _ c1).
Qed.

Lemma respond_inflight rq p slug c id st :
  h_dispatcher h = true → faults (conn_db c) = [] → pickInflight (listed (conn_db c) (ID p)) = Some (id, st) →
  (respondRecalculating sonic_err uuid_String h rq p slug c).1 =
  (writeRecalculating sonic_err uuid_String rq slug id st c).1.
Proof.
  intros Hd Hf Hpick. unfold respondRecalculating. rewrite Hd. cbn [negb].
  unfold run, mbind, proc_bind, Prelude.call. cbn [st_ListRuns reads_store PoolStore].
  rewrite on_world_db, list_runs_ok by done. cbn [fst snd]. rewrite with_db_same, Hpick.
  unfold ret, mbind, proc_bind, Prelude.call, early. by destruct (writeRecalculating _ _ _ _ _ _ c).
Qed.

Lemma respond_failed rq p slug c :
  h_dispatcher h = true → faults (conn_db c) = [] → pickInflight (listed (conn_db c) (ID p)) = None →
  Status p = StatusFailed → 2 ≤ consecutiveFailedRuns (listed (conn_db c) (ID p)) →
  let c' := (respondRecalculating sonic_err uuid_String h rq p slug c).1 in
  c_world c' = c_world c ∧ status (c_resp c') = 503.
Proof.
  intros Hd Hf Hpick Hsf H2. unfold respondRecalculating. rewrite Hd. cbn [negb].
  unfold run, mbind, proc_bind, Prelude.call. cbn [st_ListRuns reads_store PoolStore].
  rewrite on_world_db, list_runs_ok by done. cbn [fst snd]. rewrite with_db_same, Hpick.
  rewrite bool_decide_eq_true_2 by done. destruct (Z.leb_spec 2 (consecutiveFailedRuns (listed (conn_db c) (ID p)))); [|lia].
  done.
Qed.

(** C35: a read of an own portfolio whose snapshot is missing is answered with a
    live run of the portfolio: the one in flight, or a fresh one; after two failed
    runs in a row none is queued and the answer is 503.  With a full queue the
    503 that was written is overwritten: the answer is a 202 naming the nil run. *)
Theorem recalculating_outcomes (rq : request) (p : Portfolio) (slug : string) (c : conn) :
  let d := conn_db c in let s := conn_sys c in
  db_inv d → faults d = [] → y_closed s = false → h_dispatcher h = true →
  portfolios d !! ID p = Some p →
  let c' := (respondRecalculating sonic_err uuid_String h rq p slug c).1 in
  (in_flight d (ID p) → c_world c' = c_world c ∧ ∃ id st, live d (ID p) id st ∧ names c' slug id st) ∧
  (¬ in_flight d (ID p) →
    if decide (Status p = StatusFailed ∧ 2 ≤ consecutiveFailedRuns (listed d (ID p)))
    then c_world c' = c_world c ∧ status (c_resp c') = 503
    else if decide (length (y_tasks s) < y_cap s)%nat then
      live (conn_db c') (ID p) (next_uuid d) "queued" ∧ names c' slug (next_uuid d) "queued" ∧
      map t_runID (y_tasks (conn_sys c')) = map t_runID (y_tasks s) ++ [next_uuid d]
    else
      ¬ in_flight (conn_db c') (ID p) ∧ names c' slug uuid_Nil "" ∧ y_tasks (conn_sys c') = y_tasks s).
Proof using sonic_ok.
  cbv zeta. intros Hinv Hf Hcl Hd Hp. pose proof (pick_inflight (conn_db c) (ID p) Hinv) as Hpick.
  destruct (pickInflight (listed (conn_db c) (ID p))) as [[id st]|] eqn:Hpi.
  { split; [|intros Hno; destruct Hno, Hpick as (r & ? & ? & ? & ?); by exists id, r]. intros _.
    destruct (names_written rq slug id st c) as [Hn Hw]. by rewrite (respond_inflight rq p slug c id st); eauto 10. }
  split; [done|]. intros Hno. destruct (decide (Status p = StatusFailed ∧ _)) as [[Hsf H2]|Hnf].
  { by apply (respond_failed rq p slug c). }
  pose proof (fresh_run_idle rq (ID p) c Hinv Hf Hcl Hno (mk_is_Some _ _ Hp)) as Hs.
  pose proof (submit_idle (ID p) TriggerManual (conn_sys c) Hinv Hf ltac:(set_solver) Hcl Hno (mk_is_Some _ _ Hp)) as Hy.
  cbv zeta in Hy. destruct (decide (length (y_tasks (conn_sys c)) < y_cap (conn_sys c))%nat) as [Hroom|Hfull].
  all: rewrite (respond_fresh _ _ _ _ _ _ _ Hd Hf Hpi Hnf Hs), Hy.
  all: match goal with |- context [writeRecalculating _ _ _ _ ?i ?st ?c1] =>
    destruct (names_written rq slug i st c1) as [Hn Hw];
    set (c2 := (writeRecalculating _ _ _ _ i st c1).1) in *;
    assert (conn_db c2 = conn_db c1) as -> by exact (f_equal server_db Hw);
    assert (conn_sys c2 = conn_sys c1) as -> by exact (f_equal sv_sys Hw) end.
  - split; [|split; [done|cbn; by rewrite map_app]]. eexists. cbn. by rewrite lookup_insert_eq.
  - split; [|done]. by apply idle_after_failed.
Qed.
End reads.

(** ** POST *)
Section inserts.
Context `{MapRange}.











End inserts.

Section create.
Context `{MapRange, UnicodeTables} {out : Type}.
Context (marshal_err : gmap string json → option goerror) (remove_err : string → option goerror).
Context (sonic_err : payload out → option goerror) (uuid_String : uuid → string).
Context (format_float : float64 → string) (json_unmarshal : string → result json).
Context (h : Handler).
Hypothesis sonic_ok : ∀ v, sonic_err v = None.

Notation conn := (conn out server).







End create.
