(* ===== verification/UpgradeLaws.v ===== *)
(** Upgrades on the server of [Server]: an applied upgrade leaves a row whose
    parameters validate against the new describe, every other outcome writes
    nothing, and the auto-upgrade moves patch bumps only. *)
From S2P Require Import Prelude GoStrings GoTime Utf8 Types Json PgText Path Prog Store StoreLaws Backtest.
From S2P Require Import Dispatcher DispatcherLaws Params ParamsLaws Web Handler Upgrade Routes Server.

Section upgrade.
Context `{MapRange, UnicodeTables}.
Context (marshal_err : gmap string json → option goerror) (remove_err : string → option goerror).
#[local] Instance upgrade_store : Web.Store server := PoolStore marshal_err.
#[local] Instance upgrade_services : Services server := services remove_err.
Context (format_float : float64 → string).
Context (json_unmarshal : string → result json) (unmarshal_describe : string → result Describe).
Context (h : Handler).

Notation doUpgrade := (doUpgrade format_float json_unmarshal unmarshal_describe marshal_err h).
Notation MatchPresetName := (MatchPresetName format_float json_unmarshal).

(** The row an upgrade writes. *)
Definition upgraded_row (p : Portfolio) (s : Strategy) (nd : Describe) (params : gmap string json) (t : instant) :
    Portfolio :=
  set_upgrade (deref (s_InstalledVer s)) (s_DescribeJSON s) params (MatchPresetName params nd) t p.

Lemma apply_upgrade_table i v dsc ps n d p :
  portfolios d !! i = Some p →
  let '(d', r) := Store.ApplyUpgrade i v dsc ps n d in
  runs d' = runs d ∧
  portfolios d' = match r with Ok _ => <[i := set_upgrade v dsc ps n (now d) p]> (portfolios d)
                             | Err _ => portfolios d end.
Proof.
  intros Hp. destruct (Store.ApplyUpgrade i v dsc ps n d) as [d' [[]|e]] eqn:Ha.
  2:{ by apply in_tx_Err in Ha as [-> ->]. }
  apply in_tx_Ok in Ha as (d0 & d1 & [Hp0 Hr0] & Hn0 & Hb & [-> ->] & _).
  apply then_Ok in Hb as (d2 & m & Hu & Hb). apply map_err_Ok, sql_Ok in Hu as (d3 & [Hp3 Hr3] & Hn3 & _ & Hu).
  apply with_text_Ok, with_jsonb_Ok in Hu. unfold update_portfolio in Hu. rewrite Hp3, Hp0, Hp in Hu. injection Hu as <- <-. injection Hb as <-.
  cbn. rewrite Hr3, Hr0, Hn3, Hn0. done.
Qed.

(** The parameters of an applied upgrade. *)
Lemma next_params_valid p bp od nd params :
  next_params p bp nd (DiffParameters od nd) = inl params →
  validateParameters (Parameters p) od = Ok () ∨ bp ≠ None →
  validateParameters params nd = Ok () ∧
  match bp with
  | Some ps => params = ps
  | None => Compatible (DiffParameters od nd) = true ∧
            ∀ n, n ∈ declared_names od → params !! n = Parameters p !! n
  end.
Proof.
  unfold next_params. destruct bp as [ps|].
  - destruct (validateParameters ps nd) as [[]|e] eqn:Hv; [|done]. intros [= <-] _. done.
  - destruct (Compatible _) eqn:Hc; [|done]. intros [= <-] [Hv|]; [|done].
    pose proof (compatible_merge_validates (Parameters p) od nd Hv Hc) as (Hm & Hk & _). done.
Qed.

Lemma listed_portfolios code d :
  db_inv d →
  let '(d', r) := Store.ListByStrategyCode code d in
  portfolios d' = portfolios d ∧
  match r with
  | Ok l => NoDup (map ID l) ∧ ∀ p, p ∈ l → portfolios d !! ID p = Some p ∧ StrategyCode p = code
  | Err _ => True
  end.
Proof.
  intros Hinv. unfold Store.ListByStrategyCode, map_err. destruct (sql _ d) as [d' [l|e]] eqn:Hs.
  2:{ by apply sql_Err in Hs as [-> _]. }
  apply sql_Ok in Hs as (d0 & [Hp Hr] & _ & Hn & Hl). injection Hl as <- <-. split; [done|].
  assert (db_inv d0) as Hinv0 by (eapply inv_tables; eauto; lia).
  split; [by apply NoDup_fmap_filter, NoDup_rows|]. intros p [Hc [i Hi]%elem_of_rows]%list_elem_of_filter.
  rewrite <-Hp. by rewrite (inv_pid _ Hinv0 _ _ Hi).
Qed.

Lemma submit_table i w :
  server_ok w → let w' := (sv_Submit i w).1 in
  server_ok w' ∧ server_table w' = server_table w ∧ sv_strategies w' = sv_strategies w.
Proof.
  intros Hok. destruct (quiet_submit i w Hok) as [Hok' Ht]. cbn [sv_Submit upgrade_services services] in *.
  split; [done|]. split; [done|]. unfold on_sys. by destruct (handler_Submit i (sv_sys w)).
Qed.

(** What an attempt comes to. *)
Lemma upgrade_cases (p : Portfolio) (s : Strategy) (bp : option (gmap string json)) (w : server) :
  server_ok w → server_table w !! ID p = Some p →
  let '(w', (res, err)) := doUpgrade p s bp w in
  server_ok w' ∧ sv_strategies w' = sv_strategies w ∧
  match Outcome res with
  | UpgradeOutcomeApplied =>
    err = None ∧ ∃ od nd params, decodeDescribes unmarshal_describe p s = Ok (od, nd) ∧
      next_params p bp nd (DiffParameters od nd) = inl params ∧
      server_table w' = <[ID p := upgraded_row p s nd params (now (server_db w))]> (server_table w)
  | _ => server_table w' = server_table w ∧ runs (server_db w') = runs (server_db w) ∧
         y_tasks (sv_sys w') = y_tasks (sv_sys w)
  end.
Proof.
  intros Hok Hp. unfold Upgrade.doUpgrade. cbv zeta.
  destruct (match StrategyVer p with Some _ => _ | None => false end); [done|].
  destruct (decodeDescribes _ p s) as [[od nd]|e] eqn:Hd; [|done].
  destruct (next_params p bp nd _) as [params|[o ve]] eqn:Hn.
  2:{ unfold next_params in Hn. destruct bp; [destruct (validateParameters _ _)|destruct (Compatible _)];
        try done; by injection Hn as <- <-. }
  destruct (marshal_err params); [done|]. cbn [st_ApplyUpgrade upgrade_store PoolStore]. unfold on_db.
  pose proof (apply_upgrade_table (ID p) (deref (s_InstalledVer s)) (s_DescribeJSON s) params
    (MatchPresetName params nd) (server_db w) p Hp) as Ha.
  assert (good (Store.ApplyUpgrade (ID p) (deref (s_InstalledVer s)) (s_DescribeJSON s) params
    (MatchPresetName params nd))) as Hg by (unfold Store.ApplyUpgrade; auto 10 with pvapi).
  pose proof (proj1 (Hg _ Hok)) as Hok1.
  destruct (Store.ApplyUpgrade _ _ _ _ _ (server_db w)) as [d1 [[]|e]]; destruct Ha as [Hr Ht]; [|done].
  set (w1 := w <| sv_sys := _ |>).
  assert (server_table w1 = <[ID p := upgraded_row p s nd params (now (server_db w))]> (server_table w)) as Ht1 by exact Ht.
  destruct (negb (h_dispatcher h)).
  { cbn. split; [done|]. split; [done|]. split; [done|]. by exists od, nd, params. }
  destruct (submit_table (ID p) w1 Hok1) as (Hok2 & Ht2 & Hs2). destruct (sv_Submit (ID p) w1) as [w2 [id|e]]; cbn in Ht2, Hs2 |- *.
  all: split; [done|]; split; [done|]; split; [done|]; exists od, nd, params; by rewrite Ht2.
Qed.

(** C14: an upgrade that is applied writes one row: the registry's version and
    describe, with the caller's parameters or the merge of the old ones, which
    validate against the new describe if the old ones did against the old; the
    user's values of surviving parameters are kept.  With any other outcome, or
    an error, both tables and the queue are as they were. *)
Theorem upgrade_outcome (p : Portfolio) (s : Strategy) (bp : option (gmap string json)) (w : server) :
  server_ok w → server_table w !! ID p = Some p →
  let '(w', (res, err)) := doUpgrade p s bp w in
  match Outcome res with
  | UpgradeOutcomeApplied =>
    err = None ∧ ∃ od nd params, decodeDescribes unmarshal_describe p s = Ok (od, nd) ∧
      server_table w' = <[ID p := upgraded_row p s nd params (now (server_db w))]> (server_table w) ∧
      (validateParameters (Parameters p) od = Ok () ∨ bp ≠ None →
       validateParameters params nd = Ok () ∧
       match bp with
       | Some ps => params = ps
       | None => Compatible (DiffParameters od nd) = true ∧
                 ∀ n, n ∈ declared_names od → params !! n = Parameters p !! n
       end)
  | _ => server_table w' = server_table w ∧ runs (server_db w') = runs (server_db w) ∧
         y_tasks (sv_sys w') = y_tasks (sv_sys w)
  end.
Proof.
  intros Hok Hp. pose proof (upgrade_cases p s bp w Hok Hp) as Hc. destruct (doUpgrade p s bp w) as [w' [res err]].
  destruct Hc as (_ & _ & Hc). destruct (Outcome res); try done.
  destruct Hc as (He & od & nd & params & Hd & Hn & Ht). split; [done|]. exists od, nd, params.
  split; [done|]. split; [done|]. by apply next_params_valid.
Qed.

(** ** Auto-upgrade *)
Section auto.
Context `{Semver}.

(** The row a patch-only auto-upgrade may write over [p]. *)
Definition auto_moved (s : Strategy) (newVer : version) (p p' : Portfolio) : Prop :=
  Status p ≠ StatusRunning ∧
  (∃ ver v, StrategyVer p = Some ver ∧ NewVersion ver = Ok v ∧
     Major v = Major newVer ∧ Minor v = Minor newVer ∧ GreaterThan newVer v = true) ∧
  (∃ od nd params t, decodeDescribes unmarshal_describe p s = Ok (od, nd) ∧
     Compatible (DiffParameters od nd) = true ∧ p' = upgraded_row p s nd params t).

Notation tryUpgradeOne := (tryUpgradeOne format_float json_unmarshal unmarshal_describe marshal_err h).

Lemma try_upgrade_one p s newVer w :
  server_ok w → server_table w !! ID p = Some p →
  let w' := tryUpgradeOne p s newVer w in
  server_ok w' ∧
  (server_table w' = server_table w ∨
   ∃ p', auto_moved s newVer p p' ∧ server_table w' = <[ID p := p']> (server_table w)).
Proof.
  intros Hok Hp. unfold Upgrade.tryUpgradeOne. destruct (bool_decide_reflect (Status p = StatusRunning)) as [|Hst]; [by auto|].
  destruct (StrategyVer p) as [ver|] eqn:Hver; [|by auto]. destruct (NewVersion ver) as [v|] eqn:Hv; [|by auto].
  unfold isPatchBump. destruct (Z.eqb_spec (Major v) (Major newVer)); cbn [negb]; [|by auto].
  destruct (Z.eqb_spec (Minor v) (Minor newVer)); cbn [negb]; [|by auto].
  destruct (GreaterThan newVer v) eqn:Hgt; cbn [negb]; [|by auto].
  pose proof (upgrade_cases p s None w Hok Hp) as Hc. destruct (doUpgrade p s None w) as [w' [res err]].
  destruct Hc as (Hok' & _ & Hc). split; [done|]. cbn [fst]. destruct (Outcome res); try (left; by destruct Hc).
  destruct Hc as (_ & od & nd & params & Hd & Hn & Ht). right. exists (upgraded_row p s nd params (now (server_db w))).
  split; [|done]. split; [done|]. split; [by exists ver, v|]. exists od, nd, params, (now (server_db w)).
  split; [done|]. split; [|done]. unfold next_params in Hn. by destruct (Compatible _).
Qed.

Lemma auto_fold s newVer l w :
  server_ok w → NoDup (map ID l) → (∀ p, p ∈ l → server_table w !! ID p = Some p) →
  let w' := fold_left (λ w p, tryUpgradeOne p s newVer w) l w in
  ∀ i, server_table w' !! i = server_table w !! i ∨
    ∃ p p', p ∈ l ∧ server_table w !! i = Some p ∧ server_table w' !! i = Some p' ∧ auto_moved s newVer p p'.
Proof.
  revert w. induction l as [|q l IH]; intros w Hok Hnd Hl; [by left|].
  apply NoDup_cons in Hnd as [Hq Hnd]. cbn [fold_left]. intros i.
  destruct (try_upgrade_one q s newVer w Hok (Hl q ltac:(by left))) as [Hok1 Ht1].
  set (w1 := tryUpgradeOne q s newVer w) in *.
  assert (∀ j, j ≠ ID q → server_table w1 !! j = server_table w !! j) as Hother.
  { intros j Hj. destruct Ht1 as [->|(q' & _ & ->)]; [done|]. by rewrite lookup_insert_ne. }
  assert (∀ p, p ∈ l → ID p ≠ ID q) as Hne.
  { intros p Hp Heq. apply Hq. rewrite <-Heq. by apply list_elem_of_fmap_2. }
  destruct (IH w1 Hok1 Hnd) with (i := i) as [Heq|(p & p' & Hp & Hpi & Hp' & Hm)].
  { intros p Hp. rewrite Hother by auto. apply Hl. by right. }
  - rewrite Heq. destruct (decide (i = ID q)) as [->|Hi]; [|left; by apply Hother].
    destruct Ht1 as [->|(q' & Hm & Ht)]; [by left|]. right. exists q, q'. rewrite Ht, lookup_insert_eq.
    split; [by left|]. split; [apply Hl; by left|]. done.
  - right. pose proof (inv_pid _ Hok1 _ _ Hpi) as Hid. rewrite Hother in Hpi by (rewrite <-Hid; auto).
    exists p, p'. split; [by right|done].
Qed.

(** C34: after an install, however the server fails, a portfolio changes only if
    it uses that strategy, is not running, is pinned to an older version of the
    same major and minor number as the version just installed, and its
    parameters merge; it then has the registry's version.  No row appears or
    goes away. *)
Theorem auto_upgrade_patch_only (shortCode newVer : string) (w : server) :
  server_ok w →
  let w' := AutoUpgradeAfterInstall format_float json_unmarshal unmarshal_describe marshal_err h shortCode newVer w in
  ∀ i, server_table w' !! i = server_table w !! i ∨
    ∃ p p' s v, server_table w !! i = Some p ∧ StrategyCode p = shortCode ∧
      sv_strategies w !! shortCode = Some s ∧ s_InstallError s = None ∧ NewVersion newVer = Ok v ∧
      server_table w' !! i = Some p' ∧ auto_moved s v p p' ∧ StrategyVer p' = s_InstalledVer s.
Proof.
  intros Hok. cbv zeta. unfold AutoUpgradeAfterInstall. cbn [sv_StrategyGet upgrade_services services].
  unfold strategy_Get. destruct (sv_strategies w !! shortCode) as [s|] eqn:Hs; [|by left].
  destruct (bool_decide_reflect (s_InstalledVer s = None ∨ s_InstallError s ≠ None)) as [|Hinst]; [by left|].
  destruct (NewVersion newVer) as [v|]; [|by left]. cbn [st_ListByStrategyCode upgrade_store PoolStore]. unfold on_db.
  pose proof (listed_portfolios shortCode (server_db w) Hok) as Hl.
  assert (db_inv (Store.ListByStrategyCode shortCode (server_db w)).1) as Hok1.
  { apply good_map_err; [|done]. apply good_read. by intros ? ? ? [= <- _]. }
  destruct (Store.ListByStrategyCode shortCode (server_db w)) as [d [l|e]]; destruct Hl as [Ht Hl]; cbn in Hok1.
  2:{ left. unfold server_table, server_db. cbn. by rewrite Ht. }
  destruct Hl as [Hnd Hrow]. set (w1 := w <| sv_sys := _ |>). intros i.
  assert (server_table w1 = server_table w) as Hw1 by exact Ht.
  destruct (auto_fold s v l w1 Hok1 Hnd) with (i := i) as [Heq|(p & p' & Hp & Hpi & Hp' & Hm)].
  { intros p Hp. rewrite Hw1. by apply Hrow. }
  - left. by rewrite Heq, Hw1.
  - right. exists p, p', s, v. rewrite Hw1 in Hpi. split; [done|]. split; [by apply Hrow|]. split; [done|].
    split; [destruct (s_InstallError s); [destruct Hinst; by right|done]|]. split; [done|]. split; [done|]. split; [done|].
    destruct Hm as (_ & _ & (od & nd & params & t & _ & _ & ->)). cbn.
    destruct (s_InstalledVer s); [done|]. destruct Hinst. by left.
Qed.
End auto.
End upgrade.
