(* ===== verification/ServerDemo.v ===== *)
(** Concrete requests against a concrete server: the theorems about the handlers
    and the upgrades applied where their hypotheses hold. *)
From S2P Require Import Prelude GoStrings GoTime Utf8 Types Json Path Prog Store StoreLaws Backtest.
From S2P Require Import Dispatcher DispatcherLaws Params ParamsLaws Web Handler Upgrade Routes Server.
From S2P Require Import HandlerLaws UpgradeLaws.
From S2P Require Progress.

Section demo.
#[local] Existing Instance canonical_range.
#[local] Existing Instance ascii_tables.

(** Parameters as [demo_param] names them; the describe text is its version. *)
Definition demo_describe (s : string) : result Describe :=
  if bool_decide (s = "old") then Ok demo_old
  else if bool_decide (s = "new") then Ok demo_new else Err (opaque_err "bad json").
Definition demo_strategy : Strategy :=
  listed_Strategy "" "" "" "" true None None [] None 0 <| s_InstalledVer := Some "0.2.2" |> <| s_DescribeJSON := "new" |>.
Definition demo_pinned : Portfolio :=
  demo_portfolio <| StrategyVer := Some "0.2.1" |> <| StrategyDescribeJSON := "old" |> <| Parameters := demo_params |>.
Definition demo_world (p : Portfolio) (d : db) : server :=
  {| sv_sys := demo_sys <| y_db := d <| portfolios := {[1%N := p]} |> |>; sv_strategies := {["" := demo_strategy]};
     sv_hub := Progress.NewHub; sv_files := ∅ |}.

Lemma demo_world_ok p d' :
  d' = demo_db → ID p = 1%N → 1 ≤ RunRetention p → Status p = StatusReady → server_ok (demo_world p d').
Proof.
  intros -> Hid Hret Hst. pose proof demo_db_inv as [Ip Is Ir Ist Irid Ifk Irs Iin Ifr Inil].
  assert (∀ i q, ({[1%N := p]} : gmap uuid Portfolio) !! i = Some q → i = 1%N ∧ q = p) as Hp.
  { intros i q. by intros [<- <-]%lookup_singleton_Some. }
  unfold server_ok, server_db, demo_world. cbn [sv_sys]. split; cbn.
  - by intros i q [-> ->]%Hp.
  - by intros i j q q' [-> ->]%Hp [-> ->]%Hp.
  - by intros i q [-> ->]%Hp.
  - intros i q [-> ->]%Hp. rewrite Hst. unfold portfolio_status_enum. set_solver.
  - exact Irid.
  - intros i r Hr. destruct (Ifk i r Hr) as [q Hq]. cbn in Hq. apply lookup_singleton_Some in Hq as [<- _].
    eexists. apply lookup_singleton_eq.
  - exact Irs.
  - exact Iin.
  - split; [|apply Ifr]. intros i [q [-> _]%Hp]. done.
  - done.
Qed.

(** No network and no readable snapshots. *)
#[local] Instance demo_builder : Builder server := {
  bd_Build _ s := (s, Err (opaque_err "no network"));
  bd_Cleanup _ s := (s, ());
  bd_RunDescribe _ s := (s, Err (opaque_err "no binary"));
}.
#[local] Instance demo_snapshots : Snapshots server () := {
  reader := unit;
  sn_Open path s := (s, if decide (path ∈ sv_files s) then Ok () else Err (opaque_err "no such file"));
  sn_Read _ _ s := (s, Ok ());
  sn_Close _ s := (s, None);
}.
#[local] Instance demo_store : Web.Store server := PoolStore (λ _, None).
#[local] Instance demo_services : Services server := services (λ _, None).
Definition demo_handler : Handler := {| h_dispatcher := true; h_hub := true; h_snapshotsDir := "/snap" |}.
Definition demo_rq (sub slug body : string) : request :=
  {| rq_sub := Some sub; rq_slug := slug; rq_date := ""; rq_runId := ""; rq_query := ∅; rq_body := body;
     rq_path := "/api/v3/portfolios" |}.
Definition demo_conn (s : server) : conn () server := {| c_resp := fresh; c_world := s |}.
Definition demo_id (u : uuid) : string := pad 39 (Z.of_N u).
Definition demo_patch (s : string) : result patchBody :=
  Ok {| pb_Name := s; pb_StartDate := ""; pb_EndDate := ""; pb_RunRetention := None |}.
Definition demo_raw (s : string) : result (gmap string json) := Ok ∅.
Definition no_create (s : string) : result createBody := Err (opaque_err "bad json").
Definition no_upgrade (s : string) : result (option (gmap string json)) := Ok None.

Definition demo_serve (r : route) (rq : request) (c : conn () server) : conn () server :=
  (serve (λ _, None) demo_id (λ _, Err (opaque_err "no uuid")) (λ s, s) (λ _, "0") demo_unmarshal demo_describe
     no_create demo_patch demo_raw no_upgrade (λ _, None) (λ _, None) demo_handler r rq c).1.

(** Another user's delete of the portfolio. *)
Lemma tenant_isolation_witness :
  let w := demo_world demo_pinned demo_db in
  foreign "auth0|b" (server_table (c_world (demo_serve RDelete (demo_rq "auth0|b" "adm-standard-k1gd" "") (demo_conn w))))
  = foreign "auth0|b" (server_table w).
Proof.
  cbv zeta. assert (server_ok (demo_world demo_pinned demo_db)) as Hok by (by apply demo_world_ok).
  assert (@Tenancy server () demo_store demo_services demo_builder demo_snapshots server_table server_ok) as Ht.
  { apply server_tenancy; try (intros; intros w Hw; split; done). }
  exact (proj1 (proj2 (tenant_isolation (H1 := Ht) (λ _, None) demo_id (λ _, Err (opaque_err "no uuid"))
    (λ s, s) (λ _, "0") demo_unmarshal demo_describe no_create demo_patch demo_raw no_upgrade (λ _, None)
    (λ _, None) demo_handler server_table server_ok RDelete (demo_rq "auth0|b" "adm-standard-k1gd" "")
    (demo_conn (demo_world demo_pinned demo_db)) Hok eq_refl))).
Defined.


(** The same server with a queue of capacity 0. *)
Definition demo_full : server :=
  demo_world demo_pinned demo_db <| sv_sys := demo_sys <| y_db := server_db (demo_world demo_pinned demo_db) |> <| y_cap := 0%nat |> |>.

Lemma demo_full_ok : server_ok demo_full.
Proof.
  unfold server_ok. assert (server_db demo_full = server_db (demo_world demo_pinned demo_db)) as ->
    by (vm_compute; reflexivity). by apply demo_world_ok.
Qed.
Lemma idle_runs d d' pid : runs d' = runs d → ¬ in_flight d pid → ¬ in_flight d' pid.
Proof. intros Hr Hno (i & r & Hi & Hx). apply Hno. exists i, r. by rewrite <- Hr. Qed.

(** A read while the portfolio is idle queues a run; with no room it names the nil one. *)
Lemma recalculating_outcomes_witness :
  ∃ c', names (respondRecalculating (λ _, None) demo_id demo_handler (demo_rq "auth0|a" "s" "") demo_pinned "s"
    (demo_conn (demo_world demo_pinned demo_db))).1 "s" 4%N "queued" ∧
  names c' "s" uuid_Nil "" ∧
  c' = (respondRecalculating (λ _, None) demo_id demo_handler (demo_rq "auth0|a" "s" "") demo_pinned "s"
    (demo_conn demo_full)).1.
Proof.
  assert (server_ok (demo_world demo_pinned demo_db)) as Hok by (by apply demo_world_ok).
  pose proof (recalculating_outcomes (out := ()) (λ _, None) (λ _, None) (λ _, None) demo_id demo_handler
    (λ _, eq_refl) (demo_rq "auth0|a" "s" "") demo_pinned "s") as Hr. cbv zeta in Hr.
  assert (∀ s, runs (server_db s) = runs demo_db → ¬ in_flight (conn_db (demo_conn s)) (ID demo_pinned)) as Hno.
  { intros s Hs. by apply (idle_runs demo_db), demo_idle. }
  eexists. split; [|split; [|reflexivity]].
  - destruct (Hr (demo_conn (demo_world demo_pinned demo_db)) Hok eq_refl eq_refl eq_refl eq_refl) as [_ Hf].
    specialize (Hf (Hno (demo_world demo_pinned demo_db) eq_refl)). rewrite decide_False in Hf by (by intros [? _]).
    rewrite decide_True in Hf by (apply Nat.ltb_lt; vm_compute; reflexivity). by destruct Hf as (_ & Hn & _).
  - destruct (Hr (demo_conn demo_full) demo_full_ok eq_refl eq_refl eq_refl eq_refl) as [_ Hf].
    specialize (Hf (Hno demo_full eq_refl)). rewrite decide_False in Hf by (by intros [? _]).
    rewrite decide_False in Hf by (apply Nat.nlt_0_r). by destruct Hf as (_ & Hn & _).
Defined.

Definition demo_norm : CreateRequest := demo_request <| r_RunRetention := Some 3 |>.

(** With no room for its run and a DELETE that fails, the row stays behind the 503,
    pending, where no schedule picks it up; the next attempt is a 409. *)
Definition demo_create (w : server) : conn () server :=
  (insertAndDispatch (λ _, None) demo_id (λ _, "0") demo_unmarshal demo_handler
    (demo_rq "auth0|b" "" "") "auth0|b" demo_norm demo_presets "" "" (demo_conn w)).1.
Definition lost_delete : server :=
  demo_full <| sv_sys := sv_sys demo_full <| y_db := server_db demo_full
    <| faults := [None; None; None; None; Some (opaque_err "conn closed")] |> |> |>.
Example failed_rollback_leaves_row :
  let c := demo_create lost_delete in
  (status (c_resp c), Status <$> portfolios (conn_db c) !! 4%N, due day_of (conn_db c) <$> portfolios (conn_db c) !! 4%N,
   status (c_resp (demo_create (c_world c)))) = (503, Some StatusPending, Some false, 409).
Proof. vm_compute. reflexivity. Qed.

Lemma upgrade_outcome_witness :
  let w := demo_world demo_pinned demo_db in
  ∃ params, server_table (doUpgrade (λ _, "0") demo_unmarshal demo_describe (λ _, None) demo_handler
    demo_pinned demo_strategy None w).1 !! 1%N = Some (upgraded_row (λ _, "0") demo_unmarshal demo_pinned demo_strategy demo_new params 5) ∧
    validateParameters params demo_new = Ok ().
Proof.
  cbv zeta. assert (server_ok (demo_world demo_pinned demo_db)) as Hok by (by apply demo_world_ok).
  pose proof (upgrade_outcome (λ _, None) (λ _, None) (λ _, "0") demo_unmarshal demo_describe demo_handler
    demo_pinned demo_strategy None (demo_world demo_pinned demo_db) Hok eq_refl) as Hu.
  assert (match Outcome (doUpgrade (λ _, "0") demo_unmarshal demo_describe (λ _, None) demo_handler demo_pinned
    demo_strategy None (demo_world demo_pinned demo_db)).2.1 with UpgradeOutcomeApplied => true | _ => false end = true)
    as Happ by (vm_compute; reflexivity).
  destruct (doUpgrade _ _ _ _ _ _ _ _ _) as [w' [res err]]. cbn [fst snd] in *. destruct (Outcome res); try done.
  destruct Hu as (_ & od & nd & params & Hd & Ht & Hv). assert (od = demo_old ∧ nd = demo_new) as [-> ->].
  { change (Ok (demo_old, demo_new) = Ok (od, nd)) in Hd. by injection Hd as <- <-. }
  exists params. split; [by rewrite Ht|]. apply Hv. left. vm_compute. reflexivity.
Defined.

(** Versions of dotted numbers. *)
#[local] Instance demo_semver : Semver := {
  version := list Z;
  NewVersion s := match mapM atoi (split_byte s (byte 46)) with
                  | Some [a; b; c] => Ok [a; b; c]
                  | _ => Err (opaque_err "Invalid Semantic Version")
                  end;
  Major v := nth 0 v 0; Minor v := nth 1 v 0;
  GreaterThan v u := bool_decide (nth 0 u 0 < nth 0 v 0 ∨ nth 0 u 0 = nth 0 v 0 ∧ (nth 1 u 0 < nth 1 v 0 ∨
    nth 1 u 0 = nth 1 v 0 ∧ nth 2 u 0 < nth 2 v 0));
}.
Definition demo_auto (newVer : string) (w : server) : server :=
  AutoUpgradeAfterInstall (λ _, "0") demo_unmarshal demo_describe (λ _, None) demo_handler "" newVer w.

Lemma auto_upgrade_patch_only_witness :
  let w := demo_world demo_pinned demo_db in
  ∃ p', server_table (demo_auto "0.2.2" w) !! 1%N = Some p' ∧ StrategyVer p' = Some "0.2.2".
Proof.
  cbv zeta. assert (server_ok (demo_world demo_pinned demo_db)) as Hok by (by apply demo_world_ok).
  destruct (auto_upgrade_patch_only (λ _, None) (λ _, None) (λ _, "0") demo_unmarshal demo_describe demo_handler
    "" "0.2.2" (demo_world demo_pinned demo_db) Hok 1%N) as [Heq|(p & p' & s & v & _ & _ & Hs & _ & _ & Hp' & _ & Hv)].
  - apply (f_equal (fmap StrategyVer)) in Heq. vm_compute in Heq. discriminate.
  - exists p'. split; [exact Hp'|]. rewrite Hv. injection Hs as <-. reflexivity.
Defined.

(** The patch check reads the version the caller passes, the upgrade the version
    the registry has by then: a 0.2.1 portfolio moves to 1.0.0. *)
Lemma auto_upgrade_stale_version :
  let w := demo_world demo_pinned demo_db in
  let w := w <| sv_strategies := {["" := demo_strategy <| s_InstalledVer := Some "1.0.0" |>]} |> in
  StrategyVer <$> server_table (demo_auto "0.2.2" w) !! 1%N = Some (Some "1.0.0").
Proof. vm_compute. reflexivity. Qed.
End demo.
