(* ===== verification/Router.v ===== *)
(** The routing table of the HTTP server (src/api/server.go, portfolios.go,
    strategies.go, docs.go): what is registered, in which order, and which handler
    a request reaches. *)
From S2P Require Import Prelude GoStrings Types.
From S2P Require Auth Routes AlertApi.

Inductive method := GET | POST | PATCH | DELETE | HEAD.
#[export] Instance method_eq_dec : EqDecision method.
Proof. solve_decision. Defined.

(** A route is registered for one method; Fiber registers every GET route for HEAD too. *)
Definition serves (registered m : method) : bool :=
  bool_decide (registered = m) || bool_decide (registered = GET) && bool_decide (m = HEAD).
Lemma serves_same m : serves m m = true.
Proof. by destruct m. Qed.

Inductive doc := Redoc | Scalar | Swagger | Spec.
(** What a route is served by. *)
Inductive endpoint :=
  | EHealthz
  | EDocs (d : doc)
  | EPortfolio (r : Routes.route)
  | EAlert (r : AlertApi.alert_route)
  | EUnsubscribe
  | EStrategies | EDescribe | EStrategy
  | EStub.
Record entry := Entry { e_method : method; e_pattern : string; e_endpoint : endpoint }.

(** [RegisterPortfolioRoutesWith]. *)
Definition portfolio_routes : list entry :=
  [Entry GET "/portfolios" (EPortfolio Routes.RList);
   Entry POST "/portfolios" (EPortfolio Routes.RCreate);
   Entry GET "/portfolios/:slug" (EPortfolio Routes.RGet);
   Entry PATCH "/portfolios/:slug" (EPortfolio Routes.RPatch);
   Entry DELETE "/portfolios/:slug" (EPortfolio Routes.RDelete);
   Entry GET "/portfolios/:slug/summary" (EPortfolio Routes.RSummary);
   Entry GET "/portfolios/:slug/drawdowns" (EPortfolio Routes.RDrawdowns);
   Entry GET "/portfolios/:slug/statistics" (EPortfolio Routes.RStatistics);
   Entry GET "/portfolios/:slug/metrics" (EPortfolio Routes.RMetrics);
   Entry GET "/portfolios/:slug/trailing-returns" (EPortfolio Routes.RTrailingReturns);
   Entry GET "/portfolios/:slug/holdings" (EPortfolio Routes.RHoldings);
   Entry GET "/portfolios/:slug/holdings/history" (EPortfolio Routes.RHoldingsHistory);
   Entry GET "/portfolios/:slug/holdings/:date" (EPortfolio Routes.RHoldingsAsOf);
   Entry GET "/portfolios/:slug/holdings-impact" (EPortfolio Routes.RHoldingsImpact);
   Entry GET "/portfolios/:slug/prediction" (EPortfolio Routes.RPrediction);
   Entry GET "/portfolios/:slug/performance" (EPortfolio Routes.RPerformance);
   Entry GET "/portfolios/:slug/transactions" (EPortfolio Routes.RTransactions);
   Entry POST "/portfolios/:slug/upgrade" (EPortfolio Routes.RUpgrade);
   Entry POST "/portfolios/:slug/run" (EPortfolio Routes.RCreateRun);
   Entry GET "/portfolios/:slug/runs" (EPortfolio Routes.RListRuns);
   Entry GET "/portfolios/:slug/runs/:runId" (EPortfolio Routes.RGetRun);
   Entry GET "/portfolios/:slug/runs/:runId/progress" (EPortfolio Routes.RStreamRunProgress)].

(** [RegisterPortfolioRoutes], mounted when there is no database. *)
Definition stub_portfolio_routes : list entry :=
  map (λ '(m, p), Entry m p EStub)
  [(GET, "/portfolios"); (POST, "/portfolios"); (GET, "/portfolios/:slug"); (PATCH, "/portfolios/:slug");
   (DELETE, "/portfolios/:slug"); (GET, "/portfolios/:slug/summary"); (GET, "/portfolios/:slug/drawdowns");
   (GET, "/portfolios/:slug/statistics"); (GET, "/portfolios/:slug/metrics");
   (GET, "/portfolios/:slug/performance"); (GET, "/portfolios/:slug/transactions");
   (GET, "/portfolios/:slug/trailing-returns"); (GET, "/portfolios/:slug/holdings");
   (GET, "/portfolios/:slug/holdings/history"); (GET, "/portfolios/:slug/holdings-impact");
   (GET, "/portfolios/:slug/holdings/:date"); (GET, "/portfolios/:slug/prediction");
   (POST, "/portfolios/:slug/upgrade"); (POST, "/portfolios/:slug/run"); (POST, "/portfolios/:slug/email-summary");
   (GET, "/portfolios/:slug/runs"); (GET, "/portfolios/:slug/runs/:runId");
   (GET, "/portfolios/:slug/runs/:runId/progress")].

(** [RegisterAlertRoutesWith]. *)
Definition alert_routes : list entry :=
  [Entry POST "/portfolios/:slug/alerts" (EAlert AlertApi.RAlertCreate);
   Entry GET "/portfolios/:slug/alerts" (EAlert AlertApi.RAlertList);
   Entry PATCH "/portfolios/:slug/alerts/:alertId" (EAlert AlertApi.RAlertUpdate);
   Entry DELETE "/portfolios/:slug/alerts/:alertId" (EAlert AlertApi.RAlertDelete);
   Entry POST "/portfolios/:slug/email-summary" (EAlert AlertApi.RAlertSummary)].
(** [RegisterPublicAlertRoutesWith]. *)
Definition public_alert_routes : list entry := [Entry GET "/api/alerts/unsubscribe" EUnsubscribe].
(** [RegisterStrategyRoutesWith] and [RegisterStrategyRoutes]. *)
Definition strategy_routes : list entry :=
  [Entry GET "/strategies" EStrategies; Entry GET "/strategies/describe" EDescribe;
   Entry GET "/strategies/:shortCode" EStrategy].
Definition stub_strategy_routes : list entry :=
  map (λ p, Entry GET p EStub) ["/strategies"; "/strategies/describe"; "/strategies/:shortCode"].
(** [RegisterDocsRoutes]. *)
Definition docs_routes : list entry :=
  [Entry GET "/openapi" (EDocs Redoc); Entry GET "/openapi/scalar" (EDocs Scalar);
   Entry GET "/openapi/swagger" (EDocs Swagger); Entry GET "/openapi/spec" (EDocs Spec)].

(** What [NewApp] registers, in order: a middleware for a path prefix, or a route. *)
Inductive layer := Use (prefix : string) | Route (e : entry).
Definition group (prefix : string) (l : list entry) : list layer :=
  map (λ e, Route (Entry (e_method e) (prefix +:+ e_pattern e) (e_endpoint e))) l.
Definition api : string := "/api/v3".
Definition stack (pool : bool) : list layer :=
  Route (Entry GET "/healthz" EHealthz) :: map Route docs_routes ++ [Use api] ++
  if pool then group api portfolio_routes ++ group api alert_routes ++ map Route public_alert_routes ++
               group api strategy_routes
  else group api stub_portfolio_routes ++ group api stub_strategy_routes.

(** ** Matching *)

(** The segments of a pattern: text, or a named parameter. *)
Inductive seg := Lit (s : string) | Par (name : string).
Definition segment (s : string) : seg :=
  match s with
  | String c name => if bool_decide (c = byte 58) then Par name else Lit s
  | EmptyString => Lit s
  end.
Definition slash : Ascii.ascii := byte 47.
Definition segments (pattern : string) : list seg := segment <$> tail (split_byte pattern slash).
(** A path of given segments. *)
Definition path_of (l : list string) : string := fold_right (λ s r, String slash s +:+ r) EmptyString l.
Definition plain (s : string) : Prop := s ≠ "" ∧ index_byte s slash = None.

(** Segment by segment; text is compared without regard to case. *)
Fixpoint match_segs (pat : list seg) (l : list string) : option (list (string * string)) :=
  match pat, l with
  | [], [] => Some []
  | Lit s :: pat, v :: l => if Auth.EqualFold s v then match_segs pat l else None
  | Par n :: pat, v :: l => match match_segs pat l with Some ps => Some ((n, v) :: ps) | None => None end
  | _, _ => None
  end.

(** Fiber's matching, as it documents it for patterns of this kind, and the prefix
    test of a group: whatever a route of the group matches, the group's middleware
    matches too. *)
Class Matcher := {
  match_path (pattern path : string) : option (list (string * string));
  under (prefix path : string) : bool;
  match_path_plain pattern l : Forall plain l → match_path pattern (path_of l) = match_segs (segments pattern) l;
  under_api_plain c d l : Forall plain (c :: d :: l) →
    under api (path_of (c :: d :: l)) = Auth.EqualFold "api" c && Auth.EqualFold "v3" d;
  match_under prefix pattern path :
    is_Some (match_path (prefix +:+ String slash pattern) path) → under prefix path = true;
}.

Section routing.
Context `{!Matcher}.

(** The first route of a list that takes the request. *)
Fixpoint first_route (l : list entry) (m : method) (path : string) : option (endpoint * list (string * string)) :=
  match l with
  | [] => None
  | e :: l =>
    if serves (e_method e) m then
      match match_path (e_pattern e) path with Some ps => Some (e_endpoint e, ps) | None => first_route l m path end
    else first_route l m path
  end.
End routing.

(** The routes of a stack, without the middlewares. *)
Definition routes_of (l : list layer) : list entry := omap (λ x, match x with Route e => Some e | Use _ => None end) l.

(** ** Every route is reached *)

(** The path a pattern makes with values for its parameters. *)
Fixpoint fill (pat : list seg) (vals : list string) : option (list string * list (string * string)) :=
  match pat, vals with
  | [], [] => Some ([], [])
  | Lit s :: pat, vals => match fill pat vals with Some (l, ps) => Some (s :: l, ps) | None => None end
  | Par n :: pat, v :: vals => match fill pat vals with Some (l, ps) => Some (v :: l, (n, v) :: ps) | None => None end
  | _, _ => None
  end.

(** What is registered later but also matches: a date or a short code that reads
    as the fixed path before it. *)
Definition shadowed (e : endpoint) (ps : list (string * string)) : option endpoint :=
  match e, ps with
  | EPortfolio Routes.RHoldingsAsOf, [_; (_, date)] =>
    if Auth.EqualFold "history" date then Some (EPortfolio Routes.RHoldingsHistory) else None
  | EStrategy, [(_, code)] => if Auth.EqualFold "describe" code then Some EDescribe else None
  | _, _ => None
  end.

Section reached.
Context `{!Matcher}.

Definition lits (pat : list seg) : list string := omap (λ x, match x with Lit s => Some s | Par _ => None end) pat.
Lemma fill_plain pat vals l ps :
  fill pat vals = Some (l, ps) → Forall plain (lits pat) → Forall plain vals → Forall plain l.
Proof.
  revert vals l ps. induction pat as [|[s|n] pat IH]; cbn; intros vals l ps Hf Hl Hv.
  - destruct vals; [|done]. by injection Hf as <- <-.
  - destruct (fill pat vals) as [[l' ps']|] eqn:Hf'; [|done]. injection Hf as <- <-.
    apply Forall_cons in Hl as [? ?]. constructor; eauto.
  - destruct vals as [|v vals]; [done|]. destruct (fill pat vals) as [[l' ps']|] eqn:Hf'; [|done].
    injection Hf as <- <-. apply Forall_cons in Hv as [? ?]. constructor; eauto.
Qed.

(** On plain paths the table can be read segment by segment. *)
Fixpoint first_compiled (t : list (method * list seg * endpoint)) (m : method) (l : list string) :
    option (endpoint * list (string * string)) :=
  match t with
  | [] => None
  | (m', pat, e) :: t =>
    if serves m' m then
      match match_segs pat l with Some ps => Some (e, ps) | None => first_compiled t m l end
    else first_compiled t m l
  end.
Definition compile (l : list entry) : list (method * list seg * endpoint) :=
  map (λ e, (e_method e, segments (e_pattern e), e_endpoint e)) l.
Lemma first_route_compiled t m l : Forall plain l → first_route t m (path_of l) = first_compiled (compile t) m l.
Proof.
  intros Hl. induction t as [|e t IH]; [done|]. cbn -[serves]. rewrite IH. destruct (serves _ _); [|done].
  by rewrite match_path_plain.
Qed.

(** Whether a path that fills the second pattern can match the first. *)
Fixpoint clash (pat pat' : list seg) : bool :=
  match pat, pat' with
  | [], [] => true
  | Lit s :: pat, Lit s' :: pat' => Auth.EqualFold s s' && clash pat pat'
  | _ :: pat, _ :: pat' => clash pat pat'
  | _, _ => false
  end.
Lemma fill_clash pat pat' vals l ps : fill pat' vals = Some (l, ps) → clash pat pat' = false → match_segs pat l = None.
Proof.
  revert pat vals l ps. induction pat' as [|[s|n] pat' IH]; cbn; intros pat vals l ps Hf Hc.
  - destruct vals; [|done]. injection Hf as <- <-. by destruct pat as [|[] ?].
  - destruct (fill pat' vals) as [[l' ps']|] eqn:Hf'; [|done]. injection Hf as <- <-.
    destruct pat as [|[s1|n1] pat]; cbn in *; [done|..].
    + destruct (Auth.EqualFold s1 s); [|done]. by eapply IH.
    + by rewrite (IH _ _ _ _ Hf' Hc).
  - destruct vals as [|v vals]; [done|]. destruct (fill pat' vals) as [[l' ps']|] eqn:Hf'; [|done].
    injection Hf as <- <-.
    destruct pat as [|[s1|n1] pat]; cbn in *; [done|..].
    + rewrite (IH _ _ _ _ Hf' Hc). by case_match.
    + by rewrite (IH _ _ _ _ Hf' Hc).
Qed.
Lemma EqualFold_refl s : Auth.EqualFold s s = true.
Proof. by apply bool_decide_eq_true_2. Qed.
Lemma fill_match pat vals l ps : fill pat vals = Some (l, ps) → match_segs pat l = Some ps.
Proof.
  revert vals l ps. induction pat as [|[s|n] pat IH]; cbn; intros vals l ps Hf.
  - destruct vals; [|done]. by injection Hf as <- <-.
  - destruct (fill pat vals) as [[l' ps']|] eqn:Hf'; [|done]. injection Hf as <- <-.
    rewrite EqualFold_refl. by eapply IH.
  - destruct vals as [|v vals]; [done|]. destruct (fill pat vals) as [[l' ps']|] eqn:Hf'; [|done].
    injection Hf as <- <-. by rewrite (IH _ _ _ Hf').
Qed.

(** Only the entries that clash with a pattern matter for the paths that fill it. *)
Definition takers (m : method) (pat : list seg) : list (method * list seg * endpoint) → list (method * list seg * endpoint) :=
  filter (λ r, serves r.1.1 m && clash r.1.2 pat = true).
Lemma first_compiled_takers m pat vals l ps t :
  fill pat vals = Some (l, ps) → first_compiled t m l = first_compiled (takers m pat t) m l.
Proof.
  intros Hf. induction t as [|[[m' pat'] e] t IH]; [done|]. unfold takers in *. rewrite filter_cons.
  cbn [fst snd first_compiled]. destruct (serves m' m) eqn:Hm; cbn [andb].
  - destruct (clash pat' pat) eqn:Hc; rewrite ?decide_True, ?decide_False by done; cbn [first_compiled].
    + by rewrite Hm, IH.
    + by rewrite (fill_clash _ _ _ _ _ Hf Hc), IH.
  - by rewrite decide_False, IH by done.
Qed.

(** The table, compiled. *)
Definition table : list (method * list seg * endpoint) := Eval vm_compute in compile (routes_of (stack true)).
Definition served (x : option (endpoint * list (string * string))) (e : endpoint) (ps : list (string * string)) : Prop :=
  match shadowed e ps with None => x = Some (e, ps) | Some e' => ∃ ps', x = Some (e', ps') end.

(** The first entry that can take such a path is the one it fills, but for two. *)
Definition under_api (l : list seg) : list seg := Lit "api" :: Lit "v3" :: l.
Definition taken_by (r : method * list seg * endpoint) (t : list (method * list seg * endpoint)) : Prop :=
  match r.2 with
  | EPortfolio Routes.RHoldingsAsOf => r.1 = (GET, under_api [Lit "portfolios"; Par "slug"; Lit "holdings"; Par "date"]) ∧
      t = [(GET, under_api [Lit "portfolios"; Par "slug"; Lit "holdings"; Lit "history"],
            EPortfolio Routes.RHoldingsHistory); r]
  | EStrategy => r.1 = (GET, under_api [Lit "strategies"; Par "shortCode"]) ∧
      t = [(GET, under_api [Lit "strategies"; Lit "describe"], EDescribe); r]
  | _ => ∃ rest, t = r :: rest
  end.
Lemma table_takers : Forall (λ r, taken_by r (takers r.1.1 r.1.2 table)) table.
Proof.
  unfold table at 2. repeat (apply Forall_cons; split); [..|by apply Forall_nil].
  all: unfold taken_by; cbn [snd fst]; try split; try eexists; vm_compute; reflexivity.
Qed.
Lemma first_compiled_head r vals l ps t :
  fill r.1.2 vals = Some (l, ps) → first_compiled (r :: t) r.1.1 l = Some (r.2, ps).
Proof.
  intros Hf%fill_match. destruct r as [[m pat] e]. cbn -[serves] in *. by rewrite serves_same, Hf.
Qed.
Lemma not_shadowed e ps :
  e ≠ EPortfolio Routes.RHoldingsAsOf → e ≠ EStrategy → shadowed e ps = None.
Proof. by destruct e as [| |[]| | | | | |]. Qed.

Lemma table_served :
  Forall (λ r : method * list seg * endpoint, ∀ vals l ps, fill r.1.2 vals = Some (l, ps) →
    served (first_compiled table r.1.1 l) r.2 ps) table.
Proof.
  eapply Forall_impl; [exact table_takers|]. intros [[m pat] e] Ht vals l ps Hf. cbn [fst snd] in *.
  rewrite (first_compiled_takers _ _ _ _ _ table Hf). unfold served.
  revert Ht. generalize (takers m pat table). intros t Ht. unfold taken_by in Ht. cbn [fst snd] in Ht.
  destruct e as [| |[]| | | | | |];
    try (rewrite not_shadowed by done; destruct Ht as [rest ->]; exact (first_compiled_head (_, _, _) _ _ _ _ Hf)).
  - destruct Ht as [[= -> ->] ->]. destruct vals as [|v1 [|date [|]]]; try done. injection Hf as <- <-.
    cbn -[Auth.EqualFold]. rewrite !EqualFold_refl. destruct (Auth.EqualFold "history" date); eauto.
  - destruct Ht as [[= -> ->] ->]. destruct vals as [|code [|]]; try done. injection Hf as <- <-.
    cbn -[Auth.EqualFold]. rewrite !EqualFold_refl. destruct (Auth.EqualFold "describe" code); eauto.
Qed.
(** No entry of the table is registered for HEAD itself. *)
Lemma first_compiled_head_get t l :
  Forall (λ r : method * list seg * endpoint, r.1.1 ≠ HEAD) t → first_compiled t HEAD l = first_compiled t GET l.
Proof.
  induction 1 as [|[[m pat] e] t Hm Ht IH]; [done|]. cbn [first_compiled]. rewrite IH. by destruct m.
Qed.
Lemma table_no_head : Forall (λ r : method * list seg * endpoint, r.1.1 ≠ HEAD) table.
Proof. unfold table. by repeat constructor. Qed.
Lemma table_plain : Forall (λ r : method * list seg * endpoint, Forall plain (lits r.1.2)) table.
Proof. unfold table, plain. repeat constructor; done. Qed.

(** C26: every route the server registers is reached: a request whose path fills a
    route's pattern with non-empty segments is served by that route's handler with
    those parameters - only a date that reads [history] is served as the holdings
    history and a short code that reads [describe] as the describe endpoint, which
    are registered before them.  A GET route is reached by HEAD in the same way. *)
Theorem routes_reached (e : entry) (m : method) (vals l : list string) (ps : list (string * string)) :
  e ∈ routes_of (stack true) → serves (e_method e) m = true →
  Forall plain vals → fill (segments (e_pattern e)) vals = Some (l, ps) →
  match shadowed (e_endpoint e) ps with
  | None => first_route (routes_of (stack true)) m (path_of l) = Some (e_endpoint e, ps)
  | Some e' => ∃ ps', first_route (routes_of (stack true)) m (path_of l) = Some (e', ps')
  end.
Proof.
  intros He Hm Hv Hf.
  assert ((e_method e, segments (e_pattern e), e_endpoint e) ∈ table) as Hc
    by (change table with (compile (routes_of (stack true))); apply list_elem_of_fmap; eauto).
  pose proof (proj1 (Forall_forall _ _) table_plain _ Hc) as Hp.
  rewrite first_route_compiled by (by eapply fill_plain). change (compile (routes_of (stack true))) with table.
  pose proof (proj1 (Forall_forall _ _) table_served _ Hc vals l ps Hf) as Hs.
  unfold serves in Hm. apply orb_true_iff in Hm as [<-%bool_decide_eq_true|Hm]; [exact Hs|].
  apply andb_true_iff in Hm as [Hg%bool_decide_eq_true ->%bool_decide_eq_true].
  rewrite (first_compiled_head_get _ _ table_no_head), <-Hg. exact Hs.
Qed.
End reached.
