(* ===== verification/App.v ===== *)
(** The HTTP application (src/api/server.go [NewApp], middleware.go, health.go):
    the middlewares, the protected group and the routes over one server - the
    portfolios, strategies, queue and files of Server.v and the alerts beside them
    - and what one request and a sequence of requests do to it. *)
From S2P Require Import Prelude GoStrings GoTime Utf8 Types Prog Store StoreLaws Web.
From S2P Require Import Routes Server AlertApi AlertApiLaws Router.
From S2P Require Auth Alert Checker Registry Strategies Handler SnapDb Email.

(** [cors.New] is given these origins, when there are any. *)
Definition cors_origins (AllowOrigins : string) : option (list string) :=
  if bool_decide (AllowOrigins = "") then None else Some (trim_space <$> split_byte AllowOrigins (byte 44)).

(** The parts of an HTTP request the application reads. *)
Record http := {
  h_method : method; h_path : string; h_authorization : string; h_request_id : string;
  h_query : gmap string string; h_body : string;
}.
Definition query (rq : http) (k : string) : string := default "" (h_query rq !! k).
Definition param (ps : list (string * string)) (k : string) : string :=
  default "" (snd <$> head (filter (λ p, p.1 = k) ps)).

(** What is sent back. *)
Inductive reply {out : Type} :=
  | Written (w : Auth.written)
  | Portfolios (r : @Web.response out)
  | Alerts (r : alert_response)
  | Strategies (r : Strategies.response)
  | Document (d : doc)
  | Healthy
  | Failed (e : goerror)
  | Unrouted.
Arguments reply : clear implicits.

(** The server, and the alerts beside its tables; the database is one. *)
Record app := { a_server : server; a_alerts : Checker.world }.
#[export] Instance eta_app : Eta app := λ a, {| a_server := a_server a; a_alerts := a_alerts a |}.
#[local] Existing Instances Alert.eta_alertdb Checker.eta_world Server.eta_server Dispatcher.eta_sys Registry.eta_registry.

(** [REFERENCES portfolios(id) ON DELETE CASCADE] of [portfolio_alerts]. *)
Definition cascade (ports : gmap uuid Portfolio) (l : gmap uuid Alert.Alert) : gmap uuid Alert.Alert :=
  filter (λ ia, is_Some (ports !! Alert.a_PortfolioID ia.2)) l.
Definition with_server (s : server) (a : app) : app :=
  let w := a_alerts a in
  {| a_server := s;
     a_alerts := w <| Checker.w_db := Checker.w_db w <| Alert.adb := server_db s |>
                   <| Alert.alerts := cascade (server_table s) (Alert.alerts (Checker.w_db w)) |> |> |}.
Definition with_alerts (w : Checker.world) (a : app) : app :=
  {| a_server := a_server a <| sv_sys := sv_sys (a_server a) <| Dispatcher.y_db := Alert.adb (Checker.w_db w) |> |>;
     a_alerts := w |}.
Definition in_server {A} (f : server → server * A) (a : app) : app * A :=
  let '(s, x) := f (a_server a) in (with_server s a, x).
Definition in_alerts {A} (f : Checker.world → Checker.world * A) (a : app) : app * A :=
  let '(w, x) := f (a_alerts a) in (with_alerts w a, x).
(** [strategy.PoolStore] on the server's rows and database. *)
Definition in_registry {A} (f : Registry.registry → Registry.registry * A) (s : server) : server * A :=
  let '(r, x) := f {| Registry.rg_rows := sv_strategies s; Registry.rg_now := now (server_db s);
                      Registry.rg_faults := faults (server_db s) |} in
  (s <| sv_strategies := Registry.rg_rows r |>
     <| sv_sys := sv_sys s <| Dispatcher.y_db := server_db s <| faults := Registry.rg_faults r |> |> |>, x).

Section app.
Context `{MapRange, SnapDb.Driver, UnicodeTables, !Matcher}.
Context {out : Type} `{!Builder server, !Snapshots server out}.
(** What the portfolio handlers use, as in Routes.v. *)
Context (marshal_err : gmap string json → option goerror) (remove_err : string → option goerror).
Context (sonic_err : payload out → option goerror).
Context (uuid_String : uuid → string) (uuid_Parse : string → result uuid).
Context (quote_string : string → string) (format_float : float64 → string).
Context (json_unmarshal : string → result json) (unmarshal_describe : string → result Describe).
Context (decode_create : string → result Handler.createBody) (decode_patch : string → result Handler.patchBody).
Context (decode_raw : string → result (gmap string json)).
Context (decode_upgrade : string → result (option (gmap string json))).
Context (urlValidator : string → option goerror).
(** What the alert handlers use, as in AlertApiLaws.v. *)
Context (decode_alert : string → result (string * list string)) (decode_recipient : string → result string).
Context (wall : instant → instant) (execute : bool → Email.Payload → result string) (logo : string).
Context (checker : Checker.Checker) (unmarshal_schedule : string → result string) (mailgun : Checker.mail → result Z).
(** Marshalling of the strategy and problem bodies; authentication. *)
Context (strategy_err : Strategies.body → option goerror) (problem_err : Auth.Problem → option goerror).
Context {keys : Type} (lookup_keys : string → result keys).
Context (jwt_Parse : keys → string → string → string → result (option string)).
(** Fiber's status for a request no route takes. *)
Context (unmatched : http → Z).

(** The configuration [NewApp] gets. *)
Record Config := {
  Auth_ : Auth.AuthConfig; Pool : bool; Handler_ : Handler.Handler; AlertChecker : bool; UnsubscribeSecret : string;
}.
Context (conf : Config).

#[local] Existing Instances PoolStore services.
#[local] Instance store_instance : Web.Store server := PoolStore marshal_err.
#[local] Instance services_instance : Services server := services remove_err.

(** The handlers of the portfolio routes; an error one returns is answered by
    fiber's error handler. *)
Definition portfolio_request (sub : option string) (ps : list (string * string)) (rq : http) : request :=
  {| rq_sub := sub; rq_slug := param ps "slug"; rq_date := param ps "date"; rq_runId := param ps "runId";
     rq_query := h_query rq; rq_body := h_body rq; rq_path := h_path rq |}.
Definition serve_portfolio (r : route) (rq : request) (s : server) : server * reply out :=
  let '(c, err) := serve sonic_err uuid_String uuid_Parse quote_string format_float json_unmarshal unmarshal_describe
    decode_create decode_patch decode_raw decode_upgrade marshal_err urlValidator (Handler_ conf) r rq
    {| c_resp := fresh; c_world := s |} in
  (c_world c, match err with Some e => Failed e | None => Portfolios (c_resp c) end).

(** The alert endpoints. *)
Definition alert_request_of (sub : option string) (ps : list (string * string)) (rq : http) : alert_request :=
  {| q_sub := sub; q_slug := param ps "slug"; q_alertId := param ps "alertId"; q_token := query rq "token";
     q_body := h_body rq |}.
Definition serve_alert (r : alert_route) (rq : alert_request) (w : Checker.world) : Checker.world * reply out :=
  let '(w, resp) := dispatch decode_alert decode_recipient uuid_Parse wall
    (summarizer_of execute logo checker unmarshal_schedule mailgun (AlertChecker conf)) r rq w in (w, Alerts resp).
Definition serve_unsubscribe (rq : alert_request) (w : Checker.world) : Checker.world * reply out :=
  let '(w, resp) := Unsubscribe uuid_Parse (UnsubscribeSecret conf) rq w in (w, Alerts resp).

(** The strategy endpoints. *)
Definition describe_answer {A} (c : Strategies.describe_call A) : server → server * A :=
  match c with
  | Strategies.Builder url => bd_Build url
  | Strategies.RunDescribe bin => bd_RunDescribe bin
  | Strategies.Cleanup bin => bd_Cleanup bin
  end.
Definition serve_describe (rq : http) : server → server * Strategies.response :=
  exec_prog (@describe_answer)
    (Strategies.Describe_ unmarshal_describe strategy_err urlValidator (h_path rq) (query rq "cloneUrl")).

Definition respond {A} (f : A → reply out) (r : app * A) : app * reply out := (r.1, f r.2).
Definition handler (e : endpoint) (sub : option string) (ps : list (string * string)) (rq : http) (a : app) :
    app * reply out :=
  match e with
  | EHealthz => (a, Healthy)
  | EDocs d => (a, Document d)
  | EPortfolio r => in_server (serve_portfolio r (portfolio_request sub ps rq)) a
  | EAlert r => in_alerts (serve_alert r (alert_request_of sub ps rq)) a
  | EUnsubscribe => in_alerts (serve_unsubscribe (alert_request_of sub ps rq)) a
  | EStrategies =>
    respond (λ rows, Strategies (Strategies.List unmarshal_describe strategy_err (h_path rq) rows))
            (in_server (in_registry Registry.List) a)
  | EStrategy =>
    let code := param ps "shortCode" in
    respond (λ row, Strategies (Strategies.Get unmarshal_describe strategy_err (h_path rq) code row))
            (in_server (in_registry (Registry.Get code)) a)
  | EDescribe => respond Strategies (in_server (serve_describe rq) a)
  | EStub => (a, Written (Auth.stub problem_err (h_path rq)))
  end.

(** The chain behind the first middlewares, in the order of registration: the
    auth middleware ends it or leaves the subject on the locals, the first route
    that matches serves the request. *)
Fixpoint run_layers (l : list layer) (sub : option string) (rq : http) (a : app) : app * reply out :=
  match l with
  | [] => (a, Unrouted)
  | Use prefix :: l =>
    if under prefix (h_path rq) then
      match Auth.authenticate problem_err lookup_keys jwt_Parse (Auth_ conf) (h_path rq) (h_authorization rq) with
      | inl w => (a, Written w)
      | inr s => run_layers l (Some s) rq a
      end
    else run_layers l sub rq a
  | Route e :: l =>
    if serves (e_method e) (h_method rq) then
      match match_path (e_pattern e) (h_path rq) with
      | Some ps => handler (e_endpoint e) sub ps rq a
      | None => run_layers l sub rq a
      end
    else run_layers l sub rq a
  end.

(** The status the response has when the middlewares see it, and the error the
    chain returned to them. *)
Definition written_status (r : reply out) : Z :=
  match r with
  | Written (Auth.WProblem p) => Auth.p_Status p
  | Written (Auth.WStatus st) => st
  | Portfolios r => Web.status r
  | Alerts r => as_status r
  | Strategies r => Strategies.status r
  | Document _ | Healthy | Failed _ | Unrouted => 200
  end.
Definition chain_error (rq : http) (r : reply out) : option (option Z) :=
  match r with Failed _ => Some None | Unrouted => Some (Some (unmatched rq)) | _ => None end.

(** [requestIDMiddleware], [loggerMiddleware] and the stack; [fresh_id] is a new
    UUIDv7. *)
Record answer := { an_reply : reply out; an_request_id : string; an_log : Auth.level * Z }.
Definition handle (rq : http) (fresh_id : string) (a : app) : app * answer :=
  let rid := Auth.request_id (h_request_id rq) fresh_id in
  let '(a, r) := run_layers (stack (Pool conf)) None rq a in
  let st := Auth.logged_status (written_status r) (chain_error rq r) in
  (a, {| an_reply := r; an_request_id := rid; an_log := (Auth.log_level st, st) |}).
Fixpoint handle_all (rqs : list (http * string)) (a : app) : app * list answer :=
  match rqs with
  | [] => (a, [])
  | (rq, fresh_id) :: rqs =>
    let '(a, x) := handle rq fresh_id a in let '(a, xs) := handle_all rqs a in (a, x :: xs)
  end.
End app.
