(* ===== verification/AppLaws.v ===== *)
(** What requests do to the application: a user's portfolios and alerts change
    only through requests that carry a token verifying as that user, or the signed
    token of one of those alerts. *)
From S2P Require Import Prelude GoStrings GoTime Utf8 Types Prog Store StoreLaws Web.
From S2P Require Import Routes Server AlertApi AlertApiLaws Router App.
From S2P Require Auth Alert Checker Registry Strategies Handler SnapDb Email Dispatcher.
#[local] Existing Instances Alert.eta_alertdb Checker.eta_world Server.eta_server Dispatcher.eta_sys Registry.eta_registry.

(** ** The state and what a user owns in it *)

Definition app_db (a : app) : db := server_db (a_server a).
Definition app_alerts (a : app) : gmap uuid Alert.Alert := Alert.alerts (Checker.w_db (a_alerts a)).
Definition app_ports (a : app) : gmap uuid Portfolio := server_table (a_server a).

(** The two views of the database agree and keep the schema. *)
Definition app_ok (a : app) : Prop :=
  db_inv (app_db a) ∧ Alert.adb (Checker.w_db (a_alerts a)) = app_db a ∧ alerts_inv (Checker.w_db (a_alerts a)).

Definition alert_owner (ports : gmap uuid Portfolio) (al : Alert.Alert) : option string :=
  OwnerSub <$> ports !! Alert.a_PortfolioID al.
(** The portfolios and alerts of a user. *)
Definition tenant (o : string) (a : app) : gmap uuid Portfolio * gmap uuid Alert.Alert :=
  (filter (λ ip, OwnerSub ip.2 = o) (app_ports a),
   filter (λ ia, alert_owner (app_ports a) ia.2 = Some o) (app_alerts a)).

Lemma db_ports d : db_inv d → ∀ i p, portfolios d !! i = Some p → ID p = i ∧ i ≠ uuid_Nil.
Proof.
  intros Hinv i p Hp. split; [by eapply inv_pid|]. intros ->. destruct (inv_nil _ Hinv) as [_ Hn]. congruence.
Qed.

(** Everybody but [s] keeps rows across a change that keeps the foreign ones. *)
Lemma foreign_lookup s m m' i p :
  foreign s m' = foreign s m → OwnerSub p ≠ s → m' !! i = Some p ↔ m !! i = Some p.
Proof.
  intros Hf Ho. assert (∀ m : gmap uuid Portfolio, m !! i = Some p ↔ foreign s m !! i = Some p) as Hl.
  { intros m0. unfold foreign. rewrite map_lookup_filter_Some. naive_solver. }
  by rewrite Hl, Hf, <-Hl.
Qed.
Lemma foreign_owner s o m m' al :
  foreign s m' = foreign s m → o ≠ s → alert_owner m' al = Some o ↔ alert_owner m al = Some o.
Proof.
  intros Hf Ho. unfold alert_owner. rewrite !fmap_Some.
  split; intros (p & Hp & ->); exists p; split; try done; by eapply (foreign_lookup s).
Qed.

(** ** A step of the application *)

(** What a step may do that acts for [acts]. *)
Definition step (acts : string → Prop) (a a' : app) : Prop :=
  app_ok a' ∧ ∀ o, ¬ acts o → tenant o a' = tenant o a.

Lemma step_refl acts a : app_ok a → step acts a a.
Proof. by split. Qed.

(** A server step that keeps the others' portfolios. *)
Lemma server_step s (sv : server) a :
  app_ok a → db_inv (server_db sv) → foreign s (server_table sv) = foreign s (app_ports a) →
  step (eq s) a (with_server sv a).
Proof.
  intros (Hinv & Heq & [H1 H2 H3 H4]) Hinv' Hf. split.
  - split; [done|]. split; [done|]. split; cbn.
    + intros i al [Hal _]%map_lookup_filter_Some. eauto.
    + intros i al [_ Hal]%map_lookup_filter_Some. done.
    + intros i [al [Hal _]%map_lookup_filter_Some]. eauto.
    + by apply db_ports.
    + intros i al [Hal _]%map_lookup_filter_Some. eauto.
  - intros o Ho. unfold tenant. f_equal; apply map_eq; intros i; apply option_eq; intros x;
      rewrite !map_lookup_filter_Some; cbn.
    + split; intros [Hx <-]; (split; [|done]); by eapply (foreign_lookup s _ _ _ _ Hf); [congruence|].
    + rewrite (foreign_owner s o _ _ x Hf) by congruence. unfold cascade, app_alerts.
      split; [by intros [[? _]%map_lookup_filter_Some ?]|]. intros [Hx Ho']. split; [|done].
      apply map_lookup_filter_Some. split; [done|]. cbn.
      apply (foreign_owner s o _ _ x Hf) in Ho'; [|congruence]. unfold alert_owner in Ho'.
      destruct (server_table sv !! Alert.a_PortfolioID x); [done|]. done.
Qed.
(** One that keeps the portfolios acts for nobody. *)
Lemma quiet_step (sv : server) a :
  app_ok a → db_inv (server_db sv) → server_table sv = app_ports a → ∀ acts, step acts a (with_server sv a).
Proof.
  intros Hok Hinv' Ht acts. split; [by apply (server_step ""); [..|rewrite Ht]|].
  intros o _. destruct (decide (o = "")) as [->|Ho].
  - apply (server_step "x"); [done|done|by rewrite Ht|done].
  - apply (server_step ""); [done|done|by rewrite Ht|congruence].
Qed.

(** An alert step that keeps the database's tables and the others' rows. *)
Lemma alerts_step (acts : string → Prop) (w : Checker.world) a :
  app_ok a → steady (Checker.w_db (a_alerts a)) (Checker.w_db w) →
  (∀ o i, ¬ acts o → Alert.alerts (Checker.w_db w) !! i = app_alerts a !! i ∨
    ((∀ al, app_alerts a !! i = Some al → alert_owner (app_ports a) al ≠ Some o) ∧
     (∀ al, Alert.alerts (Checker.w_db w) !! i = Some al → alert_owner (app_ports a) al ≠ Some o))) →
  step acts a (with_alerts w a).
Proof.
  intros (Hinv & Heq & Hal) (Hp & Hr & Hal') Hrows.
  assert (app_ports (with_alerts w a) = app_ports a) as Hports.
  { unfold app_ports, server_table, app_db in *. rewrite <-Heq, <-Hp. done. }
  split.
  - split; [|split; [done|by apply Hal']]. rewrite Heq in Hp, Hr. unfold rest_of in Hr. injection Hr as _ Hr Hn.
    apply (inv_tables (app_db a)); [done|done|done|]. unfold app_db, server_db in *. cbn. rewrite Hn. done.
  - intros o Ho. unfold tenant. rewrite Hports. f_equal. apply map_eq. intros i. apply option_eq. intros x.
    rewrite !map_lookup_filter_Some. cbn. unfold app_alerts at 1. cbn.
    destruct (Hrows o i Ho) as [->|[Hb Ha]]; [done|]. naive_solver.
Qed.

(** ** The handlers *)
Section laws.
Context `{MapRange, SnapDb.Driver, UnicodeTables, !Matcher}.
Context {out : Type} `{!Builder server, !Snapshots server out}.
Context (marshal_err : gmap string json → option goerror) (remove_err : string → option goerror).
Context (sonic_err : payload out → option goerror).
Context (uuid_String : uuid → string) (uuid_Parse : string → result uuid).
Context (quote_string : string → string) (format_float : float64 → string).
Context (json_unmarshal : string → result json) (unmarshal_describe : string → result Describe).
Context (decode_create : string → result Handler.createBody) (decode_patch : string → result Handler.patchBody).
Context (decode_raw : string → result (gmap string json)).
Context (decode_upgrade : string → result (option (gmap string json))).
Context (urlValidator : string → option goerror).
Context (decode_alert : string → result (string * list string)) (decode_recipient : string → result string).
Context (wall : instant → instant) (execute : bool → Email.Payload → result string) (logo : string).
Context (checker : Checker.Checker) (unmarshal_schedule : string → result string) (mailgun : Checker.mail → result Z).
Context (strategy_err : Strategies.body → option goerror) (problem_err : Auth.Problem → option goerror).
Context {keys : Type} (lookup_keys : string → result keys).
Context (jwt_Parse : keys → string → string → string → result (option string)).
Context (unmatched : http → Z) (conf : Config).
(** The builder and the snapshot files are not in the database. *)
Hypothesis build_quiet : ∀ u, quiet server_table server_ok (bd_Build u).
Hypothesis cleanup_quiet : ∀ b, quiet server_table server_ok (bd_Cleanup b).
Hypothesis describe_quiet : ∀ b, quiet server_table server_ok (bd_RunDescribe b).
Hypothesis open_quiet : ∀ p, quiet server_table server_ok (sn_Open p).
Hypothesis read_quiet : ∀ q rd, quiet server_table server_ok (sn_Read q rd).
Hypothesis close_quiet : ∀ rd, quiet server_table server_ok (sn_Close rd).

Notation serve_portfolio := (serve_portfolio marshal_err remove_err sonic_err uuid_String uuid_Parse quote_string
  format_float json_unmarshal unmarshal_describe decode_create decode_patch decode_raw decode_upgrade urlValidator conf).
Notation handler := (handler marshal_err remove_err sonic_err uuid_String uuid_Parse quote_string
  format_float json_unmarshal unmarshal_describe decode_create decode_patch decode_raw decode_upgrade urlValidator
  decode_alert decode_recipient wall execute logo checker unmarshal_schedule mailgun strategy_err problem_err conf).
Notation run_layers := (run_layers marshal_err remove_err sonic_err uuid_String uuid_Parse quote_string
  format_float json_unmarshal unmarshal_describe decode_create decode_patch decode_raw decode_upgrade urlValidator
  decode_alert decode_recipient wall execute logo checker unmarshal_schedule mailgun strategy_err problem_err
  lookup_keys jwt_Parse conf).
Notation handle := (handle marshal_err remove_err sonic_err uuid_String uuid_Parse quote_string
  format_float json_unmarshal unmarshal_describe decode_create decode_patch decode_raw decode_upgrade urlValidator
  decode_alert decode_recipient wall execute logo checker unmarshal_schedule mailgun strategy_err problem_err
  lookup_keys jwt_Parse unmatched conf).
Notation handle_all := (handle_all marshal_err remove_err sonic_err uuid_String uuid_Parse quote_string
  format_float json_unmarshal unmarshal_describe decode_create decode_patch decode_raw decode_upgrade urlValidator
  decode_alert decode_recipient wall execute logo checker unmarshal_schedule mailgun strategy_err problem_err
  lookup_keys jwt_Parse unmatched conf).

(** What a reply shows: portfolios and alerts of the subject, and without a
    subject neither those nor strategies. *)
Definition shows (sub : option string) (a : app) (r : reply out) : Prop :=
  match r with
  | Portfolios resp => ∃ s, sub = Some s ∧ body_ok s (Web.body resp)
  | Alerts resp => body_own sub (Checker.w_db (a_alerts a)) (as_body resp)
  | Strategies _ => is_Some sub
  | _ => True
  end.

Lemma in_server_step {A} acts (f : server → server * A) a :
  app_ok a → quiet server_table server_ok f → step acts a (in_server f a).1.
Proof.
  intros Hok Hf. destruct (Hf (a_server a)) as [Hinv Ht]; [apply Hok|]. unfold in_server.
  destruct (f (a_server a)) as [sv x]. by apply quiet_step.
Qed.

Lemma portfolio_handler_ok r s ps rq a :
  app_ok a → s ≠ "" →
  let '(a', x) := in_server (serve_portfolio r (portfolio_request (Some s) ps rq)) a in
  step (eq s) a a' ∧ shows (Some s) a x.
Proof using build_quiet cleanup_quiet describe_quiet open_quiet read_quiet close_quiet.
  intros Hok Hs.
  pose proof (server_tenancy (out := out) marshal_err remove_err build_quiet cleanup_quiet describe_quiet
    open_quiet read_quiet close_quiet) as Ht.
  unfold in_server, App.serve_portfolio.
  assert (∀ sub, subject (portfolio_request (Some s) ps rq) = Ok sub → sub = s) as Hsub.
  { unfold subject. cbn. rewrite bool_decide_eq_false_2 by done. congruence. }
  pose proof (keeps_serve (H1 := Ht) sonic_err uuid_String uuid_Parse quote_string format_float json_unmarshal
    unmarshal_describe decode_create decode_patch decode_raw decode_upgrade marshal_err urlValidator (Handler_ conf)
    server_table server_ok s (app_ports a) _ Hsub r {| c_resp := fresh; c_world := a_server a |}) as Hk.
  destruct (serve _ _ _ _ _ _ _ _ _ _ _ _ _ _ r _ _) as [c err].
  destruct Hk as (Hinv & Hf & Hb); [split; [apply Hok|done]|]. cbn in Hinv, Hf, Hb. split.
  - by apply server_step.
  - destruct err; cbn; eauto.
Qed.

(** The statements of the strategy store only consume faults. *)
Lemma registry_quiet {A} (f : Registry.registry → Registry.registry * A) :
  quiet server_table server_ok (in_registry f).
Proof.
  intros sv Hok. unfold in_registry. destruct (f _) as [r x]. cbn. split; [|done].
  apply (inv_tables (server_db sv)); [done|done|done|]. unfold server_db. cbn. lia.
Qed.
Lemma exec_quiet {A} (p : prog Strategies.describe_call A) :
  quiet server_table server_ok (exec_prog (@describe_answer _) p).
Proof using build_quiet cleanup_quiet describe_quiet.
  intros sv. revert sv. induction p as [x|X c k IH]; intros sv Hok; [done|].
  assert (quiet server_table server_ok (describe_answer c)) as Hc by (destruct c; cbn; auto).
  destruct (Hc sv Hok) as [Hok' Ht]. cbn [exec_prog]. destruct (describe_answer c sv) as [sv' x].
  destruct (IH x sv' Hok') as [? Ht']. cbn in Ht. by rewrite Ht', Ht.
Qed.

Lemma alert_handler_ok r s ps rq a :
  app_ok a → s ≠ "" →
  let '(a', x) := in_alerts (serve_alert (out := out) uuid_Parse decode_alert decode_recipient wall execute logo checker
    unmarshal_schedule mailgun conf r (alert_request_of (Some s) ps rq)) a in
  step (eq s) a a' ∧ shows (Some s) a x.
Proof.
  intros Hok Hs. unfold in_alerts, serve_alert.
  pose proof (alert_replies_show_own_rows decode_alert decode_recipient uuid_Parse wall execute logo checker
    unmarshal_schedule mailgun (AlertChecker conf) r (alert_request_of (Some s) ps rq) (a_alerts a)) as Hb.
  pose proof (alert_requests_touch_own_rows decode_alert decode_recipient uuid_Parse wall execute logo checker
    unmarshal_schedule mailgun (AlertChecker conf) r (alert_request_of (Some s) ps rq) (a_alerts a)) as Hd.
  destruct (dispatch _ _ _ _ _ r _ _) as [w resp]. cbn in *. destruct Hd as [Hst Hrows]; [apply Hok|].
  split; [|apply Hb, Hok]. apply alerts_step; [done|done|]. intros o i Ho. destruct (Hrows i) as [|(s' & [= <-] & _ & Hbef & Haft)]; [by left|].
  right. destruct Hok as (_ & Heq & _).
  assert (∀ al, owned_by s (Checker.w_db (a_alerts a)) al → alert_owner (app_ports a) al ≠ Some o) as Hown.
  { intros al (p & Hp & Hop) Hal. unfold alert_owner in Hal. rewrite Heq in Hp.
    change (portfolios (app_db a)) with (app_ports a) in Hp. rewrite Hp in Hal. injection Hal as Hal. congruence. }
  split; intros al Hal; auto.
Qed.

(** The alert a request's token names. *)
Definition named_alert (rq : http) : option uuid :=
  match Alert.VerifyUnsubscribeToken uuid_Parse (UnsubscribeSecret conf) (query rq "token") with
  | Ok (id, _) => Some id
  | Err _ => None
  end.
Definition names_alert_of (rq : http) (a : app) (o : string) : Prop :=
  UnsubscribeSecret conf ≠ "" ∧ ∃ id, named_alert rq = Some id ∧ is_Some ((tenant o a).2 !! id).

Lemma unsubscribe_shows secret rq w a sub :
  shows sub a (Alerts (Unsubscribe uuid_Parse secret rq w).2).
Proof. unfold Unsubscribe. by repeat case_match. Qed.
Lemma unsubscribe_ok sub ps rq a :
  app_ok a →
  let '(a', x) := in_alerts (serve_unsubscribe (out := out) uuid_Parse conf (alert_request_of sub ps rq)) a in
  step (names_alert_of rq a) a a' ∧ shows sub a x.
Proof.
  intros Hok. unfold in_alerts, serve_unsubscribe.
  pose proof (unsubscribe_touches_named_alert uuid_Parse (UnsubscribeSecret conf) (alert_request_of sub ps rq)
    (a_alerts a)) as Hd.
  pose proof (unsubscribe_shows (UnsubscribeSecret conf) (alert_request_of sub ps rq) (a_alerts a) a sub) as Hshow.
  destruct (Unsubscribe _ _ _ _) as [w resp]. cbn [fst] in *. split; [clear Hshow|exact Hshow].
  assert (Checker.w_db w = Checker.w_db (a_alerts a) ∨ (UnsubscribeSecret conf ≠ "" ∧ ∃ id, named_alert rq = Some id ∧
    one_row id (Checker.w_db (a_alerts a)) (Checker.w_db w))) as [Hd'|(Hsec & id & Hid & Hst & Hrows)].
  { destruct Hd as [Hd|]; [right|by left]. unfold named_alert. cbn [q_token alert_request_of] in Hd.
    destruct (Alert.VerifyUnsubscribeToken _ _ _) as [[id rcpt]|]; [|done]. destruct Hd. eauto. }
  { apply alerts_step; [done|rewrite Hd'; by apply steady_refl|]. intros o i _. left. by rewrite Hd'. }
  apply alerts_step; [done|done|]. intros o i Ho. destruct (Hrows i) as [|[-> Hrow]]; [by left|]. right.
  assert (∀ al, app_alerts a !! id = Some al → alert_owner (app_ports a) al ≠ Some o) as Hno.
  { intros al Hal Hown. apply Ho. split; [done|]. exists id. split; [done|]. exists al.
    by apply map_lookup_filter_Some. }
  split; [done|]. intros al (al0 & Hal0 & Hp)%Hrow. unfold alert_owner. rewrite Hp. by apply Hno.
Qed.

(** What a request may act for: the subject of a verified token in front of the
    protected routes, the owner of the named alert at the public one. *)
Definition acts_for (sub : option string) (rq : http) (a : app) (o : string) : Prop :=
  sub = Some o ∨ names_alert_of rq a o.
Definition public (e : endpoint) : Prop :=
  match e with EHealthz | EDocs _ | EUnsubscribe | EStub => True | _ => False end.

Lemma step_mono (acts acts' : string → Prop) a a' : (∀ o, acts o → acts' o) → step acts a a' → step acts' a a'.
Proof. intros Hsub [Hok Ht]. split; [done|]. intros o Ho. apply Ht. auto. Qed.

Lemma handler_ok e sub ps rq a :
  app_ok a → match sub with Some s => s ≠ "" | None => public e end →
  let '(a', x) := handler e sub ps rq a in step (acts_for sub rq a) a a' ∧ shows sub a x.
Proof using build_quiet cleanup_quiet describe_quiet open_quiet read_quiet close_quiet.
  intros Hok Hsub. destruct e as [|d|r|r| | | | |]; cbn [App.handler];
    try (split; [by apply step_refl|done]).
  - destruct sub as [s|]; [|done]. pose proof (portfolio_handler_ok r s ps rq a Hok Hsub) as Hp.
    destruct (in_server _ a) as [a' x]. destruct Hp as [Hp Hx]. split; [|done].
    eapply step_mono; [|exact Hp]. intros o <-. by left.
  - destruct sub as [s|]; [|done]. pose proof (alert_handler_ok r s ps rq a Hok Hsub) as Hp.
    destruct (in_alerts _ a) as [a' x]. destruct Hp as [Hp Hx]. split; [|done].
    eapply step_mono; [|exact Hp]. intros o <-. by left.
  - pose proof (unsubscribe_ok sub ps rq a Hok) as Hp.
    destruct (in_alerts _ a) as [a' x]. destruct Hp as [Hp Hx]. split; [|done].
    eapply step_mono; [|exact Hp]. intros o Ho. by right.
  - destruct sub as [s|]; [|done]. split; [|by eexists].
    apply (in_server_step _ _ a Hok (registry_quiet Registry.List)).
  - destruct sub as [s|]; [|done]. split; [|by eexists]. apply (in_server_step _ _ a Hok (exec_quiet _)).
  - destruct sub as [s|]; [|done]. split; [|by eexists].
    apply (in_server_step _ _ a Hok (registry_quiet (Registry.Get _))).
Qed.

(** ** The chain *)
Notation authenticate := (Auth.authenticate problem_err lookup_keys jwt_Parse).
Lemma authenticate_subject aconf path authorization s : authenticate aconf path authorization = inr s → s ≠ "".
Proof.
  unfold Auth.authenticate. case_bool_decide; [done|]. destruct (lookup_keys _); [|done].
  destruct (jwt_Parse _ _ _ _) as [[sub|]|]; [|done..]. case_bool_decide; [done|]. congruence.
Qed.

(** The subject of the token that verifies, in front of the protected routes. *)
Definition verified (rq : http) : option string :=
  if under api (h_path rq) then
    match authenticate (Auth_ conf) (h_path rq) (h_authorization rq) with inr s => Some s | inl _ => None end
  else None.

(** The stack: public routes, the auth middleware, and the routes behind it. *)
Definition first_routes : list entry := Entry GET "/healthz" EHealthz :: docs_routes.
Definition prefixed (l : list entry) : list entry :=
  (λ e, Entry (e_method e) (api +:+ e_pattern e) (e_endpoint e)) <$> l.
Definition later_routes (pool : bool) : list entry :=
  if pool then prefixed portfolio_routes ++ prefixed alert_routes ++ public_alert_routes ++ prefixed strategy_routes
  else prefixed stub_portfolio_routes ++ prefixed stub_strategy_routes.
Lemma stack_split pool : stack pool = map Route first_routes ++ Use api :: map Route (later_routes pool).
Proof. by destruct pool. Qed.
Lemma later_protected pool e :
  e ∈ later_routes pool → (∃ p, e_pattern e = api +:+ String slash p) ∨ public (e_endpoint e).
Proof.
  assert (Forall (λ e, (∃ p, e_pattern e = api +:+ String slash p) ∨ public (e_endpoint e)) (later_routes pool)) as Hall.
  { destruct pool; repeat (apply Forall_cons; split); try apply Forall_nil; try done;
      try (left; eexists; reflexivity); by right. }
  exact (proj1 (Forall_forall _ _) Hall e).
Qed.

Lemma run_routes (l : list entry) rest sub rq a :
  (∃ e ps, e ∈ l ∧ match_path (e_pattern e) (h_path rq) = Some ps ∧
     run_layers (map Route l ++ rest) sub rq a = handler (e_endpoint e) sub ps rq a) ∨
  run_layers (map Route l ++ rest) sub rq a = run_layers rest sub rq a.
Proof.
  induction l as [|e l IH]; [by right|]. cbn [map Datatypes.app App.run_layers].
  assert (∀ x, (∃ e0 ps, e0 ∈ l ∧ match_path (e_pattern e0) (h_path rq) = Some ps ∧ x = handler (e_endpoint e0) sub ps rq a) →
    (∃ e0 ps, e0 ∈ e :: l ∧ match_path (e_pattern e0) (h_path rq) = Some ps ∧ x = handler (e_endpoint e0) sub ps rq a)) as Hcons.
  { intros x (e0 & ps & He & Hm). exists e0, ps. split; [by right|done]. }
  destruct (serves _ _); [|by destruct IH; auto].
  destruct (match_path (e_pattern e) (h_path rq)) as [ps|] eqn:Hm; [|by destruct IH; auto].
  left. exists e, ps. split; [by left|done].
Qed.

Lemma first_public e : e ∈ first_routes → ∀ sub ps rq a,
  (handler (e_endpoint e) sub ps rq a).1 = a ∧ ∀ sub', shows sub' a (handler (e_endpoint e) sub ps rq a).2.
Proof.
  intros He. assert (match e_endpoint e with EHealthz | EDocs _ => True | _ => False end) as Hp.
  { revert e He. apply (proj1 (Forall_forall _ _)). repeat constructor. }
  intros sub ps rq a. by destruct (e_endpoint e).
Qed.

(** One request. *)
Lemma stack_ok rq a :
  app_ok a →
  let '(a', x) := run_layers (stack (Pool conf)) None rq a in
  step (acts_for (verified rq) rq a) a a' ∧ shows (verified rq) a x.
Proof using build_quiet cleanup_quiet describe_quiet open_quiet read_quiet close_quiet.
  intros Hok. rewrite stack_split.
  destruct (run_routes first_routes (Use api :: map Route (later_routes (Pool conf))) None rq a)
    as [(e & ps & He & _ & ->)| ->].
  { destruct (first_public e He None ps rq a) as [Ha Hx]. destruct (handler _ _ _ _ _) as [a' x]. cbn in Ha, Hx.
    subst a'. split; [by apply step_refl|apply Hx]. }
  cbn [App.run_layers]. unfold verified. rewrite <-(app_nil_r (map Route (later_routes _))).
  destruct (under api (h_path rq)) eqn:Hu.
  - destruct (authenticate _ _ _) as [w|s] eqn:Hs; [split; [by apply step_refl|done]|].
    apply authenticate_subject in Hs.
    destruct (run_routes (later_routes (Pool conf)) [] (Some s) rq a) as [(e & ps & He & _ & ->)| ->];
      [by apply handler_ok|]. split; [by apply step_refl|done].
  - destruct (run_routes (later_routes (Pool conf)) [] None rq a) as [(e & ps & He & Hm & ->)| ->];
      [|split; [by apply step_refl|done]].
    apply handler_ok; [done|]. destruct (later_protected _ _ He) as [[p Hp]|]; [|done].
    rewrite Hp in Hm. by rewrite (match_under api p (h_path rq)) in Hu.
Qed.

(** ** Sequences of requests *)
Fixpoint all_show (rqs : list (http * string)) (a : app) : Prop :=
  match rqs with
  | [] => True
  | (rq, fresh_id) :: rqs =>
    let '(a', x) := handle rq fresh_id a in shows (verified rq) a (an_reply x) ∧ all_show rqs a'
  end.

(** C1: end-to-end isolation.  Over any sequence of HTTP requests, through the
    middlewares and the routing table, whatever statements fail: what a user owns
    - portfolios and alerts - is afterwards as it was unless some request carried
    a token that verifies as that user, or, at the public endpoint, the signed
    token of one of the user's alerts; and every reply shows only portfolios and
    alerts of the subject its request was verified as, none without one.  The
    schema of both tables is kept. *)
Theorem requests_isolated (rqs : list (http * string)) (a : app) :
  app_ok a →
  app_ok (handle_all rqs a).1 ∧ all_show rqs a ∧
  ∀ o, (∀ rq, rq ∈ rqs.*1 → verified rq ≠ Some o ∧ ¬ names_alert_of rq a o) →
    tenant o (handle_all rqs a).1 = tenant o a.
Proof using build_quiet cleanup_quiet describe_quiet open_quiet read_quiet close_quiet.
  revert a. induction rqs as [|[rq id] rqs IH]; intros a Hok; [done|].
  cbn [App.handle_all all_show]. unfold App.handle. pose proof (stack_ok rq a Hok) as Hs.
  destruct (run_layers _ _ _ _) as [a1 x]. destruct Hs as [[Hok1 Ht1] Hx].
  destruct (IH a1 Hok1) as (Hok2 & Hshow & Ht2). destruct (handle_all rqs a1) as [a2 xs]. cbn in *.
  split_and!; [done|done|done|]. intros o Ho.
  assert (tenant o a1 = tenant o a) as Heq.
  { apply Ht1. intros [Hv|Hn]; by destruct (Ho rq) as [? ?]; [left|..]. }
  rewrite <-Heq. apply Ht2. intros rq' Hrq'. destruct (Ho rq') as [Hv Hn]; [by right|]. split; [done|].
  unfold names_alert_of. by rewrite Heq.
Qed.
End laws.
