(* ===== verification/Contract.v ===== *)
(** The enumerations of the API contract (src/openapi/openapi.gen.go) and the
    values the server puts in the fields they type: the contract, the checks of the
    schema and the tables of the readers are written down separately. *)
From S2P Require Import Prelude GoStrings GoTime Types Store StoreLaws SnapDb SnapReturns Impact SnapLaws.
From S2P Require Web Strategies Alert AlertApi AlertApiLaws.

(** A [Valid] method: the switch over the members. *)
Definition member (members : list string) (e : string) : bool := existsb (λ m, bool_decide (e = m)) members.

Definition AlertFrequency_Valid : string → bool := member
  ["daily"; "monthly"; "scheduled_run"; "weekly"].
Definition HoldingsImpactPeriodPeriod_Valid : string → bool := member
  ["inception"; "1y"; "3y"; "5y"; "ytd"].
Definition MetricFormat_Valid : string → bool := member
  ["number"; "percent"].
Definition PortfolioPerformanceResolution_Valid : string → bool := member
  ["daily"; "monthly"; "weekly"].
Definition PortfolioStatus_Valid : string → bool := member
  ["failed"; "pending"; "ready"; "running"].
Definition RecalculatingResponseStatus_Valid : string → bool := member
  ["recalculating"].
Definition ReturnRowKind_Valid : string → bool := member
  ["benchmark"; "benchmark-tax"; "portfolio"; "portfolio-tax"].
Definition RunStatus_Valid : string → bool := member
  ["failed"; "queued"; "running"; "success"].
Definition StrategyInstallState_Valid : string → bool := member
  ["failed"; "installing"; "pending"; "ready"].
Definition TransactionType_Valid : string → bool := member
  ["buy"; "deposit"; "dividend"; "fee"; "interest"; "journal"; "sell"; "split"; "withdrawal"].
Definition GetPortfolioMetricsParamsWindow_Valid : string → bool := member
  ["mtd"; "10yr"; "1yr"; "3yr"; "5yr"; "since_inception"; "wtd"; "ytd"].
Definition GetPortfolioMetricsParamsMetric_Valid : string → bool := member
  ["ActiveReturn"; "AfterTaxCAGR"; "AfterTaxTWRR"; "Alpha"; "AverageHoldingPeriod"; "AverageLoss";
   "AverageMAE"; "AverageMFE"; "AverageWin"; "AvgDrawdown"; "AvgDrawdownDays"; "AvgUlcerIndex";
   "BenchmarkAfterTaxCAGR"; "BenchmarkAfterTaxTWRR"; "BenchmarkAvgUlcerIndex"; "BenchmarkCAGR";
   "BenchmarkCalmar"; "BenchmarkDownsideDeviation"; "BenchmarkExcessKurtosis"; "BenchmarkMWRR";
   "BenchmarkMaxDrawdown"; "BenchmarkMedianUlcerIndex"; "BenchmarkP90UlcerIndex"; "BenchmarkSharpe";
   "BenchmarkSkewness"; "BenchmarkSortino"; "BenchmarkStdDev"; "BenchmarkTWRR"; "BenchmarkUlcerIndex";
   "BenchmarkValueAtRisk"; "Beta"; "CAGR"; "CVaR"; "Calmar"; "ConsecutiveLosses"; "ConsecutiveWins";
   "DownsideCaptureRatio"; "DownsideDeviation"; "DynamicWithdrawalRate"; "EdgeRatio"; "ExcessKurtosis";
   "Exposure"; "GainLossRatio"; "GainToPainRatio"; "InformationRatio"; "KRatio"; "KellerRatio";
   "KellyCriterion"; "LTCG"; "LongProfitFactor"; "LongWinRate"; "MWRR"; "MaxDrawdown"; "MedianMAE";
   "MedianMFE"; "MedianUlcerIndex"; "NPositivePeriods"; "NonQualifiedIncome"; "OmegaRatio";
   "P90UlcerIndex"; "PerpetualWithdrawalRate"; "ProbabilisticSharpe"; "ProfitFactor"; "QualifiedDividends";
   "RSquared"; "RecoveryFactor"; "STCG"; "SafeWithdrawalRate"; "Sharpe"; "ShortProfitFactor";
   "ShortWinRate"; "Skewness"; "SmartSharpe"; "SmartSortino"; "Sortino"; "StdDev"; "TWRR"; "TailRatio";
   "TaxCostRatio"; "TaxDrag"; "TrackingError"; "TradeCaptureRatio"; "TradeGainLossRatio"; "Treynor";
   "Turnover"; "UlcerIndex"; "UnrealizedLTCG"; "UnrealizedSTCG"; "UpsideCaptureRatio"; "ValueAtRisk";
   "WinRate"].
Definition GetPortfolioPerformanceParamsResolution_Valid : string → bool := member
  ["daily"; "monthly"; "weekly"].

(** The texts of the constants the readers name. *)
Definition kind_text (k : ReturnRowKind) : string :=
  match k with
  | Portfolio_ => "portfolio" | Benchmark_ => "benchmark" | PortfolioTax => "portfolio-tax"
  | BenchmarkTax => "benchmark-tax"
  end.
Definition format_text (f : MetricFormat) : string :=
  match f with Percent => "percent" | Number => "number" end.

Lemma member_spec l e : member l e = bool_decide (e ∈ l).
Proof.
  unfold member. apply eq_true_iff_eq. rewrite existsb_exists, bool_decide_eq_true. split.
  - intros (m & Hm & ->%bool_decide_eq_true). by apply list_elem_of_In.
  - intros He. exists e. split; [by apply list_elem_of_In|by apply bool_decide_eq_true].
Qed.
Lemma member_sub l l' e : forallb (member l) l' = true → e ∈ l' → member l e = true.
Proof. intros Hall He. rewrite forallb_forall in Hall. by apply Hall, list_elem_of_In. Qed.
Lemma member_same l l' e :
  forallb (member l) l' = true → forallb (member l') l = true → member l e = bool_decide (e ∈ l').
Proof.
  intros H1 H2. apply eq_true_iff_eq. rewrite bool_decide_eq_true. split.
  - rewrite member_spec, bool_decide_eq_true. intros He. pose proof (member_sub _ _ _ H2 He) as Hm.
    by rewrite member_spec, bool_decide_eq_true in Hm.
  - by apply member_sub.
Qed.

(** ** Metrics *)
Definition groups (m : PortfolioMetrics) : list (option MetricGroup) :=
  [pm_Summary m; pm_Risk m; pm_Trade m; pm_Withdrawal m; pm_Tax m; pm_Advanced m].
Definition names_in (P : string → Prop) (m : PortfolioMetrics) : Prop :=
  Forall (λ o : option MetricGroup, ∀ g name, o = Some g → is_Some (g !! name) → P name) (groups m).

Lemma set_names P out c name vals : P name → names_in P out → names_in P (setMetricValue out c name vals).
Proof.
  intros Hn. unfold names_in, groups. rewrite !Forall_cons. intros (? & ? & ? & ? & ? & ? & _).
  assert (∀ o : option MetricGroup, (∀ g n, o = Some g → is_Some (g !! n) → P n) →
    ∀ g n, put name vals o = Some g → is_Some (g !! n) → P n) as Hput.
  { intros o Ho g n [= <-] [->|Hs]%lookup_insert_is_Some'; [done|]. destruct o as [g|]; [eauto|].
    destruct Hs as [x Hx]. change ((∅ : MetricGroup) !! n = Some x) in Hx. unfold MetricGroup in Hx. by rewrite lookup_empty in Hx. }
  destruct c; cbn; split_and!; eauto.
Qed.
Lemma build_names windows entries rows :
  let m := buildPortfolioMetrics windows entries rows in pm_Windows m = windows ∧ names_in (.∈ entries.*1) m.
Proof.
  cbv zeta. unfold buildPortfolioMetrics. set (P := (.∈ entries.*1)).
  assert (∀ l out, (∀ x, x ∈ l → P x.1) → pm_Windows out = windows → names_in P out →
    let m := foldl (λ out '(name, c), let vals := (λ w, rows !! (name, w)) <$> windows in
      if forallb (λ v, bool_decide (v = None)) vals then out else setMetricValue out c name vals) out l in
    pm_Windows m = windows ∧ names_in P m) as Hfold.
  { intros l. induction l as [|[name c] l IH]; intros out Hl Hw Hn; [done|]. cbn [foldl].
    assert (P name) as Hname by (apply (Hl (name, c)); by left).
    apply IH; [intros x Hx; apply Hl; by right|..]; destruct (forallb _ _); try done.
    - by destruct c.
    - by apply set_names. }
  apply Hfold; [|done|].
  - intros x Hx. apply list_elem_of_fmap. eauto.
  - unfold names_in, groups. cbn. repeat constructor; by intros ? ? [=].
Qed.
Lemma filter_windows_valid l : Forall (.∈ validWindows) (filterWindows l).
Proof.
  unfold filterWindows. match goal with |- context [foldl ?f _ _] => set (g := f) end.
  cut (∀ out, Forall (.∈ validWindows) out → Forall (.∈ validWindows) (foldl g out l)); [intros Hg; by apply Hg|].
  induction l as [|w l IH]; intros out Hout; [done|]. cbn [foldl]. apply IH. unfold g.
  destruct (bool_decide (w ∈ validWindows)) eqn:Hw; [|done]. destruct (negb _); [|done].
  apply bool_decide_eq_true in Hw. apply Forall_app. split; [done|]. by constructor.
Qed.
Lemma filter_metrics_sub l x : x ∈ filterMetrics l → x ∈ metricMeta.
Proof. destruct l; [done|]. by intros [_ ?]%list_elem_of_filter. Qed.

(** C28: the metrics endpoint keeps its contract: whatever windows and metrics a
    request names and whatever the snapshot holds, the windows of the reply are
    windows of the contract, the names of its groups are metrics of the contract
    among those asked for; and every metric of the contract is one the endpoint
    knows, in one group.  The same of the other readers: kinds of return rows,
    formats of statistics, period codes. *)
Theorem readers_keep_contract `{Driver} (db : snapdb) (windows metrics : list string) (s : list fault) :
  match (Metrics db windows metrics s).2 with
  | Ok m => Forall (λ w, GetPortfolioMetricsParamsWindow_Valid w = true) (pm_Windows m) ∧
            names_in (λ n, GetPortfolioMetricsParamsMetric_Valid n = true ∧ (metrics = [] ∨ n ∈ metrics)) m
  | Err _ => True
  end ∧
  (∀ n, GetPortfolioMetricsParamsMetric_Valid n = true ↔ ∃ c, (n, c) ∈ metricMeta) ∧ NoDup metricMeta.*1 ∧
  match (TrailingReturns db s).2 with
  | Ok rows => Forall (λ r, ReturnRowKind_Valid (kind_text (tr_Kind r)) = true) rows
  | Err _ => True
  end ∧
  (∀ f, MetricFormat_Valid (format_text f) = true) ∧
  Forall (λ x : string * string * string * MetricFormat, GetPortfolioMetricsParamsMetric_Valid x.1.1.2 = true) statisticMeta ∧
  ∀ timeline, Forall (λ w, HoldingsImpactPeriodPeriod_Valid (w_id w) = true) (buildPeriodWindows timeline).
Proof.
  assert (∀ n, GetPortfolioMetricsParamsMetric_Valid n = bool_decide (n ∈ metricMeta.*1)) as Hmeta
    by (intros n; apply member_same; vm_compute; reflexivity).
  assert (∀ w, w ∈ validWindows → GetPortfolioMetricsParamsWindow_Valid w = true) as Hwin
    by (intros w; apply member_sub; vm_compute; reflexivity).
  split_and!.
  - unfold Metrics. set (ws := match filterWindows windows with [] => _ | _ => _ end).
    assert (Forall (.∈ validWindows) ws) as Hws.
    { pose proof (filter_windows_valid windows) as Hf. subst ws. destruct (filterWindows windows); [|done].
      repeat constructor. }
    unfold mbind, rd_bind. destruct (queryMetricRows _ _ _ s) as [s1 [rows|e]]; [|done]. cbn [mret rd_ret fst snd].
    destruct (build_names ws (filterMetrics metrics) rows) as [-> Hn]. split; [by eapply Forall_impl|].
    eapply Forall_impl; [exact Hn|]. intros o Ho g name Hg Hs. specialize (Ho g name Hg Hs).
    apply list_elem_of_fmap in Ho as ([n c] & -> & Hin). cbn [fst]. split.
    + rewrite Hmeta. apply bool_decide_eq_true, list_elem_of_fmap. exists (n, c). split; [done|].
      by eapply filter_metrics_sub.
    + destruct metrics as [|m l]; [by left|right]. by apply list_elem_of_filter in Hin as [? _].
  - intros n. rewrite Hmeta, bool_decide_eq_true, list_elem_of_fmap. split.
    + intros ([n' c] & -> & Hin). by exists c.
    + intros [c Hin]. by exists (n, c).
  - apply (bool_decide_eq_true_1 _). vm_compute. reflexivity.
  - destruct (TrailingReturns db s) as [s' [rows|e]]; [|done]. apply Forall_forall. intros r _. by destruct (tr_Kind r).
  - by intros [].
  - apply Forall_forall. intros x Hx. apply (member_sub _ (statisticMeta.*1.*1.*2)); [vm_compute; reflexivity|].
    rewrite <-!list_fmap_compose. apply list_elem_of_fmap. by exists x.
  - intros timeline. apply Forall_forall. intros w Hw.
    apply (member_sub _ ["inception"; "5y"; "3y"; "1y"; "ytd"]); [vm_compute; reflexivity|].
    eapply elem_of_sublist; [by apply list_elem_of_fmap_2|apply windows_within].
Qed.

(** C29: the enumerated fields of stored rows keep the contract: under the
    invariants of the tables every portfolio, run, alert and strategy the API
    renders has a status, frequency or install state of the contract, and the
    schema's enumerations are the contract's. *)
Theorem stored_rows_keep_contract `{MapRange} (wall : instant → instant) (unmarshal_describe : string → result Describe)
    (d : Alert.alertdb) :
  db_inv (Alert.adb d) → AlertApiLaws.alerts_inv d →
  (∀ i p, portfolios (Alert.adb d) !! i = Some p → PortfolioStatus_Valid (Web.v_Status (Web.toView p)) = true) ∧
  (∀ i r slug latest, runs (Alert.adb d) !! i = Some r →
     RunStatus_Valid (Web.br_Status (Web.toAPIRun r slug latest)) = true) ∧
  (∀ i a, Alert.alerts d !! i = Some a → AlertFrequency_Valid (AlertApi.av_Frequency (AlertApi.toView wall a)) = true) ∧
  (∀ s, StrategyInstallState_Valid (Strategies.v_InstallState (Strategies.toView unmarshal_describe s)) = true) ∧
  (∀ e, PortfolioStatus_Valid e = bool_decide (e ∈ portfolio_status_enum)) ∧
  (∀ e, RunStatus_Valid e = bool_decide (e ∈ run_status_enum)) ∧
  (∀ e, AlertFrequency_Valid e = Alert.validFrequency e).
Proof.
  intros Hinv Ha.
  assert (∀ e, PortfolioStatus_Valid e = bool_decide (e ∈ portfolio_status_enum)) as Hp
    by (intros e; by apply member_same).
  assert (∀ e, RunStatus_Valid e = bool_decide (e ∈ run_status_enum)) as Hr by (intros e; by apply member_same).
  assert (∀ e, AlertFrequency_Valid e = Alert.validFrequency e) as Hf by (intros e; by apply member_same).
  split_and!; [..|done|done|done].
  - intros i p Hi. rewrite Hp. apply bool_decide_eq_true. by eapply inv_pstatus.
  - intros i r slug latest Hi. rewrite Hr. apply bool_decide_eq_true. by eapply inv_rstatus.
  - intros i a Hi. rewrite Hf. by eapply AlertApiLaws.inv_frequency.
  - intros s. cbn. by destruct (DeriveInstallState s).
Qed.
