(* ===== verification/AppDemo.v ===== *)
(** The application at work: a matcher that keeps the documented rules, a route
    with its parameters, and two tenants of one server. *)
From S2P Require Import Prelude GoStrings GoTime Utf8 Types Prog Store StoreLaws Web.
From S2P Require Import SnapDb ParamsLaws Routes Server ServerDemo AlertApi AlertApiLaws AlertDemo Router App AppLaws.
From S2P Require Contract.
From S2P Require Path Auth Alert Checker Registry Strategies Handler Email Dispatcher.

(** ** Matching by the segments between slashes *)
Definition elements (path : string) : list string := tail (split_byte path slash).
Definition match_elements (pattern path : string) : option (list (string * string)) :=
  match_segs (segments pattern) (elements path).
Fixpoint match_prefix (pat : list seg) (l : list string) : bool :=
  match pat, l with
  | [], _ => true
  | Lit s :: pat, v :: l => Auth.EqualFold s v && match_prefix pat l
  | Par _ :: pat, _ :: l => match_prefix pat l
  | _, [] => false
  end.

Lemma split_app_slash a b : split_byte (a +:+ String slash b) slash = split_byte a slash ++ split_byte b slash.
Proof.
  induction a as [|c a IH]; [done|]. str_simpl; cbn [split_byte].
  case_decide; [by rewrite IH|]. rewrite IH. pose proof (split_byte_ne a slash). by destruct (split_byte a slash).
Qed.
Lemma split_plain s : plain s → split_byte s slash = [s].
Proof.
  intros [_ Hs]. induction s as [|c s IH]; [done|]. cbn in *. destruct (decide (c = slash)); [done|].
  rewrite IH; [done|]. by destruct (index_byte s slash).
Qed.
Lemma split_path_of s l : plain s → Forall plain l → split_byte (s +:+ path_of l) slash = s :: l.
Proof.
  intros Hs Hl. revert s Hs. induction Hl as [|s' l Hs' Hl IH]; intros s Hs.
  - assert (s +:+ path_of [] = s) as -> by (apply bytes_of_inj; by rewrite bytes_of_app, app_nil_r). by apply split_plain.
  - change (path_of (s' :: l)) with (String slash (s' +:+ path_of l)).
    by rewrite split_app_slash, split_plain, IH by done.
Qed.
Lemma elements_path_of l : Forall plain l → elements (path_of l) = l.
Proof.
  intros [|s l' Hs Hl]; [done|]. unfold elements.
  change (path_of (s :: l')) with ("" +:+ String slash (s +:+ path_of l')).
  by rewrite split_app_slash, split_path_of by done.
Qed.
Lemma match_prefix_app p q l : is_Some (match_segs (p ++ q) l) → match_prefix p l = true.
Proof.
  revert l. induction p as [|[s|n] p IH]; intros [|v l]; cbn; try done; try by intros [].
  - destruct (Auth.EqualFold s v); [apply IH|by intros []].
  - intros [ps Hps]. apply IH. destruct (match_segs (p ++ q) l); [eauto|done].
Qed.
#[local] Program Instance by_elements : Matcher := {
  match_path := match_elements;
  under prefix path := match_prefix (segments prefix) (elements path);
}.
Next Obligation. intros pattern l Hl. unfold match_elements. by rewrite elements_path_of. Qed.
Next Obligation.
  intros c d l Hl.
  change (match_prefix (segments api) (elements (path_of (c :: d :: l))) = Auth.EqualFold "api" c && Auth.EqualFold "v3" d).
  rewrite elements_path_of by done. change (segments api) with [Lit "api"; Lit "v3"]. cbn [match_prefix].
  by rewrite andb_true_r.
Qed.
Next Obligation.
  intros prefix pattern path. unfold match_elements, segments. rewrite split_app_slash.
  pose proof (split_byte_ne prefix slash). destruct (split_byte prefix slash) as [|x xs]; [done|].
  cbn. rewrite fmap_app. apply match_prefix_app.
Qed.

(** A run of a portfolio (with [GET] and with [HEAD]), and one whose parameter
    is another route's name. *)
Lemma routes_reached_witness :
  first_route (routes_of (stack true)) GET "/api/v3/portfolios/adm/runs/42" =
    Some (EPortfolio RGetRun, [("slug", "adm"); ("runId", "42")]) ∧
  (∃ ps, first_route (routes_of (stack true)) GET "/api/v3/strategies/Describe" = Some (EDescribe, ps)) ∧
  first_route (routes_of (stack true)) HEAD "/api/v3/portfolios/adm/runs/42" =
    Some (EPortfolio RGetRun, [("slug", "adm"); ("runId", "42")]).
Proof.
  split; [|split].
  - apply (routes_reached (Entry GET "/api/v3/portfolios/:slug/runs/:runId" (EPortfolio RGetRun)) GET ["adm"; "42"]
      ["api"; "v3"; "portfolios"; "adm"; "runs"; "42"]); [|reflexivity|by repeat constructor|vm_compute; reflexivity].
    apply list_elem_of_In. vm_compute. tauto.
  - apply (routes_reached (Entry GET "/api/v3/strategies/:shortCode" EStrategy) GET ["Describe"]
      ["api"; "v3"; "strategies"; "Describe"] [("shortCode", "Describe")]);
      [|reflexivity|by repeat constructor|vm_compute; reflexivity].
    apply list_elem_of_In. vm_compute. tauto.
  - apply (routes_reached (Entry GET "/api/v3/portfolios/:slug/runs/:runId" (EPortfolio RGetRun)) HEAD ["adm"; "42"]
      ["api"; "v3"; "portfolios"; "adm"; "runs"; "42"]); [|reflexivity|by repeat constructor|vm_compute; reflexivity].
    apply list_elem_of_In. vm_compute. tauto.
Defined.

(** ** Two tenants *)
#[local] Existing Instances canonical_range ascii_tables plain_driver demo_builder demo_snapshots.
#[local] Existing Instances Alert.eta_alertdb Checker.eta_world.

(** The portfolio of [auth0|a] with a daily alert on it. *)
Definition demo_app : app :=
  {| a_server := demo_world demo_pinned demo_db;
     a_alerts := demo <| Checker.w_db := Checker.w_db demo <| Alert.adb := server_db (demo_world demo_pinned demo_db) |> |> |}.
Lemma demo_app_ok : app_ok demo_app.
Proof.
  assert (db_inv (app_db demo_app)) as Hinv by (by apply demo_world_ok).
  split; [done|]. split; [done|]. destruct demo_inv as [H1 H2 H3 _ H5]. split.
  - exact H1.
  - intros i al Hal. cbn in Hal. apply lookup_singleton_Some in Hal as [_ <-]. exists demo_pinned. vm_compute. reflexivity.
  - exact H3.
  - exact (db_ports _ Hinv).
  - exact H5.
Qed.

Definition app_config : Config :=
  {| Auth_ := Auth.demo_config; Pool := true; Handler_ := demo_handler; AlertChecker := false;
     UnsubscribeSecret := "s3cret" |}.
Definition demo_keys (_ : string) : result () := Ok ().
(** Tokens of two users. *)
Definition app_jwt (_ : unit) (_ _ token : string) : result (option string) :=
  if bool_decide (token = "of-a") then Ok (Some "auth0|a")
  else if bool_decide (token = "of-b") then Ok (Some "auth0|b") else Err (opaque_err "token expired").
Definition demo_http (m : method) (path authorization : string) : http :=
  {| h_method := m; h_path := path; h_authorization := authorization; h_request_id := "r1";
     h_query := {["token" := "bm90IGEgdG9rZW4"]}; h_body := "" |}.

(** What the codecs do does not matter here. *)
Notation with_codecs f := (f (λ _, None) (λ _, None) (λ _, None) demo_id (λ _, Err (opaque_err "no uuid")) (λ s, s) (λ _, "0")
  demo_unmarshal demo_describe no_create demo_patch demo_raw no_upgrade (λ _, None)
  (λ _, Err (opaque_err "bad json")) (λ _, Err (opaque_err "bad json")) (λ t, t) (λ _ _, Ok "") "" demo_checker
  (λ _, Ok "") (λ _, Ok 200) (λ _, None) (λ _, None) _ demo_keys app_jwt (λ _, 404) app_config).

(** A stranger, another user, an expired token and a made-up unsubscribe link. *)
Definition intrusions : list (http * string) :=
  [(demo_http DELETE "/api/v3/portfolios/adm-standard-k1gd" "", "f1");
   (demo_http DELETE "/api/v3/portfolios/adm-standard-k1gd" "Bearer of-b", "f2");
   (demo_http GET "/api/v3/portfolios/adm-standard-k1gd/alerts" "Bearer expired", "f3");
   (demo_http GET "/api/alerts/unsubscribe" "Bearer of-a", "f4");
   (demo_http GET "/healthz" "", "f5")].
Definition reply_status {out} (x : @answer out) : Z := (an_log x).2.

Lemma requests_isolated_witness :
  tenant "auth0|a" (with_codecs handle_all intrusions demo_app).1 = tenant "auth0|a" demo_app ∧
  map reply_status (with_codecs handle_all intrusions demo_app).2 = [401; 404; 401; 400; 200] ∧
  (* the owner's own request *)
  (tenant "auth0|a" (with_codecs handle_all [(demo_http DELETE "/api/v3/portfolios/adm-standard-k1gd" "Bearer of-a", "")]
     demo_app).1) = (∅, ∅).
Proof.
  split; [|split; vm_compute; reflexivity].
  refine (proj2 (proj2 (with_codecs requests_isolated _ _ _ _ _ _ intrusions demo_app demo_app_ok)) "auth0|a" _).
  1-6: intros; intros w Hw; split; done.
  apply Forall_forall. repeat (apply Forall_cons; split); [..|by apply Forall_nil].
  all: split; [vm_compute; congruence|]; intros (_ & id & Hn & _); vm_compute in Hn; congruence.
Defined.

(** The health check is logged like every other request. *)
Lemma healthz_is_logged :
  an_log (with_codecs handle (demo_http GET "/healthz" "") "f" demo_app).2 = (Auth.LInfo, 200).
Proof. reflexivity. Qed.

(** The rows of that server as the contract has them. *)
Lemma stored_rows_keep_contract_witness :
  Contract.PortfolioStatus_Valid (v_Status (Web.toView demo_pinned)) = true ∧
  Contract.AlertFrequency_Valid (av_Frequency (AlertApi.toView (λ t, t) daily)) = true.
Proof.
  destruct (Contract.stored_rows_keep_contract (λ t, t) demo_describe (Checker.w_db (a_alerts demo_app))
    (proj1 demo_app_ok) (proj2 (proj2 demo_app_ok))) as (Hp & _ & Ha & _).
  split; [apply (Hp 1%N)|apply (Ha 7%N)]; vm_compute; reflexivity.
Defined.
